(* ===== verification/_CoqProject ===== *)
-Q . S2P
Prelude.v
Machine.v
PpuThread.v
PpuInterpreter.v
PpuControl.v
PpuMemory.v
PpuDecode.v
PpuExec.v
PpuArith.v
PpuLoadStore.v
PpuTransfer.v
SharedMutex.v
Lv2Queue.v
Lv2Sync.v
Lv2Semaphore.v
Lv2RwLock.v
Lv2EventFlag.v
Lv2EventQueue.v
Lv2Mutex.v
Lv2MutexInv.v
Psf.v
