(* ===== verification/Prelude.v ===== *)
(** * Verification of parts of the ARMSX3 emulator core

    ARMSX3 (a fork of RPCS3) runs PlayStation 3 programs on a host computer.
    The guest's main processor, the PPU, is emulated one thread per
    [ppu_thread] object; guest code reaches the emulated kernel, LV2, through
    system calls, and the kernel's synchronization objects put threads to sleep
    and wake them.  This development models four parts of the core and proves
    them correct: the integer side of the PPU interpreter, from the decoder to
    the execution loop; the mutex of the host program; the wait queues, locks
    and events of LV2, whose critical sections that mutex guards; and the
    loader of the system files that describe games and saves.

    ** The PPU interpreter (src/rpcs3/Emu/Cell)

    - [PpuThread]: the fields of an instruction word and [ppu_rotate_mask]
      (PPUOpcodes.h), the registers of [ppu_thread] (PPUThread.h) and the
      big-endian accesses to guest memory (Emu/Memory/vm.h).  Registers are
      [Z] within their width, memory is a function from addresses to bytes.
    - [PpuInterpreter], [PpuControl], [PpuMemory]: one definition per
      instruction handler of PPUInterpreter.cpp, under its name there:
      arithmetic, logic, rotates and shifts; branches, traps, system calls,
      condition and special registers; loads and stores.  An exception is
      [None], the ways to leave a handler are the type [outcome].
    - [PpuDecode]: the opcode table of PPUOpcodes.h, the loops that fill the
      lookup table of 2^17 entries, and the interpreter's decoder.
    - [PpuExec]: fetch, decode, execute, and chains of handlers; the invariant
      that all registers stay within their width for any program.
    - [PpuArith], [PpuLoadStore], [PpuTransfer]: what the handlers compute.
      Carry chains give exact 128-bit sums, OV is signed overflow, products and
      quotients are exact, shifts divide, rotates select the bits of their
      mask; stores and loads round-trip, the reservation check of
      [ppu_feed_data] agrees with a byte-wise reference, the string
      instructions agree with each other; CR and XER transfers are inverse to
      each other, and calls return.

    ** Transition systems

    - [Machine]: machines that interleave the steps of threads, their reachable
      states, the table of program points and the number of threads at points
      of a kind.  All concurrent components are instances of the class.

    ** The host mutex (src/Utilities)

    - [SharedMutex]: the reader-writer lock of mutex.h and mutex.cpp, one
      32-bit word.  Each atomic operation of lock, unlock, their shared, try,
      upgrade and downgrade forms and of lock_unlock is a step.  Theorems:
      mutual exclusion, the word counts what its fields say without overflow,
      no lost wake-up, and [lock_unlock] outlasts the section it found.

    ** The LV2 kernel objects (src/rpcs3/Emu/Cell/lv2)

    - [Lv2Queue]: the linked list of waiting threads of sys_sync.h ([emplace],
      [schedule], [unqueue]) on a heap of [next_cpu] pointers; it refines
      operations on plain lists and wakes threads in the promised order.
    - [Lv2Sync]: error codes and what the objects share.
    - [Lv2Semaphore] (sys_semaphore.cpp), [Lv2RwLock] (sys_rwlock.cpp),
      [Lv2EventFlag] (sys_event_flag.cpp): every atomic operation and every
      critical section of a call is one step of a thread, and the machine
      interleaves the steps of any number of threads, time-outs and stops for
      a savestate included.  Theorems: the semaphore's invariant, its
      refinement of an abstract counting semaphore, and progress of its
      critical sections; mutual exclusion of the lock, no lost wake-up, and a
      reachable state in which a timed-out writer loops; for the event flag, no
      lost wake-up, the result of a wait, the refinement of [set] to serving
      the waiters one by one, and a reachable state in which a repeated attempt
      of [set] wakes a thread that it does not serve.
    - [Lv2EventQueue] (sys_event.cpp): a queue of events with its ports, guest
      and host threads that send, and guest threads that receive.  Theorems:
      exactly-once delivery in order, no lost wake-up and no overrun of a
      buffer, protection of the ports in use while the queue exists, and a run
      that accesses a freed port when it does not.
    - [Lv2Mutex], [Lv2MutexInv] (sys_mutex.h, sys_mutex.cpp, sys_cond.cpp): the
      machine of a mutex with any number of condition variables, and its
      invariant.  Waiters move from the queue of a condition variable to that
      of the mutex.  Theorems: ownership and recursion depth, no lost wake-up,
      and that [sys_cond_signal_all] ends and moves the waiters in order.

    ** System files (src/rpcs3/Loader)

    - [Psf]: the format PSF of PSF.h and PSF.cpp on byte streams (the
      [container_stream] of src/Utilities/File.h).  Theorems: what
      [save_object] writes [load] reads back, whatever a file contains [load]
      gives a well-formed map or an error, and the one exception, a file that
      runs into an [ensure].

    ** Conventions and bounds

    Unsigned [w]-bit values are [Z] in [[0, 2^w)], conversions and wrap-around
    are [uint] and [sint] below.  Loops over a linked list carry a fuel of one
    more than the number of threads; the theorems show that it is enough.  The
    execution loop takes the number of instructions to run as an argument and
    its theorem holds for all of them.  Loops of the LV2 objects
    that run inside a critical section while other threads can observe the
    object are steps of the machine and need no fuel.

    ** Assumptions

    Operations on [atomic_t] are atomic, and a wait on an atomic word sleeps
    only while the word has the value that was read.  A critical section of an
    object's host mutex is one step as far as only its holder sees what it
    changes, which [SharedMutex] justifies.  A guest thread is in one call at
    a time and is named by its address, which also stands for its ID; the
    callbacks of [idm::get] exclude the destruction of an object, as the lock
    of the ID manager makes them do.  Fewer than 2^16 host threads use a host
    mutex.  The users of the reader-writer lock release only read locks they
    have, and hold fewer than 2^60.

    ** Not modelled

    The floating point, vector and reservation instructions of the PPU (a
    parameter of the execution loop), the recompilers, the SPU, the graphics,
    audio, network and user interface code, the other file formats, the HLE
    modules and the other system calls.  Most of it calls the host or libraries that
    are not part of the sources; the rest is left for later work. *)
From Stdlib Require Import ZArith Lia Bool List.
From stdpp Require Import base option list numbers gmap.
Local Open Scope Z_scope.

(** * Fixed-width integers

    The emulator is written in C++ on integers of a fixed width.  A [w]-bit
    unsigned value is a [Z] in [[0, 2^w)]; [uint w] is the conversion to it
    ([static_cast<u32>] and the like, and the wrap-around of the unsigned
    operators), [sint w] the two's complement reading of it
    ([static_cast<s32>]). *)

Definition uint (w x : Z) : Z := x mod 2 ^ w.

Definition sint (w x : Z) : Z :=
  let y := x mod 2 ^ w in if y <? 2 ^ (w - 1) then y else y - 2 ^ w.

Abbreviation u8 := (uint 8).
Abbreviation u16 := (uint 16).
Abbreviation u32 := (uint 32).
Abbreviation u64 := (uint 64).
Abbreviation s8 := (sint 8).
Abbreviation s16 := (sint 16).
Abbreviation s32 := (sint 32).
Abbreviation s64 := (sint 64).

(** [~x] on a [w]-bit unsigned value. *)
Definition bnot (w x : Z) : Z := uint w (Z.lnot x).

(** [std::rotl] at width [w]. *)
Definition rotl (w x n : Z) : Z :=
  let n := n mod w in
  uint w (Z.lor (Z.shiftl x n) (Z.shiftr (uint w x) (w - n))).

(** [std::countl_zero] at width [w]. *)
Definition countl_zero (w x : Z) : Z :=
  let y := uint w x in if y =? 0 then w else w - 1 - Z.log2 y.

Definition in_uint (w x : Z) : Prop := 0 <= x < 2 ^ w.
Definition in_sint (w x : Z) : Prop := - 2 ^ (w - 1) <= x < 2 ^ (w - 1).

(** Euclidean division turned into equations, for [lia]. *)
Ltac zlia := Z.to_euclidean_division_equations; lia.

Lemma pow2_pos w : 0 <= w -> 0 < 2 ^ w.
Proof. intros; apply Z.pow_pos_nonneg; lia. Qed.

Lemma pow2_split w : 0 < w -> 2 ^ w = 2 * 2 ^ (w - 1).
Proof. intros. rewrite <- Z.pow_succ_r by lia. f_equal. lia. Qed.

Lemma uint_range w x : 0 <= w -> in_uint w (uint w x).
Proof. intros. apply Z.mod_pos_bound, pow2_pos. lia. Qed.

Lemma uint_small w x : in_uint w x -> uint w x = x.
Proof. apply Z.mod_small. Qed.

Lemma uint_uint w x : uint w (uint w x) = uint w x.
Proof. apply Zmod_mod. Qed.

Lemma uint_add_l w x y : uint w (uint w x + y) = uint w (x + y).
Proof. apply Zplus_mod_idemp_l. Qed.

Lemma uint_add_r w x y : uint w (x + uint w y) = uint w (x + y).
Proof. apply Zplus_mod_idemp_r. Qed.

Lemma uint_sub_l w x y : uint w (uint w x - y) = uint w (x - y).
Proof. apply Zminus_mod_idemp_l. Qed.

Lemma uint_sub_r w x y : uint w (x - uint w y) = uint w (x - y).
Proof. apply Zminus_mod_idemp_r. Qed.

(** Narrowing a value that was already narrowed to a larger width. *)
Lemma uint_narrow v w x : 0 <= v <= w -> uint v (uint w x) = uint v x.
Proof.
  intros H. unfold uint. apply Z.mod_mod_divide.
  exists (2 ^ (w - v)). rewrite <- Z.pow_add_r by lia. f_equal. lia.
Qed.

Lemma sint_range w x : 0 < w -> in_sint w (sint w x).
Proof.
  intros. unfold in_sint, sint. pose proof (uint_range w x ltac:(lia)) as Hr.
  unfold in_uint, uint in Hr. pose proof (pow2_split w H).
  destruct (Z.ltb_spec (x mod 2 ^ w) (2 ^ (w - 1))); lia.
Qed.

(** [sint] and [uint] differ by a multiple of [2^w]. *)
Lemma sint_mod w x : 0 < w -> exists k, sint w x = x + k * 2 ^ w.
Proof.
  intros. unfold sint. pose proof (Z.div_mod x (2 ^ w)) as E.
  pose proof (pow2_pos w ltac:(lia)).
  destruct (Z.ltb_spec (x mod 2 ^ w) (2 ^ (w - 1))).
  - exists (- (x / 2 ^ w)). lia.
  - exists (- (x / 2 ^ w) - 1). lia.
Qed.

Lemma uint_sint w x : 0 < w -> uint w (sint w x) = uint w x.
Proof. intros H. destruct (sint_mod w x H) as [k ->]. apply Z_mod_plus_full. Qed.

Lemma sint_uint w x : sint w (uint w x) = sint w x.
Proof. unfold sint, uint. rewrite Zmod_mod. reflexivity. Qed.

Lemma sint_small w x : 0 < w -> in_sint w x -> sint w x = x.
Proof.
  intros Hw H. unfold in_sint in H. pose proof (pow2_split w Hw).
  unfold sint. destruct (Z_lt_le_dec x 0).
  - assert (E : x mod 2 ^ w = x + 2 ^ w).
    { symmetry. apply Zmod_unique with (-1); lia. }
    rewrite E. destruct (Z.ltb_spec (x + 2 ^ w) (2 ^ (w - 1))); lia.
  - rewrite Z.mod_small by lia. destruct (Z.ltb_spec x (2 ^ (w - 1))); lia.
Qed.

(** On values of the width, [sint] only looks at the sign bit. *)
Lemma sint_in_uint w x :
  in_uint w x -> sint w x = if x <? 2 ^ (w - 1) then x else x - 2 ^ w.
Proof. intros H. unfold sint. rewrite Z.mod_small by apply H. reflexivity. Qed.

Lemma uint_neg w x : 0 < w -> - 2 ^ w <= x < 0 -> uint w x = x + 2 ^ w.
Proof. intros. symmetry. apply Zmod_unique with (-1); lia. Qed.

Lemma bnot_eq w x : 0 <= w -> in_uint w x -> bnot w x = 2 ^ w - 1 - x.
Proof.
  intros Hw [H1 H2]. unfold bnot, uint, Z.lnot. symmetry.
  apply Zmod_unique with (-1); lia.
Qed.

Lemma bnot_range w x : 0 <= w -> in_uint w (bnot w x).
Proof. apply uint_range. Qed.

Lemma countl_zero_range w x : 0 < w -> 0 <= countl_zero w x <= w.
Proof.
  intros Hw. unfold countl_zero. pose proof (uint_range w x ltac:(lia)) as [H1 H2].
  destruct (Z.eqb_spec (uint w x) 0); [lia|].
  pose proof (Z.log2_nonneg (uint w x)).
  assert (Z.log2 (uint w x) < w) by (apply Z.log2_lt_pow2; lia). lia.
Qed.

(** ** Bits *)

Lemma testbit_high w x i : in_uint w x -> 0 <= w <= i -> Z.testbit x i = false.
Proof.
  intros H Hi. rewrite <- (uint_small w x H). apply Z.mod_pow2_bits_high. lia.
Qed.

Lemma testbit_uint w x i :
  0 <= w -> Z.testbit (uint w x) i = (i <? w) && Z.testbit x i.
Proof.
  intros Hw. unfold uint. destruct (Z.ltb_spec i w) as [Hi|Hi]; simpl.
  - apply Z.mod_pow2_bits_low. lia.
  - apply Z.mod_pow2_bits_high. lia.
Qed.

Lemma in_uint_bits w x :
  0 <= w -> 0 <= x -> (forall i, w <= i -> Z.testbit x i = false) -> in_uint w x.
Proof.
  intros Hw Hx Hb. split; [lia|].
  destruct (Z.eq_dec x 0) as [->|Hn]; [apply pow2_pos; lia|].
  apply Z.log2_lt_pow2; [lia|].
  destruct (Z_lt_le_dec (Z.log2 x) w); [lia|].
  specialize (Hb (Z.log2 x) l). rewrite Z.bit_log2 in Hb by lia. discriminate.
Qed.

Lemma land_range w x y : 0 <= w -> in_uint w x -> 0 <= y -> in_uint w (Z.land x y).
Proof.
  intros Hw Hx Hy. apply in_uint_bits; [lia|apply Z.land_nonneg; left; apply Hx|].
  intros i Hi. rewrite Z.land_spec, (testbit_high w x i Hx) by lia. reflexivity.
Qed.

Lemma lor_range w x y : 0 <= w -> in_uint w x -> in_uint w y -> in_uint w (Z.lor x y).
Proof.
  intros Hw Hx Hy. apply in_uint_bits; [lia|apply Z.lor_nonneg; split; [apply Hx|apply Hy]|].
  intros i Hi. rewrite Z.lor_spec, (testbit_high w x i Hx), (testbit_high w y i Hy) by lia.
  reflexivity.
Qed.

Lemma lxor_range w x y : 0 <= w -> in_uint w x -> in_uint w y -> in_uint w (Z.lxor x y).
Proof.
  intros Hw Hx Hy. apply in_uint_bits; [lia| |].
  - apply Z.lxor_nonneg. unfold in_uint in *. split; lia.
  - intros i Hi. rewrite Z.lxor_spec, (testbit_high w x i Hx), (testbit_high w y i Hy) by lia.
    reflexivity.
Qed.

(** The bit of a rotated word: rotating left by [n] moves bit [i - n] to [i]. *)
Lemma testbit_rotl w x n i :
  0 < w -> 0 <= i < w ->
  Z.testbit (rotl w x n) i = Z.testbit x ((i - n) mod w).
Proof.
  intros Hw Hi. unfold rotl.
  pose proof (Z.mod_pos_bound n w Hw) as Hn.
  assert (Hm : (i - n) mod w = (i - n mod w) mod w) by (symmetry; apply Zminus_mod_idemp_r).
  rewrite Hm. clear Hm. set (k := n mod w) in *. clearbody k. clear n. rename k into n.
  rewrite testbit_uint by lia. replace (i <? w) with true by (symmetry; apply Z.ltb_lt; lia).
  simpl. rewrite Z.lor_spec, Z.shiftl_spec, Z.shiftr_spec, testbit_uint by lia.
  destruct (Z_lt_le_dec i n) as [Hin|Hin].
  - rewrite Z.testbit_neg_r by lia. simpl.
    replace (i + (w - n) <? w) with true by (symmetry; apply Z.ltb_lt; lia). simpl.
    f_equal. apply Zmod_unique with (-1); lia.
  - replace (i + (w - n) <? w) with false by (symmetry; apply Z.ltb_ge; lia).
    rewrite orb_false_r. f_equal. symmetry. apply Z.mod_small. lia.
Qed.

Lemma rotl_range w x n : 0 <= w -> in_uint w (rotl w x n).
Proof. apply uint_range. Qed.

Create HintDb width.
#[export] Hint Resolve uint_range sint_range bnot_range rotl_range
  land_range lor_range lxor_range : width.
#[export] Hint Extern 1 (_ <= _) => lia : width.
#[export] Hint Extern 1 (_ < _) => lia : width.

(** ** Exhaustive checks

    [forall_bits f n k] tests [f] on the [2 ^ n] numbers whose leading bits
    are [k], by bisection, so that the test evaluates in logarithmic stack. *)
Fixpoint forall_bits (f : Z -> bool) (n : nat) (k : Z) : bool :=
  match n with
  | O => f k
  | S n => if forall_bits f n (2 * k) then forall_bits f n (2 * k + 1) else false
  end.

Lemma forall_bits_spec f n : forall k, forall_bits f n k = true ->
  forall x, k * 2 ^ Z.of_nat n <= x < (k + 1) * 2 ^ Z.of_nat n -> f x = true.
Proof.
  induction n as [|n IH]; intros k H x Hx.
  - change (2 ^ Z.of_nat 0) with 1 in Hx. cbn [forall_bits] in H. by replace x with k by lia.
  - cbn [forall_bits] in H. rewrite Nat2Z.inj_succ, Z.pow_succ_r in Hx by lia.
    destruct (forall_bits f n (2 * k)) eqn:E; [|done].
    destruct (Z.lt_ge_cases x ((2 * k + 1) * 2 ^ Z.of_nat n)).
    + apply (IH (2 * k)); [done|lia].
    + apply (IH (2 * k + 1)); [done|lia].
Qed.

Lemma forall_bits_0 f n : forall_bits f n 0 = true ->
  forall x, 0 <= x < 2 ^ Z.of_nat n -> f x = true.
Proof. intros H x Hx. apply (forall_bits_spec f n 0 H). lia. Qed.

Lemma lor_shiftl_add a b n : 0 <= n -> 0 <= b < 2 ^ n -> Z.lor (Z.shiftl a n) b = a * 2 ^ n + b.
Proof.
  intros Hn Hb. rewrite <- Z.shiftl_mul_pow2 by done.
  rewrite <- (Z.add_lor_land (Z.shiftl a n) b).
  replace (Z.land (Z.shiftl a n) b) with 0; [lia|].
  symmetry. apply Z.bits_inj'. intros i Hi. rewrite Z.land_spec, Z.bits_0.
  destruct (Z.lt_ge_cases i n).
  - by rewrite Z.shiftl_spec_low.
  - rewrite (testbit_high n b i) by (unfold in_uint; lia). apply andb_false_r.
Qed.

Lemma land_ones_uint n x : 0 <= n -> Z.land x (2 ^ n - 1) = uint n x.
Proof. intros. unfold uint. rewrite <- Z.land_ones by done. by rewrite Z.ones_equiv. Qed.

Lemma uint_shiftl w n x : 0 <= n <= w -> uint w (Z.shiftl x n) = Z.shiftl (uint (w - n) x) n.
Proof.
  intros. rewrite !Z.shiftl_mul_pow2 by lia. unfold uint.
  replace (2 ^ w) with (2 ^ (w - n) * 2 ^ n) by (rewrite <- Z.pow_add_r by lia; f_equal; lia).
  apply Z.mul_mod_distr_r; apply Z.pow_nonzero; lia.
Qed.

Lemma in_uint_mono v w x : 0 <= v <= w -> in_uint v x -> in_uint w x.
Proof. intros H [H1 H2]. split; [done|]. eapply Z.lt_le_trans; [done|]. apply Z.pow_le_mono_r; lia. Qed.

Lemma shiftr_range w x n : 0 <= w -> 0 <= n -> in_uint w x -> in_uint w (Z.shiftr x n).
Proof.
  intros Hw Hn [H1 H2]. rewrite Z.shiftr_div_pow2 by done. pose proof (pow2_pos n Hn). split.
  - apply Z.div_pos; lia.
  - apply Z.div_lt_upper_bound; nia.
Qed.

Lemma shiftl_range v w x n : 0 <= n -> 0 <= v -> v + n <= w -> in_uint v x -> in_uint w (Z.shiftl x n).
Proof.
  intros Hn Hv Hw Hx. apply (in_uint_mono (v + n)); [lia|]. destruct Hx.
  rewrite Z.shiftl_mul_pow2 by done. split; [apply Z.mul_nonneg_nonneg; [done|]; apply Z.pow_nonneg; lia|].
  rewrite Z.pow_add_r by done. apply Z.mul_lt_mono_pos_r; [by apply pow2_pos|done].
Qed.

Lemma quot_range w a b : in_uint w a -> 0 <= b -> in_uint w (if b =? 0 then 0 else a / b).
Proof.
  intros [H1 H2] Hb. destruct (Z.eqb_spec b 0); [split; lia|].
  split; [apply Z.div_pos; lia|]. apply Z.div_lt_upper_bound; nia.
Qed.

Lemma if_range w (b : bool) x y : in_uint w x -> in_uint w y -> in_uint w (if b then x else y).
Proof. by destruct b. Qed.

#[export] Hint Resolve shiftr_range quot_range if_range : width.

Lemma land_pow2 x k : 0 <= k -> Z.land x (2 ^ k) = if Z.testbit x k then 2 ^ k else 0.
Proof.
  intros Hk. apply Z.bits_inj'. intros i Hi. rewrite Z.land_spec, Z.pow2_bits_eqb by lia.
  destruct (Z.eqb_spec k i) as [<-|N].
  - destruct (Z.testbit x k) eqn:E; [by rewrite Z.pow2_bits_true|by rewrite Z.bits_0].
  - rewrite andb_false_r. destruct (Z.testbit x k); [by rewrite Z.pow2_bits_false|by rewrite Z.bits_0].
Qed.

Lemma land_pow2_test x k : 0 <= k -> negb (Z.land x (2 ^ k) =? 0) = Z.testbit x k.
Proof.
  intros Hk. rewrite land_pow2 by done. destruct (Z.testbit x k); [|done].
  apply negb_true_iff, Z.eqb_neq. pose proof (pow2_pos k Hk). lia.
Qed.

Lemma some_eq {A} (a b : A) : Some a = Some b -> a = b.
Proof. congruence. Qed.

(** ** Bytes in order *)

(** [be_t] and [le_t] values as bytes, in the order of their addresses. *)
Definition be_value (bs : list Z) : Z := fold_left (fun v b => Z.shiftl v 8 + b) bs 0.
Fixpoint le_value (bs : list Z) : Z :=
  match bs with [] => 0 | b :: bs => b + Z.shiftl (le_value bs) 8 end.
Fixpoint le_bytes (n : nat) (v : Z) : list Z :=
  match n with O => [] | S n => u8 v :: le_bytes n (Z.shiftr v 8) end.
Definition be_bytes (n : nat) (v : Z) : list Z := rev (le_bytes n v).

Lemma be_value_acc bs : forall v, fold_left (fun v b => Z.shiftl v 8 + b) bs v
  = v * 2 ^ (8 * Z.of_nat (length bs)) + be_value bs.
Proof.
  induction bs as [|b bs IH]; intros v; cbn [fold_left length].
  - cbn. lia.
  - unfold be_value. cbn [fold_left]. rewrite !IH, !Z.shiftl_mul_pow2 by lia.
    rewrite Nat2Z.inj_succ. replace (8 * Z.succ (Z.of_nat (length bs))) with (8 + 8 * Z.of_nat (length bs)) by lia.
    rewrite Z.pow_add_r by lia. ring.
Qed.

Lemma be_value_cons b bs : be_value (b :: bs) = b * 2 ^ (8 * Z.of_nat (length bs)) + be_value bs.
Proof. unfold be_value at 1. cbn [fold_left]. rewrite be_value_acc. cbn. done. Qed.

Lemma be_value_range bs n : Forall (in_uint 8) bs -> length bs = n ->
  in_uint (8 * Z.of_nat n) (be_value bs).
Proof.
  intros H <-. induction H as [|b bs Hb H IH]; [split; cbn; lia|].
  rewrite be_value_cons. cbn [length]. rewrite Nat2Z.inj_succ.
  pose proof (pow2_pos (8 * Z.of_nat (length bs)) ltac:(lia)). destruct IH, Hb. split; [nia|].
  replace (8 * Z.succ (Z.of_nat (length bs))) with (8 + 8 * Z.of_nat (length bs)) by lia.
  rewrite Z.pow_add_r by lia. nia.
Qed.

Lemma le_value_rev bs : le_value bs = be_value (rev bs).
Proof.
  induction bs as [|b bs IH]; [done|]. cbn [le_value rev].
  unfold be_value. rewrite fold_left_app. cbn [fold_left]. fold (be_value (rev bs)). rewrite IH. lia.
Qed.

Lemma le_value_range bs n : Forall (in_uint 8) bs -> length bs = n ->
  in_uint (8 * Z.of_nat n) (le_value bs).
Proof.
  intros H <-. rewrite le_value_rev. apply be_value_range; [|apply length_rev].
  by apply Forall_rev.
Qed.

Lemma le_bytes_range n : forall v, Forall (in_uint 8) (le_bytes n v).
Proof. induction n; intros; cbn; constructor; [apply uint_range; lia|auto]. Qed.

Lemma be_bytes_range n v : Forall (in_uint 8) (be_bytes n v).
Proof. apply Forall_rev, le_bytes_range. Qed.

#[export] Hint Resolve be_bytes_range le_bytes_range : width.

Lemma le_bytes_length n v : length (le_bytes n v) = n.
Proof. revert v. induction n; intros; cbn; [done|]. by f_equal. Qed.

Lemma be_bytes_length n v : length (be_bytes n v) = n.
Proof. unfold be_bytes. rewrite length_rev. apply le_bytes_length. Qed.

Lemma le_value_bytes n : forall v, le_value (le_bytes n v) = uint (8 * Z.of_nat n) v.
Proof.
  induction n as [|n IH]; intros v; cbn [le_bytes le_value].
  - unfold uint. cbn. by rewrite Z.mod_1_r.
  - rewrite IH, Z.shiftl_mul_pow2, Z.shiftr_div_pow2 by lia. unfold uint.
    replace (8 * Z.of_nat (S n)) with (8 + 8 * Z.of_nat n) by lia.
    rewrite Z.pow_add_r by lia. rewrite Z.rem_mul_r by (try apply Z.pow_nonzero; lia). lia.
Qed.

Lemma be_value_bytes n v : be_value (be_bytes n v) = uint (8 * Z.of_nat n) v.
Proof. unfold be_bytes. by rewrite <- le_value_bytes, le_value_rev. Qed.
