(* ===== verification/Machine.v ===== *)
(** Transition systems: machines that interleave the steps of threads, their
    reachable states, and the table of the threads' program points with the
    number of threads at points of a kind. *)
From Stdlib Require Import ZArith Lia Bool List.
From stdpp Require Import base option list numbers gmap.
From S2P Require Import Prelude.
Local Open Scope Z_scope.

(** ** Transition systems

    An object and the threads that use it form a machine: an action names the
    thread that moves and what it does, and [move] gives the next state when
    the action is enabled.  A step is one access to shared memory that other
    threads can interleave with: an atomic operation, or a critical section
    of a host mutex as far as only its holder sees what it changes. *)
Class Machine (St Act : Type) := move : Act -> St -> option St.

Inductive reachable {St Act : Type} {M : Machine St Act} (init : St -> Prop) : St -> Prop :=
  | reach_init s : init s -> reachable init s
  | reach_step a s s' : reachable init s -> move a s = Some s' -> reachable init s'.

Lemma reachable_ind_inv {St Act} {M : Machine St Act} (init P : St -> Prop) :
  (forall s, init s -> P s) ->
  (forall a s s', P s -> move a s = Some s' -> P s') ->
  forall s, reachable init s -> P s.
Proof. intros H0 H1 s R. induction R; eauto. Qed.

(** A run of a list of actions. *)
Fixpoint moves {St Act} {M : Machine St Act} (acts : list Act) (s : St) : option St :=
  match acts with
  | [] => Some s
  | a :: acts' => s' ← move a s; moves acts' s'
  end.

Lemma moves_reachable {St Act} {M : Machine St Act} (init : St -> Prop) acts s s' :
  reachable init s -> moves acts s = Some s' -> reachable init s'.
Proof.
  revert s. induction acts as [|a acts IH]; intros s R E; cbn in E; [by simplify_eq|].
  destruct (move a s) as [s1|] eqn:E1; [|done]. eapply IH; [|exact E]. by eapply reach_step.
Qed.

(** ** Program points

    Where each thread is; a thread that is not in the table is in no call. *)
Definition at_point {P : Type} (d : P) (m : gmap Z P) (t : Z) : P := default d (m !! t).

Lemma at_insert {P : Type} (d p : P) (m : gmap Z P) t u :
  at_point d (<[t := p]> m) u = if decide (u = t) then p else at_point d m u.
Proof.
  unfold at_point. destruct (decide (u = t)) as [->|]; [by rewrite lookup_insert_eq|by rewrite lookup_insert_ne].
Qed.

(** ** Counting threads

    The number of threads at the points [f] selects. *)
Section count.
Context {P : Type} (d : P) (f : P -> bool).

Definition count_at (m : gmap Z P) : Z := Z.of_nat (size (filter (fun tp => f (snd tp) = true) m)).

Lemma count_nonneg m : 0 <= count_at m.
Proof. unfold count_at. lia. Qed.

Lemma count_le m : count_at m <= Z.of_nat (size m).
Proof. unfold count_at. apply inj_le, map_subseteq_size, map_filter_subseteq. Qed.

Lemma count_insert m t p : f d = false ->
  count_at (<[t := p]> m) = count_at m - Z.b2z (f (at_point d m t)) + Z.b2z (f p).
Proof.
  intros Hd. unfold count_at, at_point.
  assert (E : size (filter (fun tp => f (snd tp) = true) (delete t m)) =
    (size (filter (fun tp => f (snd tp) = true) m) - Z.to_nat (Z.b2z (f (default d (m !! t)))))%nat /\
    (Z.to_nat (Z.b2z (f (default d (m !! t)))) <= size (filter (fun tp => f (snd tp) = true) m))%nat).
  { rewrite map_filter_delete. destruct (m !! t) as [q|] eqn:Em; cbn.
    - destruct (f q) eqn:Fq; cbn.
      + assert (L : filter (fun tp => f (snd tp) = true) m !! t = Some q) by (by apply map_lookup_filter_Some).
        rewrite map_size_delete_Some by eauto. split; [lia|].
        destruct (decide (size (filter (fun tp => f (snd tp) = true) m) = 0%nat)) as [E|E]; [|lia].
        apply map_size_empty_inv in E. rewrite E in L. by rewrite lookup_empty in L.
      + rewrite map_size_delete_None; [lia|]. apply map_lookup_filter_None. right. intros x. rewrite Em. intros [= <-]. cbn. by rewrite Fq.
    - rewrite Hd. cbn. rewrite map_size_delete_None; [lia|]. apply map_lookup_filter_None. by left. }
  destruct E as [E1 E2]. rewrite <- insert_delete_eq, map_filter_insert. cbn [snd]. destruct (decide (f p = true)) as [Fp|Fp].
  - rewrite map_size_insert_None by (by rewrite map_filter_delete, lookup_delete_eq). rewrite Fp. cbn. rewrite E1.
    destruct (f (default d (m !! t))); cbn in *; lia.
  - apply not_true_iff_false in Fp. rewrite Fp. rewrite delete_delete_eq. cbn. rewrite E1. destruct (f (default d (m !! t))); cbn in *; lia.
Qed.

Lemma count_pos m : f d = false -> 0 < count_at m <-> exists t, f (at_point d m t) = true.
Proof.
  intros Hd. unfold count_at, at_point. split.
  - intros H. destruct (map_choose (filter (fun tp => f (snd tp) = true) m)) as (t & p & L).
    { intros E. rewrite E, map_size_empty in H. done. }
    apply map_lookup_filter_Some in L as [L Fp]. exists t. by rewrite L.
  - intros (t & Ft). destruct (m !! t) as [p|] eqn:E; cbn in Ft; [|congruence].
    assert (L : filter (fun tp => f (snd tp) = true) m !! t = Some p) by (by apply map_lookup_filter_Some).
    destruct (decide (size (filter (fun tp => f (snd tp) = true) m) = 0%nat)) as [Z0|Z0]; [|lia].
    apply map_size_empty_inv in Z0. rewrite Z0 in L. by rewrite lookup_empty in L.
Qed.
End count.

(** The number of threads at points of either of two disjoint kinds. *)
Lemma count_add {P} (d : P) (f g h : P -> bool) m :
  f d = false -> g d = false -> (forall p, Z.b2z (h p) = Z.b2z (f p) + Z.b2z (g p)) ->
  count_at h m = count_at f m + count_at g m.
Proof.
  intros Fd Gd H. assert (Hd : h d = false) by (specialize (H d); rewrite Fd, Gd in H; by destruct (h d)).
  induction m as [|t p m Hn _ IH] using map_first_key_ind; [done|].
  rewrite !(count_insert d) by done. unfold at_point. rewrite Hn. cbn. rewrite Fd, Gd, Hd, IH, H. cbn. lia.
Qed.

(** Only threads of a set are counted. *)
Lemma count_in {P} (d : P) (f : P -> bool) (m : gmap Z P) (X : gset Z) :
  (forall t, f (at_point d m t) = true -> t ∈ X) -> count_at f m <= Z.of_nat (size X).
Proof.
  intros H. unfold count_at. apply inj_le. rewrite <- size_dom. apply subseteq_size. intros t.
  rewrite elem_of_dom. intros [p [L Fp]%map_lookup_filter_Some]. apply H. unfold at_point. by rewrite L.
Qed.

Lemma count_set {P} (d : P) (f : P -> bool) (m : gmap Z P) (X : gset Z) :
  f d = false -> (forall t, at_point d m t <> d -> t ∈ X) -> count_at f m <= Z.of_nat (size X).
Proof. intros Fd H. apply (count_in d). intros t Ft. apply H. intros E. rewrite E in Ft. congruence. Qed.
