(* ===== verification/PpuThread.v ===== *)
(** * The state of a PPU thread and the fields of an instruction word

    [ppu_opcode_t] and [ppu_rotate_mask] of rpcs3/Emu/Cell/PPUOpcodes.h, the
    register file of rpcs3/Emu/Cell/PPUThread.h that the scalar integer
    instructions use, and the guest memory accesses of rpcs3/Emu/Memory/vm.h.
    The instructions themselves are in [PpuInterpreter]. *)
From Stdlib Require Import ZArith Lia Bool List.
From stdpp Require Import base option list numbers.
From S2P Require Import Prelude.
Local Open Scope Z_scope.

(** ** Instruction fields

    [ppu_bf_t<T, I, N>] is the [N]-bit field that starts at bit [I] counted
    from the most significant bit (PowerPC numbering); it is [bf_t<T, 32-N-I,
    N>], whose [extract] sign-extends for a signed [T]. *)

Definition ppu_bf (i n op : Z) : Z := Z.land (Z.shiftr op (32 - n - i)) (2 ^ n - 1).
Definition ppu_bf_s (i n op : Z) : Z := sint n (Z.shiftr op (32 - n - i)).

Definition op_main (op : Z) : Z := ppu_bf 0 6 op.
Definition op_sh64 (op : Z) : Z := Z.lor (Z.shiftl (ppu_bf 30 1 op) 5) (ppu_bf 16 5 op).
Definition op_mbe64 (op : Z) : Z := Z.lor (Z.shiftl (ppu_bf 26 1 op) 5) (ppu_bf 21 5 op).
Definition op_spr (op : Z) : Z := ppu_bf 11 10 op.
Definition op_oe (op : Z) : bool := negb (ppu_bf 21 1 op =? 0).
Definition op_lk (op : Z) : bool := negb (ppu_bf 31 1 op =? 0).
Definition op_aa (op : Z) : bool := negb (ppu_bf 30 1 op =? 0).
Definition op_rb (op : Z) : Z := ppu_bf 16 5 op.
Definition op_ra (op : Z) : Z := ppu_bf 11 5 op.
Definition op_rd (op : Z) : Z := ppu_bf 6 5 op.
Definition op_rs (op : Z) : Z := ppu_bf 6 5 op.
Definition op_uimm16 (op : Z) : Z := ppu_bf 16 16 op.
Definition op_simm16 (op : Z) : Z := ppu_bf_s 16 16 op.
Definition op_l11 (op : Z) : bool := negb (ppu_bf 11 1 op =? 0).
Definition op_l10 (op : Z) : bool := negb (ppu_bf 10 1 op =? 0).
Definition op_crfs (op : Z) : Z := ppu_bf 11 3 op.
Definition op_crfd (op : Z) : Z := ppu_bf 6 3 op.
Definition op_crbb (op : Z) : Z := ppu_bf 16 5 op.
Definition op_crba (op : Z) : Z := ppu_bf 11 5 op.
Definition op_crbd (op : Z) : Z := ppu_bf 6 5 op.
Definition op_me32 (op : Z) : Z := ppu_bf 26 5 op.
Definition op_mb32 (op : Z) : Z := ppu_bf 21 5 op.
Definition op_sh32 (op : Z) : Z := ppu_bf 16 5 op.
Definition op_bi (op : Z) : Z := ppu_bf 11 5 op.
Definition op_bo (op : Z) : Z := ppu_bf 6 5 op.
Definition op_crm (op : Z) : Z := ppu_bf 12 8 op.
(** Branch displacements: a signed word index followed by two zero bits. *)
Definition op_bt14 (op : Z) : Z := 4 * ppu_bf_s 16 14 op.
Definition op_bt24 (op : Z) : Z := 4 * ppu_bf_s 6 24 op.

(** [mask = ~0ull << (~(me - mb) & 63)], rotated right by [mb]. *)
Definition ppu_rotate_mask (mb me : Z) : Z :=
  let mask := u64 (Z.shiftl (2 ^ 64 - 1) (Z.land (bnot 32 (u32 (me - mb))) 63)) in
  Z.lor (Z.shiftr mask (Z.land mb 63))
        (u64 (Z.shiftl mask (Z.land (u32 (64 - mb)) 63))).

(** ** Registers *)

(** The fixed-point exception register, kept unpacked. *)
Record xer_t := Xer { so : bool; ov : bool; ca : bool; cnt : Z }.

(** The part of [ppu_thread] the scalar integer instructions read and write.
    [cr] holds the 32 condition bits in [cr_bits::bits] order (bit 0 first);
    each is a [u8] that every writer sets to 0 or 1.  [rdata] is the copy of
    the reserved cache line, [state] the [cpu_flag] word, [mem] the guest
    memory behind [vm::g_base_addr], and [res_updates] the addresses passed to
    [vm::reservation_update], newest first. *)
Record ppu_thread := mk_ppu {
  gpr : list Z;
  cr : list bool;
  lr : Z;
  ctr : Z;
  vrsave : Z;
  cia : Z;
  xer : xer_t;
  raddr : Z;
  rdata : list Z;
  use_full_rdata : bool;
  res_cached : Z;
  exec_bytes : Z;
  state : Z;
  mem : Z -> Z;
  res_updates : list Z
}.

Definition set_gprs (p : ppu_thread) (g : list Z) : ppu_thread :=
  mk_ppu g (cr p) (lr p) (ctr p) (vrsave p) (cia p) (xer p) (raddr p) (rdata p)
    (use_full_rdata p) (res_cached p) (exec_bytes p) (state p) (mem p) (res_updates p).
Definition set_cr (p : ppu_thread) (c : list bool) : ppu_thread :=
  mk_ppu (gpr p) c (lr p) (ctr p) (vrsave p) (cia p) (xer p) (raddr p) (rdata p)
    (use_full_rdata p) (res_cached p) (exec_bytes p) (state p) (mem p) (res_updates p).
Definition set_lr (p : ppu_thread) (v : Z) : ppu_thread :=
  mk_ppu (gpr p) (cr p) v (ctr p) (vrsave p) (cia p) (xer p) (raddr p) (rdata p)
    (use_full_rdata p) (res_cached p) (exec_bytes p) (state p) (mem p) (res_updates p).
Definition set_ctr (p : ppu_thread) (v : Z) : ppu_thread :=
  mk_ppu (gpr p) (cr p) (lr p) v (vrsave p) (cia p) (xer p) (raddr p) (rdata p)
    (use_full_rdata p) (res_cached p) (exec_bytes p) (state p) (mem p) (res_updates p).
Definition set_vrsave (p : ppu_thread) (v : Z) : ppu_thread :=
  mk_ppu (gpr p) (cr p) (lr p) (ctr p) v (cia p) (xer p) (raddr p) (rdata p)
    (use_full_rdata p) (res_cached p) (exec_bytes p) (state p) (mem p) (res_updates p).
Definition set_cia (p : ppu_thread) (v : Z) : ppu_thread :=
  mk_ppu (gpr p) (cr p) (lr p) (ctr p) (vrsave p) v (xer p) (raddr p) (rdata p)
    (use_full_rdata p) (res_cached p) (exec_bytes p) (state p) (mem p) (res_updates p).
Definition set_xer (p : ppu_thread) (x : xer_t) : ppu_thread :=
  mk_ppu (gpr p) (cr p) (lr p) (ctr p) (vrsave p) (cia p) x (raddr p) (rdata p)
    (use_full_rdata p) (res_cached p) (exec_bytes p) (state p) (mem p) (res_updates p).
Definition set_reservation (p : ppu_thread) (a c : Z) : ppu_thread :=
  mk_ppu (gpr p) (cr p) (lr p) (ctr p) (vrsave p) (cia p) (xer p) a (rdata p)
    (use_full_rdata p) c (exec_bytes p) (state p) (mem p) (res_updates p).
Definition set_exec_bytes (p : ppu_thread) (v : Z) : ppu_thread :=
  mk_ppu (gpr p) (cr p) (lr p) (ctr p) (vrsave p) (cia p) (xer p) (raddr p) (rdata p)
    (use_full_rdata p) (res_cached p) v (state p) (mem p) (res_updates p).
Definition set_mem (p : ppu_thread) (m : Z -> Z) : ppu_thread :=
  mk_ppu (gpr p) (cr p) (lr p) (ctr p) (vrsave p) (cia p) (xer p) (raddr p) (rdata p)
    (use_full_rdata p) (res_cached p) (exec_bytes p) (state p) m (res_updates p).
Definition add_res_update (p : ppu_thread) (a : Z) : ppu_thread :=
  mk_ppu (gpr p) (cr p) (lr p) (ctr p) (vrsave p) (cia p) (xer p) (raddr p) (rdata p)
    (use_full_rdata p) (res_cached p) (exec_bytes p) (state p) (mem p) (a :: res_updates p).

(** [ppu.gpr[i]], [ppu.gpr[i] = v] and [ppu.cr[i]], [ppu.cr[i] = b]. *)
Definition r (p : ppu_thread) (i : Z) : Z := nth (Z.to_nat i) (gpr p) 0.
Definition set_r (p : ppu_thread) (i v : Z) : ppu_thread :=
  set_gprs p (<[Z.to_nat i := v]> (gpr p)).
Definition cr_bit (p : ppu_thread) (i : Z) : bool := nth (Z.to_nat i) (cr p) false.
Definition set_cr_bit (p : ppu_thread) (i : Z) (b : bool) : ppu_thread :=
  set_cr p (<[Z.to_nat i := b]> (cr p)).

Definition set_so (x : xer_t) (b : bool) : xer_t := Xer b (ov x) (ca x) (cnt x).
Definition set_ov (x : xer_t) (b : bool) : xer_t := Xer (so x) b (ca x) (cnt x).
Definition set_xca (x : xer_t) (b : bool) : xer_t := Xer (so x) (ov x) b (cnt x).
Definition set_ca (p : ppu_thread) (b : bool) : ppu_thread := set_xer p (set_xca (xer p) b).

(** [cr_bits::pack] and [cr_bits::unpack]. *)
Definition pack (bits : list bool) : Z :=
  fold_left (fun res b => Z.lor (u32 (Z.shiftl res 1)) (Z.b2z b)) bits 0.
Fixpoint unpack (n : nat) (value : Z) : list bool :=
  match n with
  | O => []
  | S n => negb (Z.land value (Z.shiftl 1 31) =? 0) :: unpack n (u32 (Z.shiftl value 1))
  end.

(** ** Guest memory

    An access beyond the 32-bit address space is a narrowing error in
    [vm::cast], which throws: [None]. *)

Definition vm_cast (addr : Z) : option Z :=
  if addr <? 2 ^ 32 then Some addr else None.

Fixpoint read_bytes (m : Z -> Z) (addr : Z) (n : nat) : list Z :=
  match n with O => [] | S n => m addr :: read_bytes m (addr + 1) n end.

Fixpoint write_bytes (m : Z -> Z) (addr : Z) (bs : list Z) : Z -> Z :=
  match bs with
  | [] => m
  | b :: bs => write_bytes (fun a => if a =? addr then b else m a) (addr + 1) bs
  end.

(** [PPU_WRITE_n(vm::cast(addr), value)] and its [le_t] form. *)
Definition ppu_write_be (n : nat) (p : ppu_thread) (addr v : Z) : option ppu_thread :=
  a ← vm_cast addr; Some (set_mem p (write_bytes (mem p) a (be_bytes n v))).
Definition ppu_write_le (n : nat) (p : ppu_thread) (addr v : Z) : option ppu_thread :=
  a ← vm_cast addr; Some (set_mem p (write_bytes (mem p) a (le_bytes n v))).

(** [memcmp(a, b, n) != 0] on two byte sequences of the same length. *)
Definition bytes_differ (a b : list Z) : bool :=
  negb (forallb (fun '(x, y) => x =? y) (combine a b)).

(** [ppu_feed_data]: read [n] bytes and, with the [use_feed_data] flag and a
    thread that keeps the whole reserved line, drop the reservation when the
    bytes read no longer match the reserved copy. *)
Definition ppu_feed_data (use_feed : bool) (n : nat) (p : ppu_thread) (addr : Z)
  : option (list Z * ppu_thread) :=
  a ← vm_cast addr;
  let value := read_bytes (mem p) a n in
  if negb use_feed then Some (value, p)
  else if negb (use_full_rdata p) then Some (value, p)
  else
    let ra := raddr p in
    let sz := Z.of_nat n in
    if (ra / 128 <? addr / 128) || ((addr + sz - 1) / 128 <? ra / 128)
    then Some (value, p)
    else if (n =? 1)%nat || (addr / 128 =? (addr + sz - 1) / 128)
    then
      let src := firstn n (skipn (Z.to_nat (Z.land addr 127)) (rdata p)) in
      if bytes_differ value src
      then Some (value, set_reservation p 0 0) else Some (value, p)
    else
      let '(src, size, offs) :=
        if ra / 128 =? addr / 128
        then (skipn (Z.to_nat (Z.land addr 127)) (rdata p), Z.min (128 - addr mod 128) sz, 0)
        else let size := (addr + sz) mod 128 in (rdata p, size, sz - size) in
      let size := Z.to_nat size in
      if bytes_differ (firstn size (skipn (Z.to_nat offs) value)) (firstn size src)
      then Some (value, set_reservation p 0 0) else Some (value, p).

(** ** Condition register and overflow helpers *)

(** [ppu_cr_set(ppu, field, le, gt, eq, so)]; the statistics word written
    under [ppu_debug] is not kept. *)
Definition ppu_cr_set (p : ppu_thread) (field : Z) (le gt eq so : bool) : ppu_thread :=
  let p := set_cr_bit p (field * 4 + 0) le in
  let p := set_cr_bit p (field * 4 + 1) gt in
  let p := set_cr_bit p (field * 4 + 2) eq in
  set_cr_bit p (field * 4 + 3) so.

(** [ppu_cr_set<T>(ppu, field, a, b)] on operands converted to [T]. *)
Definition ppu_cr_cmp (p : ppu_thread) (field a b : Z) : ppu_thread :=
  ppu_cr_set p field (a <? b) (b <? a) (a =? b) (so (xer p)).

(** [ppu_cr_set<s64>(ppu, 0, v, 0)], the record form of most instructions. *)
Definition ppu_cr0 (p : ppu_thread) (v : Z) : ppu_thread := ppu_cr_cmp p 0 (s64 v) 0.

Definition ppu_ov_set (p : ppu_thread) (bit : bool) : ppu_thread :=
  set_xer p (Xer (so (xer p) || bit) bit (ca (xer p)) (cnt (xer p))).

(** [add_flags_result_t]: the sum and the carry, without and with carry in. *)
Definition add64_flags (a b : Z) : Z * bool :=
  let res := u64 (a + b) in (res, res <? u64 a).
Definition add64_flags_c (a b : Z) (c : bool) : Z * bool :=
  let '(res, carry) := add64_flags a b in
  let '(res', carry') := add64_flags res (Z.b2z c) in (res', carry || carry').

Definition dup32 (x : Z) : Z := Z.lor x (Z.shiftl x 32).

(** [utils::umulh64] and [utils::mulh64]. *)
Definition umulh64 (x y : Z) : Z := u64 (Z.shiftr (x * y) 64).
Definition mulh64 (x y : Z) : Z := Z.shiftr (x * y) 64.

(** ** Lemmas on fields and registers *)

Lemma ppu_bf_uint i n op : 0 <= n -> ppu_bf i n op = uint n (Z.shiftr op (32 - n - i)).
Proof. apply land_ones_uint. Qed.

Lemma ppu_bf_range i n op : 0 <= n -> in_uint n (ppu_bf i n op).
Proof. intros. rewrite ppu_bf_uint by done. by apply uint_range. Qed.

Lemma dup32_range x : in_uint 32 x -> in_uint 64 (dup32 x).
Proof.
  intros H. apply lor_range; [lia| |].
  - by apply (in_uint_mono 32).
  - by apply (shiftl_range 32); [lia|lia|lia|].
Qed.

Lemma ppu_rotate_mask_range mb me : in_uint 64 (ppu_rotate_mask mb me).
Proof.
  apply lor_range; [lia| |apply uint_range; lia]. apply shiftr_range; [lia| |apply uint_range; lia].
  apply Z.land_nonneg. lia.
Qed.

Lemma read_bytes_length m a n : length (read_bytes m a n) = n.
Proof. revert a; induction n; intros; cbn; [done|]. by f_equal. Qed.

Lemma read_bytes_range m a n : (forall x, in_uint 8 (m x)) -> Forall (in_uint 8) (read_bytes m a n).
Proof. intros H. revert a; induction n; intros; cbn; constructor; auto. Qed.

Lemma write_bytes_range bs : forall m a, (forall x, in_uint 8 (m x)) -> Forall (in_uint 8) bs ->
  forall x, in_uint 8 (write_bytes m a bs x).
Proof.
  induction bs as [|b bs IH]; intros m a Hm Hb x; [by apply Hm|]. inversion Hb; subst.
  cbn. apply IH; [|done]. intros y. by destruct (y =? a).
Qed.

#[export] Hint Resolve dup32_range ppu_rotate_mask_range : width.
