(* ===== verification/PpuInterpreter.v ===== *)
(** * The scalar integer instructions of the PPU interpreter

    rpcs3/Emu/Cell/PPUInterpreter.cpp, one definition per instruction, under
    its name there.  The template flags [has_oe] and [has_rc] that select the
    overflow and record forms are the arguments [oe] and [rc]; [feed] is
    [use_feed_data].  An exception thrown by the handler is [None].  The
    floating point and vector instructions are not modelled. *)
From Stdlib Require Import ZArith Lia Bool List.
From stdpp Require Import base option list numbers.
From S2P Require Import Prelude PpuThread.
Local Open Scope Z_scope.

(** [if constexpr (has_rc) ppu_cr_set<s64>(ppu, 0, v, 0)]. *)
Definition record (rc : bool) (v : Z) (p : ppu_thread) : ppu_thread :=
  if rc then ppu_cr0 p v else p.
Definition overflow (oe bit : bool) (p : ppu_thread) : ppu_thread :=
  if oe then ppu_ov_set p bit else p.
(** [x >> 63] on a 64-bit unsigned value. *)
Definition msb (x : Z) : Z := Z.shiftr x 63.
(** [ppu.gpr[i] = v], then the optional record form on [v]. *)
Definition set_rc (rc : bool) (i v : Z) (p : ppu_thread) : ppu_thread :=
  record rc v (set_r p i v).

(** ** Arithmetic with an immediate, comparisons *)

Definition MULLI (op : Z) (p : ppu_thread) : ppu_thread :=
  set_r p (op_rd op) (u64 (s64 (r p (op_ra op)) * op_simm16 op)).

Definition SUBFIC (op : Z) (p : ppu_thread) : ppu_thread :=
  let a := r p (op_ra op) in
  let i := op_simm16 op in
  let '(result, carry) := add64_flags_c (bnot 64 a) i true in
  set_ca (set_r p (op_rd op) result) carry.

Definition CMPLI (op : Z) (p : ppu_thread) : ppu_thread :=
  if op_l10 op then ppu_cr_cmp p (op_crfd op) (r p (op_ra op)) (op_uimm16 op)
  else ppu_cr_cmp p (op_crfd op) (u32 (r p (op_ra op))) (op_uimm16 op).

Definition CMPI (op : Z) (p : ppu_thread) : ppu_thread :=
  if op_l10 op then ppu_cr_cmp p (op_crfd op) (s64 (r p (op_ra op))) (op_simm16 op)
  else ppu_cr_cmp p (op_crfd op) (s32 (r p (op_ra op))) (op_simm16 op).

Definition ADDIC (op : Z) (p : ppu_thread) : ppu_thread :=
  let a := s64 (r p (op_ra op)) in
  let i := op_simm16 op in
  let '(result, carry) := add64_flags a i in
  let p := set_ca (set_r p (op_rd op) result) carry in
  if Z.odd (op_main op) then ppu_cr0 p result else p.

Definition ADDI (op : Z) (p : ppu_thread) : ppu_thread :=
  set_r p (op_rd op)
    (if op_ra op =? 0 then u64 (op_simm16 op) else u64 (r p (op_ra op) + op_simm16 op)).

Definition ADDIS (op : Z) (p : ppu_thread) : ppu_thread :=
  set_r p (op_rd op)
    (if op_ra op =? 0 then u64 (op_simm16 op * 65536)
     else u64 (r p (op_ra op) + op_simm16 op * 65536)).

Definition CMP (op : Z) (p : ppu_thread) : ppu_thread :=
  if op_l10 op then ppu_cr_cmp p (op_crfd op) (s64 (r p (op_ra op))) (s64 (r p (op_rb op)))
  else ppu_cr_cmp p (op_crfd op) (s32 (r p (op_ra op))) (s32 (r p (op_rb op))).

Definition CMPL (op : Z) (p : ppu_thread) : ppu_thread :=
  if op_l10 op then ppu_cr_cmp p (op_crfd op) (r p (op_ra op)) (r p (op_rb op))
  else ppu_cr_cmp p (op_crfd op) (u32 (r p (op_ra op))) (u32 (r p (op_rb op))).

(** ** Additions, subtractions *)

Definition SUBFC (oe rc : bool) (op : Z) (p : ppu_thread) : ppu_thread :=
  let RA := r p (op_ra op) in
  let RB := r p (op_rb op) in
  let '(result, carry) := add64_flags_c (bnot 64 RA) RB true in
  let p := set_ca (set_r p (op_rd op) result) carry in
  let p := overflow oe ((msb (bnot 64 RA) =? msb RB) && negb (msb (bnot 64 RA) =? msb result)) p in
  record rc result p.

Definition ADDC (oe rc : bool) (op : Z) (p : ppu_thread) : ppu_thread :=
  let RA := r p (op_ra op) in
  let RB := r p (op_rb op) in
  let '(result, carry) := add64_flags RA RB in
  let p := set_ca (set_r p (op_rd op) result) carry in
  let p := overflow oe ((msb RA =? msb RB) && negb (msb RA =? msb result)) p in
  record rc result p.

Definition SUBF (oe rc : bool) (op : Z) (p : ppu_thread) : ppu_thread :=
  let RA := r p (op_ra op) in
  let RB := r p (op_rb op) in
  let result := u64 (RB - RA) in
  let p := set_r p (op_rd op) result in
  let p := overflow oe ((msb (bnot 64 RA) =? msb RB) && negb (msb (bnot 64 RA) =? msb result)) p in
  record rc result p.

Definition NEG (oe rc : bool) (op : Z) (p : ppu_thread) : ppu_thread :=
  let RA := r p (op_ra op) in
  let result := u64 (0 - RA) in
  let p := set_r p (op_rd op) result in
  let p := overflow oe (RA =? Z.shiftl 1 63) p in
  record rc result p.

Definition SUBFE (oe rc : bool) (op : Z) (p : ppu_thread) : ppu_thread :=
  let RA := r p (op_ra op) in
  let RB := r p (op_rb op) in
  let '(result, carry) := add64_flags_c (bnot 64 RA) RB (ca (xer p)) in
  let p := set_ca (set_r p (op_rd op) result) carry in
  let p := overflow oe ((msb (bnot 64 RA) =? msb RB) && negb (msb (bnot 64 RA) =? msb result)) p in
  record rc result p.

Definition ADDE (oe rc : bool) (op : Z) (p : ppu_thread) : ppu_thread :=
  let RA := r p (op_ra op) in
  let RB := r p (op_rb op) in
  let '(result, carry) := add64_flags_c RA RB (ca (xer p)) in
  let p := set_ca (set_r p (op_rd op) result) carry in
  let p := overflow oe ((msb RA =? msb RB) && negb (msb RA =? msb result)) p in
  record rc result p.

Definition SUBFZE (oe rc : bool) (op : Z) (p : ppu_thread) : ppu_thread :=
  let RA := r p (op_ra op) in
  let '(result, carry) := add64_flags_c (bnot 64 RA) 0 (ca (xer p)) in
  let p := set_ca (set_r p (op_rd op) result) carry in
  let p := overflow oe ((msb (bnot 64 RA) =? 0) && negb (msb (bnot 64 RA) =? msb result)) p in
  record rc result p.

Definition ADDZE (oe rc : bool) (op : Z) (p : ppu_thread) : ppu_thread :=
  let RA := r p (op_ra op) in
  let '(result, carry) := add64_flags_c RA 0 (ca (xer p)) in
  let p := set_ca (set_r p (op_rd op) result) carry in
  let p := overflow oe ((msb RA =? 0) && negb (msb RA =? msb result)) p in
  record rc result p.

Definition SUBFME (oe rc : bool) (op : Z) (p : ppu_thread) : ppu_thread :=
  let RA := r p (op_ra op) in
  let '(result, carry) := add64_flags_c (bnot 64 RA) (2 ^ 64 - 1) (ca (xer p)) in
  let p := set_ca (set_r p (op_rd op) result) carry in
  let p := overflow oe ((msb (bnot 64 RA) =? 1) && negb (msb (bnot 64 RA) =? msb result)) p in
  record rc result p.

Definition ADDME (oe rc : bool) (op : Z) (p : ppu_thread) : ppu_thread :=
  let RA := s64 (r p (op_ra op)) in
  let '(result, carry) := add64_flags_c RA (2 ^ 64 - 1) (ca (xer p)) in
  let p := set_ca (set_r p (op_rd op) result) carry in
  let p := overflow oe ((msb (u64 RA) =? 1) && negb (msb (u64 RA) =? msb result)) p in
  record rc result p.

Definition ADD (oe rc : bool) (op : Z) (p : ppu_thread) : ppu_thread :=
  let RA := r p (op_ra op) in
  let RB := r p (op_rb op) in
  let result := u64 (RA + RB) in
  let p := set_r p (op_rd op) result in
  let p := overflow oe ((msb RA =? msb RB) && negb (msb RA =? msb result)) p in
  record rc result p.

(** ** Multiplications, divisions *)

Definition MULHDU (rc : bool) (op : Z) (p : ppu_thread) : ppu_thread :=
  set_rc rc (op_rd op) (umulh64 (r p (op_ra op)) (r p (op_rb op))) p.

Definition MULHWU (rc : bool) (op : Z) (p : ppu_thread) : ppu_thread :=
  let a := u32 (r p (op_ra op)) in
  let b := u32 (r p (op_rb op)) in
  set_rc rc (op_rd op) (Z.shiftr (u64 (a * b)) 32) p.

Definition MULHD (rc : bool) (op : Z) (p : ppu_thread) : ppu_thread :=
  set_rc rc (op_rd op) (u64 (mulh64 (s64 (r p (op_ra op))) (s64 (r p (op_rb op))))) p.

Definition MULHW (rc : bool) (op : Z) (p : ppu_thread) : ppu_thread :=
  let a := s32 (r p (op_ra op)) in
  let b := s32 (r p (op_rb op)) in
  set_rc rc (op_rd op) (u64 (Z.shiftr (a * b) 32)) p.

(** [op.oe] is read from the instruction word here, not from the flags. *)
Definition MULLD (rc : bool) (op : Z) (p : ppu_thread) : ppu_thread :=
  let RA := s64 (r p (op_ra op)) in
  let RB := s64 (r p (op_rb op)) in
  let result := u64 (RA * RB) in
  let p := set_r p (op_rd op) result in
  let p := if op_oe op
           then ppu_ov_set p (negb (mulh64 RA RB =? Z.shiftr (s64 result) 63)) else p in
  record rc result p.

Definition MULLW (oe rc : bool) (op : Z) (p : ppu_thread) : ppu_thread :=
  let result := u64 (s32 (r p (op_ra op)) * s32 (r p (op_rb op))) in
  let p := set_r p (op_rd op) result in
  let p := overflow oe ((s64 result <? - 2 ^ 31) || (2 ^ 31 - 1 <? s64 result)) p in
  record rc result p.

Definition DIVDU (oe rc : bool) (op : Z) (p : ppu_thread) : ppu_thread :=
  let RA := r p (op_ra op) in
  let RB := r p (op_rb op) in
  let result := if RB =? 0 then 0 else RA / RB in
  let p := overflow oe (RB =? 0) (set_r p (op_rd op) result) in
  record rc result p.

Definition DIVWU (oe rc : bool) (op : Z) (p : ppu_thread) : ppu_thread :=
  let RA := u32 (r p (op_ra op)) in
  let RB := u32 (r p (op_rb op)) in
  let result := if RB =? 0 then 0 else RA / RB in
  let p := overflow oe (RB =? 0) (set_r p (op_rd op) result) in
  record rc result p.

(** Signed division truncates towards zero. *)
Definition DIVD (oe rc : bool) (op : Z) (p : ppu_thread) : ppu_thread :=
  let RA := s64 (r p (op_ra op)) in
  let RB := s64 (r p (op_rb op)) in
  let o := (RB =? 0) || ((RA =? - 2 ^ 63) && (RB =? -1)) in
  let result := if o then 0 else u64 (RA ÷ RB) in
  let p := overflow oe o (set_r p (op_rd op) result) in
  record rc result p.

Definition DIVW (oe rc : bool) (op : Z) (p : ppu_thread) : ppu_thread :=
  let RA := s32 (r p (op_ra op)) in
  let RB := s32 (r p (op_rb op)) in
  let o := (RB =? 0) || ((RA =? - 2 ^ 31) && (RB =? -1)) in
  let result := if o then 0 else u32 (RA ÷ RB) in
  let p := overflow oe o (set_r p (op_rd op) result) in
  record rc result p.

(** ** Logical operations *)

Definition ORI (op : Z) (p : ppu_thread) : ppu_thread :=
  set_r p (op_ra op) (Z.lor (r p (op_rs op)) (op_uimm16 op)).
Definition ORIS (op : Z) (p : ppu_thread) : ppu_thread :=
  set_r p (op_ra op) (Z.lor (r p (op_rs op)) (Z.shiftl (op_uimm16 op) 16)).
Definition XORI (op : Z) (p : ppu_thread) : ppu_thread :=
  set_r p (op_ra op) (Z.lxor (r p (op_rs op)) (op_uimm16 op)).
Definition XORIS (op : Z) (p : ppu_thread) : ppu_thread :=
  set_r p (op_ra op) (Z.lxor (r p (op_rs op)) (Z.shiftl (op_uimm16 op) 16)).
Definition ANDI (op : Z) (p : ppu_thread) : ppu_thread :=
  set_rc true (op_ra op) (Z.land (r p (op_rs op)) (op_uimm16 op)) p.
Definition ANDIS (op : Z) (p : ppu_thread) : ppu_thread :=
  set_rc true (op_ra op) (Z.land (r p (op_rs op)) (Z.shiftl (op_uimm16 op) 16)) p.

Definition AND (rc : bool) (op : Z) (p : ppu_thread) : ppu_thread :=
  set_rc rc (op_ra op) (Z.land (r p (op_rs op)) (r p (op_rb op))) p.
Definition ANDC (rc : bool) (op : Z) (p : ppu_thread) : ppu_thread :=
  set_rc rc (op_ra op) (Z.land (r p (op_rs op)) (bnot 64 (r p (op_rb op)))) p.
Definition NOR (rc : bool) (op : Z) (p : ppu_thread) : ppu_thread :=
  set_rc rc (op_ra op) (bnot 64 (Z.lor (r p (op_rs op)) (r p (op_rb op)))) p.
Definition EQV (rc : bool) (op : Z) (p : ppu_thread) : ppu_thread :=
  set_rc rc (op_ra op) (bnot 64 (Z.lxor (r p (op_rs op)) (r p (op_rb op)))) p.
Definition XOR (rc : bool) (op : Z) (p : ppu_thread) : ppu_thread :=
  set_rc rc (op_ra op) (Z.lxor (r p (op_rs op)) (r p (op_rb op))) p.
Definition ORC (rc : bool) (op : Z) (p : ppu_thread) : ppu_thread :=
  set_rc rc (op_ra op) (Z.lor (r p (op_rs op)) (bnot 64 (r p (op_rb op)))) p.
Definition OR (rc : bool) (op : Z) (p : ppu_thread) : ppu_thread :=
  set_rc rc (op_ra op) (Z.lor (r p (op_rs op)) (r p (op_rb op))) p.
Definition NAND (rc : bool) (op : Z) (p : ppu_thread) : ppu_thread :=
  set_rc rc (op_ra op) (bnot 64 (Z.land (r p (op_rs op)) (r p (op_rb op)))) p.

Definition EXTSH (rc : bool) (op : Z) (p : ppu_thread) : ppu_thread :=
  set_rc rc (op_ra op) (u64 (s16 (r p (op_rs op)))) p.
Definition EXTSB (rc : bool) (op : Z) (p : ppu_thread) : ppu_thread :=
  set_rc rc (op_ra op) (u64 (s8 (r p (op_rs op)))) p.
Definition EXTSW (rc : bool) (op : Z) (p : ppu_thread) : ppu_thread :=
  set_rc rc (op_ra op) (u64 (s32 (r p (op_rs op)))) p.
Definition CNTLZW (rc : bool) (op : Z) (p : ppu_thread) : ppu_thread :=
  set_rc rc (op_ra op) (countl_zero 32 (u32 (r p (op_rs op)))) p.
Definition CNTLZD (rc : bool) (op : Z) (p : ppu_thread) : ppu_thread :=
  set_rc rc (op_ra op) (countl_zero 64 (r p (op_rs op))) p.

(** ** Rotates and shifts *)

Definition RLWIMI (rc : bool) (op : Z) (p : ppu_thread) : ppu_thread :=
  let mask := ppu_rotate_mask (32 + op_mb32 op) (32 + op_me32 op) in
  set_rc rc (op_ra op)
    (Z.lor (Z.land (r p (op_ra op)) (bnot 64 mask))
           (Z.land (dup32 (rotl 32 (u32 (r p (op_rs op))) (op_sh32 op))) mask)) p.

Definition RLWINM (rc : bool) (op : Z) (p : ppu_thread) : ppu_thread :=
  set_rc rc (op_ra op)
    (Z.land (dup32 (rotl 32 (u32 (r p (op_rs op))) (op_sh32 op)))
            (ppu_rotate_mask (32 + op_mb32 op) (32 + op_me32 op))) p.

Definition RLWNM (rc : bool) (op : Z) (p : ppu_thread) : ppu_thread :=
  set_rc rc (op_ra op)
    (Z.land (dup32 (rotl 32 (u32 (r p (op_rs op))) (Z.land (r p (op_rb op)) 0x1f)))
            (ppu_rotate_mask (32 + op_mb32 op) (32 + op_me32 op))) p.

Definition RLDICL (rc : bool) (op : Z) (p : ppu_thread) : ppu_thread :=
  set_rc rc (op_ra op)
    (Z.land (rotl 64 (r p (op_rs op)) (op_sh64 op)) (Z.shiftr (2 ^ 64 - 1) (op_mbe64 op))) p.

Definition RLDICR (rc : bool) (op : Z) (p : ppu_thread) : ppu_thread :=
  set_rc rc (op_ra op)
    (Z.land (rotl 64 (r p (op_rs op)) (op_sh64 op))
            (u64 (Z.shiftl (2 ^ 64 - 1) (Z.lxor (op_mbe64 op) 63)))) p.

Definition RLDIC (rc : bool) (op : Z) (p : ppu_thread) : ppu_thread :=
  set_rc rc (op_ra op)
    (Z.land (rotl 64 (r p (op_rs op)) (op_sh64 op))
            (ppu_rotate_mask (op_mbe64 op) (Z.lxor (op_sh64 op) 63))) p.

Definition RLDIMI (rc : bool) (op : Z) (p : ppu_thread) : ppu_thread :=
  let mask := ppu_rotate_mask (op_mbe64 op) (Z.lxor (op_sh64 op) 63) in
  set_rc rc (op_ra op)
    (Z.lor (Z.land (r p (op_ra op)) (bnot 64 mask))
           (Z.land (rotl 64 (r p (op_rs op)) (op_sh64 op)) mask)) p.

Definition RLDCL (rc : bool) (op : Z) (p : ppu_thread) : ppu_thread :=
  set_rc rc (op_ra op)
    (Z.land (rotl 64 (r p (op_rs op)) (Z.land (r p (op_rb op)) 0x3f))
            (Z.shiftr (2 ^ 64 - 1) (op_mbe64 op))) p.

Definition RLDCR (rc : bool) (op : Z) (p : ppu_thread) : ppu_thread :=
  set_rc rc (op_ra op)
    (Z.land (rotl 64 (r p (op_rs op)) (Z.land (r p (op_rb op)) 0x3f))
            (u64 (Z.shiftl (2 ^ 64 - 1) (Z.lxor (op_mbe64 op) 63)))) p.

Definition SLW (rc : bool) (op : Z) (p : ppu_thread) : ppu_thread :=
  set_rc rc (op_ra op)
    (u32 (u64 (Z.shiftl (r p (op_rs op)) (Z.land (r p (op_rb op)) 0x3f)))) p.

Definition SLD (rc : bool) (op : Z) (p : ppu_thread) : ppu_thread :=
  let n := Z.land (r p (op_rb op)) 0x7f in
  set_rc rc (op_ra op)
    (if negb (Z.land n 0x40 =? 0) then 0 else u64 (Z.shiftl (r p (op_rs op)) n)) p.

Definition SRW (rc : bool) (op : Z) (p : ppu_thread) : ppu_thread :=
  set_rc rc (op_ra op)
    (Z.shiftr (Z.land (r p (op_rs op)) 0xffffffff) (Z.land (r p (op_rb op)) 0x3f)) p.

Definition SRD (rc : bool) (op : Z) (p : ppu_thread) : ppu_thread :=
  let n := Z.land (r p (op_rb op)) 0x7f in
  set_rc rc (op_ra op)
    (if negb (Z.land n 0x40 =? 0) then 0 else Z.shiftr (r p (op_rs op)) n) p.

Definition SRAW (rc : bool) (op : Z) (p : ppu_thread) : ppu_thread :=
  let RS := s32 (r p (op_rs op)) in
  let shift := Z.land (r p (op_rb op)) 63 in
  let '(result, carry) :=
    if 31 <? shift then (u64 (0 - Z.b2z (RS <? 0)), RS <? 0)
    else let res := u64 (Z.shiftr RS shift) in
         (res, (RS <? 0) && negb (u64 (Z.shiftl res shift) =? u64 RS)) in
  record rc result (set_ca (set_r p (op_ra op) result) carry).

Definition SRAD (rc : bool) (op : Z) (p : ppu_thread) : ppu_thread :=
  let RS := s64 (r p (op_rs op)) in
  let shift := Z.land (r p (op_rb op)) 127 in
  let '(result, carry) :=
    if 63 <? shift then (u64 (0 - Z.b2z (RS <? 0)), RS <? 0)
    else let res := u64 (Z.shiftr RS shift) in
         (res, (RS <? 0) && negb (u64 (Z.shiftl res shift) =? u64 RS)) in
  record rc result (set_ca (set_r p (op_ra op) result) carry).

Definition SRAWI (rc : bool) (op : Z) (p : ppu_thread) : ppu_thread :=
  let RS := s32 (r p (op_rs op)) in
  let result := u64 (Z.shiftr RS (op_sh32 op)) in
  let carry := (RS <? 0) && negb (u32 (u64 (Z.shiftl result (op_sh32 op))) =? u32 RS) in
  record rc result (set_ca (set_r p (op_ra op) result) carry).

Definition SRADI (rc : bool) (op : Z) (p : ppu_thread) : ppu_thread :=
  let sh := op_sh64 op in
  let RS := s64 (r p (op_rs op)) in
  let result := u64 (Z.shiftr RS sh) in
  let carry := (RS <? 0) && negb (u64 (Z.shiftl result sh) =? u64 RS) in
  record rc result (set_ca (set_r p (op_ra op) result) carry).
