(* ===== verification/PpuControl.v ===== *)
(** * Branches, traps, condition-register and special-register instructions

    The instructions of rpcs3/Emu/Cell/PPUInterpreter.cpp that end a chain of
    handlers or move data between the general registers and CR, XER, LR and
    CTR.  [this_op] is the guest address of the instruction; the call-history
    recording of [ppu_record_call] is off. *)
From Stdlib Require Import ZArith Lia Bool List.
From stdpp Require Import base option list numbers.
From S2P Require Import Prelude PpuThread PpuInterpreter.
Local Open Scope Z_scope.

(** How a handler ends: it tail-calls the handler of the next word, returns to
    the dispatcher with [cia] set, calls [ppu_trap] or the system call
    dispatcher, runs an HLE function, or throws. *)
Inductive outcome : Type :=
  | Next (p : ppu_thread)
  | Return (p : ppu_thread)
  | Trap (p : ppu_thread) (addr : Z)
  | Syscall (p : ppu_thread) (code : Z)
  | Hle (p : ppu_thread) (index : Z)
  | Throw.

(** [op.bo & mask] as a truth value. *)
Definition bo_bit (op mask : Z) : bool := negb (Z.land (op_bo op) mask =? 0).

(** ** Traps *)

Definition trap_cond (op a b a_ b_ : Z) : bool :=
  (bo_bit op 0x10 && (a <? b)) || (bo_bit op 0x8 && (b <? a)) ||
  (bo_bit op 0x4 && (a =? b)) || (bo_bit op 0x2 && (a_ <? b_)) ||
  (bo_bit op 0x1 && (b_ <? a_)).

Definition TDI (op this_op : Z) (p : ppu_thread) : outcome :=
  let a := s64 (r p (op_ra op)) in
  let b := op_simm16 op in
  if trap_cond op a b (u64 a) (u64 b) then Trap p this_op else Next p.
Definition TWI (op this_op : Z) (p : ppu_thread) : outcome :=
  let a := s32 (u32 (r p (op_ra op))) in
  let b := op_simm16 op in
  if trap_cond op a b (u32 a) (u32 b) then Trap p this_op else Next p.
Definition TW (op this_op : Z) (p : ppu_thread) : outcome :=
  let a := s32 (r p (op_ra op)) in
  let b := s32 (r p (op_rb op)) in
  if trap_cond op a b (u32 a) (u32 b) then Trap p this_op else Next p.
Definition TD (op this_op : Z) (p : ppu_thread) : outcome :=
  let a := s64 (r p (op_ra op)) in
  let b := s64 (r p (op_rb op)) in
  if trap_cond op a b (u64 a) (u64 b) then Trap p this_op else Next p.

(** ** Branches *)

(** [ppu.exec_bytes += link - old_cia], the difference taken on [u32]. *)
Definition add_exec_bytes (p : ppu_thread) (link old_cia : Z) : ppu_thread :=
  set_exec_bytes p (u64 (exec_bytes p + u32 (link - old_cia))).

(** The end shared by the conditional branches: taken to [target], not taken
    with no pending state flag (fall through), or not taken with one. *)
Definition branch_to (taken : bool) (target link : Z) (p : ppu_thread) : outcome :=
  let old_cia := cia p in
  if taken then Return (add_exec_bytes (set_cia p target) link old_cia)
  else if state p =? 0 then Next p
  else Return (add_exec_bytes (set_cia p link) link old_cia).

Definition set_link (lk : bool) (link : Z) (p : ppu_thread) : ppu_thread :=
  if lk then set_lr p link else p.

Definition BC (op this_op : Z) (p : ppu_thread) : outcome :=
  let bo0 := bo_bit op 0x10 in
  let bo1 := bo_bit op 0x08 in
  let bo2 := bo_bit op 0x04 in
  let bo3 := bo_bit op 0x02 in
  let p := set_ctr p (u64 (ctr p - Z.b2z (negb bo2))) in
  let link := u32 (this_op + 4) in
  let p := set_link (op_lk op) link p in
  let ctr_ok := bo2 || xorb (negb (ctr p =? 0)) bo3 in
  let cond_ok := bo0 || xorb (cr_bit p (op_bi op)) (negb bo1) in
  branch_to (ctr_ok && cond_ok)
    (u32 ((if op_aa op then 0 else this_op) + op_bt14 op)) link p.

Definition B (op this_op : Z) (p : ppu_thread) : outcome :=
  let old_cia := cia p in
  let link := u32 (this_op + 4) in
  let p := set_cia p (u32 ((if op_aa op then 0 else this_op) + op_bt24 op)) in
  let p := set_link (op_lk op) link p in
  Return (add_exec_bytes p link old_cia).

Definition BCLR (op this_op : Z) (p : ppu_thread) : outcome :=
  let bo0 := bo_bit op 0x10 in
  let bo1 := bo_bit op 0x08 in
  let bo2 := bo_bit op 0x04 in
  let bo3 := bo_bit op 0x02 in
  let p := set_ctr p (u64 (ctr p - Z.b2z (negb bo2))) in
  let ctr_ok := bo2 || xorb (negb (ctr p =? 0)) bo3 in
  let cond_ok := bo0 || xorb (cr_bit p (op_bi op)) (negb bo1) in
  let target := Z.land (u32 (lr p)) (bnot 32 3) in
  let link := u32 (this_op + 4) in
  let p := set_link (op_lk op) link p in
  branch_to (ctr_ok && cond_ok) target link p.

Definition BCCTR (op this_op : Z) (p : ppu_thread) : outcome :=
  let link := u32 (this_op + 4) in
  let p := set_link (op_lk op) link p in
  branch_to (bo_bit op 0x10 || eqb (cr_bit p (op_bi op)) (bo_bit op 0x8))
    (Z.land (u32 (ctr p)) (bnot 32 3)) link p.

(** [ppu_instructions::SC(0)] is the word 0x44000002. *)
Definition SC (op this_op : Z) (p : ppu_thread) : outcome :=
  let old_cia := cia p in
  let p := add_exec_bytes (set_cia p this_op) this_op old_cia in
  if negb (op =? 0x44000002) then Throw else Syscall p (r p 11).

(** [addr] is the base of the HLE function area of [ppu_function_manager], and
    [count] the number of registered functions. *)
Definition UNK (addr count : Z) (op this_op : Z) (p : ppu_thread) : outcome :=
  let old_cia := cia p in
  let p := add_exec_bytes (set_cia p this_op) this_op old_cia in
  let index := u32 (cia p - addr) / 8 in
  if (cia p mod 8 =? 4) && (index <? count) then Hle p index else Throw.

(** ** Condition register *)

(** [ppu.cr.fields[d] = ppu.cr.fields[s]]: four bits copied at once. *)
Definition cr_field (p : ppu_thread) (i : Z) : list bool :=
  firstn 4 (skipn (Z.to_nat (4 * i)) (cr p)).
Definition set_cr_field (p : ppu_thread) (i : Z) (bits : list bool) : ppu_thread :=
  let n := Z.to_nat (4 * i) in
  set_cr p (firstn n (cr p) ++ bits ++ skipn (n + 4) (cr p)).

Definition MCRF (op : Z) (p : ppu_thread) : ppu_thread :=
  set_cr_field p (op_crfd op) (cr_field p (op_crfs op)).

Definition cr_op (f : bool -> bool -> bool) (op : Z) (p : ppu_thread) : ppu_thread :=
  set_cr_bit p (op_crbd op) (f (cr_bit p (op_crba op)) (cr_bit p (op_crbb op))).

Definition CRNOR := cr_op (fun a b => xorb (a || b) true).
Definition CRANDC := cr_op (fun a b => a && xorb b true).
Definition CRXOR := cr_op xorb.
Definition CRNAND := cr_op (fun a b => xorb (a && b) true).
Definition CRAND := cr_op andb.
Definition CREQV := cr_op (fun a b => xorb (xorb a b) true).
Definition CRORC := cr_op (fun a b => a || xorb b true).
Definition CROR := cr_op orb.

(** Row [v] of [s_table]. *)
Definition s_table (v : Z) : list bool :=
  [Z.testbit v 3; Z.testbit v 2; Z.testbit v 1; Z.testbit v 0].

Definition mtcrf_field (s : Z) (p : ppu_thread) (i : Z) : ppu_thread :=
  set_cr_field p i (s_table (Z.land (Z.shiftr s (Z.lxor (i * 4) 0x1c)) 0xf)).

Definition MTOCRF (op : Z) (p : ppu_thread) : ppu_thread :=
  let s := r p (op_rs op) in
  if op_l11 op then mtcrf_field s p (Z.land (countl_zero 32 (op_crm op)) 7)
  else fold_left (fun p i =>
         if negb (Z.land (op_crm op) (Z.shiftr 128 i) =? 0) then mtcrf_field s p i else p)
       [0; 1; 2; 3; 4; 5; 6; 7] p.

Definition MFOCRF (N : Z) (op : Z) (p : ppu_thread) : ppu_thread :=
  let i := N * 4 in
  let b k := Z.b2z (cr_bit p (i + k)) in
  let v := Z.lor (Z.lor (Z.lor (Z.shiftl (b 0) 3) (Z.shiftl (b 1) 2)) (Z.shiftl (b 2) 1)) (b 3) in
  set_r p (op_rd op) (u32 (Z.shiftl v (Z.lxor i 0x1c))).

(** [_mm_movemask_epi8(_mm_slli_epi64(x, 7))] on a vector whose byte [i] is 0
    or 1 gathers the bytes as bits, byte 0 first; [be_t] reverses the bytes. *)
Definition movemask (bytes : list bool) : Z :=
  fold_right (fun b acc => Z.lor (Z.b2z b) (Z.shiftl acc 1)) 0 bytes.

Definition MFCR_x64 (op : Z) (p : ppu_thread) : ppu_thread :=
  let mh := movemask (rev (firstn 16 (cr p))) in
  let ml := movemask (rev (firstn 16 (skipn 16 (cr p)))) in
  set_r p (op_rd op) (Z.lor (u32 (Z.shiftl mh 16)) ml).

Definition MFCR (op : Z) (p : ppu_thread) : ppu_thread :=
  set_r p (op_rd op) (pack (cr p)).

(** ** Special registers; [tb] is [get_timebased_time()]. *)

Definition spr_number (op : Z) : Z :=
  Z.lor (Z.shiftr (op_spr op) 5) (Z.shiftl (Z.land (op_spr op) 0x1f) 5).

Definition xer_value (x : xer_t) : Z :=
  Z.lor (Z.lor (Z.lor (Z.shiftl (Z.b2z (so x)) 31) (Z.shiftl (Z.b2z (ov x)) 30))
               (Z.shiftl (Z.b2z (ca x)) 29)) (cnt x).

Definition MFSPR (tb : Z) (op : Z) (p : ppu_thread) : option ppu_thread :=
  let n := spr_number op in
  if n =? 0x001 then Some (set_r p (op_rd op) (xer_value (xer p)))
  else if n =? 0x008 then Some (set_r p (op_rd op) (lr p))
  else if n =? 0x009 then Some (set_r p (op_rd op) (ctr p))
  else if n =? 0x100 then Some (set_r p (op_rd op) (vrsave p))
  else if n =? 0x10C then Some (set_r p (op_rd op) tb)
  else if n =? 0x10D then Some (set_r p (op_rd op) (Z.shiftr tb 32))
  else None.

Definition MFTB (tb : Z) (op : Z) (p : ppu_thread) : option ppu_thread :=
  let n := spr_number op in
  if n =? 0x10C then Some (set_r p (op_rd op) tb)
  else if n =? 0x10D then Some (set_r p (op_rd op) (Z.shiftr tb 32))
  else None.

Definition MTSPR (op : Z) (p : ppu_thread) : option ppu_thread :=
  let n := spr_number op in
  let value := r p (op_rs op) in
  if n =? 0x001 then
    Some (set_xer p (Xer (negb (Z.land value 0x80000000 =? 0))
                         (negb (Z.land value 0x40000000 =? 0))
                         (negb (Z.land value 0x20000000 =? 0)) (Z.land value 0x7f)))
  else if n =? 0x008 then Some (set_lr p value)
  else if n =? 0x009 then Some (set_ctr p value)
  else if n =? 0x100 then Some (set_vrsave p (u32 value))
  else None.

(** ** Cache hints and fences

    They change nothing a single thread can see; ECIWX and ECOWX throw. *)
Definition ISYNC (op : Z) (p : ppu_thread) : ppu_thread := p.
Definition SYNC (op : Z) (p : ppu_thread) : ppu_thread := p.
Definition EIEIO (op : Z) (p : ppu_thread) : ppu_thread := p.
Definition DCBST (op : Z) (p : ppu_thread) : ppu_thread := p.
Definition DCBF (op : Z) (p : ppu_thread) : ppu_thread := p.
Definition DCBTST (op : Z) (p : ppu_thread) : ppu_thread := p.
Definition DCBT (op : Z) (p : ppu_thread) : ppu_thread := p.
Definition DCBI (op : Z) (p : ppu_thread) : ppu_thread := p.
Definition DST (op : Z) (p : ppu_thread) : ppu_thread := p.
Definition DSTST (op : Z) (p : ppu_thread) : ppu_thread := p.
Definition DSS (op : Z) (p : ppu_thread) : ppu_thread := p.
Definition ICBI (op : Z) (p : ppu_thread) : ppu_thread := p.
Definition ECIWX (op : Z) (p : ppu_thread) : option ppu_thread := None.
Definition ECOWX (op : Z) (p : ppu_thread) : option ppu_thread := None.
