(* ===== verification/PpuMemory.v ===== *)
(** * The scalar loads and stores of the PPU interpreter

    rpcs3/Emu/Cell/PPUInterpreter.cpp, LDX to STDU.  An address outside the
    32-bit space throws ([None]).  The load-and-reserve and store-conditional
    instructions, and the accurate cache line mode of DCBZ, are not modelled. *)
From Stdlib Require Import ZArith Lia Bool List.
From stdpp Require Import base option list numbers.
From S2P Require Import Prelude PpuThread PpuInterpreter.
Local Open Scope Z_scope.

(** ** Effective addresses *)

(** [op.ra ? gpr[ra] + gpr[rb] : gpr[rb]], and without the test. *)
Definition ea_x (op : Z) (p : ppu_thread) : Z :=
  if op_ra op =? 0 then r p (op_rb op) else u64 (r p (op_ra op) + r p (op_rb op)).
Definition ea_ux (op : Z) (p : ppu_thread) : Z := u64 (r p (op_ra op) + r p (op_rb op)).
(** [op.ra || 1 ? gpr[ra] + simm16 : simm16]: the test is compiled out. *)
Definition ea_d (op : Z) (p : ppu_thread) : Z := u64 (r p (op_ra op) + op_simm16 op).
(** [op.ra ? gpr[ra] + simm16 : simm16]. *)
Definition ea_m (op : Z) (p : ppu_thread) : Z :=
  if op_ra op =? 0 then u64 (op_simm16 op) else u64 (r p (op_ra op) + op_simm16 op).
(** [(simm16 & ~3) + (op.ra ? gpr[ra] : 0)], and without the test. *)
Definition ea_ds (op : Z) (p : ppu_thread) : Z :=
  u64 (Z.land (op_simm16 op) (-4) + (if op_ra op =? 0 then 0 else r p (op_ra op))).
Definition ea_dsu (op : Z) (p : ppu_thread) : Z :=
  u64 (r p (op_ra op) + Z.land (op_simm16 op) (-4)).
(** [op.ra ? gpr[ra] : 0]. *)
Definition ea_s (op : Z) (p : ppu_thread) : Z :=
  if op_ra op =? 0 then 0 else r p (op_ra op).

(** ** Loads

    [ppu.gpr[rd] = ppu_feed_data<T>(ppu, addr)] with the conversion [conv] of
    the loaded bytes to 64 bits; the update forms then write [addr] to [ra]. *)

Definition load (feed : bool) (n : nat) (conv : list Z -> Z) (rd addr : Z) (p : ppu_thread)
  : option ppu_thread :=
  '(bs, p) ← ppu_feed_data feed n p addr; Some (set_r p rd (conv bs)).
Definition load_update (feed : bool) (n : nat) (conv : list Z -> Z) (rd ra addr : Z)
  (p : ppu_thread) : option ppu_thread :=
  p ← load feed n conv rd addr p; Some (set_r p ra addr).

(** [s32] and [s16] loads are sign-extended. *)
Definition be_s32 (bs : list Z) : Z := u64 (s32 (be_value bs)).
Definition be_s16 (bs : list Z) : Z := u64 (s16 (be_value bs)).

Definition LDX (feed : bool) (op : Z) (p : ppu_thread) : option ppu_thread :=
  load feed 8 be_value (op_rd op) (ea_x op p) p.
Definition LWZX (feed : bool) (op : Z) (p : ppu_thread) : option ppu_thread :=
  load feed 4 be_value (op_rd op) (ea_x op p) p.
Definition LBZX (feed : bool) (op : Z) (p : ppu_thread) : option ppu_thread :=
  load feed 1 be_value (op_rd op) (ea_x op p) p.
Definition LHZX (feed : bool) (op : Z) (p : ppu_thread) : option ppu_thread :=
  load feed 2 be_value (op_rd op) (ea_x op p) p.
Definition LWAX (feed : bool) (op : Z) (p : ppu_thread) : option ppu_thread :=
  load feed 4 be_s32 (op_rd op) (ea_x op p) p.
Definition LHAX (feed : bool) (op : Z) (p : ppu_thread) : option ppu_thread :=
  load feed 2 be_s16 (op_rd op) (ea_x op p) p.
Definition LDBRX (feed : bool) (op : Z) (p : ppu_thread) : option ppu_thread :=
  load feed 8 le_value (op_rd op) (ea_x op p) p.
Definition LWBRX (feed : bool) (op : Z) (p : ppu_thread) : option ppu_thread :=
  load feed 4 le_value (op_rd op) (ea_x op p) p.
Definition LHBRX (feed : bool) (op : Z) (p : ppu_thread) : option ppu_thread :=
  load feed 2 le_value (op_rd op) (ea_x op p) p.

Definition LDUX (feed : bool) (op : Z) (p : ppu_thread) : option ppu_thread :=
  load_update feed 8 be_value (op_rd op) (op_ra op) (ea_ux op p) p.
Definition LWZUX (feed : bool) (op : Z) (p : ppu_thread) : option ppu_thread :=
  load_update feed 4 be_value (op_rd op) (op_ra op) (ea_ux op p) p.
Definition LBZUX (feed : bool) (op : Z) (p : ppu_thread) : option ppu_thread :=
  load_update feed 1 be_value (op_rd op) (op_ra op) (ea_ux op p) p.
Definition LHZUX (feed : bool) (op : Z) (p : ppu_thread) : option ppu_thread :=
  load_update feed 2 be_value (op_rd op) (op_ra op) (ea_x op p) p.
Definition LWAUX (feed : bool) (op : Z) (p : ppu_thread) : option ppu_thread :=
  load_update feed 4 be_s32 (op_rd op) (op_ra op) (ea_x op p) p.
Definition LHAUX (feed : bool) (op : Z) (p : ppu_thread) : option ppu_thread :=
  load_update feed 2 be_s16 (op_rd op) (op_ra op) (ea_x op p) p.

Definition LWZ (feed : bool) (op : Z) (p : ppu_thread) : option ppu_thread :=
  load feed 4 be_value (op_rd op) (ea_d op p) p.
Definition LBZ (feed : bool) (op : Z) (p : ppu_thread) : option ppu_thread :=
  load feed 1 be_value (op_rd op) (ea_d op p) p.
Definition LHZ (feed : bool) (op : Z) (p : ppu_thread) : option ppu_thread :=
  load feed 2 be_value (op_rd op) (ea_d op p) p.
Definition LHA (feed : bool) (op : Z) (p : ppu_thread) : option ppu_thread :=
  load feed 2 be_s16 (op_rd op) (ea_d op p) p.
Definition LWZU (feed : bool) (op : Z) (p : ppu_thread) : option ppu_thread :=
  load_update feed 4 be_value (op_rd op) (op_ra op) (ea_d op p) p.
Definition LBZU (feed : bool) (op : Z) (p : ppu_thread) : option ppu_thread :=
  load_update feed 1 be_value (op_rd op) (op_ra op) (ea_d op p) p.
Definition LHZU (feed : bool) (op : Z) (p : ppu_thread) : option ppu_thread :=
  load_update feed 2 be_value (op_rd op) (op_ra op) (ea_d op p) p.
Definition LHAU (feed : bool) (op : Z) (p : ppu_thread) : option ppu_thread :=
  load_update feed 2 be_s16 (op_rd op) (op_ra op) (ea_d op p) p.
Definition LD (feed : bool) (op : Z) (p : ppu_thread) : option ppu_thread :=
  load feed 8 be_value (op_rd op) (ea_ds op p) p.
Definition LWA (feed : bool) (op : Z) (p : ppu_thread) : option ppu_thread :=
  load feed 4 be_s32 (op_rd op) (ea_ds op p) p.
Definition LDU (feed : bool) (op : Z) (p : ppu_thread) : option ppu_thread :=
  load_update feed 8 be_value (op_rd op) (op_ra op) (ea_dsu op p) p.

(** ** Stores *)

Definition store_update (n : nat) (ra addr v : Z) (p : ppu_thread) : option ppu_thread :=
  p ← ppu_write_be n p addr v; Some (set_r p ra addr).

Definition STDX (op : Z) (p : ppu_thread) : option ppu_thread :=
  ppu_write_be 8 p (ea_x op p) (r p (op_rs op)).
Definition STWX (op : Z) (p : ppu_thread) : option ppu_thread :=
  ppu_write_be 4 p (ea_x op p) (u32 (r p (op_rs op))).
Definition STHX (op : Z) (p : ppu_thread) : option ppu_thread :=
  ppu_write_be 2 p (ea_x op p) (u16 (r p (op_rs op))).
Definition STBX (op : Z) (p : ppu_thread) : option ppu_thread :=
  ppu_write_be 1 p (ea_x op p) (u8 (r p (op_rs op))).
Definition STDBRX (op : Z) (p : ppu_thread) : option ppu_thread :=
  ppu_write_le 8 p (ea_x op p) (r p (op_rs op)).
Definition STWBRX (op : Z) (p : ppu_thread) : option ppu_thread :=
  ppu_write_le 4 p (ea_x op p) (u32 (r p (op_rs op))).
Definition STHBRX (op : Z) (p : ppu_thread) : option ppu_thread :=
  ppu_write_le 2 p (ea_x op p) (u16 (r p (op_rs op))).
Definition STDUX (op : Z) (p : ppu_thread) : option ppu_thread :=
  store_update 8 (op_ra op) (ea_ux op p) (r p (op_rs op)) p.
Definition STWUX (op : Z) (p : ppu_thread) : option ppu_thread :=
  store_update 4 (op_ra op) (ea_ux op p) (u32 (r p (op_rs op))) p.
Definition STHUX (op : Z) (p : ppu_thread) : option ppu_thread :=
  store_update 2 (op_ra op) (ea_ux op p) (u16 (r p (op_rs op))) p.
Definition STBUX (op : Z) (p : ppu_thread) : option ppu_thread :=
  store_update 1 (op_ra op) (ea_ux op p) (u8 (r p (op_rs op))) p.

(** A word of 0xAAAAAAAA also bumps the reservation of its line. *)
Definition STW (op : Z) (p : ppu_thread) : option ppu_thread :=
  let addr := ea_d op p in
  let value := u32 (r p (op_rs op)) in
  p ← ppu_write_be 4 p addr value;
  if value =? 0xAAAAAAAA then (a ← vm_cast addr; Some (add_res_update p a)) else Some p.
Definition STB (op : Z) (p : ppu_thread) : option ppu_thread :=
  ppu_write_be 1 p (ea_d op p) (u8 (r p (op_rs op))).
Definition STH (op : Z) (p : ppu_thread) : option ppu_thread :=
  ppu_write_be 2 p (ea_d op p) (u16 (r p (op_rs op))).
Definition STWU (op : Z) (p : ppu_thread) : option ppu_thread :=
  store_update 4 (op_ra op) (ea_d op p) (u32 (r p (op_rs op))) p.
Definition STBU (op : Z) (p : ppu_thread) : option ppu_thread :=
  store_update 1 (op_ra op) (ea_d op p) (u8 (r p (op_rs op))) p.
Definition STHU (op : Z) (p : ppu_thread) : option ppu_thread :=
  store_update 2 (op_ra op) (ea_d op p) (u16 (r p (op_rs op))) p.
Definition STD (op : Z) (p : ppu_thread) : option ppu_thread :=
  ppu_write_be 8 p (ea_ds op p) (r p (op_rs op)).
Definition STDU (op : Z) (p : ppu_thread) : option ppu_thread :=
  store_update 8 (op_ra op) (ea_dsu op p) (r p (op_rs op)) p.

(** [addr0 = vm::cast(addr) & ~127], then [memset] of the 128-byte line. *)
Definition zero_buf : list Z := repeat 0 128.
Definition DCBZ (op : Z) (p : ppu_thread) : option ppu_thread :=
  a ← vm_cast (ea_x op p);
  Some (set_mem p (write_bytes (mem p) (Z.land a (bnot 32 127)) zero_buf)).

(** ** Multiple and string accesses

    Loops run on a bound [fuel] that the loop counter never exceeds; running
    out of it would be [None]. *)

(** [for (i = first; i < 32; ++i, addr += 4)]. *)
Fixpoint lmw_loop (fuel : nat) (feed : bool) (i addr : Z) (p : ppu_thread) : option ppu_thread :=
  if 32 <=? i then Some p else
  match fuel with
  | O => None
  | S fuel => p ← load feed 4 be_value i addr p; lmw_loop fuel feed (i + 1) (u64 (addr + 4)) p
  end.
Definition LMW (feed : bool) (op : Z) (p : ppu_thread) : option ppu_thread :=
  lmw_loop 32 feed (op_rd op) (ea_m op p) p.

Fixpoint stmw_loop (fuel : nat) (i addr : Z) (p : ppu_thread) : option ppu_thread :=
  if 32 <=? i then Some p else
  match fuel with
  | O => None
  | S fuel => p ← ppu_write_be 4 p addr (u32 (r p i)); stmw_loop fuel (i + 1) (u64 (addr + 4)) p
  end.
Definition STMW (op : Z) (p : ppu_thread) : option ppu_thread :=
  stmw_loop 32 (op_rs op) (ea_m op p) p.

(** The tail of a string load: the [count] remaining bytes, [shift byte] being
    the position of the next one in the word [value]. *)
Fixpoint load_tail (fuel : nat) (feed : bool) (byte count addr value : Z) (p : ppu_thread)
  : option (Z * ppu_thread) :=
  if count <=? byte then Some (value, p) else
  match fuel with
  | O => None
  | S fuel =>
      '(bs, p) ← ppu_feed_data feed 1 p (u64 (addr + byte));
      load_tail fuel feed (byte + 1) count addr
        (Z.lor value (u32 (Z.shiftl (be_value bs) (Z.lxor 3 byte * 8)))) p
  end.

Fixpoint lswx_loop (fuel : nat) (feed : bool) (addr count rd : Z) (p : ppu_thread)
  : option ppu_thread :=
  if 4 <=? count then
    match fuel with
    | O => None
    | S fuel =>
        p ← load feed 4 be_value rd addr p;
        lswx_loop fuel feed (u64 (addr + 4)) (count - 4) (Z.land (rd + 1) 31) p
    end
  else if count =? 0 then Some p
  else '(value, p) ← load_tail 4 feed 0 count addr 0 p; Some (set_r p rd value).
Definition LSWX (feed : bool) (op : Z) (p : ppu_thread) : option ppu_thread :=
  lswx_loop 32 feed (ea_x op p) (Z.land (cnt (xer p)) 0x7f) (op_rd op) p.

(** The inner loop of LSWI: [i] counts the byte position down from 3. *)
Fixpoint lswi_tail (fuel : nat) (feed : bool) (n addr i buf : Z) (p : ppu_thread)
  : option (Z * ppu_thread) :=
  if n =? 0 then Some (buf, p) else
  match fuel with
  | O => None
  | S fuel =>
      '(bs, p) ← ppu_feed_data feed 1 p addr;
      lswi_tail fuel feed (n - 1) (u64 (addr + 1)) (i - 1)
        (Z.lor buf (u32 (Z.shiftl (be_value bs) (i * 8)))) p
  end.

Fixpoint lswi_loop (fuel : nat) (feed : bool) (n addr reg : Z) (p : ppu_thread)
  : option ppu_thread :=
  if n =? 0 then Some p else
  match fuel with
  | O => None
  | S fuel =>
      if 3 <? n then
        p ← load feed 4 be_value reg addr p;
        lswi_loop fuel feed (n - 4) (u64 (addr + 4)) ((reg + 1) mod 32) p
      else
        '(buf, p) ← lswi_tail 4 feed n addr 3 0 p;
        lswi_loop fuel feed 0 (u64 (addr + n)) ((reg + 1) mod 32) (set_r p reg buf)
  end.
Definition LSWI (feed : bool) (op : Z) (p : ppu_thread) : option ppu_thread :=
  lswi_loop 9 feed (if op_rb op =? 0 then 32 else op_rb op) (ea_s op p) (op_rd op) p.

Fixpoint stswx_tail (fuel : nat) (byte count addr value : Z) (p : ppu_thread)
  : option ppu_thread :=
  if count <=? byte then Some p else
  match fuel with
  | O => None
  | S fuel =>
      p ← ppu_write_be 1 p (u64 (addr + byte)) (u8 (Z.shiftr value (Z.lxor 3 byte * 8)));
      stswx_tail fuel (byte + 1) count addr value p
  end.

Fixpoint stswx_loop (fuel : nat) (addr count rs : Z) (p : ppu_thread) : option ppu_thread :=
  if 4 <=? count then
    match fuel with
    | O => None
    | S fuel =>
        p ← ppu_write_be 4 p addr (u32 (r p rs));
        stswx_loop fuel (u64 (addr + 4)) (count - 4) (Z.land (rs + 1) 31) p
    end
  else if count =? 0 then Some p
  else stswx_tail 4 0 count addr (u32 (r p rs)) p.
Definition STSWX (op : Z) (p : ppu_thread) : option ppu_thread :=
  stswx_loop 32 (ea_x op p) (Z.land (cnt (xer p)) 0x7f) (op_rs op) p.

Fixpoint stswi_tail (fuel : nat) (n addr buf : Z) (p : ppu_thread) : option ppu_thread :=
  if n =? 0 then Some p else
  match fuel with
  | O => None
  | S fuel =>
      p ← ppu_write_be 1 p addr (Z.shiftr (Z.land 0xFF000000 buf) 24);
      stswi_tail fuel (n - 1) (u64 (addr + 1)) (u32 (Z.shiftl buf 8)) p
  end.

Fixpoint stswi_loop (fuel : nat) (n addr reg : Z) (p : ppu_thread) : option ppu_thread :=
  if n =? 0 then Some p else
  match fuel with
  | O => None
  | S fuel =>
      if 3 <? n then
        p ← ppu_write_be 4 p addr (u32 (r p reg));
        stswi_loop fuel (n - 4) (u64 (addr + 4)) ((reg + 1) mod 32) p
      else
        p ← stswi_tail 4 n addr (u32 (r p reg)) p;
        stswi_loop fuel 0 (u64 (addr + n)) ((reg + 1) mod 32) p
  end.
Definition STSWI (op : Z) (p : ppu_thread) : option ppu_thread :=
  stswi_loop 9 (if op_rb op =? 0 then 32 else op_rb op) (ea_s op p) (op_rd op) p.
