(* ===== verification/PpuDecode.v ===== *)
(** * Decoding of PPU instructions

    [ppu_itype::type] of rpcs3/Emu/Cell/PPUAnalyser.h, the lookup table of
    [ppu_decoder] in rpcs3/Emu/Cell/PPUOpcodes.h (every group, the vector and
    floating point ones included), and [ppu_interpreter_rt::decode] of
    rpcs3/Emu/Cell/PPUInterpreter.cpp. *)
From Stdlib Require Import ZArith Lia Bool List.
From stdpp Require Import base option list numbers pmap.
From S2P Require Import Prelude PpuThread.
Local Open Scope Z_scope.

(** The enumeration, [I_] before the name of the source. *)
Inductive itype : Set :=
  | I_UNK | I_MFVSCR | I_MTVSCR | I_VADDCUW | I_VADDFP | I_VADDSBS | I_VADDSHS | I_VADDSWS
  | I_VADDUBM | I_VADDUBS | I_VADDUHM | I_VADDUHS | I_VADDUWM | I_VADDUWS | I_VAND | I_VANDC
  | I_VAVGSB | I_VAVGSH | I_VAVGSW | I_VAVGUB | I_VAVGUH | I_VAVGUW | I_VCFSX | I_VCFUX
  | I_VCMPBFP | I_VCMPBFP_ | I_VCMPEQFP | I_VCMPEQFP_ | I_VCMPEQUB | I_VCMPEQUB_ | I_VCMPEQUH
  | I_VCMPEQUH_ | I_VCMPEQUW | I_VCMPEQUW_ | I_VCMPGEFP | I_VCMPGEFP_ | I_VCMPGTFP
  | I_VCMPGTFP_ | I_VCMPGTSB | I_VCMPGTSB_ | I_VCMPGTSH | I_VCMPGTSH_ | I_VCMPGTSW
  | I_VCMPGTSW_ | I_VCMPGTUB | I_VCMPGTUB_ | I_VCMPGTUH | I_VCMPGTUH_ | I_VCMPGTUW
  | I_VCMPGTUW_ | I_VCTSXS | I_VCTUXS | I_VEXPTEFP | I_VLOGEFP | I_VMADDFP | I_VMAXFP
  | I_VMAXSB | I_VMAXSH | I_VMAXSW | I_VMAXUB | I_VMAXUH | I_VMAXUW | I_VMHADDSHS
  | I_VMHRADDSHS | I_VMINFP | I_VMINSB | I_VMINSH | I_VMINSW | I_VMINUB | I_VMINUH | I_VMINUW
  | I_VMLADDUHM | I_VMRGHB | I_VMRGHH | I_VMRGHW | I_VMRGLB | I_VMRGLH | I_VMRGLW | I_VMSUMMBM
  | I_VMSUMSHM | I_VMSUMSHS | I_VMSUMUBM | I_VMSUMUHM | I_VMSUMUHS | I_VMULESB | I_VMULESH
  | I_VMULEUB | I_VMULEUH | I_VMULOSB | I_VMULOSH | I_VMULOUB | I_VMULOUH | I_VNMSUBFP | I_VNOR
  | I_VOR | I_VPERM | I_VPKPX | I_VPKSHSS | I_VPKSHUS | I_VPKSWSS | I_VPKSWUS | I_VPKUHUM
  | I_VPKUHUS | I_VPKUWUM | I_VPKUWUS | I_VREFP | I_VRFIM | I_VRFIN | I_VRFIP | I_VRFIZ
  | I_VRLB | I_VRLH | I_VRLW | I_VRSQRTEFP | I_VSEL | I_VSL | I_VSLB | I_VSLDOI | I_VSLH
  | I_VSLO | I_VSLW | I_VSPLTB | I_VSPLTH | I_VSPLTISB | I_VSPLTISH | I_VSPLTISW | I_VSPLTW
  | I_VSR | I_VSRAB | I_VSRAH | I_VSRAW | I_VSRB | I_VSRH | I_VSRO | I_VSRW | I_VSUBCUW
  | I_VSUBFP | I_VSUBSBS | I_VSUBSHS | I_VSUBSWS | I_VSUBUBM | I_VSUBUBS | I_VSUBUHM
  | I_VSUBUHS | I_VSUBUWM | I_VSUBUWS | I_VSUMSWS | I_VSUM2SWS | I_VSUM4SBS | I_VSUM4SHS
  | I_VSUM4UBS | I_VUPKHPX | I_VUPKHSB | I_VUPKHSH | I_VUPKLPX | I_VUPKLSB | I_VUPKLSH | I_VXOR
  | I_MULLI | I_SUBFIC | I_ADDIC | I_ADDI | I_ADDIS | I_SC | I_MCRF | I_CRNOR | I_CRANDC
  | I_ISYNC | I_CRXOR | I_CRNAND | I_CRAND | I_CREQV | I_CRORC | I_CROR | I_RLWIMI | I_RLWINM
  | I_RLWNM | I_ORI | I_ORIS | I_XORI | I_XORIS | I_ANDI | I_ANDIS | I_RLDICL | I_RLDICR
  | I_RLDIC | I_RLDIMI | I_RLDCL | I_RLDCR | I_LVSL | I_LVEBX | I_SUBFC | I_SUBFCO | I_ADDC
  | I_ADDCO | I_MULHDU | I_MULHWU | I_MFOCRF | I_LWARX | I_LDX | I_LWZX | I_SLW | I_CNTLZW
  | I_SLD | I_AND | I_LVSR | I_LVEHX | I_SUBF | I_SUBFO | I_LDUX | I_LWZUX | I_CNTLZD | I_ANDC
  | I_LVEWX | I_MULHD | I_MULHW | I_LDARX | I_DCBF | I_LBZX | I_LVX | I_NEG | I_NEGO | I_LBZUX
  | I_NOR | I_SUBFE | I_SUBFEO | I_ADDE | I_ADDEO | I_MTOCRF | I_SUBFZE | I_SUBFZEO | I_ADDZE
  | I_ADDZEO | I_SUBFME | I_SUBFMEO | I_MULLD | I_MULLDO | I_ADDME | I_ADDMEO | I_MULLW
  | I_MULLWO | I_ADD | I_ADDO | I_LHZX | I_EQV | I_ECIWX | I_LHZUX | I_XOR | I_MFSPR | I_LWAX
  | I_LHAX | I_LVXL | I_MFTB | I_LWAUX | I_LHAUX | I_ORC | I_ECOWX | I_OR | I_DIVDU | I_DIVDUO
  | I_DIVWU | I_DIVWUO | I_MTSPR | I_NAND | I_DIVD | I_DIVDO | I_DIVW | I_DIVWO | I_LVLX
  | I_LDBRX | I_LSWX | I_LWBRX | I_LFSX | I_SRW | I_SRD | I_LVRX | I_LSWI | I_LFSUX | I_LFDX
  | I_LFDUX | I_LVLXL | I_LHBRX | I_SRAW | I_SRAD | I_LVRXL | I_SRAWI | I_SRADI | I_EXTSH
  | I_EXTSB | I_EXTSW | I_LWZ | I_LWZU | I_LBZ | I_LBZU | I_LHZ | I_LHZU | I_LHA | I_LHAU
  | I_LMW | I_LFS | I_LFSU | I_LFD | I_LFDU | I_LD | I_LDU | I_LWA | I_FDIVS | I_FSUBS
  | I_FADDS | I_FSQRTS | I_FRES | I_FMULS | I_FMADDS | I_FMSUBS | I_FNMSUBS | I_FNMADDS
  | I_MTFSB1 | I_MCRFS | I_MTFSB0 | I_MTFSFI | I_MFFS | I_MTFSF | I_FCMPU | I_FRSP | I_FCTIW
  | I_FCTIWZ | I_FDIV | I_FSUB | I_FADD | I_FSQRT | I_FSEL | I_FMUL | I_FRSQRTE | I_FMSUB
  | I_FMADD | I_FNMSUB | I_FNMADD | I_FCMPO | I_FNEG | I_FMR | I_FNABS | I_FABS | I_FCTID
  | I_FCTIDZ | I_FCFID | I_SUBFCO_ | I_ADDCO_ | I_SUBFO_ | I_NEGO_ | I_SUBFEO_ | I_ADDEO_
  | I_SUBFZEO_ | I_ADDZEO_ | I_SUBFMEO_ | I_MULLDO_ | I_ADDMEO_ | I_MULLWO_ | I_ADDO_
  | I_DIVDUO_ | I_DIVWUO_ | I_DIVDO_ | I_DIVWO_ | I_RLWIMI_ | I_RLWINM_ | I_RLWNM_ | I_RLDICL_
  | I_RLDICR_ | I_RLDIC_ | I_RLDIMI_ | I_RLDCL_ | I_RLDCR_ | I_SUBFC_ | I_MULHDU_ | I_ADDC_
  | I_MULHWU_ | I_SLW_ | I_CNTLZW_ | I_SLD_ | I_AND_ | I_SUBF_ | I_CNTLZD_ | I_ANDC_ | I_MULHD_
  | I_MULHW_ | I_NEG_ | I_NOR_ | I_SUBFE_ | I_ADDE_ | I_SUBFZE_ | I_ADDZE_ | I_MULLD_
  | I_SUBFME_ | I_ADDME_ | I_MULLW_ | I_ADD_ | I_EQV_ | I_XOR_ | I_ORC_ | I_OR_ | I_DIVDU_
  | I_DIVWU_ | I_NAND_ | I_DIVD_ | I_DIVW_ | I_SRW_ | I_SRD_ | I_SRAW_ | I_SRAD_ | I_SRAWI_
  | I_SRADI_ | I_EXTSH_ | I_EXTSB_ | I_EXTSW_ | I_FDIVS_ | I_FSUBS_ | I_FADDS_ | I_FSQRTS_
  | I_FRES_ | I_FMULS_ | I_FMADDS_ | I_FMSUBS_ | I_FNMSUBS_ | I_FNMADDS_ | I_MTFSB1_
  | I_MTFSB0_ | I_MTFSFI_ | I_MFFS_ | I_MTFSF_ | I_FRSP_ | I_FCTIW_ | I_FCTIWZ_ | I_FDIV_
  | I_FSUB_ | I_FADD_ | I_FSQRT_ | I_FSEL_ | I_FMUL_ | I_FRSQRTE_ | I_FMSUB_ | I_FMADD_
  | I_FNMSUB_ | I_FNMADD_ | I_FNEG_ | I_FMR_ | I_FNABS_ | I_FABS_ | I_FCTID_ | I_FCTIDZ_
  | I_FCFID_ | I_CMPLI | I_CMPI | I_CMP | I_CMPL | I_STMW | I_STSWX | I_STSWI | I_STVXL
  | I_STVLX | I_STVRX | I_STVEBX | I_STVEHX | I_STVEWX | I_STVX | I_STVLXL | I_STVRXL | I_STDX
  | I_STDUX | I_STDCX | I_STDBRX | I_STD | I_STDU | I_STFDUX | I_STFDX | I_STFDU | I_STFD
  | I_STFS | I_STFSU | I_STFSX | I_STFSUX | I_STFIWX | I_STWCX | I_STWX | I_STWUX | I_STWBRX
  | I_STWU | I_STW | I_STHBRX | I_STHX | I_STHUX | I_STH | I_STBX | I_STBU | I_STB | I_STHU
  | I_STBUX | I_DCBZ | I_DCBI | I_DCBTST | I_DCBT | I_DCBST | I_DST | I_DSS | I_ICBI | I_SYNC
  | I_EIEIO | I_DSTST | I_B | I_BC | I_BCLR | I_BCCTR | I_TD | I_TW | I_TDI | I_TWI
.

(** The numbering of the enumeration, its first constructor being 0. *)
Definition all_itypes : list itype :=
  [I_UNK; I_MFVSCR; I_MTVSCR; I_VADDCUW; I_VADDFP; I_VADDSBS; I_VADDSHS; I_VADDSWS; I_VADDUBM;
   I_VADDUBS; I_VADDUHM; I_VADDUHS; I_VADDUWM; I_VADDUWS; I_VAND; I_VANDC; I_VAVGSB; I_VAVGSH;
   I_VAVGSW; I_VAVGUB; I_VAVGUH; I_VAVGUW; I_VCFSX; I_VCFUX; I_VCMPBFP; I_VCMPBFP_; I_VCMPEQFP;
   I_VCMPEQFP_; I_VCMPEQUB; I_VCMPEQUB_; I_VCMPEQUH; I_VCMPEQUH_; I_VCMPEQUW; I_VCMPEQUW_;
   I_VCMPGEFP; I_VCMPGEFP_; I_VCMPGTFP; I_VCMPGTFP_; I_VCMPGTSB; I_VCMPGTSB_; I_VCMPGTSH;
   I_VCMPGTSH_; I_VCMPGTSW; I_VCMPGTSW_; I_VCMPGTUB; I_VCMPGTUB_; I_VCMPGTUH; I_VCMPGTUH_;
   I_VCMPGTUW; I_VCMPGTUW_; I_VCTSXS; I_VCTUXS; I_VEXPTEFP; I_VLOGEFP; I_VMADDFP; I_VMAXFP;
   I_VMAXSB; I_VMAXSH; I_VMAXSW; I_VMAXUB; I_VMAXUH; I_VMAXUW; I_VMHADDSHS; I_VMHRADDSHS;
   I_VMINFP; I_VMINSB; I_VMINSH; I_VMINSW; I_VMINUB; I_VMINUH; I_VMINUW; I_VMLADDUHM; I_VMRGHB;
   I_VMRGHH; I_VMRGHW; I_VMRGLB; I_VMRGLH; I_VMRGLW; I_VMSUMMBM; I_VMSUMSHM; I_VMSUMSHS;
   I_VMSUMUBM; I_VMSUMUHM; I_VMSUMUHS; I_VMULESB; I_VMULESH; I_VMULEUB; I_VMULEUH; I_VMULOSB;
   I_VMULOSH; I_VMULOUB; I_VMULOUH; I_VNMSUBFP; I_VNOR; I_VOR; I_VPERM; I_VPKPX; I_VPKSHSS;
   I_VPKSHUS; I_VPKSWSS; I_VPKSWUS; I_VPKUHUM; I_VPKUHUS; I_VPKUWUM; I_VPKUWUS; I_VREFP;
   I_VRFIM; I_VRFIN; I_VRFIP; I_VRFIZ; I_VRLB; I_VRLH; I_VRLW; I_VRSQRTEFP; I_VSEL; I_VSL;
   I_VSLB; I_VSLDOI; I_VSLH; I_VSLO; I_VSLW; I_VSPLTB; I_VSPLTH; I_VSPLTISB; I_VSPLTISH;
   I_VSPLTISW; I_VSPLTW; I_VSR; I_VSRAB; I_VSRAH; I_VSRAW; I_VSRB; I_VSRH; I_VSRO; I_VSRW;
   I_VSUBCUW; I_VSUBFP; I_VSUBSBS; I_VSUBSHS; I_VSUBSWS; I_VSUBUBM; I_VSUBUBS; I_VSUBUHM;
   I_VSUBUHS; I_VSUBUWM; I_VSUBUWS; I_VSUMSWS; I_VSUM2SWS; I_VSUM4SBS; I_VSUM4SHS; I_VSUM4UBS;
   I_VUPKHPX; I_VUPKHSB; I_VUPKHSH; I_VUPKLPX; I_VUPKLSB; I_VUPKLSH; I_VXOR; I_MULLI; I_SUBFIC;
   I_ADDIC; I_ADDI; I_ADDIS; I_SC; I_MCRF; I_CRNOR; I_CRANDC; I_ISYNC; I_CRXOR; I_CRNAND;
   I_CRAND; I_CREQV; I_CRORC; I_CROR; I_RLWIMI; I_RLWINM; I_RLWNM; I_ORI; I_ORIS; I_XORI;
   I_XORIS; I_ANDI; I_ANDIS; I_RLDICL; I_RLDICR; I_RLDIC; I_RLDIMI; I_RLDCL; I_RLDCR; I_LVSL;
   I_LVEBX; I_SUBFC; I_SUBFCO; I_ADDC; I_ADDCO; I_MULHDU; I_MULHWU; I_MFOCRF; I_LWARX; I_LDX;
   I_LWZX; I_SLW; I_CNTLZW; I_SLD; I_AND; I_LVSR; I_LVEHX; I_SUBF; I_SUBFO; I_LDUX; I_LWZUX;
   I_CNTLZD; I_ANDC; I_LVEWX; I_MULHD; I_MULHW; I_LDARX; I_DCBF; I_LBZX; I_LVX; I_NEG; I_NEGO;
   I_LBZUX; I_NOR; I_SUBFE; I_SUBFEO; I_ADDE; I_ADDEO; I_MTOCRF; I_SUBFZE; I_SUBFZEO; I_ADDZE;
   I_ADDZEO; I_SUBFME; I_SUBFMEO; I_MULLD; I_MULLDO; I_ADDME; I_ADDMEO; I_MULLW; I_MULLWO;
   I_ADD; I_ADDO; I_LHZX; I_EQV; I_ECIWX; I_LHZUX; I_XOR; I_MFSPR; I_LWAX; I_LHAX; I_LVXL;
   I_MFTB; I_LWAUX; I_LHAUX; I_ORC; I_ECOWX; I_OR; I_DIVDU; I_DIVDUO; I_DIVWU; I_DIVWUO;
   I_MTSPR; I_NAND; I_DIVD; I_DIVDO; I_DIVW; I_DIVWO; I_LVLX; I_LDBRX; I_LSWX; I_LWBRX; I_LFSX;
   I_SRW; I_SRD; I_LVRX; I_LSWI; I_LFSUX; I_LFDX; I_LFDUX; I_LVLXL; I_LHBRX; I_SRAW; I_SRAD;
   I_LVRXL; I_SRAWI; I_SRADI; I_EXTSH; I_EXTSB; I_EXTSW; I_LWZ; I_LWZU; I_LBZ; I_LBZU; I_LHZ;
   I_LHZU; I_LHA; I_LHAU; I_LMW; I_LFS; I_LFSU; I_LFD; I_LFDU; I_LD; I_LDU; I_LWA; I_FDIVS;
   I_FSUBS; I_FADDS; I_FSQRTS; I_FRES; I_FMULS; I_FMADDS; I_FMSUBS; I_FNMSUBS; I_FNMADDS;
   I_MTFSB1; I_MCRFS; I_MTFSB0; I_MTFSFI; I_MFFS; I_MTFSF; I_FCMPU; I_FRSP; I_FCTIW; I_FCTIWZ;
   I_FDIV; I_FSUB; I_FADD; I_FSQRT; I_FSEL; I_FMUL; I_FRSQRTE; I_FMSUB; I_FMADD; I_FNMSUB;
   I_FNMADD; I_FCMPO; I_FNEG; I_FMR; I_FNABS; I_FABS; I_FCTID; I_FCTIDZ; I_FCFID; I_SUBFCO_;
   I_ADDCO_; I_SUBFO_; I_NEGO_; I_SUBFEO_; I_ADDEO_; I_SUBFZEO_; I_ADDZEO_; I_SUBFMEO_;
   I_MULLDO_; I_ADDMEO_; I_MULLWO_; I_ADDO_; I_DIVDUO_; I_DIVWUO_; I_DIVDO_; I_DIVWO_;
   I_RLWIMI_; I_RLWINM_; I_RLWNM_; I_RLDICL_; I_RLDICR_; I_RLDIC_; I_RLDIMI_; I_RLDCL_;
   I_RLDCR_; I_SUBFC_; I_MULHDU_; I_ADDC_; I_MULHWU_; I_SLW_; I_CNTLZW_; I_SLD_; I_AND_;
   I_SUBF_; I_CNTLZD_; I_ANDC_; I_MULHD_; I_MULHW_; I_NEG_; I_NOR_; I_SUBFE_; I_ADDE_;
   I_SUBFZE_; I_ADDZE_; I_MULLD_; I_SUBFME_; I_ADDME_; I_MULLW_; I_ADD_; I_EQV_; I_XOR_;
   I_ORC_; I_OR_; I_DIVDU_; I_DIVWU_; I_NAND_; I_DIVD_; I_DIVW_; I_SRW_; I_SRD_; I_SRAW_;
   I_SRAD_; I_SRAWI_; I_SRADI_; I_EXTSH_; I_EXTSB_; I_EXTSW_; I_FDIVS_; I_FSUBS_; I_FADDS_;
   I_FSQRTS_; I_FRES_; I_FMULS_; I_FMADDS_; I_FMSUBS_; I_FNMSUBS_; I_FNMADDS_; I_MTFSB1_;
   I_MTFSB0_; I_MTFSFI_; I_MFFS_; I_MTFSF_; I_FRSP_; I_FCTIW_; I_FCTIWZ_; I_FDIV_; I_FSUB_;
   I_FADD_; I_FSQRT_; I_FSEL_; I_FMUL_; I_FRSQRTE_; I_FMSUB_; I_FMADD_; I_FNMSUB_; I_FNMADD_;
   I_FNEG_; I_FMR_; I_FNABS_; I_FABS_; I_FCTID_; I_FCTIDZ_; I_FCFID_; I_CMPLI; I_CMPI; I_CMP;
   I_CMPL; I_STMW; I_STSWX; I_STSWI; I_STVXL; I_STVLX; I_STVRX; I_STVEBX; I_STVEHX; I_STVEWX;
   I_STVX; I_STVLXL; I_STVRXL; I_STDX; I_STDUX; I_STDCX; I_STDBRX; I_STD; I_STDU; I_STFDUX;
   I_STFDX; I_STFDU; I_STFD; I_STFS; I_STFSU; I_STFSX; I_STFSUX; I_STFIWX; I_STWCX; I_STWX;
   I_STWUX; I_STWBRX; I_STWU; I_STW; I_STHBRX; I_STHX; I_STHUX; I_STH; I_STBX; I_STBU; I_STB;
   I_STHU; I_STBUX; I_DCBZ; I_DCBI; I_DCBTST; I_DCBT; I_DCBST; I_DST; I_DSS; I_ICBI; I_SYNC;
   I_EIEIO; I_DSTST; I_B; I_BC; I_BCLR; I_BCCTR; I_TD; I_TW; I_TDI; I_TWI].

Definition itype_id (t : itype) : Z :=
  match t with
  | I_UNK => 0 | I_MFVSCR => 1 | I_MTVSCR => 2 | I_VADDCUW => 3 | I_VADDFP => 4
  | I_VADDSBS => 5 | I_VADDSHS => 6 | I_VADDSWS => 7 | I_VADDUBM => 8 | I_VADDUBS => 9
  | I_VADDUHM => 10 | I_VADDUHS => 11 | I_VADDUWM => 12 | I_VADDUWS => 13 | I_VAND => 14
  | I_VANDC => 15 | I_VAVGSB => 16 | I_VAVGSH => 17 | I_VAVGSW => 18 | I_VAVGUB => 19
  | I_VAVGUH => 20 | I_VAVGUW => 21 | I_VCFSX => 22 | I_VCFUX => 23 | I_VCMPBFP => 24
  | I_VCMPBFP_ => 25 | I_VCMPEQFP => 26 | I_VCMPEQFP_ => 27 | I_VCMPEQUB => 28
  | I_VCMPEQUB_ => 29 | I_VCMPEQUH => 30 | I_VCMPEQUH_ => 31 | I_VCMPEQUW => 32
  | I_VCMPEQUW_ => 33 | I_VCMPGEFP => 34 | I_VCMPGEFP_ => 35 | I_VCMPGTFP => 36
  | I_VCMPGTFP_ => 37 | I_VCMPGTSB => 38 | I_VCMPGTSB_ => 39 | I_VCMPGTSH => 40
  | I_VCMPGTSH_ => 41 | I_VCMPGTSW => 42 | I_VCMPGTSW_ => 43 | I_VCMPGTUB => 44
  | I_VCMPGTUB_ => 45 | I_VCMPGTUH => 46 | I_VCMPGTUH_ => 47 | I_VCMPGTUW => 48
  | I_VCMPGTUW_ => 49 | I_VCTSXS => 50 | I_VCTUXS => 51 | I_VEXPTEFP => 52 | I_VLOGEFP => 53
  | I_VMADDFP => 54 | I_VMAXFP => 55 | I_VMAXSB => 56 | I_VMAXSH => 57 | I_VMAXSW => 58
  | I_VMAXUB => 59 | I_VMAXUH => 60 | I_VMAXUW => 61 | I_VMHADDSHS => 62 | I_VMHRADDSHS => 63
  | I_VMINFP => 64 | I_VMINSB => 65 | I_VMINSH => 66 | I_VMINSW => 67 | I_VMINUB => 68
  | I_VMINUH => 69 | I_VMINUW => 70 | I_VMLADDUHM => 71 | I_VMRGHB => 72 | I_VMRGHH => 73
  | I_VMRGHW => 74 | I_VMRGLB => 75 | I_VMRGLH => 76 | I_VMRGLW => 77 | I_VMSUMMBM => 78
  | I_VMSUMSHM => 79 | I_VMSUMSHS => 80 | I_VMSUMUBM => 81 | I_VMSUMUHM => 82
  | I_VMSUMUHS => 83 | I_VMULESB => 84 | I_VMULESH => 85 | I_VMULEUB => 86 | I_VMULEUH => 87
  | I_VMULOSB => 88 | I_VMULOSH => 89 | I_VMULOUB => 90 | I_VMULOUH => 91 | I_VNMSUBFP => 92
  | I_VNOR => 93 | I_VOR => 94 | I_VPERM => 95 | I_VPKPX => 96 | I_VPKSHSS => 97
  | I_VPKSHUS => 98 | I_VPKSWSS => 99 | I_VPKSWUS => 100 | I_VPKUHUM => 101 | I_VPKUHUS => 102
  | I_VPKUWUM => 103 | I_VPKUWUS => 104 | I_VREFP => 105 | I_VRFIM => 106 | I_VRFIN => 107
  | I_VRFIP => 108 | I_VRFIZ => 109 | I_VRLB => 110 | I_VRLH => 111 | I_VRLW => 112
  | I_VRSQRTEFP => 113 | I_VSEL => 114 | I_VSL => 115 | I_VSLB => 116 | I_VSLDOI => 117
  | I_VSLH => 118 | I_VSLO => 119 | I_VSLW => 120 | I_VSPLTB => 121 | I_VSPLTH => 122
  | I_VSPLTISB => 123 | I_VSPLTISH => 124 | I_VSPLTISW => 125 | I_VSPLTW => 126 | I_VSR => 127
  | I_VSRAB => 128 | I_VSRAH => 129 | I_VSRAW => 130 | I_VSRB => 131 | I_VSRH => 132
  | I_VSRO => 133 | I_VSRW => 134 | I_VSUBCUW => 135 | I_VSUBFP => 136 | I_VSUBSBS => 137
  | I_VSUBSHS => 138 | I_VSUBSWS => 139 | I_VSUBUBM => 140 | I_VSUBUBS => 141
  | I_VSUBUHM => 142 | I_VSUBUHS => 143 | I_VSUBUWM => 144 | I_VSUBUWS => 145
  | I_VSUMSWS => 146 | I_VSUM2SWS => 147 | I_VSUM4SBS => 148 | I_VSUM4SHS => 149
  | I_VSUM4UBS => 150 | I_VUPKHPX => 151 | I_VUPKHSB => 152 | I_VUPKHSH => 153
  | I_VUPKLPX => 154 | I_VUPKLSB => 155 | I_VUPKLSH => 156 | I_VXOR => 157 | I_MULLI => 158
  | I_SUBFIC => 159 | I_ADDIC => 160 | I_ADDI => 161 | I_ADDIS => 162 | I_SC => 163
  | I_MCRF => 164 | I_CRNOR => 165 | I_CRANDC => 166 | I_ISYNC => 167 | I_CRXOR => 168
  | I_CRNAND => 169 | I_CRAND => 170 | I_CREQV => 171 | I_CRORC => 172 | I_CROR => 173
  | I_RLWIMI => 174 | I_RLWINM => 175 | I_RLWNM => 176 | I_ORI => 177 | I_ORIS => 178
  | I_XORI => 179 | I_XORIS => 180 | I_ANDI => 181 | I_ANDIS => 182 | I_RLDICL => 183
  | I_RLDICR => 184 | I_RLDIC => 185 | I_RLDIMI => 186 | I_RLDCL => 187 | I_RLDCR => 188
  | I_LVSL => 189 | I_LVEBX => 190 | I_SUBFC => 191 | I_SUBFCO => 192 | I_ADDC => 193
  | I_ADDCO => 194 | I_MULHDU => 195 | I_MULHWU => 196 | I_MFOCRF => 197 | I_LWARX => 198
  | I_LDX => 199 | I_LWZX => 200 | I_SLW => 201 | I_CNTLZW => 202 | I_SLD => 203 | I_AND => 204
  | I_LVSR => 205 | I_LVEHX => 206 | I_SUBF => 207 | I_SUBFO => 208 | I_LDUX => 209
  | I_LWZUX => 210 | I_CNTLZD => 211 | I_ANDC => 212 | I_LVEWX => 213 | I_MULHD => 214
  | I_MULHW => 215 | I_LDARX => 216 | I_DCBF => 217 | I_LBZX => 218 | I_LVX => 219
  | I_NEG => 220 | I_NEGO => 221 | I_LBZUX => 222 | I_NOR => 223 | I_SUBFE => 224
  | I_SUBFEO => 225 | I_ADDE => 226 | I_ADDEO => 227 | I_MTOCRF => 228 | I_SUBFZE => 229
  | I_SUBFZEO => 230 | I_ADDZE => 231 | I_ADDZEO => 232 | I_SUBFME => 233 | I_SUBFMEO => 234
  | I_MULLD => 235 | I_MULLDO => 236 | I_ADDME => 237 | I_ADDMEO => 238 | I_MULLW => 239
  | I_MULLWO => 240 | I_ADD => 241 | I_ADDO => 242 | I_LHZX => 243 | I_EQV => 244
  | I_ECIWX => 245 | I_LHZUX => 246 | I_XOR => 247 | I_MFSPR => 248 | I_LWAX => 249
  | I_LHAX => 250 | I_LVXL => 251 | I_MFTB => 252 | I_LWAUX => 253 | I_LHAUX => 254
  | I_ORC => 255 | I_ECOWX => 256 | I_OR => 257 | I_DIVDU => 258 | I_DIVDUO => 259
  | I_DIVWU => 260 | I_DIVWUO => 261 | I_MTSPR => 262 | I_NAND => 263 | I_DIVD => 264
  | I_DIVDO => 265 | I_DIVW => 266 | I_DIVWO => 267 | I_LVLX => 268 | I_LDBRX => 269
  | I_LSWX => 270 | I_LWBRX => 271 | I_LFSX => 272 | I_SRW => 273 | I_SRD => 274
  | I_LVRX => 275 | I_LSWI => 276 | I_LFSUX => 277 | I_LFDX => 278 | I_LFDUX => 279
  | I_LVLXL => 280 | I_LHBRX => 281 | I_SRAW => 282 | I_SRAD => 283 | I_LVRXL => 284
  | I_SRAWI => 285 | I_SRADI => 286 | I_EXTSH => 287 | I_EXTSB => 288 | I_EXTSW => 289
  | I_LWZ => 290 | I_LWZU => 291 | I_LBZ => 292 | I_LBZU => 293 | I_LHZ => 294 | I_LHZU => 295
  | I_LHA => 296 | I_LHAU => 297 | I_LMW => 298 | I_LFS => 299 | I_LFSU => 300 | I_LFD => 301
  | I_LFDU => 302 | I_LD => 303 | I_LDU => 304 | I_LWA => 305 | I_FDIVS => 306 | I_FSUBS => 307
  | I_FADDS => 308 | I_FSQRTS => 309 | I_FRES => 310 | I_FMULS => 311 | I_FMADDS => 312
  | I_FMSUBS => 313 | I_FNMSUBS => 314 | I_FNMADDS => 315 | I_MTFSB1 => 316 | I_MCRFS => 317
  | I_MTFSB0 => 318 | I_MTFSFI => 319 | I_MFFS => 320 | I_MTFSF => 321 | I_FCMPU => 322
  | I_FRSP => 323 | I_FCTIW => 324 | I_FCTIWZ => 325 | I_FDIV => 326 | I_FSUB => 327
  | I_FADD => 328 | I_FSQRT => 329 | I_FSEL => 330 | I_FMUL => 331 | I_FRSQRTE => 332
  | I_FMSUB => 333 | I_FMADD => 334 | I_FNMSUB => 335 | I_FNMADD => 336 | I_FCMPO => 337
  | I_FNEG => 338 | I_FMR => 339 | I_FNABS => 340 | I_FABS => 341 | I_FCTID => 342
  | I_FCTIDZ => 343 | I_FCFID => 344 | I_SUBFCO_ => 345 | I_ADDCO_ => 346 | I_SUBFO_ => 347
  | I_NEGO_ => 348 | I_SUBFEO_ => 349 | I_ADDEO_ => 350 | I_SUBFZEO_ => 351 | I_ADDZEO_ => 352
  | I_SUBFMEO_ => 353 | I_MULLDO_ => 354 | I_ADDMEO_ => 355 | I_MULLWO_ => 356 | I_ADDO_ => 357
  | I_DIVDUO_ => 358 | I_DIVWUO_ => 359 | I_DIVDO_ => 360 | I_DIVWO_ => 361 | I_RLWIMI_ => 362
  | I_RLWINM_ => 363 | I_RLWNM_ => 364 | I_RLDICL_ => 365 | I_RLDICR_ => 366 | I_RLDIC_ => 367
  | I_RLDIMI_ => 368 | I_RLDCL_ => 369 | I_RLDCR_ => 370 | I_SUBFC_ => 371 | I_MULHDU_ => 372
  | I_ADDC_ => 373 | I_MULHWU_ => 374 | I_SLW_ => 375 | I_CNTLZW_ => 376 | I_SLD_ => 377
  | I_AND_ => 378 | I_SUBF_ => 379 | I_CNTLZD_ => 380 | I_ANDC_ => 381 | I_MULHD_ => 382
  | I_MULHW_ => 383 | I_NEG_ => 384 | I_NOR_ => 385 | I_SUBFE_ => 386 | I_ADDE_ => 387
  | I_SUBFZE_ => 388 | I_ADDZE_ => 389 | I_MULLD_ => 390 | I_SUBFME_ => 391 | I_ADDME_ => 392
  | I_MULLW_ => 393 | I_ADD_ => 394 | I_EQV_ => 395 | I_XOR_ => 396 | I_ORC_ => 397
  | I_OR_ => 398 | I_DIVDU_ => 399 | I_DIVWU_ => 400 | I_NAND_ => 401 | I_DIVD_ => 402
  | I_DIVW_ => 403 | I_SRW_ => 404 | I_SRD_ => 405 | I_SRAW_ => 406 | I_SRAD_ => 407
  | I_SRAWI_ => 408 | I_SRADI_ => 409 | I_EXTSH_ => 410 | I_EXTSB_ => 411 | I_EXTSW_ => 412
  | I_FDIVS_ => 413 | I_FSUBS_ => 414 | I_FADDS_ => 415 | I_FSQRTS_ => 416 | I_FRES_ => 417
  | I_FMULS_ => 418 | I_FMADDS_ => 419 | I_FMSUBS_ => 420 | I_FNMSUBS_ => 421
  | I_FNMADDS_ => 422 | I_MTFSB1_ => 423 | I_MTFSB0_ => 424 | I_MTFSFI_ => 425 | I_MFFS_ => 426
  | I_MTFSF_ => 427 | I_FRSP_ => 428 | I_FCTIW_ => 429 | I_FCTIWZ_ => 430 | I_FDIV_ => 431
  | I_FSUB_ => 432 | I_FADD_ => 433 | I_FSQRT_ => 434 | I_FSEL_ => 435 | I_FMUL_ => 436
  | I_FRSQRTE_ => 437 | I_FMSUB_ => 438 | I_FMADD_ => 439 | I_FNMSUB_ => 440 | I_FNMADD_ => 441
  | I_FNEG_ => 442 | I_FMR_ => 443 | I_FNABS_ => 444 | I_FABS_ => 445 | I_FCTID_ => 446
  | I_FCTIDZ_ => 447 | I_FCFID_ => 448 | I_CMPLI => 449 | I_CMPI => 450 | I_CMP => 451
  | I_CMPL => 452 | I_STMW => 453 | I_STSWX => 454 | I_STSWI => 455 | I_STVXL => 456
  | I_STVLX => 457 | I_STVRX => 458 | I_STVEBX => 459 | I_STVEHX => 460 | I_STVEWX => 461
  | I_STVX => 462 | I_STVLXL => 463 | I_STVRXL => 464 | I_STDX => 465 | I_STDUX => 466
  | I_STDCX => 467 | I_STDBRX => 468 | I_STD => 469 | I_STDU => 470 | I_STFDUX => 471
  | I_STFDX => 472 | I_STFDU => 473 | I_STFD => 474 | I_STFS => 475 | I_STFSU => 476
  | I_STFSX => 477 | I_STFSUX => 478 | I_STFIWX => 479 | I_STWCX => 480 | I_STWX => 481
  | I_STWUX => 482 | I_STWBRX => 483 | I_STWU => 484 | I_STW => 485 | I_STHBRX => 486
  | I_STHX => 487 | I_STHUX => 488 | I_STH => 489 | I_STBX => 490 | I_STBU => 491
  | I_STB => 492 | I_STHU => 493 | I_STBUX => 494 | I_DCBZ => 495 | I_DCBI => 496
  | I_DCBTST => 497 | I_DCBT => 498 | I_DCBST => 499 | I_DST => 500 | I_DSS => 501
  | I_ICBI => 502 | I_SYNC => 503 | I_EIEIO => 504 | I_DSTST => 505 | I_B => 506 | I_BC => 507
  | I_BCLR => 508 | I_BCCTR => 509 | I_TD => 510 | I_TW => 511 | I_TDI => 512 | I_TWI => 513
  end.

Lemma itype_id_nth : forall t, nth_error all_itypes (Z.to_nat (itype_id t)) = Some t.
Proof. by intros []. Qed.

#[export] Instance itype_id_inj : Inj eq eq itype_id.
Proof.
  intros a b E. pose proof (itype_id_nth a) as Ha. rewrite E, itype_id_nth in Ha. by inversion Ha.
Qed.

#[export] Instance itype_eq_dec : EqDecision itype.
Proof. intros a b. destruct (decide (itype_id a = itype_id b)) as [E|E];
  [left; by apply itype_id_inj | right; congruence]. Defined.

(** ** The table *)

(** [instruction_info]: the value, the handler and its record form, the
    number of most significant bits the entry ignores. *)
Record instruction_info := Info { value : Z; ptr0 : itype; ptr_rc : itype; magn : Z }.

(** [GET(name)] and [GETRC(name)]. *)
Definition GET (v : Z) (t : itype) (m : Z) : instruction_info := Info v t t m.
Definition GETRC (v : Z) (t t_rc : itype) (m : Z) : instruction_info := Info v t t_rc m.

(** [m_table]: an array of 0x20000 slots, UNK where nothing was written. *)
Abbreviation table := (Pmap itype).
Definition slot (k : Z) : positive := Z.to_pos (k + 1).
Definition table_get (t : table) (k : Z) : itype := default I_UNK (t !! slot k).
Definition table_set (t : table) (k : Z) (v : itype) : table := <[slot k := v]> t.

Definition range (n : Z) : list Z := map Z.of_nat (seq 0 (Z.to_nat n)).

(** The slots one entry of [fill_table(main_op, count, sh, entries)] writes,
    in the order of the loops, each with whether its [k] is odd.  The main
    table passes [sh = -1], as a [u32]. *)
Definition entry_slots (main_op count sh : Z) (v : instruction_info) : list (Z * bool) :=
  if u32 sh <? 11 then
    flat_map (fun i => map (fun j =>
        let k := Z.lor (Z.shiftl (Z.lor (Z.shiftl i (count - magn v)) (value v)) sh) j in
        (Z.lor (Z.shiftl k 6) main_op, Z.odd k))
      (range (Z.shiftl 1 sh))) (range (Z.shiftl 1 (magn v + (11 - sh - count))))
  else map (fun i => (Z.lor (Z.shiftl i 6) (value v), Z.odd i)) (range (Z.shiftl 1 11)).

Definition fill_entry (main_op count sh : Z) (t : table) (v : instruction_info) : table :=
  fold_left (fun t '(k, odd) => table_set t k (if odd : bool then ptr_rc v else ptr0 v))
    (entry_slots main_op count sh v) t.
Definition fill_table (main_op count sh : Z) (entries : list instruction_info) (t : table) : table :=
  fold_left (fill_entry main_op count sh) entries t.

Definition group_00 : list instruction_info :=
  [GET 0x02 I_TDI 0; GET 0x03 I_TWI 0; GET 0x07 I_MULLI 0; GET 0x08 I_SUBFIC 0;
   GET 0x0a I_CMPLI 0; GET 0x0b I_CMPI 0; GET 0x0c I_ADDIC 0; GET 0x0d I_ADDIC 0;
   GET 0x0e I_ADDI 0; GET 0x0f I_ADDIS 0; GET 0x10 I_BC 0; GET 0x11 I_SC 0; GET 0x12 I_B 0;
   GETRC 0x14 I_RLWIMI I_RLWIMI_ 0; GETRC 0x15 I_RLWINM I_RLWINM_ 0;
   GETRC 0x17 I_RLWNM I_RLWNM_ 0; GET 0x18 I_ORI 0; GET 0x19 I_ORIS 0; GET 0x1a I_XORI 0;
   GET 0x1b I_XORIS 0; GET 0x1c I_ANDI 0; GET 0x1d I_ANDIS 0; GET 0x20 I_LWZ 0;
   GET 0x21 I_LWZU 0; GET 0x22 I_LBZ 0; GET 0x23 I_LBZU 0; GET 0x24 I_STW 0; GET 0x25 I_STWU 0;
   GET 0x26 I_STB 0; GET 0x27 I_STBU 0; GET 0x28 I_LHZ 0; GET 0x29 I_LHZU 0; GET 0x2a I_LHA 0;
   GET 0x2b I_LHAU 0; GET 0x2c I_STH 0; GET 0x2d I_STHU 0; GET 0x2e I_LMW 0; GET 0x2f I_STMW 0;
   GET 0x30 I_LFS 0; GET 0x31 I_LFSU 0; GET 0x32 I_LFD 0; GET 0x33 I_LFDU 0; GET 0x34 I_STFS 0;
   GET 0x35 I_STFSU 0; GET 0x36 I_STFD 0; GET 0x37 I_STFDU 0].

Definition group_04 : list instruction_info :=
  [GET 0x0 I_VADDUBM 0; GET 0x2 I_VMAXUB 0; GET 0x4 I_VRLB 0; GET 0x006 I_VCMPEQUB 0;
   GET 0x406 I_VCMPEQUB_ 0; GET 0x8 I_VMULOUB 0; GET 0xa I_VADDFP 0; GET 0xc I_VMRGHB 0;
   GET 0xe I_VPKUHUM 0; GET 0x20 I_VMHADDSHS 5; GET 0x21 I_VMHRADDSHS 5;
   GET 0x22 I_VMLADDUHM 5; GET 0x24 I_VMSUMUBM 5; GET 0x25 I_VMSUMMBM 5; GET 0x26 I_VMSUMUHM 5;
   GET 0x27 I_VMSUMUHS 5; GET 0x28 I_VMSUMSHM 5; GET 0x29 I_VMSUMSHS 5; GET 0x2a I_VSEL 5;
   GET 0x2b I_VPERM 5; GET 0x2c I_VSLDOI 5; GET 0x2e I_VMADDFP 5; GET 0x2f I_VNMSUBFP 5;
   GET 0x40 I_VADDUHM 0; GET 0x42 I_VMAXUH 0; GET 0x44 I_VRLH 0; GET 0x046 I_VCMPEQUH 0;
   GET 0x446 I_VCMPEQUH_ 0; GET 0x48 I_VMULOUH 0; GET 0x4a I_VSUBFP 0; GET 0x4c I_VMRGHH 0;
   GET 0x4e I_VPKUWUM 0; GET 0x80 I_VADDUWM 0; GET 0x82 I_VMAXUW 0; GET 0x84 I_VRLW 0;
   GET 0x086 I_VCMPEQUW 0; GET 0x486 I_VCMPEQUW_ 0; GET 0x8c I_VMRGHW 0; GET 0x8e I_VPKUHUS 0;
   GET 0x0c6 I_VCMPEQFP 0; GET 0x4c6 I_VCMPEQFP_ 0; GET 0xce I_VPKUWUS 0; GET 0x102 I_VMAXSB 0;
   GET 0x104 I_VSLB 0; GET 0x108 I_VMULOSB 0; GET 0x10a I_VREFP 0; GET 0x10c I_VMRGLB 0;
   GET 0x10e I_VPKSHUS 0; GET 0x142 I_VMAXSH 0; GET 0x144 I_VSLH 0; GET 0x148 I_VMULOSH 0;
   GET 0x14a I_VRSQRTEFP 0; GET 0x14c I_VMRGLH 0; GET 0x14e I_VPKSWUS 0; GET 0x180 I_VADDCUW 0;
   GET 0x182 I_VMAXSW 0; GET 0x184 I_VSLW 0; GET 0x18a I_VEXPTEFP 0; GET 0x18c I_VMRGLW 0;
   GET 0x18e I_VPKSHSS 0; GET 0x1c4 I_VSL 0; GET 0x1c6 I_VCMPGEFP 0; GET 0x5c6 I_VCMPGEFP_ 0;
   GET 0x1ca I_VLOGEFP 0; GET 0x1ce I_VPKSWSS 0; GET 0x200 I_VADDUBS 0; GET 0x202 I_VMINUB 0;
   GET 0x204 I_VSRB 0; GET 0x206 I_VCMPGTUB 0; GET 0x606 I_VCMPGTUB_ 0; GET 0x208 I_VMULEUB 0;
   GET 0x20a I_VRFIN 0; GET 0x20c I_VSPLTB 0; GET 0x20e I_VUPKHSB 0; GET 0x240 I_VADDUHS 0;
   GET 0x242 I_VMINUH 0; GET 0x244 I_VSRH 0; GET 0x246 I_VCMPGTUH 0; GET 0x646 I_VCMPGTUH_ 0;
   GET 0x248 I_VMULEUH 0; GET 0x24a I_VRFIZ 0; GET 0x24c I_VSPLTH 0; GET 0x24e I_VUPKHSH 0;
   GET 0x280 I_VADDUWS 0; GET 0x282 I_VMINUW 0; GET 0x284 I_VSRW 0; GET 0x286 I_VCMPGTUW 0;
   GET 0x686 I_VCMPGTUW_ 0; GET 0x28a I_VRFIP 0; GET 0x28c I_VSPLTW 0; GET 0x28e I_VUPKLSB 0;
   GET 0x2c4 I_VSR 0; GET 0x2c6 I_VCMPGTFP 0; GET 0x6c6 I_VCMPGTFP_ 0; GET 0x2ca I_VRFIM 0;
   GET 0x2ce I_VUPKLSH 0; GET 0x300 I_VADDSBS 0; GET 0x302 I_VMINSB 0; GET 0x304 I_VSRAB 0;
   GET 0x306 I_VCMPGTSB 0; GET 0x706 I_VCMPGTSB_ 0; GET 0x308 I_VMULESB 0; GET 0x30a I_VCFUX 0;
   GET 0x30c I_VSPLTISB 0; GET 0x30e I_VPKPX 0; GET 0x340 I_VADDSHS 0; GET 0x342 I_VMINSH 0;
   GET 0x344 I_VSRAH 0; GET 0x346 I_VCMPGTSH 0; GET 0x746 I_VCMPGTSH_ 0; GET 0x348 I_VMULESH 0;
   GET 0x34a I_VCFSX 0; GET 0x34c I_VSPLTISH 0; GET 0x34e I_VUPKHPX 0; GET 0x380 I_VADDSWS 0;
   GET 0x382 I_VMINSW 0; GET 0x384 I_VSRAW 0; GET 0x386 I_VCMPGTSW 0; GET 0x786 I_VCMPGTSW_ 0;
   GET 0x38a I_VCTUXS 0; GET 0x38c I_VSPLTISW 0; GET 0x3c6 I_VCMPBFP 0; GET 0x7c6 I_VCMPBFP_ 0;
   GET 0x3ca I_VCTSXS 0; GET 0x3ce I_VUPKLPX 0; GET 0x400 I_VSUBUBM 0; GET 0x402 I_VAVGUB 0;
   GET 0x404 I_VAND 0; GET 0x40a I_VMAXFP 0; GET 0x40c I_VSLO 0; GET 0x440 I_VSUBUHM 0;
   GET 0x442 I_VAVGUH 0; GET 0x444 I_VANDC 0; GET 0x44a I_VMINFP 0; GET 0x44c I_VSRO 0;
   GET 0x480 I_VSUBUWM 0; GET 0x482 I_VAVGUW 0; GET 0x484 I_VOR 0; GET 0x4c4 I_VXOR 0;
   GET 0x502 I_VAVGSB 0; GET 0x504 I_VNOR 0; GET 0x542 I_VAVGSH 0; GET 0x580 I_VSUBCUW 0;
   GET 0x582 I_VAVGSW 0; GET 0x600 I_VSUBUBS 0; GET 0x604 I_MFVSCR 0; GET 0x608 I_VSUM4UBS 0;
   GET 0x640 I_VSUBUHS 0; GET 0x644 I_MTVSCR 0; GET 0x648 I_VSUM4SHS 0; GET 0x680 I_VSUBUWS 0;
   GET 0x688 I_VSUM2SWS 0; GET 0x700 I_VSUBSBS 0; GET 0x708 I_VSUM4SBS 0;
   GET 0x740 I_VSUBSHS 0; GET 0x780 I_VSUBSWS 0; GET 0x788 I_VSUMSWS 0].

Definition group_13 : list instruction_info :=
  [GET 0x000 I_MCRF 0; GET 0x010 I_BCLR 0; GET 0x021 I_CRNOR 0; GET 0x081 I_CRANDC 0;
   GET 0x096 I_ISYNC 0; GET 0x0c1 I_CRXOR 0; GET 0x0e1 I_CRNAND 0; GET 0x101 I_CRAND 0;
   GET 0x121 I_CREQV 0; GET 0x1a1 I_CRORC 0; GET 0x1c1 I_CROR 0; GET 0x210 I_BCCTR 0].

Definition group_1e : list instruction_info :=
  [GETRC 0x0 I_RLDICL I_RLDICL_ 0; GETRC 0x1 I_RLDICL I_RLDICL_ 0;
   GETRC 0x2 I_RLDICR I_RLDICR_ 0; GETRC 0x3 I_RLDICR I_RLDICR_ 0;
   GETRC 0x4 I_RLDIC I_RLDIC_ 0; GETRC 0x5 I_RLDIC I_RLDIC_ 0; GETRC 0x6 I_RLDIMI I_RLDIMI_ 0;
   GETRC 0x7 I_RLDIMI I_RLDIMI_ 0; GETRC 0x8 I_RLDCL I_RLDCL_ 0; GETRC 0x9 I_RLDCR I_RLDCR_ 0].

Definition group_1f : list instruction_info :=
  [GET 0x000 I_CMP 0; GET 0x004 I_TW 0; GET 0x006 I_LVSL 0; GET 0x007 I_LVEBX 0;
   GETRC 0x008 I_SUBFC I_SUBFC_ 0; GETRC 0x208 I_SUBFCO I_SUBFCO_ 0;
   GETRC 0x009 I_MULHDU I_MULHDU_ 0; GETRC 0x00a I_ADDC I_ADDC_ 0;
   GETRC 0x20a I_ADDCO I_ADDCO_ 0; GETRC 0x00b I_MULHWU I_MULHWU_ 0; GET 0x013 I_MFOCRF 0;
   GET 0x014 I_LWARX 0; GET 0x015 I_LDX 0; GET 0x017 I_LWZX 0; GETRC 0x018 I_SLW I_SLW_ 0;
   GETRC 0x01a I_CNTLZW I_CNTLZW_ 0; GETRC 0x01b I_SLD I_SLD_ 0; GETRC 0x01c I_AND I_AND_ 0;
   GET 0x020 I_CMPL 0; GET 0x026 I_LVSR 0; GET 0x027 I_LVEHX 0; GETRC 0x028 I_SUBF I_SUBF_ 0;
   GETRC 0x228 I_SUBFO I_SUBFO_ 0; GET 0x035 I_LDUX 0; GET 0x036 I_DCBST 0;
   GET 0x037 I_LWZUX 0; GETRC 0x03a I_CNTLZD I_CNTLZD_ 0; GETRC 0x03c I_ANDC I_ANDC_ 0;
   GET 0x044 I_TD 0; GET 0x047 I_LVEWX 0; GETRC 0x049 I_MULHD I_MULHD_ 0;
   GETRC 0x04b I_MULHW I_MULHW_ 0; GET 0x054 I_LDARX 0; GET 0x056 I_DCBF 0; GET 0x057 I_LBZX 0;
   GET 0x067 I_LVX 0; GETRC 0x068 I_NEG I_NEG_ 0; GETRC 0x268 I_NEGO I_NEGO_ 0;
   GET 0x077 I_LBZUX 0; GETRC 0x07c I_NOR I_NOR_ 0; GET 0x087 I_STVEBX 0;
   GETRC 0x088 I_SUBFE I_SUBFE_ 0; GETRC 0x288 I_SUBFEO I_SUBFEO_ 0;
   GETRC 0x08a I_ADDE I_ADDE_ 0; GETRC 0x28a I_ADDEO I_ADDEO_ 0; GET 0x090 I_MTOCRF 0;
   GET 0x095 I_STDX 0; GET 0x096 I_STWCX 0; GET 0x097 I_STWX 0; GET 0x0a7 I_STVEHX 0;
   GET 0x0b5 I_STDUX 0; GET 0x0b7 I_STWUX 0; GET 0x0c7 I_STVEWX 0;
   GETRC 0x0c8 I_SUBFZE I_SUBFZE_ 0; GETRC 0x2c8 I_SUBFZEO I_SUBFZEO_ 0;
   GETRC 0x0ca I_ADDZE I_ADDZE_ 0; GETRC 0x2ca I_ADDZEO I_ADDZEO_ 0; GET 0x0d6 I_STDCX 0;
   GET 0x0d7 I_STBX 0; GET 0x0e7 I_STVX 0; GETRC 0x0e8 I_SUBFME I_SUBFME_ 0;
   GETRC 0x2e8 I_SUBFMEO I_SUBFMEO_ 0; GETRC 0x0e9 I_MULLD I_MULLD_ 0;
   GETRC 0x2e9 I_MULLDO I_MULLDO_ 0; GETRC 0x0ea I_ADDME I_ADDME_ 0;
   GETRC 0x2ea I_ADDMEO I_ADDMEO_ 0; GETRC 0x0eb I_MULLW I_MULLW_ 0;
   GETRC 0x2eb I_MULLWO I_MULLWO_ 0; GET 0x0f6 I_DCBTST 0; GET 0x0f7 I_STBUX 0;
   GETRC 0x10a I_ADD I_ADD_ 0; GETRC 0x30a I_ADDO I_ADDO_ 0; GET 0x116 I_DCBT 0;
   GET 0x117 I_LHZX 0; GETRC 0x11c I_EQV I_EQV_ 0; GET 0x136 I_ECIWX 0; GET 0x137 I_LHZUX 0;
   GETRC 0x13c I_XOR I_XOR_ 0; GET 0x153 I_MFSPR 0; GET 0x155 I_LWAX 0; GET 0x156 I_DST 0;
   GET 0x157 I_LHAX 0; GET 0x167 I_LVXL 0; GET 0x173 I_MFTB 0; GET 0x175 I_LWAUX 0;
   GET 0x176 I_DSTST 0; GET 0x177 I_LHAUX 0; GET 0x197 I_STHX 0; GETRC 0x19c I_ORC I_ORC_ 0;
   GET 0x1b6 I_ECOWX 0; GET 0x1b7 I_STHUX 0; GETRC 0x1bc I_OR I_OR_ 0;
   GETRC 0x1c9 I_DIVDU I_DIVDU_ 0; GETRC 0x3c9 I_DIVDUO I_DIVDUO_ 0;
   GETRC 0x1cb I_DIVWU I_DIVWU_ 0; GETRC 0x3cb I_DIVWUO I_DIVWUO_ 0; GET 0x1d3 I_MTSPR 0;
   GET 0x1d6 I_DCBI 0; GETRC 0x1dc I_NAND I_NAND_ 0; GET 0x1e7 I_STVXL 0;
   GETRC 0x1e9 I_DIVD I_DIVD_ 0; GETRC 0x3e9 I_DIVDO I_DIVDO_ 0; GETRC 0x1eb I_DIVW I_DIVW_ 0;
   GETRC 0x3eb I_DIVWO I_DIVWO_ 0; GET 0x207 I_LVLX 0; GET 0x214 I_LDBRX 0; GET 0x215 I_LSWX 0;
   GET 0x216 I_LWBRX 0; GET 0x217 I_LFSX 0; GETRC 0x218 I_SRW I_SRW_ 0;
   GETRC 0x21b I_SRD I_SRD_ 0; GET 0x227 I_LVRX 0; GET 0x237 I_LFSUX 0; GET 0x255 I_LSWI 0;
   GET 0x256 I_SYNC 0; GET 0x257 I_LFDX 0; GET 0x277 I_LFDUX 0; GET 0x287 I_STVLX 0;
   GET 0x294 I_STDBRX 0; GET 0x295 I_STSWX 0; GET 0x296 I_STWBRX 0; GET 0x297 I_STFSX 0;
   GET 0x2a7 I_STVRX 0; GET 0x2b7 I_STFSUX 0; GET 0x2d5 I_STSWI 0; GET 0x2d7 I_STFDX 0;
   GET 0x2f7 I_STFDUX 0; GET 0x307 I_LVLXL 0; GET 0x316 I_LHBRX 0;
   GETRC 0x318 I_SRAW I_SRAW_ 0; GETRC 0x31a I_SRAD I_SRAD_ 0; GET 0x327 I_LVRXL 0;
   GET 0x336 I_DSS 0; GETRC 0x338 I_SRAWI I_SRAWI_ 0; GETRC 0x33a I_SRADI I_SRADI_ 0;
   GETRC 0x33b I_SRADI I_SRADI_ 0; GET 0x356 I_EIEIO 0; GET 0x387 I_STVLXL 0;
   GET 0x396 I_STHBRX 0; GETRC 0x39a I_EXTSH I_EXTSH_ 0; GET 0x3a7 I_STVRXL 0;
   GETRC 0x3ba I_EXTSB I_EXTSB_ 0; GET 0x3d7 I_STFIWX 0; GETRC 0x3da I_EXTSW I_EXTSW_ 0;
   GET 0x3d6 I_ICBI 0; GET 0x3f6 I_DCBZ 0].

Definition group_3a : list instruction_info :=
  [GET 0x0 I_LD 0; GET 0x1 I_LDU 0; GET 0x2 I_LWA 0].

Definition group_3b : list instruction_info :=
  [GETRC 0x12 I_FDIVS I_FDIVS_ 5; GETRC 0x14 I_FSUBS I_FSUBS_ 5; GETRC 0x15 I_FADDS I_FADDS_ 5;
   GETRC 0x16 I_FSQRTS I_FSQRTS_ 5; GETRC 0x18 I_FRES I_FRES_ 5; GETRC 0x19 I_FMULS I_FMULS_ 5;
   GETRC 0x1c I_FMSUBS I_FMSUBS_ 5; GETRC 0x1d I_FMADDS I_FMADDS_ 5;
   GETRC 0x1e I_FNMSUBS I_FNMSUBS_ 5; GETRC 0x1f I_FNMADDS I_FNMADDS_ 5].

Definition group_3e : list instruction_info :=
  [GET 0x0 I_STD 0; GET 0x1 I_STDU 0].

Definition group_3f : list instruction_info :=
  [GETRC 0x026 I_MTFSB1 I_MTFSB1_ 0; GET 0x040 I_MCRFS 0; GETRC 0x046 I_MTFSB0 I_MTFSB0_ 0;
   GETRC 0x086 I_MTFSFI I_MTFSFI_ 0; GETRC 0x247 I_MFFS I_MFFS_ 0;
   GETRC 0x2c7 I_MTFSF I_MTFSF_ 0; GET 0x000 I_FCMPU 0; GETRC 0x00c I_FRSP I_FRSP_ 0;
   GETRC 0x00e I_FCTIW I_FCTIW_ 0; GETRC 0x00f I_FCTIWZ I_FCTIWZ_ 0;
   GETRC 0x012 I_FDIV I_FDIV_ 5; GETRC 0x014 I_FSUB I_FSUB_ 5; GETRC 0x015 I_FADD I_FADD_ 5;
   GETRC 0x016 I_FSQRT I_FSQRT_ 5; GETRC 0x017 I_FSEL I_FSEL_ 5; GETRC 0x019 I_FMUL I_FMUL_ 5;
   GETRC 0x01a I_FRSQRTE I_FRSQRTE_ 5; GETRC 0x01c I_FMSUB I_FMSUB_ 5;
   GETRC 0x01d I_FMADD I_FMADD_ 5; GETRC 0x01e I_FNMSUB I_FNMSUB_ 5;
   GETRC 0x01f I_FNMADD I_FNMADD_ 5; GET 0x020 I_FCMPO 0; GETRC 0x028 I_FNEG I_FNEG_ 0;
   GETRC 0x048 I_FMR I_FMR_ 0; GETRC 0x088 I_FNABS I_FNABS_ 0; GETRC 0x108 I_FABS I_FABS_ 0;
   GETRC 0x32e I_FCTID I_FCTID_ 0; GETRC 0x32f I_FCTIDZ I_FCTIDZ_ 0;
   GETRC 0x34e I_FCFID I_FCFID_ 0].

(** The calls of [fill_table] in the constructor, in their order. *)
Definition groups : list (Z * Z * Z * list instruction_info) :=
  [(0x00, 6, -1, group_00);
   (0x04, 11, 0, group_04);
   (0x13, 10, 1, group_13);
   (0x1e, 4, 1, group_1e);
   (0x1f, 10, 1, group_1f);
   (0x3a, 2, 0, group_3a);
   (0x3b, 10, 1, group_3b);
   (0x3e, 2, 0, group_3e);
   (0x3f, 10, 1, group_3f)].

Definition m_table : table :=
  fold_left (fun t '(main_op, count, sh, es) => fill_table main_op count sh es t) groups ∅.

(** [ppu_decode] and [ppu_decoder::decode]. *)
Definition ppu_decode (inst : Z) : Z :=
  Z.land (Z.lor (Z.shiftr inst 26) (u32 (Z.shiftl inst 6))) 0x1ffff.
Definition decoder_decode (t : table) (inst : Z) : itype := table_get t (ppu_decode inst).

(** ** The interpreter's decoder *)

(** What [ppu_interpreter_rt::decode] returns: a handler that throws, one of
    the specialised forms, or the handler of the table. *)
Inductive handler : Set :=
  | H_invalid
  | H_VSLDOI (vsh : Z)
  | H_MFOCRF (n : Z)
  | H_MFCR
  | H_table (t : itype).

Definition op_vsh (op : Z) : Z := ppu_bf 22 4 op.

Definition interpreter_decode (t : table) (op : Z) : handler :=
  match decoder_decode t op with
  | I_LWZ | I_LBZ | I_STW | I_STB | I_LHZ | I_LHA | I_STH | I_LFS | I_LFD | I_STFS | I_STFD =>
      if op_ra op =? 0 then H_invalid else H_table (decoder_decode t op)
  | I_VSLDOI => H_VSLDOI (op_vsh op)
  | I_MFOCRF =>
      if op_l11 op then
        let n := Z.land (countl_zero 32 (op_crm op)) 7 in
        if negb (Z.shiftr 0x80 n =? op_crm op) then H_invalid else H_MFOCRF n
      else H_MFCR
  | _ => H_table (decoder_decode t op)
  end.
(** ** The table against the opcode map

    The reference: an entry of a group matches an instruction word when the
    main opcodes agree and the extended opcode field, without the [magn] bits
    the entry ignores, has its value.  [xo] is the low eleven bits of the word. *)

Definition entry : Type := Z * Z * Z * instruction_info.

Definition all_entries : list entry :=
  flat_map (fun '(main_op, count, sh, es) => map (fun e => (main_op, count, sh, e)) es) groups.

Definition entry_matches (main xo : Z) (e : entry) : bool :=
  let '(main_op, count, sh, v) := e in
  if u32 sh <? 11
  then (main =? main_op) && (Z.shiftr xo sh mod 2 ^ (count - magn v) =? value v)
  else main =? value v.

Definition entry_pick (xo : Z) (e : entry) : itype :=
  if Z.odd xo then ptr_rc (snd e) else ptr0 (snd e).

(** The handler of the one entry that matches; [None] if several do. *)
Definition ref_decode_in (es : list entry) (main xo : Z) : option itype :=
  match List.filter (entry_matches main xo) es with
  | [] => Some I_UNK
  | [e] => Some (entry_pick xo e)
  | _ => None
  end.
Abbreviation ref_decode := (ref_decode_in all_entries).

(** Entries the loops of [fill_table] handle without leaving the table. *)
Definition entry_wf (e : entry) : bool :=
  let '(main_op, count, sh, v) := e in
  if u32 sh <? 11 then
    (0 <=? main_op) && (main_op <? 64) && (0 <=? sh) && (0 <=? magn v) && (magn v <=? count) &&
    (sh + count <=? 11) && (0 <=? value v) && (value v <? 2 ^ (count - magn v))
  else (0 <=? value v) && (value v <? 64).

(** Two entries that no word matches together. *)
Definition entry_disjoint (a b : entry) : bool :=
  let '(m1, c1, s1, v1) := a in
  let '(m2, c2, s2, v2) := b in
  match u32 s1 <? 11, u32 s2 <? 11 with
  | true, true =>
      negb (m1 =? m2) ||
      ((s1 =? s2) &&
       negb (value v1 mod 2 ^ Z.min (c1 - magn v1) (c2 - magn v2) =?
             value v2 mod 2 ^ Z.min (c1 - magn v1) (c2 - magn v2)))
  | true, false => negb (m1 =? value v2)
  | false, true => negb (value v1 =? m2)
  | false, false => negb (value v1 =? value v2)
  end.

Fixpoint pairwise (es : list entry) : bool :=
  match es with [] => true | e :: es => forallb (entry_disjoint e) es && pairwise es end.

Lemma all_entries_wf : forallb entry_wf all_entries = true.
Proof. vm_cast_no_check (eq_refl true). Qed.

Lemma all_entries_pairwise : pairwise all_entries = true.
Proof. vm_cast_no_check (eq_refl true). Qed.

Lemma in_range n x : In x (range n) <-> 0 <= x < n.
Proof.
  unfold range. rewrite in_map_iff. split.
  - intros (k & <- & Hk%in_seq). lia.
  - intros Hx. exists (Z.to_nat x). rewrite in_seq. lia.
Qed.

#[local] Opaque range.

(** One entry writes exactly the slots of the words it matches. *)
Lemma entry_slots_spec main_op count sh v k b :
  entry_wf (main_op, count, sh, v) = true ->
  In (k, b) (entry_slots main_op count sh v) <->
  0 <= k < 0x20000 /\ entry_matches (k mod 64) (k / 64) (main_op, count, sh, v) = true /\
  b = Z.odd (k / 64).
Proof.
  unfold entry_wf, entry_slots, entry_matches. destruct (u32 sh <? 11).
  - intros Hwf. rewrite in_flat_map. setoid_rewrite in_map_iff. setoid_rewrite in_range.
    set (w := count - magn v) in *.
    assert (Hw : 0 <= w /\ 0 <= sh /\ sh + w <= 11 /\ magn v + (11 - sh - count) = 11 - sh - w
      /\ 0 <= value v < 2 ^ w /\ 0 <= main_op < 64) by (unfold w in *; lia).
    clear Hwf. destruct Hw as (Hw & Hs & Hle & -> & Hv & Hm).
    pose proof (pow2_pos sh Hs). pose proof (pow2_pos w Hw).
    rewrite !Z.shiftl_1_l, andb_true_iff, !Z.eqb_eq, Z.shiftr_div_pow2 by lia.
    assert (P : 2 ^ 11 = 2 ^ (11 - sh - w) * 2 ^ w * 2 ^ sh)
      by (rewrite <- !Z.pow_add_r by lia; f_equal; lia).
    change (2 ^ 11) with 2048 in P.
    split.
    + intros (i & Hi & j & E & Hj). rewrite !lor_shiftl_add in E by lia.
      set (q := (i * 2 ^ w + value v) * 2 ^ sh + j) in *. injection E as <- <-.
      assert (Hq : 0 <= q < 2048).
      { pose proof (Z.mul_le_mono_nonneg_r (i + 1) (2 ^ (11 - sh - w)) (2 ^ w)) as M1.
        pose proof (Z.mul_le_mono_nonneg_r (i * 2 ^ w + value v + 1)
          (2 ^ (11 - sh - w) * 2 ^ w) (2 ^ sh)) as M2.
        assert (0 <= i * 2 ^ w) by (apply Z.mul_nonneg_nonneg; lia).
        assert (0 <= (i * 2 ^ w + value v) * 2 ^ sh) by (apply Z.mul_nonneg_nonneg; lia).
        unfold q. lia. }
      change (2 ^ 6) with 64.
      replace ((q * 64 + main_op) / 64) with q by zlia.
      replace ((q * 64 + main_op) mod 64) with main_op by zlia.
      repeat split; try lia.
      unfold q. rewrite Z.div_add_l, (Z.div_small j), Z.add_0_r by lia.
      rewrite Z.add_comm, Z.mod_add by lia. apply Z.mod_small; lia.
    + intros (Hk & (Hmain & Hval) & ->). set (q := k / 64) in *.
      assert (Hq : 0 <= q < 2048) by (unfold q; zlia).
      exists (q / 2 ^ sh / 2 ^ w). split.
      { split; [apply Z.div_pos; [apply Z.div_pos|]; lia|].
        apply Z.div_lt_upper_bound; [lia|]. apply Z.div_lt_upper_bound; [lia|]. lia. }
      exists (q mod 2 ^ sh). rewrite !lor_shiftl_add by (first [lia | apply Z.mod_pos_bound; lia]).
      rewrite <- Hval, (Z.mul_comm _ (2 ^ w)), <- Z.div_mod by lia.
      rewrite (Z.mul_comm _ (2 ^ sh)), <- Z.div_mod by lia.
      split; [|apply Z.mod_pos_bound; lia]. f_equal. unfold q. zlia.
  - intros [Hv0 Hv1]%andb_prop. rewrite in_map_iff. setoid_rewrite in_range.
    change (Z.shiftl 1 11) with 2048. rewrite Z.eqb_eq. split.
    + intros (i & E & Hi). rewrite lor_shiftl_add in E by lia. change (2 ^ 6) with 64 in E.
      injection E as <- <-. replace ((i * 64 + value v) / 64) with i by zlia.
      repeat split; zlia.
    + intros (Hk & Hm & ->). exists (k / 64).
      rewrite lor_shiftl_add by lia. change (2 ^ 6) with 64.
      split; [f_equal|]; zlia.
Qed.

Lemma table_get_set t k k' v : 0 <= k -> 0 <= k' ->
  table_get (table_set t k v) k' = if k' =? k then v else table_get t k'.
Proof.
  intros Hk Hk'. unfold table_get, table_set. destruct (Z.eqb_spec k' k) as [->|N].
  - by rewrite lookup_insert_eq.
  - rewrite lookup_insert_ne; [done|]. unfold slot. lia.
Qed.

(** Writing a list of slots that agree on the parity of a slot. *)
Lemma table_get_fold (v : instruction_info) ws : forall t k, 0 <= k ->
  (forall k' b, In (k', b) ws -> 0 <= k' /\ b = Z.odd (k' / 64)) ->
  table_get (fold_left (fun t '(k, odd) => table_set t k (if odd : bool then ptr_rc v else ptr0 v)) ws t) k
  = if existsb (fun '(k', _) => k' =? k) ws
    then (if Z.odd (k / 64) then ptr_rc v else ptr0 v) else table_get t k.
Proof.
  induction ws as [|[k0 b0] ws IH]; intros t k Hk Hws; [done|].
  cbn [fold_left existsb]. rewrite IH; [|done|intros; apply Hws; by right].
  destruct (Hws k0 b0) as [Hk0 ->]; [by left|]. rewrite table_get_set by done.
  rewrite (Z.eqb_sym k0 k). destruct (existsb _ ws) eqn:E; [by rewrite orb_true_r|].
  rewrite orb_false_r. by destruct (Z.eqb_spec k k0) as [->|].
Qed.

Lemma fill_entry_spec main_op count sh v t k :
  entry_wf (main_op, count, sh, v) = true -> 0 <= k < 0x20000 ->
  table_get (fill_entry main_op count sh t v) k
  = if entry_matches (k mod 64) (k / 64) (main_op, count, sh, v)
    then entry_pick (k / 64) (main_op, count, sh, v) else table_get t k.
Proof.
  intros Hwf Hk. unfold fill_entry. rewrite table_get_fold; [|lia|].
  - assert (existsb (fun '(k', _) => k' =? k) (entry_slots main_op count sh v)
      = entry_matches (k mod 64) (k / 64) (main_op, count, sh, v)) as ->; [|done].
    apply eq_true_iff_eq. rewrite existsb_exists. split.
    + intros ([k' b] & Hin & ->%Z.eqb_eq). by apply entry_slots_spec in Hin as (_ & ? & _).
    + intros Hm. exists (k, Z.odd (k / 64)). split; [|lia].
      apply entry_slots_spec; [done|]. done.
  - intros k' b Hin. apply entry_slots_spec in Hin as (? & _ & ->); [|done]. split; [lia|done].
Qed.

Definition fill_all (es : list entry) (t : table) : table :=
  fold_left (fun t '(main_op, count, sh, v) => fill_entry main_op count sh t v) es t.

Lemma fill_all_app es es' t : fill_all (es ++ es') t = fill_all es' (fill_all es t).
Proof. apply fold_left_app. Qed.

Lemma fill_table_all main_op count sh es t :
  fill_table main_op count sh es t = fill_all (map (fun e => (main_op, count, sh, e)) es) t.
Proof. revert t; induction es as [|e es IH]; intros t; [done|]. apply IH. Qed.

Lemma m_table_all : m_table = fill_all all_entries ∅.
Proof.
  unfold m_table, all_entries. generalize (∅ : table).
  induction groups as [|[[[m c] s] es] gs IH]; intros t; [done|].
  cbn [fold_left flat_map]. rewrite fill_all_app, <- fill_table_all. apply IH.
Qed.

Lemma fill_all_spec es : forallb entry_wf es = true -> forall t k, 0 <= k < 0x20000 ->
  table_get (fill_all es t) k =
  fold_left (fun acc e => entry_pick (k / 64) e)
    (List.filter (entry_matches (k mod 64) (k / 64)) es) (table_get t k).
Proof.
  induction es as [|[[[m c] s] v] es IH]; intros Hwf t k Hk; [done|].
  cbn [forallb] in Hwf. apply andb_prop in Hwf as [Hwf1 Hwf2].
  cbn [fill_all fold_left List.filter]. unfold fill_all in IH.
  rewrite IH, fill_entry_spec by done.
  by destruct (entry_matches _ _ _).
Qed.

(** Disjoint entries have no common match. *)
Lemma entry_disjoint_spec main xo a b :
  entry_wf a = true -> entry_wf b = true -> entry_disjoint a b = true ->
  entry_matches main xo a = true -> entry_matches main xo b = true -> False.
Proof.
  destruct a as [[[m1 c1] s1] v1], b as [[[m2 c2] s2] v2].
  unfold entry_wf, entry_disjoint, entry_matches.
  destruct (u32 s1 <? 11), (u32 s2 <? 11); try lia.
  intros W1 W2 D [->%Z.eqb_eq V1%Z.eqb_eq]%andb_prop [->%Z.eqb_eq V2%Z.eqb_eq]%andb_prop.
  rewrite Z.eqb_refl in D. apply andb_prop in D as [->%Z.eqb_eq D].
  fold (uint (c1 - magn v1) (Z.shiftr xo s2)) in V1.
  fold (uint (c2 - magn v2) (Z.shiftr xo s2)) in V2.
  set (w := Z.min (c1 - magn v1) (c2 - magn v2)) in *.
  fold (uint w (value v1)) (uint w (value v2)) in D.
  rewrite <- V1, <- V2, !uint_narrow, Z.eqb_refl in D by (unfold w; lia). done.
Qed.

Lemma pairwise_filter main xo es :
  forallb entry_wf es = true -> pairwise es = true ->
  (length (List.filter (entry_matches main xo) es) <= 1)%nat.
Proof.
  induction es as [|e es IH]; intros Hwf Hp; cbn [List.filter length]; [lia|].
  cbn [forallb pairwise] in Hwf, Hp.
  apply andb_prop in Hwf as [We Wes]. apply andb_prop in Hp as [De Des].
  specialize (IH Wes Des). destruct (entry_matches main xo e) eqn:Ee; [|done].
  destruct (List.filter _ es) as [|e' l] eqn:Ef; [done|].
  assert (In e' (List.filter (entry_matches main xo) es)) as [Hin Hm]%filter_In
    by (rewrite Ef; by left).
  rewrite forallb_forall in De, Wes. exfalso.
  apply (entry_disjoint_spec main xo e e'); auto.
Qed.

Lemma ppu_decode_split inst : in_uint 32 inst ->
  ppu_decode inst = op_main inst + 64 * uint 11 inst.
Proof.
  intros Hi. unfold ppu_decode, op_main. rewrite ppu_bf_uint by lia.
  assert (Hs : 0 <= Z.shiftr inst 26 < 2 ^ 6).
  { rewrite Z.shiftr_div_pow2 by lia. unfold in_uint in Hi. change (2 ^ 26) with 67108864.
    change (2 ^ 6) with 64. change (2 ^ 32) with 4294967296 in Hi. zlia. }
  rewrite uint_shiftl, Z.lor_comm, lor_shiftl_add by lia.
  change 0x1ffff with (2 ^ 17 - 1). rewrite land_ones_uint by lia.
  change (32 - 6 - 0) with 26. change (32 - 6) with 26.
  rewrite !Z.shiftr_div_pow2 by lia. unfold uint, in_uint in *.
  change (2 ^ 26) with 67108864. change (2 ^ 6) with 64. change (2 ^ 17) with 131072.
  change (2 ^ 11) with 2048. change (2 ^ 32) with 4294967296 in Hi.
  assert (Hl : inst mod 67108864 mod 2048 = inst mod 2048)
    by (apply Z.mod_mod_divide; by exists 32768).
  rewrite <- Hl. rewrite (Z.mod_small (inst / 67108864)) by zlia.
  generalize (Z.mod_pos_bound inst 67108864 ltac:(lia)). generalize (inst mod 67108864) as a.
  assert (Hm : 0 <= inst / 67108864 < 64) by zlia. revert Hm. generalize (inst / 67108864) as m.
  clear. intros m Hm a Ha. rewrite (Z.div_mod a 2048) at 1 by lia.
  replace ((2048 * (a / 2048) + a mod 2048) * 64 + m)
    with (m + 64 * (a mod 2048) + a / 2048 * 131072) by lia.
  rewrite Z.mod_add by lia. apply Z.mod_small. zlia.
Qed.

Lemma decode_ref inst : in_uint 32 inst ->
  ref_decode (op_main inst) (uint 11 inst) = Some (decoder_decode m_table inst).
Proof.
  intros Hi. unfold decoder_decode. rewrite ppu_decode_split by done.
  pose proof (uint_range 11 inst ltac:(lia)) as Hx. unfold in_uint in Hx.
  change (2 ^ 11) with 2048 in Hx.
  assert (Hm : 0 <= op_main inst < 64).
  { apply (ppu_bf_range 0 6 inst). lia. }
  rewrite m_table_all, fill_all_spec by (first [apply all_entries_wf | lia]).
  replace ((op_main inst + 64 * uint 11 inst) mod 64) with (op_main inst) by zlia.
  replace ((op_main inst + 64 * uint 11 inst) / 64) with (uint 11 inst) by zlia.
  unfold ref_decode_in.
  pose proof (pairwise_filter (op_main inst) (uint 11 inst) _ all_entries_wf all_entries_pairwise).
  destruct (List.filter _ all_entries) as [|e [|e' l]]; [done|done|cbn in *; lia].
Qed.

(** The table is only ever used through [decode_ref]. *)
#[global] Opaque m_table.

(** C3.  The lookup table of 0x20000 handlers, built by overlapping loops,
    decodes every instruction word as the opcode map does: the entries of the
    groups are pairwise disjoint, and the slot of a word holds the handler (the
    record form for odd words) of the only entry its opcode fields match, or
    UNK. *)
Theorem decode_table_correct (inst : Z) : in_uint 32 inst ->
  ref_decode (op_main inst) (uint 11 inst) = Some (decoder_decode m_table inst).
Proof. apply decode_ref. Qed.

Lemma decode_table_correct_witness :
  ref_decode (op_main 0x7C831A14) (uint 11 0x7C831A14) = Some (decoder_decode m_table 0x7C831A14).
Proof. apply decode_table_correct. split; lia. Defined.

(** ** OE and Rc forms *)

(** The instructions with an overflow form ([INIT_RC_OV]), as the handler, its
    OE form, its record form and the form with both. *)
Definition ov_forms : list (itype * itype * itype * itype) :=
  [(I_SUBFC, I_SUBFCO, I_SUBFC_, I_SUBFCO_);
   (I_ADDC, I_ADDCO, I_ADDC_, I_ADDCO_);
   (I_SUBF, I_SUBFO, I_SUBF_, I_SUBFO_);
   (I_NEG, I_NEGO, I_NEG_, I_NEGO_);
   (I_SUBFE, I_SUBFEO, I_SUBFE_, I_SUBFEO_);
   (I_ADDE, I_ADDEO, I_ADDE_, I_ADDEO_);
   (I_SUBFZE, I_SUBFZEO, I_SUBFZE_, I_SUBFZEO_);
   (I_ADDZE, I_ADDZEO, I_ADDZE_, I_ADDZEO_);
   (I_SUBFME, I_SUBFMEO, I_SUBFME_, I_SUBFMEO_);
   (I_MULLD, I_MULLDO, I_MULLD_, I_MULLDO_);
   (I_ADDME, I_ADDMEO, I_ADDME_, I_ADDMEO_);
   (I_MULLW, I_MULLWO, I_MULLW_, I_MULLWO_);
   (I_ADD, I_ADDO, I_ADD_, I_ADDO_);
   (I_DIVDU, I_DIVDUO, I_DIVDU_, I_DIVDUO_);
   (I_DIVWU, I_DIVWUO, I_DIVWU_, I_DIVWUO_);
   (I_DIVD, I_DIVDO, I_DIVD_, I_DIVDO_);
   (I_DIVW, I_DIVWO, I_DIVW_, I_DIVWO_)].

Definition itype_eqb (a b : itype) : bool := itype_id a =? itype_id b.

Lemma itype_eqb_eq a b : itype_eqb a b = true <-> a = b.
Proof. unfold itype_eqb. rewrite Z.eqb_eq. split; [apply itype_id_inj|congruence]. Qed.

Definition is_form (f : itype * itype * itype * itype) (t : itype) : bool :=
  let '(b, o, rc, orc) := f in
  itype_eqb t b || itype_eqb t o || itype_eqb t rc || itype_eqb t orc.

(** The form of [f] for given OE and Rc bits. *)
Definition form (f : itype * itype * itype * itype) (oe r : bool) : itype :=
  let '(b, o, rc, orc) := f in
  if oe then (if r then orc else o) else (if r then rc else b).

(** An entry whose handlers are forms of [f] has them in the right places. *)
Definition entry_flags (f : itype * itype * itype * itype) (e : entry) : bool :=
  let '(main_op, count, sh, v) := e in
  if is_form f (ptr0 v) || is_form f (ptr_rc v)
  then (main_op =? 0x1f) && (count =? 10) && (sh =? 1) && (magn v =? 0) &&
       itype_eqb (ptr0 v) (form f (Z.testbit (value v) 9) false) &&
       itype_eqb (ptr_rc v) (form f (Z.testbit (value v) 9) true)
  else true.

Lemma all_entry_flags : forallb (fun f => forallb (entry_flags f) all_entries) ov_forms = true.
Proof. vm_cast_no_check (eq_refl true). Qed.

Lemma unk_not_form : forallb (fun f => negb (is_form f I_UNK)) ov_forms = true.
Proof. vm_cast_no_check (eq_refl true). Qed.

Lemma oe_is_bit_9 inst : Z.testbit (Z.shiftr (uint 11 inst) 1 mod 2 ^ 10) 9 = op_oe inst.
Proof.
  fold (uint 10 (Z.shiftr (uint 11 inst) 1)).
  rewrite testbit_uint, Z.shiftr_spec, testbit_uint by lia. cbn [Z.ltb Z.compare Pos.compare andb].
  unfold op_oe, ppu_bf. change (2 ^ 1 - 1) with (2 ^ 0). rewrite land_pow2_test, Z.shiftr_spec by lia. done.
Qed.

Lemma entry_flags_spec f m c s v inst :
  entry_flags f (m, c, s, v) = true ->
  entry_matches (op_main inst) (uint 11 inst) (m, c, s, v) = true ->
  is_form f (ptr0 v) || is_form f (ptr_rc v) = true ->
  ptr0 v = form f (op_oe inst) false /\ ptr_rc v = form f (op_oe inst) true.
Proof.
  intros F Hm Is. unfold entry_flags in F. rewrite Is in F.
  rewrite !andb_true_iff, !Z.eqb_eq, !itype_eqb_eq in F.
  destruct F as [[[[[-> ->] ->] M0] F1] F2]. unfold entry_matches in Hm.
  destruct (u32 1 <? 11) eqn:E; [|discriminate E].
  apply andb_prop in Hm as [_ Hv%Z.eqb_eq]. rewrite M0, Z.sub_0_r in Hv.
  rewrite <- Hv, oe_is_bit_9 in F1, F2. done.
Qed.

Lemma ref_decode_flags f es inst t :
  forallb (entry_flags f) es = true -> is_form f I_UNK = false ->
  ref_decode_in es (op_main inst) (uint 11 inst) = Some t -> is_form f t = true ->
  t = form f (op_oe inst) (Z.odd inst).
Proof.
  intros F U D Ht.
  assert (Odd : Z.odd (uint 11 inst) = Z.odd inst)
    by (rewrite <- !Z.bit0_odd; by apply testbit_uint).
  unfold ref_decode_in in D. destruct (List.filter _ es) as [|e [|]] eqn:E; [| |done].
  { injection D as <-. by rewrite Ht in U. }
  assert (Hin : In e (List.filter (entry_matches (op_main inst) (uint 11 inst)) es))
    by (rewrite E; by left).
  apply filter_In in Hin as [Hin Hm]. pose proof (proj1 (forallb_forall _ _) F e Hin) as Fe.
  destruct e as [[[m c] s] v]. unfold entry_pick in D. cbn [snd] in D. rewrite Odd in D.
  assert (Is : is_form f (ptr0 v) || is_form f (ptr_rc v) = true).
  { destruct (Z.odd inst); injection D as ->; rewrite Ht; by rewrite ?orb_true_r. }
  destruct (entry_flags_spec f m c s v inst Fe Hm Is) as [E0 E1].
  destruct (Z.odd inst); congruence.
Qed.

(** The overflow and record forms the table selects agree with the OE and
    Rc bits of the word, for every arithmetic instruction that has them: a word
    decoded to one of the four forms of an instruction is decoded to the form
    with OE exactly when [op.oe] is set (which MULLD tests again at run time),
    and to a record form exactly when its last bit is set. *)
Theorem decode_flags (inst : Z) (f : itype * itype * itype * itype) :
  in_uint 32 inst -> In f ov_forms -> is_form f (decoder_decode m_table inst) = true ->
  decoder_decode m_table inst = form f (op_oe inst) (Z.odd inst).
Proof.
  intros Hi Hf. apply (ref_decode_flags f all_entries).
  - exact (proj1 (forallb_forall _ _) all_entry_flags f Hf).
  - apply negb_true_iff. exact (proj1 (forallb_forall _ _) unk_not_form f Hf).
  - exact (decode_ref inst Hi).
Qed.

(** Decoding one word by the opcode map instead of the table. *)
Lemma decode_by_map inst t : in_uint 32 inst ->
  ref_decode (op_main inst) (uint 11 inst) = Some t -> decoder_decode m_table inst = t.
Proof. intros Hi R. exact (some_eq _ _ (eq_trans (eq_sym (decode_ref inst Hi)) R)). Qed.

Lemma decode_addo_dot : decoder_decode m_table 0x7C831E15 = I_ADDO_.
Proof. apply decode_by_map; [split; lia|vm_compute; reflexivity]. Qed.

Lemma decode_flags_witness :
  decoder_decode m_table 0x7C831E15 = form (I_ADD, I_ADDO, I_ADD_, I_ADDO_) true true.
Proof.
  apply (decode_flags 0x7C831E15 (I_ADD, I_ADDO, I_ADD_, I_ADDO_));
    [split; lia|vm_compute; tauto|rewrite decode_addo_dot; reflexivity].
Defined.
