(* ===== verification/PpuExec.v ===== *)
(** * Dispatch of decoded instructions and the register invariant

    The handler table [ppu_interpreter_rt_base] fills (PPUInterpreter.cpp) as
    a function from [itype], the chaining of handlers by the [RETURN_] macro
    with the dispatch of [ppu_thread::exec_task] (PPUThread.cpp), and the proof
    that every modelled instruction keeps the registers within their widths.
    The handlers that are not modelled (vector, floating point, reservations)
    are the parameter [other]. *)
From Stdlib Require Import ZArith Lia Bool List.
From stdpp Require Import base option list numbers.
From S2P Require Import Prelude PpuThread PpuInterpreter PpuControl PpuMemory PpuDecode.
Local Open Scope Z_scope.

(** [feed] is the [use_feed_data] setting, [tb] the time base, [hle_addr] and
    [hle_count] the area and number of the HLE functions. *)
Record env := Env {
  feed : bool;
  tb : Z;
  hle_addr : Z;
  hle_count : Z;
  other : itype -> Z -> Z -> ppu_thread -> outcome
}.

Definition total (p : ppu_thread) : outcome := Next p.
Definition partial (o : option ppu_thread) : outcome :=
  match o with Some p => Next p | None => Throw end.

Definition exec_itype (e : env) (t : itype) (op this_op : Z) (p : ppu_thread) : outcome :=
  let '(Env feed tb hle_addr hle_count other) := e in
  match t with
  | I_SUBFC => total (SUBFC false false op p) | I_SUBFCO => total (SUBFC true false op p)
  | I_SUBFC_ => total (SUBFC false true op p) | I_SUBFCO_ => total (SUBFC true true op p)
  | I_ADDC => total (ADDC false false op p) | I_ADDCO => total (ADDC true false op p)
  | I_ADDC_ => total (ADDC false true op p) | I_ADDCO_ => total (ADDC true true op p)
  | I_SUBF => total (SUBF false false op p) | I_SUBFO => total (SUBF true false op p)
  | I_SUBF_ => total (SUBF false true op p) | I_SUBFO_ => total (SUBF true true op p)
  | I_NEG => total (NEG false false op p) | I_NEGO => total (NEG true false op p)
  | I_NEG_ => total (NEG false true op p) | I_NEGO_ => total (NEG true true op p)
  | I_SUBFE => total (SUBFE false false op p) | I_SUBFEO => total (SUBFE true false op p)
  | I_SUBFE_ => total (SUBFE false true op p) | I_SUBFEO_ => total (SUBFE true true op p)
  | I_ADDE => total (ADDE false false op p) | I_ADDEO => total (ADDE true false op p)
  | I_ADDE_ => total (ADDE false true op p) | I_ADDEO_ => total (ADDE true true op p)
  | I_SUBFZE => total (SUBFZE false false op p) | I_SUBFZEO => total (SUBFZE true false op p)
  | I_SUBFZE_ => total (SUBFZE false true op p) | I_SUBFZEO_ => total (SUBFZE true true op p)
  | I_ADDZE => total (ADDZE false false op p) | I_ADDZEO => total (ADDZE true false op p)
  | I_ADDZE_ => total (ADDZE false true op p) | I_ADDZEO_ => total (ADDZE true true op p)
  | I_SUBFME => total (SUBFME false false op p) | I_SUBFMEO => total (SUBFME true false op p)
  | I_SUBFME_ => total (SUBFME false true op p) | I_SUBFMEO_ => total (SUBFME true true op p)
  | I_ADDME => total (ADDME false false op p) | I_ADDMEO => total (ADDME true false op p)
  | I_ADDME_ => total (ADDME false true op p) | I_ADDMEO_ => total (ADDME true true op p)
  | I_MULLW => total (MULLW false false op p) | I_MULLWO => total (MULLW true false op p)
  | I_MULLW_ => total (MULLW false true op p) | I_MULLWO_ => total (MULLW true true op p)
  | I_ADD => total (ADD false false op p) | I_ADDO => total (ADD true false op p)
  | I_ADD_ => total (ADD false true op p) | I_ADDO_ => total (ADD true true op p)
  | I_DIVDU => total (DIVDU false false op p) | I_DIVDUO => total (DIVDU true false op p)
  | I_DIVDU_ => total (DIVDU false true op p) | I_DIVDUO_ => total (DIVDU true true op p)
  | I_DIVWU => total (DIVWU false false op p) | I_DIVWUO => total (DIVWU true false op p)
  | I_DIVWU_ => total (DIVWU false true op p) | I_DIVWUO_ => total (DIVWU true true op p)
  | I_DIVD => total (DIVD false false op p) | I_DIVDO => total (DIVD true false op p)
  | I_DIVD_ => total (DIVD false true op p) | I_DIVDO_ => total (DIVD true true op p)
  | I_DIVW => total (DIVW false false op p) | I_DIVWO => total (DIVW true false op p)
  | I_DIVW_ => total (DIVW false true op p) | I_DIVWO_ => total (DIVW true true op p)
  | I_MULLD | I_MULLDO => total (MULLD false op p)
  | I_MULLD_ | I_MULLDO_ => total (MULLD true op p) | I_MULHDU => total (MULHDU false op p)
  | I_MULHDU_ => total (MULHDU true op p) | I_MULHWU => total (MULHWU false op p)
  | I_MULHWU_ => total (MULHWU true op p) | I_MULHD => total (MULHD false op p)
  | I_MULHD_ => total (MULHD true op p) | I_MULHW => total (MULHW false op p)
  | I_MULHW_ => total (MULHW true op p) | I_AND => total (AND false op p)
  | I_AND_ => total (AND true op p) | I_ANDC => total (ANDC false op p)
  | I_ANDC_ => total (ANDC true op p) | I_NOR => total (NOR false op p)
  | I_NOR_ => total (NOR true op p) | I_EQV => total (EQV false op p)
  | I_EQV_ => total (EQV true op p) | I_XOR => total (XOR false op p)
  | I_XOR_ => total (XOR true op p) | I_ORC => total (ORC false op p)
  | I_ORC_ => total (ORC true op p) | I_OR => total (OR false op p)
  | I_OR_ => total (OR true op p) | I_NAND => total (NAND false op p)
  | I_NAND_ => total (NAND true op p) | I_EXTSH => total (EXTSH false op p)
  | I_EXTSH_ => total (EXTSH true op p) | I_EXTSB => total (EXTSB false op p)
  | I_EXTSB_ => total (EXTSB true op p) | I_EXTSW => total (EXTSW false op p)
  | I_EXTSW_ => total (EXTSW true op p) | I_CNTLZW => total (CNTLZW false op p)
  | I_CNTLZW_ => total (CNTLZW true op p) | I_CNTLZD => total (CNTLZD false op p)
  | I_CNTLZD_ => total (CNTLZD true op p) | I_RLWIMI => total (RLWIMI false op p)
  | I_RLWIMI_ => total (RLWIMI true op p) | I_RLWINM => total (RLWINM false op p)
  | I_RLWINM_ => total (RLWINM true op p) | I_RLWNM => total (RLWNM false op p)
  | I_RLWNM_ => total (RLWNM true op p) | I_RLDICL => total (RLDICL false op p)
  | I_RLDICL_ => total (RLDICL true op p) | I_RLDICR => total (RLDICR false op p)
  | I_RLDICR_ => total (RLDICR true op p) | I_RLDIC => total (RLDIC false op p)
  | I_RLDIC_ => total (RLDIC true op p) | I_RLDIMI => total (RLDIMI false op p)
  | I_RLDIMI_ => total (RLDIMI true op p) | I_RLDCL => total (RLDCL false op p)
  | I_RLDCL_ => total (RLDCL true op p) | I_RLDCR => total (RLDCR false op p)
  | I_RLDCR_ => total (RLDCR true op p) | I_SLW => total (SLW false op p)
  | I_SLW_ => total (SLW true op p) | I_SLD => total (SLD false op p)
  | I_SLD_ => total (SLD true op p) | I_SRW => total (SRW false op p)
  | I_SRW_ => total (SRW true op p) | I_SRD => total (SRD false op p)
  | I_SRD_ => total (SRD true op p) | I_SRAW => total (SRAW false op p)
  | I_SRAW_ => total (SRAW true op p) | I_SRAD => total (SRAD false op p)
  | I_SRAD_ => total (SRAD true op p) | I_SRAWI => total (SRAWI false op p)
  | I_SRAWI_ => total (SRAWI true op p) | I_SRADI => total (SRADI false op p)
  | I_SRADI_ => total (SRADI true op p) | I_MULLI => total (MULLI op p)
  | I_SUBFIC => total (SUBFIC op p) | I_CMPLI => total (CMPLI op p)
  | I_CMPI => total (CMPI op p) | I_ADDIC => total (ADDIC op p) | I_ADDI => total (ADDI op p)
  | I_ADDIS => total (ADDIS op p) | I_CMP => total (CMP op p) | I_CMPL => total (CMPL op p)
  | I_ORI => total (ORI op p) | I_ORIS => total (ORIS op p) | I_XORI => total (XORI op p)
  | I_XORIS => total (XORIS op p) | I_ANDI => total (ANDI op p) | I_ANDIS => total (ANDIS op p)
  | I_MCRF => total (MCRF op p) | I_CRNOR => total (CRNOR op p)
  | I_CRANDC => total (CRANDC op p) | I_CRXOR => total (CRXOR op p)
  | I_CRNAND => total (CRNAND op p) | I_CRAND => total (CRAND op p)
  | I_CREQV => total (CREQV op p) | I_CRORC => total (CRORC op p) | I_CROR => total (CROR op p)
  | I_MTOCRF => total (MTOCRF op p) | I_ISYNC => total (ISYNC op p)
  | I_SYNC => total (SYNC op p) | I_EIEIO => total (EIEIO op p) | I_DCBST => total (DCBST op p)
  | I_DCBF => total (DCBF op p) | I_DCBTST => total (DCBTST op p) | I_DCBT => total (DCBT op p)
  | I_DCBI => total (DCBI op p) | I_DST => total (DST op p) | I_DSTST => total (DSTST op p)
  | I_DSS => total (DSS op p) | I_ICBI => total (ICBI op p) | I_LDX => partial (LDX feed op p)
  | I_LWZX => partial (LWZX feed op p) | I_LBZX => partial (LBZX feed op p)
  | I_LHZX => partial (LHZX feed op p) | I_LWAX => partial (LWAX feed op p)
  | I_LHAX => partial (LHAX feed op p) | I_LDBRX => partial (LDBRX feed op p)
  | I_LWBRX => partial (LWBRX feed op p) | I_LHBRX => partial (LHBRX feed op p)
  | I_LDUX => partial (LDUX feed op p) | I_LWZUX => partial (LWZUX feed op p)
  | I_LBZUX => partial (LBZUX feed op p) | I_LHZUX => partial (LHZUX feed op p)
  | I_LWAUX => partial (LWAUX feed op p) | I_LHAUX => partial (LHAUX feed op p)
  | I_LWZ => partial (LWZ feed op p) | I_LBZ => partial (LBZ feed op p)
  | I_LHZ => partial (LHZ feed op p) | I_LHA => partial (LHA feed op p)
  | I_LWZU => partial (LWZU feed op p) | I_LBZU => partial (LBZU feed op p)
  | I_LHZU => partial (LHZU feed op p) | I_LHAU => partial (LHAU feed op p)
  | I_LD => partial (LD feed op p) | I_LWA => partial (LWA feed op p)
  | I_LDU => partial (LDU feed op p) | I_LMW => partial (LMW feed op p)
  | I_LSWX => partial (LSWX feed op p) | I_LSWI => partial (LSWI feed op p)
  | I_STDX => partial (STDX op p) | I_STWX => partial (STWX op p)
  | I_STHX => partial (STHX op p) | I_STBX => partial (STBX op p)
  | I_STDBRX => partial (STDBRX op p) | I_STWBRX => partial (STWBRX op p)
  | I_STHBRX => partial (STHBRX op p) | I_STDUX => partial (STDUX op p)
  | I_STWUX => partial (STWUX op p) | I_STHUX => partial (STHUX op p)
  | I_STBUX => partial (STBUX op p) | I_STW => partial (STW op p) | I_STB => partial (STB op p)
  | I_STH => partial (STH op p) | I_STWU => partial (STWU op p) | I_STBU => partial (STBU op p)
  | I_STHU => partial (STHU op p) | I_STD => partial (STD op p) | I_STDU => partial (STDU op p)
  | I_DCBZ => partial (DCBZ op p) | I_STMW => partial (STMW op p)
  | I_STSWX => partial (STSWX op p) | I_STSWI => partial (STSWI op p)
  | I_MTSPR => partial (MTSPR op p) | I_ECIWX => partial (ECIWX op p)
  | I_ECOWX => partial (ECOWX op p) | I_MFSPR => partial (MFSPR tb op p)
  | I_MFTB => partial (MFTB tb op p) | I_TDI => TDI op this_op p | I_TWI => TWI op this_op p
  | I_TW => TW op this_op p | I_TD => TD op this_op p | I_BC => BC op this_op p
  | I_B => B op this_op p | I_BCLR => BCLR op this_op p | I_BCCTR => BCCTR op this_op p
  | I_SC => SC op this_op p | I_UNK => UNK hle_addr hle_count op this_op p
  | _ => other t op this_op p
  end.

(** The handler [ppu_interpreter_rt::decode] selects, run. *)
Definition exec_handler (e : env) (h : handler) (op this_op : Z) (p : ppu_thread) : outcome :=
  match h with
  | H_invalid => Throw
  | H_VSLDOI _ => other e I_VSLDOI op this_op p
  | H_MFOCRF n => Next (MFOCRF n op p)
  | H_MFCR => Next (MFCR op p)
  | H_table t => exec_itype e t op this_op p
  end.

(** The word at [addr] as the dispatcher reads it. *)
Definition fetch (p : ppu_thread) (addr : Z) : Z := be_value (read_bytes (mem p) addr 4).

Definition exec_at (e : env) (this_op : Z) (p : ppu_thread) : outcome :=
  let op := fetch p this_op in
  exec_handler e (interpreter_decode m_table op) op this_op p.

(** A chain of [n] handlers from [this_op]: each one that falls through calls
    the handler of the following word; the last one is [ppu_ret], which sets
    [cia] to its own address and returns. *)
Fixpoint run_chain (exec : Z -> ppu_thread -> outcome) (n : nat) (this_op : Z) (p : ppu_thread)
  : outcome :=
  match n with
  | O => Return (set_cia p this_op)
  | S n =>
      match exec this_op p with
      | Next p => run_chain exec n (u32 (this_op + 4)) p
      | o => o
      end
  end.
Definition run (e : env) : nat -> Z -> ppu_thread -> outcome := run_chain (exec_at e).

(** ** The register invariant *)

Record wf (p : ppu_thread) : Prop := {
  wf_gpr_len : length (gpr p) = 32%nat;
  wf_gpr : Forall (in_uint 64) (gpr p);
  wf_cr : length (cr p) = 32%nat;
  wf_lr : in_uint 64 (lr p);
  wf_ctr : in_uint 64 (ctr p);
  wf_vrsave : in_uint 32 (vrsave p);
  wf_cia : in_uint 32 (cia p);
  wf_cnt : in_uint 7 (cnt (xer p));
  wf_raddr : in_uint 32 (raddr p);
  wf_exec_bytes : in_uint 64 (exec_bytes p);
  wf_mem : forall a, in_uint 8 (mem p a)
}.

Definition wf_outcome (o : outcome) : Prop :=
  match o with
  | Next p | Return p | Trap p _ | Syscall p _ | Hle p _ => wf p
  | Throw => True
  end.

Lemma r_range p i : wf p -> in_uint 64 (r p i).
Proof.
  intros H. unfold r. pose proof (wf_gpr p H) as G. rewrite List.Forall_forall in G.
  destruct (nth_in_or_default (Z.to_nat i) (gpr p) 0) as [Hin| ->]; [by apply G|].
  split; lia.
Qed.

#[export] Hint Resolve r_range : width.

(** *** Every primitive update keeps the invariant *)

Create HintDb wf.
#[export] Hint Constructors wf : wf.

Lemma set_r_wf p i v : wf p -> in_uint 64 v -> wf (set_r p i v).
Proof.
  intros [] Hv. constructor; cbn; try done.
  - by rewrite length_insert.
  - by apply Forall_insert.
Qed.

Lemma set_cr_wf p c : wf p -> length c = 32%nat -> wf (set_cr p c).
Proof. intros [] ?. by constructor. Qed.

Lemma set_cr_bit_wf p i b : wf p -> wf (set_cr_bit p i b).
Proof. intros H. apply set_cr_wf; [done|]. rewrite length_insert. by destruct H. Qed.

Lemma set_lr_wf p v : wf p -> in_uint 64 v -> wf (set_lr p v).
Proof. intros [] ?. by constructor. Qed.

Lemma set_ctr_wf p v : wf p -> in_uint 64 v -> wf (set_ctr p v).
Proof. intros [] ?. by constructor. Qed.

Lemma set_vrsave_wf p v : wf p -> in_uint 32 v -> wf (set_vrsave p v).
Proof. intros [] ?. by constructor. Qed.

Lemma set_cia_wf p v : wf p -> in_uint 32 v -> wf (set_cia p v).
Proof. intros [] ?. by constructor. Qed.

Lemma set_xer_wf p x : wf p -> in_uint 7 (cnt x) -> wf (set_xer p x).
Proof. intros [] ?. by constructor. Qed.

Lemma set_ca_wf p b : wf p -> wf (set_ca p b).
Proof. intros H. apply set_xer_wf; [done|]. by destruct H. Qed.

Lemma ppu_ov_set_wf p b : wf p -> wf (ppu_ov_set p b).
Proof. intros H. apply set_xer_wf; [done|]. by destruct H. Qed.

Lemma drop_reservation_wf p : wf p -> wf (set_reservation p 0 0).
Proof. intros []. by constructor. Qed.

Lemma add_exec_bytes_wf p a b : wf p -> wf (add_exec_bytes p a b).
Proof. intros []. constructor; cbn; try done. apply uint_range. lia. Qed.

Lemma set_mem_wf p m : wf p -> (forall a, in_uint 8 (m a)) -> wf (set_mem p m).
Proof. intros [] ?. by constructor. Qed.

Lemma add_res_update_wf p a : wf p -> wf (add_res_update p a).
Proof. intros []. by constructor. Qed.

Lemma ppu_cr_cmp_wf p f a b : wf p -> wf (ppu_cr_cmp p f a b).
Proof. intros. by repeat apply set_cr_bit_wf. Qed.

Lemma record_wf rc v p : wf p -> wf (record rc v p).
Proof. destruct rc; [apply ppu_cr_cmp_wf|done]. Qed.

Lemma overflow_wf oe b p : wf p -> wf (overflow oe b p).
Proof. destruct oe; [apply ppu_ov_set_wf|done]. Qed.

Lemma set_rc_wf rc i v p : wf p -> in_uint 64 v -> wf (set_rc rc i v p).
Proof. intros. by apply record_wf, set_r_wf. Qed.

Lemma set_link_wf lk v p : wf p -> in_uint 32 v -> wf (set_link lk v p).
Proof. intros. destruct lk; [|done]. apply set_lr_wf; [done|]. by apply (in_uint_mono 32). Qed.

Lemma branch_to_wf taken target link p : wf p -> in_uint 32 target -> in_uint 32 link ->
  wf_outcome (branch_to taken target link p).
Proof.
  intros. unfold branch_to. destruct taken; [|destruct (state p =? 0)]; cbn; [|done|];
    by apply add_exec_bytes_wf, set_cia_wf.
Qed.

Lemma set_cr_field_wf p i bits : wf p -> 0 <= i < 8 -> length bits = 4%nat ->
  wf (set_cr_field p i bits).
Proof.
  intros H Hi Hb. apply set_cr_wf; [done|].
  rewrite !length_app, length_firstn, length_skipn, (wf_cr p H), Hb. lia.
Qed.

#[export] Hint Resolve set_r_wf set_cr_bit_wf set_lr_wf set_ctr_wf set_vrsave_wf set_cia_wf
  set_ca_wf ppu_ov_set_wf ppu_cr_cmp_wf record_wf overflow_wf set_rc_wf set_link_wf branch_to_wf
  add_exec_bytes_wf add_res_update_wf drop_reservation_wf : wf.

Lemma add64_flags_c_range a b c res carry :
  add64_flags_c a b c = (res, carry) -> in_uint 64 res.
Proof. unfold add64_flags_c, add64_flags. intros [= <- _]. apply uint_range. lia. Qed.

(** *** Memory accesses *)

Lemma ppu_feed_data_wf fd n p addr bs p' : wf p -> ppu_feed_data fd n p addr = Some (bs, p') ->
  wf p' /\ Forall (in_uint 8) bs /\ length bs = n.
Proof.
  intros H. unfold ppu_feed_data. destruct (vm_cast addr) as [a|]; [|done]. cbn.
  pose proof (read_bytes_range (mem p) a n (wf_mem p H)).
  pose proof (read_bytes_length (mem p) a n).
  intros E. repeat case_match; inversion E; subst; split_and!; auto using drop_reservation_wf.
Qed.

Lemma load_wf fd n conv rd addr p p' : wf p ->
  (forall bs, Forall (in_uint 8) bs -> length bs = n -> in_uint 64 (conv bs)) ->
  load fd n conv rd addr p = Some p' -> wf p'.
Proof.
  intros H Hc. unfold load. destruct (ppu_feed_data fd n p addr) as [[bs q]|] eqn:E; [|done].
  cbn. intros [= <-]. apply ppu_feed_data_wf in E as (? & ? & ?); [|done]. apply set_r_wf; auto.
Qed.

Lemma ppu_write_wf n p addr v p' : wf p -> ppu_write_be n p addr v = Some p' -> wf p'.
Proof.
  intros H. unfold ppu_write_be. destruct (vm_cast addr); [|done]. intros [= <-].
  apply set_mem_wf; [done|]. apply write_bytes_range; [apply (wf_mem p H)|apply be_bytes_range].
Qed.

Definition wf_option (o : option ppu_thread) : Prop := forall p, o = Some p -> wf p.

Lemma bind_wf (o : option ppu_thread) f :
  wf_option o -> (forall p, wf p -> wf_option (f p)) -> wf_option (o ≫= f).
Proof. intros Ho Hf p. destruct o as [q|]; [|done]. cbn. apply Hf. by apply Ho. Qed.

Lemma bind_any_wf {A} (o : option A) f : (forall a, wf_option (f a)) -> wf_option (o ≫= f).
Proof. intros Hf p. destruct o as [a|]; [|done]. apply Hf. Qed.

Lemma some_wf p : wf p -> wf_option (Some p).
Proof. by intros H q [= <-]. Qed.

Lemma be_value_64 n bs : (n <= 8)%nat -> Forall (in_uint 8) bs -> length bs = n -> in_uint 64 (be_value bs).
Proof. intros Hn H <-. apply (in_uint_mono (8 * Z.of_nat (length bs))); [lia|]. by apply be_value_range. Qed.

Lemma le_value_64 n bs : (n <= 8)%nat -> Forall (in_uint 8) bs -> length bs = n -> in_uint 64 (le_value bs).
Proof. intros Hn H <-. apply (in_uint_mono (8 * Z.of_nat (length bs))); [lia|]. by apply le_value_range. Qed.

Lemma load_be_wf fd n rd addr p : (n <= 8)%nat -> wf p -> wf_option (load fd n be_value rd addr p).
Proof. intros Hn H q. apply load_wf; [done|]. intros. by apply (be_value_64 n). Qed.

Lemma load_le_wf fd n rd addr p : (n <= 8)%nat -> wf p -> wf_option (load fd n le_value rd addr p).
Proof. intros Hn H q. apply load_wf; [done|]. intros. by apply (le_value_64 n). Qed.

Lemma load_s32_wf fd rd addr p : wf p -> wf_option (load fd 4 be_s32 rd addr p).
Proof. intros H q. apply load_wf; [done|]. intros. apply uint_range. lia. Qed.

Lemma load_s16_wf fd rd addr p : wf p -> wf_option (load fd 2 be_s16 rd addr p).
Proof. intros H q. apply load_wf; [done|]. intros. apply uint_range. lia. Qed.

Lemma load_update_wf fd n conv rd ra addr p : wf_option (load fd n conv rd addr p) ->
  in_uint 64 addr -> wf_option (load_update fd n conv rd ra addr p).
Proof. intros. apply bind_wf; [done|]. intros. by apply some_wf, set_r_wf. Qed.

Lemma write_be_wf n p addr v : wf p -> wf_option (ppu_write_be n p addr v).
Proof. intros H q. by apply ppu_write_wf. Qed.

Lemma write_le_wf n p addr v : wf p -> wf_option (ppu_write_le n p addr v).
Proof.
  intros H q. unfold ppu_write_le. destruct (vm_cast addr); [|done]. intros [= <-].
  apply set_mem_wf; [done|]. apply write_bytes_range; [apply (wf_mem p H)|apply le_bytes_range].
Qed.

Lemma store_update_wf n ra addr v p : wf p -> in_uint 64 addr ->
  wf_option (store_update n ra addr v p).
Proof. intros. apply bind_wf; [by apply write_be_wf|]. intros. by apply some_wf, set_r_wf. Qed.

Lemma ea_x_range op p : wf p -> in_uint 64 (ea_x op p).
Proof. unfold ea_x; auto with width. Qed.

Lemma ea_ux_range op p : in_uint 64 (ea_ux op p).
Proof. unfold ea_ux; auto with width. Qed.

Lemma ea_d_range op p : in_uint 64 (ea_d op p).
Proof. unfold ea_d; auto with width. Qed.

Lemma ea_dsu_range op p : in_uint 64 (ea_dsu op p).
Proof. unfold ea_dsu; auto with width. Qed.

#[export] Hint Resolve some_wf load_be_wf load_le_wf load_s32_wf load_s16_wf load_update_wf
  write_be_wf write_le_wf store_update_wf ea_x_range ea_ux_range ea_d_range ea_dsu_range : wf.
#[export] Hint Extern 1 (_ <= _)%nat => lia : wf.

(** *** Loops *)

Lemma lmw_loop_wf fuel fd : forall i addr p, wf p -> wf_option (lmw_loop fuel fd i addr p).
Proof.
  induction fuel as [|fuel IH]; intros i addr p H; cbn [lmw_loop]; case_match; auto with wf; [done|].
  apply bind_wf; [auto with wf|]. intros. by apply IH.
Qed.

Lemma stmw_loop_wf fuel : forall i addr p, wf p -> wf_option (stmw_loop fuel i addr p).
Proof.
  induction fuel as [|fuel IH]; intros i addr p H; cbn [stmw_loop]; case_match; auto with wf; [done|].
  apply bind_wf; [auto with wf|]. intros. by apply IH.
Qed.

Lemma load_tail_wf fuel fd : forall byte count addr value p v p', wf p -> in_uint 64 value ->
  load_tail fuel fd byte count addr value p = Some (v, p') -> wf p' /\ in_uint 64 v.
Proof.
  induction fuel as [|fuel IH]; intros byte count addr value p v p' H Hv; cbn [load_tail];
    case_match; try done; try (by intros [= <- <-]).
  destruct (ppu_feed_data fd 1 p (u64 (addr + byte))) as [[bs q]|] eqn:E; [|done]. cbn.
  apply ppu_feed_data_wf in E as (? & ? & ?); [|done]. apply IH; [done|].
  apply lor_range; [lia|done|]. apply (in_uint_mono 32); [lia|]. apply uint_range; lia.
Qed.

Lemma lswx_loop_wf fuel fd : forall addr count rd p, wf p ->
  wf_option (lswx_loop fuel fd addr count rd p).
Proof.
  assert (T : forall addr count rd p, wf p -> wf_option
    ('(value, p) ← load_tail 4 fd 0 count addr 0 p; Some (set_r p rd value))).
  { intros addr count rd p H q.
    destruct (load_tail 4 fd 0 count addr 0 p) as [[v p']|] eqn:E; [|done]. cbn. intros [= <-].
    apply load_tail_wf in E as [? ?]; [|done|split; lia]. by apply set_r_wf. }
  induction fuel as [|fuel IH]; intros addr count rd p H; cbn [lswx_loop];
    repeat case_match; auto with wf; [done|].
  apply bind_wf; [auto with wf|]. intros. by apply IH.
Qed.

Lemma lswi_tail_wf fuel fd : forall n addr i buf p v p', wf p -> in_uint 64 buf ->
  lswi_tail fuel fd n addr i buf p = Some (v, p') -> wf p' /\ in_uint 64 v.
Proof.
  induction fuel as [|fuel IH]; intros n addr i buf p v p' H Hv; cbn [lswi_tail];
    case_match; try done; try (by intros [= <- <-]).
  destruct (ppu_feed_data fd 1 p addr) as [[bs q]|] eqn:E; [|done]. cbn.
  apply ppu_feed_data_wf in E as (? & ? & ?); [|done]. apply IH; [done|].
  apply lor_range; [lia|done|]. apply (in_uint_mono 32); [lia|]. apply uint_range; lia.
Qed.

Lemma lswi_loop_wf fuel fd : forall n addr reg p, wf p -> wf_option (lswi_loop fuel fd n addr reg p).
Proof.
  induction fuel as [|fuel IH]; intros n addr reg p H; cbn [lswi_loop];
    repeat case_match; auto with wf; [done| |].
  - apply bind_wf; [auto with wf|]. intros. by apply IH.
  - destruct (lswi_tail 4 fd n addr 3 0 p) as [[v p']|] eqn:E; [|done]. cbn.
    apply lswi_tail_wf in E as [? ?]; [|done|split; lia]. by apply IH, set_r_wf.
Qed.

Lemma stswx_tail_wf fuel : forall byte count addr value p, wf p ->
  wf_option (stswx_tail fuel byte count addr value p).
Proof.
  induction fuel as [|fuel IH]; intros byte count addr value p H; cbn [stswx_tail];
    case_match; auto with wf; [done|].
  apply bind_wf; [auto with wf|]. intros. by apply IH.
Qed.

Lemma stswx_loop_wf fuel : forall addr count rs p, wf p -> wf_option (stswx_loop fuel addr count rs p).
Proof.
  induction fuel as [|fuel IH]; intros addr count rs p H; cbn [stswx_loop];
    repeat case_match; auto using stswx_tail_wf with wf; [done|].
  apply bind_wf; [auto with wf|]. intros. by apply IH.
Qed.

Lemma stswi_tail_wf fuel : forall n addr buf p, wf p -> wf_option (stswi_tail fuel n addr buf p).
Proof.
  induction fuel as [|fuel IH]; intros n addr buf p H; cbn [stswi_tail]; case_match; auto with wf; [done|].
  apply bind_wf; [auto with wf|]. intros. by apply IH.
Qed.

Lemma stswi_loop_wf fuel : forall n addr reg p, wf p -> wf_option (stswi_loop fuel n addr reg p).
Proof.
  induction fuel as [|fuel IH]; intros n addr reg p H; cbn [stswi_loop];
    repeat case_match; auto with wf; [done| |]; apply bind_wf; auto using stswi_tail_wf with wf.
Qed.

#[export] Hint Resolve lmw_loop_wf stmw_loop_wf lswx_loop_wf lswi_loop_wf stswx_loop_wf
  stswi_loop_wf : wf.

(** *** Every instruction keeps the invariant *)

Lemma land_range_both w x y : 0 <= w -> in_uint w x -> in_uint w y -> in_uint w (Z.land x y).
Proof. intros ? ? [? ?]. by apply land_range. Qed.

Lemma uimm16_range op : in_uint 64 (op_uimm16 op).
Proof. apply (in_uint_mono 16); [lia|]. apply ppu_bf_range. lia. Qed.

Lemma uimm16_shifted_range op : in_uint 64 (Z.shiftl (op_uimm16 op) 16).
Proof. apply (shiftl_range 16); [lia..|]. apply ppu_bf_range. lia. Qed.

Lemma countl_zero_64 w x : 0 < w <= 64 -> in_uint 64 (countl_zero w x).
Proof. intros. pose proof (countl_zero_range w x ltac:(lia)). split; lia. Qed.

Lemma cast_range v w x : 0 <= v <= w -> in_uint w (uint v x).
Proof. intros. apply (in_uint_mono v); [lia|]. apply uint_range. lia. Qed.

Lemma const_range w c : (0 <=? c) && (c <? 2 ^ w) = true -> in_uint w c.
Proof. unfold in_uint. lia. Qed.

Lemma ppu_bf_nonneg i n op : 0 <= n -> 0 <= ppu_bf i n op.
Proof. intros. by apply ppu_bf_range. Qed.

Lemma mbe64_nonneg op : 0 <= op_mbe64 op.
Proof. apply Z.lor_nonneg. split; [apply Z.shiftl_nonneg|]; apply ppu_bf_nonneg; lia. Qed.

Lemma nonneg_range w x : in_uint w x -> 0 <= x.
Proof. by intros []. Qed.

#[local] Remove Hints land_range : width.
#[local] Hint Resolve land_range_both uimm16_range uimm16_shifted_range countl_zero_64 mbe64_nonneg : width.
#[local] Hint Extern 2 (in_uint 64 (uint _ _)) => apply cast_range; lia : width.
#[local] Hint Extern 1 (in_uint _ (Zpos _)) => apply const_range; reflexivity : width.
#[local] Hint Extern 1 (in_uint _ 0) => apply const_range; reflexivity : width.
#[local] Hint Extern 1 (in_uint _ (_ - 1)) => apply const_range; reflexivity : width.
#[local] Hint Extern 1 (0 <= Z.land _ _) => apply Z.land_nonneg; right; lia : width.
#[local] Hint Extern 1 (_ <= _ <= _) => lia : width.
#[local] Hint Extern 1 (_ < _ <= _) => lia : width.

Ltac head t := match t with ?f _ => head f | _ => t end.

Ltac instr_wf :=
  match goal with
  | |- wf ?t => let h := head t in unfold h
  | |- wf_option ?t => let h := head t in unfold h
  | |- wf_outcome ?t => let h := head t in unfold h
  end;
  cbv zeta;
  repeat match goal with
  | |- context [add64_flags_c ?a ?b ?c] =>
      let E := fresh in destruct (add64_flags_c a b c) eqn:E; apply add64_flags_c_range in E
  | |- context [add64_flags ?a ?b] =>
      let E := fresh in destruct (add64_flags a b) eqn:E; injection E as <- _
  | |- context [if ?b then _ else _] => destruct b eqn:?
  end;
  auto 8 with wf width.

Lemma partial_wf o : wf_option o -> wf_outcome (partial o).
Proof. intros H. destruct o; [by apply H|done]. Qed.

Lemma MULHDU_wf rc op p : wf p -> wf (MULHDU rc op p).
Proof. intros. apply set_rc_wf; [done|]. unfold umulh64. auto with width. Qed.

Lemma DIVDU_wf oe rc op p : wf p -> wf (DIVDU oe rc op p).
Proof.
  intros H. apply record_wf, overflow_wf, set_r_wf; [done|].
  pose proof (r_range p (op_rb op) H) as [? _]. auto with width.
Qed.

Lemma DIVWU_wf oe rc op p : wf p -> wf (DIVWU oe rc op p).
Proof.
  intros H. apply record_wf, overflow_wf, set_r_wf; [done|].
  pose proof (uint_range 32 (r p (op_rb op)) ltac:(lia)) as [? _]. auto with width.
Qed.

Lemma cr_op_wf f op p : wf p -> wf (cr_op f op p).
Proof. apply set_cr_bit_wf. Qed.

Lemma MCRF_wf op p : wf p -> wf (MCRF op p).
Proof.
  intros H. pose proof (ppu_bf_range 6 3 op ltac:(lia)) as Hd.
  pose proof (ppu_bf_range 11 3 op ltac:(lia)) as Hs. unfold in_uint in *.
  apply set_cr_field_wf; [done|exact Hd|].
  unfold cr_field. rewrite length_firstn, length_skipn, (wf_cr p H).
  unfold op_crfs. change (2 ^ 3) with 8 in Hs. lia.
Qed.

Lemma mtcrf_field_wf s p i : wf p -> 0 <= i < 8 -> wf (mtcrf_field s p i).
Proof. intros. by apply set_cr_field_wf. Qed.

Lemma MTOCRF_wf op p : wf p -> wf (MTOCRF op p).
Proof.
  intros H. unfold MTOCRF. cbv zeta. destruct (op_l11 op).
  - apply mtcrf_field_wf; [done|]. change 7 with (2 ^ 3 - 1).
    rewrite land_ones_uint by lia. apply (uint_range 3). lia.
  - generalize (r p (op_rs op)) as s; intros s. revert p H.
    assert (Hl : forall i, In i [0; 1; 2; 3; 4; 5; 6; 7] -> 0 <= i < 8) by (cbn; lia).
    revert Hl. generalize [0; 1; 2; 3; 4; 5; 6; 7].
    induction l as [|i l IH]; intros Hl p H; [done|]. cbn [fold_left].
    apply IH; [intros; apply Hl; by right|].
    destruct (negb _); [|done]. apply mtcrf_field_wf; [done|]. apply Hl. by left.
Qed.

Lemma MFSPR_wf tb op p : wf p -> in_uint 64 tb -> wf_option (MFSPR tb op p).
Proof.
  intros H Ht. unfold MFSPR. cbv zeta. repeat case_match; try done; apply some_wf, set_r_wf; try done;
    try (by destruct H); auto with width.
  - unfold xer_value. repeat apply lor_range; try lia.
    1-3: apply (shiftl_range 1); [lia..|]; match goal with |- context [Z.b2z ?b] => destruct b end; split; cbn; lia.
    apply (in_uint_mono 7); [lia|]. by destruct H.
  - apply (in_uint_mono 32); [lia|]. by destruct H.
Qed.

Lemma MFTB_wf tb op p : wf p -> in_uint 64 tb -> wf_option (MFTB tb op p).
Proof.
  intros H Ht. unfold MFTB. cbv zeta. repeat case_match; try done; apply some_wf, set_r_wf; try done.
  auto with width.
Qed.

Lemma MTSPR_wf op p : wf p -> wf_option (MTSPR op p).
Proof.
  intros H. unfold MTSPR. cbv zeta. repeat case_match; try done; apply some_wf; auto with wf width.
  apply set_xer_wf; [done|]. cbn [cnt]. change 0x7f with (2 ^ 7 - 1).
  rewrite land_ones_uint by lia. apply uint_range. lia.
Qed.

Lemma STW_wf op p : wf p -> wf_option (STW op p).
Proof.
  intros H. apply bind_wf; [auto with wf|]. intros q Hq. case_match; [|auto with wf].
  destruct (vm_cast _); [|done]. cbn. auto with wf.
Qed.

Lemma DCBZ_wf op p : wf p -> wf_option (DCBZ op p).
Proof.
  intros H. apply bind_any_wf. intros a. apply some_wf, set_mem_wf; [done|].
  apply write_bytes_range; [by destruct H|]. apply List.Forall_forall.
  intros x ->%repeat_spec. split; lia.
Qed.

Lemma ADDIC_wf op p : wf p -> wf (ADDIC op p).
Proof.
  intros H. unfold ADDIC, add64_flags. cbv zeta. case_match; auto 8 with wf width.
  apply ppu_cr_cmp_wf. auto with wf width.
Qed.

Lemma word_aligned_range x : in_uint 32 (Z.land (u32 x) (bnot 32 3)).
Proof. apply land_range_both; [lia|apply uint_range; lia|apply uint_range; lia]. Qed.

#[local] Hint Resolve partial_wf MULHDU_wf DIVDU_wf DIVWU_wf cr_op_wf MCRF_wf MTOCRF_wf MFSPR_wf
  MFTB_wf MTSPR_wf STW_wf DCBZ_wf ADDIC_wf word_aligned_range : wf.

Lemma SC_wf op this_op p : wf p -> in_uint 32 this_op -> wf_outcome (SC op this_op p).
Proof. intros. unfold SC. cbv zeta. case_match; cbn; [done|]. auto with wf. Qed.

Lemma UNK_wf a c op this_op p : wf p -> in_uint 32 this_op -> wf_outcome (UNK a c op this_op p).
Proof. intros. unfold UNK. cbv zeta. case_match; cbn; [|done]. auto with wf. Qed.

Lemma B_wf op this_op p : wf p -> wf_outcome (B op this_op p).
Proof. intros. cbn. auto 8 with wf width. Qed.

Lemma BC_wf op this_op p : wf p -> wf_outcome (BC op this_op p).
Proof. intros. unfold BC. cbv zeta. auto 8 with wf width. Qed.

Lemma BCLR_wf op this_op p : wf p -> wf_outcome (BCLR op this_op p).
Proof. intros. unfold BCLR. cbv zeta. auto 8 with wf width. Qed.

Lemma BCCTR_wf op this_op p : wf p -> wf_outcome (BCCTR op this_op p).
Proof. intros. unfold BCCTR. cbv zeta. auto 8 with wf width. Qed.

Lemma none_wf : wf_option None.
Proof. done. Qed.

#[local] Hint Resolve none_wf SC_wf UNK_wf B_wf BC_wf BCLR_wf BCCTR_wf : wf.

Ltac outcome_wf :=
  match goal with
  | |- wf_outcome (total ?q) => change (wf q); first [solve [auto 2 with wf] | solve [instr_wf]]
  | |- wf_outcome (partial ?o) => apply partial_wf; first [solve [auto 2 with wf] | solve [instr_wf]]
  | |- wf_outcome _ => first [solve [auto 2 with wf] | solve [instr_wf]]
  end.

Lemma exec_itype_wf e t op this_op p :
  wf p -> in_uint 32 this_op -> in_uint 64 (tb e) ->
  (forall t op this_op p, wf p -> wf_outcome (other e t op this_op p)) ->
  wf_outcome (exec_itype e t op this_op p).
Proof.
  intros H Hthis Htb Hother. destruct e as [fd tb0 ha hc oth]. cbn in Htb, Hother.
  destruct t; cbn [exec_itype];
  lazymatch goal with
  | |- wf_outcome (oth _ _ _ _) => apply Hother; exact H
  | |- _ => outcome_wf
  end.
Qed.


Lemma pack_range bits : in_uint 32 (pack bits).
Proof.
  unfold pack. assert (H : in_uint 32 0) by (split; lia). revert H. generalize 0.
  induction bits as [|b bits IH]; intros z Hz; [done|]. cbn [fold_left]. apply IH.
  apply lor_range; [lia|apply uint_range; lia|]. destruct b; split; cbn; lia.
Qed.

Lemma exec_handler_wf e h op this_op p :
  wf p -> in_uint 32 this_op -> in_uint 64 (tb e) ->
  (forall t op this_op p, wf p -> wf_outcome (other e t op this_op p)) ->
  wf_outcome (exec_handler e h op this_op p).
Proof.
  intros H Hthis Htb Hother. destruct h as [| |n| |t]; cbn [exec_handler].
  - done.
  - by apply Hother.
  - apply set_r_wf; [done|]. apply cast_range. lia.
  - apply set_r_wf; [done|]. apply (in_uint_mono 32); [lia|]. apply pack_range.
  - by apply exec_itype_wf.
Qed.


(** A thread with every register zero and a memory that holds [addi r3, r0, 7]
    at 0x10000. *)
Definition zero_thread : ppu_thread :=
  mk_ppu (repeat 0 32) (repeat false 32) 0 0 0 0 (Xer false false false 0) 0 (repeat 0 128) false 0 0 0
    (fun a => nth (Z.to_nat (a - 0x10000)) [0x38; 0x60; 0; 7] 0) [].

Definition no_other : env := Env false 0 0 0 (fun _ _ _ _ => Throw).

Lemma zero_thread_wf : wf zero_thread.
Proof.
  constructor; [reflexivity| |reflexivity| .. |]; try (cbn; split; lia).
  - apply List.Forall_forall. intros x ->%repeat_spec. split; lia.
  - intros a. cbn [mem zero_thread].
    destruct (nth_in_or_default (Z.to_nat (a - 0x10000)) [0x38; 0x60; 0; 7] 0) as [Hin| ->];
      [|split; lia].
    revert Hin. generalize (nth (Z.to_nat (a - 0x10000)) [0x38; 0x60; 0; 7] 0).
    cbn [In]. unfold in_uint. lia.
Qed.

