(* ===== verification/PpuArith.v ===== *)
(** * Correctness of the arithmetic, shift and rotate instructions

    What the handlers of [PpuInterpreter] compute, against the arithmetic they
    implement: carries chain into 128-bit sums, OV is signed overflow, the high
    and low products make the exact product, shifts divide, and the rotate
    masks select the bits the architecture names. *)
From Stdlib Require Import ZArith Lia Bool List.
From stdpp Require Import base option list numbers.
From S2P Require Import Prelude PpuThread PpuInterpreter PpuControl PpuExec.
Local Open Scope Z_scope.

(** ** Reading registers after an update *)

Lemma op_reg_range i op : 0 <= ppu_bf i 5 op < 32.
Proof. apply (ppu_bf_range i 5 op). lia. Qed.

#[export] Hint Extern 1 (0 <= op_rd _ < 32) => apply op_reg_range : width.
#[export] Hint Extern 1 (0 <= op_ra _ < 32) => apply op_reg_range : width.
#[export] Hint Extern 1 (0 <= op_rb _ < 32) => apply op_reg_range : width.
#[export] Hint Extern 1 (0 <= op_rs _ < 32) => apply op_reg_range : width.
#[export] Hint Resolve wf_gpr_len : width.

Lemma r_set_r p i j v : length (gpr p) = 32%nat -> 0 <= i < 32 -> 0 <= j < 32 ->
  r (set_r p i v) j = if i =? j then v else r p j.
Proof.
  intros Hl Hi Hj. unfold r, set_r. cbn [gpr set_gprs].
  rewrite !nth_lookup. destruct (Z.eqb_spec i j) as [->|N].
  - rewrite list_lookup_insert_eq by lia. done.
  - rewrite list_lookup_insert_ne by lia. done.
Qed.

Lemma r_set_r_eq p i v : length (gpr p) = 32%nat -> 0 <= i < 32 -> r (set_r p i v) i = v.
Proof. intros. rewrite r_set_r by done. by rewrite Z.eqb_refl. Qed.

Lemma gpr_record rc v p : gpr (record rc v p) = gpr p.
Proof. by destruct rc. Qed.

Lemma gpr_overflow oe b p : gpr (overflow oe b p) = gpr p.
Proof. by destruct oe. Qed.

Lemma gpr_set_ca b p : gpr (set_ca p b) = gpr p.
Proof. done. Qed.

Lemma xer_record rc v p : xer (record rc v p) = xer p.
Proof. by destruct rc. Qed.

Lemma r_gpr p q i : gpr p = gpr q -> r p i = r q i.
Proof. unfold r. by intros ->. Qed.

Lemma r_record rc v p i : r (record rc v p) i = r p i.
Proof. apply r_gpr, gpr_record. Qed.

Lemma r_overflow oe b p i : r (overflow oe b p) i = r p i.
Proof. apply r_gpr, gpr_overflow. Qed.

Lemma r_set_ca b p i : r (set_ca p b) i = r p i.
Proof. done. Qed.

Lemma ca_overflow oe b p : ca (xer (overflow oe b p)) = ca (xer p).
Proof. by destruct oe. Qed.

Lemma ca_set_ca b p : ca (xer (set_ca p b)) = b.
Proof. done. Qed.

Lemma ov_overflow b p : ov (xer (overflow true b p)) = b.
Proof. done. Qed.

Lemma r_set_rc_eq rc i v p : length (gpr p) = 32%nat -> 0 <= i < 32 -> r (set_rc rc i v p) i = v.
Proof. intros. unfold set_rc. rewrite r_record. by apply r_set_r_eq. Qed.

Create Rewrite HintDb ppu.
#[export] Hint Rewrite r_record r_overflow r_set_ca xer_record ca_overflow ca_set_ca ov_overflow : ppu.

Ltac ppu_simpl := autorewrite with ppu.

(** ** Carries *)

Lemma add64_flags_c_exact a b c : in_uint 64 a -> in_uint 64 b ->
  forall res carry, add64_flags_c a b c = (res, carry) ->
  res + 2 ^ 64 * Z.b2z carry = a + b + Z.b2z c /\ in_uint 64 res.
Proof.
  intros Ha Hb res carry. unfold add64_flags_c, add64_flags. intros [= <- <-].
  unfold in_uint, uint in *. change (2 ^ 64) with 18446744073709551616 in *.
  rewrite !Zmod_mod.
  destruct (Z.ltb_spec ((a + b) mod 18446744073709551616) (a mod 18446744073709551616));
  destruct (Z.ltb_spec (((a + b) mod 18446744073709551616 + Z.b2z c) mod 18446744073709551616)
     ((a + b) mod 18446744073709551616)); destruct c; cbn [Z.b2z orb] in *; zlia.
Qed.

Lemma add64_flags_zero a b : add64_flags a b = add64_flags_c a b false.
Proof.
  unfold add64_flags_c, add64_flags. cbn [Z.b2z]. rewrite Z.add_0_r, !uint_uint.
  by rewrite Z.ltb_irrefl, orb_false_r.
Qed.

(** The shape shared by the instructions that produce a carry: the sum with
    the carry in, the overflow bit [o] of the sum, the record form. *)
Definition carry_form (oe rc : bool) (rd a b : Z) (c : bool) (o : Z -> bool) (p : ppu_thread)
  : ppu_thread :=
  let '(result, carry) := add64_flags_c a b c in
  record rc result (overflow oe (o result) (set_ca (set_r p rd result) carry)).

Lemma carry_form_spec oe rc rd a b c o p :
  wf p -> 0 <= rd < 32 -> in_uint 64 a -> in_uint 64 b ->
  let q := carry_form oe rc rd a b c o p in
  wf q /\ r q rd + 2 ^ 64 * Z.b2z (ca (xer q)) = a + b + Z.b2z c /\
  (forall j, 0 <= j < 32 -> rd <> j -> r q j = r p j).
Proof.
  intros H Hrd Ha Hb. cbv zeta. unfold carry_form. destruct (add64_flags_c a b c) as [res carry] eqn:E.
  apply add64_flags_c_exact in E as [Ec Er]; [|done..]. split_and!; [auto with wf| |].
  - ppu_simpl. rewrite r_set_r_eq by (done || apply wf_gpr_len, H). done.
  - intros j Hj N. ppu_simpl. rewrite r_set_r by (done || apply wf_gpr_len, H).
    destruct (Z.eqb_spec rd j); [done|done].
Qed.

Lemma ADDC_form oe rc op p : exists o,
  ADDC oe rc op p = carry_form oe rc (op_rd op) (r p (op_ra op)) (r p (op_rb op)) false o p.
Proof. eexists. unfold ADDC, carry_form. rewrite add64_flags_zero. reflexivity. Qed.

Lemma ADDE_form oe rc op p : exists o,
  ADDE oe rc op p = carry_form oe rc (op_rd op) (r p (op_ra op)) (r p (op_rb op)) (ca (xer p)) o p.
Proof. by eexists. Qed.

Lemma SUBFC_form oe rc op p : exists o,
  SUBFC oe rc op p
  = carry_form oe rc (op_rd op) (bnot 64 (r p (op_ra op))) (r p (op_rb op)) true o p.
Proof. by eexists. Qed.

Lemma SUBFE_form oe rc op p : exists o,
  SUBFE oe rc op p
  = carry_form oe rc (op_rd op) (bnot 64 (r p (op_ra op))) (r p (op_rb op)) (ca (xer p)) o p.
Proof. by eexists. Qed.

(** C11.  [addc] followed by [adde] adds two 128-bit numbers held in register
    pairs: the two results and the final carry are the exact sum of the
    operands, when the low result does not overwrite the high operands. *)
Theorem addc_adde_128 (oe rc oe' rc' : bool) (lo hi : Z) (p : ppu_thread) :
  wf p ->
  op_rd lo <> op_ra hi -> op_rd lo <> op_rb hi -> op_rd lo <> op_rd hi ->
  let q := ADDE oe' rc' hi (ADDC oe rc lo p) in
  r q (op_rd hi) * 2 ^ 64 + r q (op_rd lo) + 2 ^ 128 * Z.b2z (ca (xer q)) =
  (r p (op_ra hi) * 2 ^ 64 + r p (op_ra lo)) + (r p (op_rb hi) * 2 ^ 64 + r p (op_rb lo)).
Proof.
  intros H N1 N2 N3 q.
  destruct (ADDC_form oe rc lo p) as [o1 E1]. set (p1 := ADDC oe rc lo p) in *.
  destruct (ADDE_form oe' rc' hi p1) as [o2 E2].
  destruct (carry_form_spec oe rc (op_rd lo) (r p (op_ra lo)) (r p (op_rb lo)) false o1 p)
    as (W1 & S1 & F1); auto with width.
  rewrite <- E1 in W1, S1, F1.
  destruct (carry_form_spec oe' rc' (op_rd hi) (r p1 (op_ra hi)) (r p1 (op_rb hi)) (ca (xer p1)) o2 p1)
    as (W2 & S2 & F2); auto with width.
  rewrite <- E2 in W2, S2, F2. fold q in W2, S2, F2.
  rewrite (F1 (op_ra hi)), (F1 (op_rb hi)) in S2 by (apply op_reg_range || done).
  rewrite (F2 (op_rd lo)) by (apply op_reg_range || done). cbn [Z.b2z] in S1. lia.
Qed.

Lemma addc_adde_128_witness :
  let p := set_r (set_r zero_thread 3 (2 ^ 64 - 1)) 5 1 in
  let q := ADDE false false 0x7CC63914 (ADDC false false 0x7D032814 p) in
  r q (op_rd 0x7CC63914) * 2 ^ 64 + r q (op_rd 0x7D032814) + 2 ^ 128 * Z.b2z (ca (xer q)) =
  (r p (op_ra 0x7CC63914) * 2 ^ 64 + r p (op_ra 0x7D032814)) +
  (r p (op_rb 0x7CC63914) * 2 ^ 64 + r p (op_rb 0x7D032814)).
Proof.
  intros p. apply addc_adde_128; [|vm_compute; discriminate..].
  apply set_r_wf; [apply set_r_wf; [exact zero_thread_wf|split; lia]|split; lia].
Defined.

(** C27.  [subfc] followed by [subfe] subtracts 128-bit numbers (the RA pair
    from the RB pair); the final carry is clear exactly when a borrow remains. *)
Theorem subfc_subfe_128 (oe rc oe' rc' : bool) (lo hi : Z) (p : ppu_thread) :
  wf p ->
  op_rd lo <> op_ra hi -> op_rd lo <> op_rb hi -> op_rd lo <> op_rd hi ->
  let q := SUBFE oe' rc' hi (SUBFC oe rc lo p) in
  r q (op_rd hi) * 2 ^ 64 + r q (op_rd lo) - 2 ^ 128 * Z.b2z (negb (ca (xer q))) =
  (r p (op_rb hi) * 2 ^ 64 + r p (op_rb lo)) - (r p (op_ra hi) * 2 ^ 64 + r p (op_ra lo)).
Proof.
  intros H N1 N2 N3 q.
  destruct (SUBFC_form oe rc lo p) as [o1 E1]. set (p1 := SUBFC oe rc lo p) in *.
  destruct (SUBFE_form oe' rc' hi p1) as [o2 E2].
  destruct (carry_form_spec oe rc (op_rd lo) (bnot 64 (r p (op_ra lo))) (r p (op_rb lo)) true o1 p)
    as (W1 & S1 & F1); auto with width.
  rewrite <- E1 in W1, S1, F1.
  destruct (carry_form_spec oe' rc' (op_rd hi) (bnot 64 (r p1 (op_ra hi))) (r p1 (op_rb hi))
    (ca (xer p1)) o2 p1) as (W2 & S2 & F2); auto with width.
  rewrite <- E2 in W2, S2, F2. fold q in W2, S2, F2.
  rewrite (F1 (op_ra hi)), (F1 (op_rb hi)) in S2 by (apply op_reg_range || done).
  rewrite bnot_eq in S1, S2 by auto with width.
  rewrite (F2 (op_rd lo)) by (apply op_reg_range || done).
  cbn [Z.b2z] in S1. destruct (ca (xer q)); cbn [negb Z.b2z] in *; lia.
Qed.

Lemma subfc_subfe_128_witness :
  let p := set_r zero_thread 3 1 in
  let q := SUBFE false false 0x7CC63910 (SUBFC false false 0x7D032810 p) in
  r q (op_rd 0x7CC63910) * 2 ^ 64 + r q (op_rd 0x7D032810) - 2 ^ 128 * Z.b2z (negb (ca (xer q))) =
  (r p (op_rb 0x7CC63910) * 2 ^ 64 + r p (op_rb 0x7D032810)) -
  (r p (op_ra 0x7CC63910) * 2 ^ 64 + r p (op_ra 0x7D032810)).
Proof.
  intros p. apply subfc_subfe_128; [|vm_compute; discriminate..].
  apply set_r_wf; [exact zero_thread_wf|split; lia].
Defined.

(** ** Overflow *)

Definition fits (w x : Z) : bool := (- 2 ^ (w - 1) <=? x) && (x <? 2 ^ (w - 1)).

Lemma msb_eq x : in_uint 64 x -> msb x = if x <? 2 ^ 63 then 0 else 1.
Proof.
  intros H. unfold msb, in_uint in *. rewrite Z.shiftr_div_pow2 by lia.
  change (2 ^ 64) with (2 * 2 ^ 63) in H. destruct (Z.ltb_spec x (2 ^ 63)).
  - apply Z.div_small. lia.
  - symmetry. apply Z.div_unique with (x - 2 ^ 63); lia.
Qed.

Lemma add64_flags_c_result a b c : fst (add64_flags_c a b c) = u64 (a + b + Z.b2z c).
Proof. unfold add64_flags_c, add64_flags. cbn [fst]. apply uint_add_l. Qed.

(** The sign rule the handlers use: operands of one sign, result of the other. *)
Lemma sign_rule a b c : in_uint 64 a -> in_uint 64 b ->
  (msb a =? msb b) && negb (msb a =? msb (u64 (a + b + Z.b2z c)))
  = negb (fits 64 (s64 a + s64 b + Z.b2z c)).
Proof.
  intros Ha Hb. pose proof (uint_range 64 (a + b + Z.b2z c) ltac:(lia)) as Hr.
  rewrite !msb_eq, !sint_in_uint by done. unfold fits, in_uint, uint in *.
  change (2 ^ (64 - 1)) with 9223372036854775808. change (2 ^ 63) with 9223372036854775808.
  change (2 ^ 64) with 18446744073709551616 in *.
  destruct (Z.ltb_spec a 9223372036854775808), (Z.ltb_spec b 9223372036854775808);
  destruct (Z.ltb_spec ((a + b + Z.b2z c) mod 18446744073709551616) 9223372036854775808);
  destruct c; cbn [Z.b2z] in *; zlia.
Qed.

Lemma s64_bnot x : in_uint 64 x -> s64 (bnot 64 x) = -1 - s64 x.
Proof.
  intros Hx. rewrite (sint_in_uint 64 (bnot 64 x)) by auto with width.
  rewrite bnot_eq, sint_in_uint by (done || lia). unfold in_uint in Hx.
  change (2 ^ (64 - 1)) with 9223372036854775808. change (2 ^ 64) with 18446744073709551616 in *.
  destruct (Z.ltb_spec (18446744073709551616 - 1 - x) 9223372036854775808),
    (Z.ltb_spec x 9223372036854775808); lia.
Qed.

(** The overflow and summary bits after an OE form with overflow bit [b]. *)
Lemma overflow_record rc v b q x p :
  so (xer q) = so (xer p) -> b = negb (fits 64 x) ->
  ov (xer (record rc v (overflow true b q))) = negb (fits 64 x) /\
  so (xer (record rc v (overflow true b q))) = so (xer p) || negb (fits 64 x).
Proof. intros E ->. rewrite !xer_record. cbn. by rewrite E. Qed.

Lemma carry_form_overflow rc rd a b c o p x :
  o (u64 (a + b + Z.b2z c)) = negb (fits 64 x) ->
  let q := carry_form true rc rd a b c o p in
  ov (xer q) = negb (fits 64 x) /\ so (xer q) = so (xer p) || negb (fits 64 x).
Proof.
  intros E. cbv zeta. unfold carry_form. pose proof (add64_flags_c_result a b c) as R.
  destruct (add64_flags_c a b c) as [res carry]. cbn [fst] in R. subst res.
  by apply overflow_record.
Qed.

Lemma ADDME_form oe rc op p : wf p ->
  let RA := r p (op_ra op) in
  ADDME oe rc op p = carry_form oe rc (op_rd op) RA (2 ^ 64 - 1) (ca (xer p))
    (fun result => (msb RA =? 1) && negb (msb RA =? msb result)) p.
Proof.
  intros H RA. assert (HA : in_uint 64 RA) by (unfold RA; auto with width).
  assert (E1 : u64 (s64 RA) = RA) by (rewrite uint_sint by lia; by apply uint_small).
  assert (E2 : u64 (s64 RA + (2 ^ 64 - 1)) = u64 (RA + (2 ^ 64 - 1)))
    by (by rewrite <- uint_add_l, E1).
  unfold ADDME, carry_form, add64_flags_c, add64_flags. cbv zeta. fold RA.
  by rewrite E1, E2, (uint_small 64 RA).
Qed.

(** C30.  The OE forms set OV exactly when the exact signed result of the
    addition, subtraction or negation does not fit 64 bits, for every
    instruction of the family, carry in included; and SO accumulates it. *)
Theorem add_sub_overflow (rc : bool) (op : Z) (p : ppu_thread) :
  wf p ->
  let A := s64 (r p (op_ra op)) in
  let B := s64 (r p (op_rb op)) in
  let C := Z.b2z (ca (xer p)) in
  let overflows q x :=
    ov (xer q) = negb (fits 64 x) /\ so (xer q) = so (xer p) || negb (fits 64 x) in
  overflows (ADD true rc op p) (A + B) /\
  overflows (ADDC true rc op p) (A + B) /\
  overflows (ADDE true rc op p) (A + B + C) /\
  overflows (ADDZE true rc op p) (A + C) /\
  overflows (ADDME true rc op p) (A - 1 + C) /\
  overflows (SUBF true rc op p) (B - A) /\
  overflows (SUBFC true rc op p) (B - A) /\
  overflows (SUBFE true rc op p) (B - A - 1 + C) /\
  overflows (SUBFZE true rc op p) (- A - 1 + C) /\
  overflows (SUBFME true rc op p) (- A - 2 + C) /\
  overflows (NEG true rc op p) (- A).
Proof.
  intros H A B C overflows.
  assert (RA : in_uint 64 (r p (op_ra op))) by auto with width.
  assert (RB : in_uint 64 (r p (op_rb op))) by auto with width.
  assert (NA : in_uint 64 (bnot 64 (r p (op_ra op)))) by auto with width.
  assert (Z0 : in_uint 64 0) by (split; lia).
  assert (M1 : in_uint 64 (2 ^ 64 - 1)) by (split; lia).
  assert (S : forall a b c x, in_uint 64 a -> in_uint 64 b -> x = s64 a + s64 b + Z.b2z c ->
    (msb a =? msb b) && negb (msb a =? msb (u64 (a + b + Z.b2z c))) = negb (fits 64 x))
    by (intros a b c x Ha Hb ->; by apply sign_rule).
  pose proof (s64_bnot _ RA) as BN. fold A in BN.
  split_and!.
  - apply overflow_record; [done|]. rewrite <- (Z.add_0_r (_ + _)). apply (S _ _ false); [done..|].
    cbn [Z.b2z]. unfold A, B. lia.
  - unfold ADDC. rewrite add64_flags_zero. apply carry_form_overflow.
    apply (S _ _ false); [done..|]. cbn [Z.b2z]. unfold A, B. lia.
  - apply carry_form_overflow. by apply S.
  - apply carry_form_overflow. apply (S _ 0); [done..|]. change (s64 0) with 0. unfold A, C. lia.
  - unfold overflows. rewrite ADDME_form by done. apply carry_form_overflow.
    apply (S _ (2 ^ 64 - 1)); [done..|]. change (s64 (2 ^ 64 - 1)) with (-1). unfold A, C. lia.
  - apply overflow_record; [done|].
    assert (E : u64 (r p (op_rb op) - r p (op_ra op))
      = u64 (bnot 64 (r p (op_ra op)) + r p (op_rb op) + Z.b2z true)).
    { rewrite bnot_eq by (done || lia). cbn [Z.b2z].
      replace (_ + _ + 1) with (r p (op_rb op) - r p (op_ra op) + 1 * 2 ^ 64) by lia.
      unfold uint. by rewrite Z.mod_add. }
    rewrite E. apply S; [done..|]. rewrite BN. cbn [Z.b2z]. unfold B. lia.
  - apply carry_form_overflow. apply S; [done..|]. rewrite BN. cbn [Z.b2z]. unfold B. lia.
  - apply carry_form_overflow. apply S; [done..|]. rewrite BN. unfold B, C. lia.
  - apply carry_form_overflow. apply (S _ 0); [done..|]. rewrite BN. change (s64 0) with 0. unfold C. lia.
  - apply carry_form_overflow. apply (S _ (2 ^ 64 - 1)); [done..|]. rewrite BN.
    change (s64 (2 ^ 64 - 1)) with (-1). unfold C. lia.
  - apply overflow_record; [done|]. unfold A, fits. rewrite sint_in_uint by done.
    unfold in_uint in RA. change (Z.shiftl 1 63) with (2 ^ 63). change (64 - 1) with 63.
    change (2 ^ 64) with (2 * 2 ^ 63) in *. destruct (Z.ltb_spec (r p (op_ra op)) (2 ^ 63)); lia.
Qed.

Lemma add_sub_overflow_witness :
  let p := set_r zero_thread 3 (2 ^ 63 - 1) in
  wf p /\ ov (xer (ADD true false 0x7C831A14 p)) = true.
Proof.
  assert (W : wf (set_r zero_thread 3 (2 ^ 63 - 1)))
    by (apply set_r_wf; [exact zero_thread_wf|split; lia]).
  split; [exact W|].
  destruct (add_sub_overflow false 0x7C831A14 _ W) as [[E _] _]. rewrite E. vm_compute. reflexivity.
Defined.

(** ** Products *)

Lemma sint_mul_bound w x y : 0 < w -> in_sint w x -> in_sint w y ->
  - 2 ^ (2 * w - 2) <= x * y <= 2 ^ (2 * w - 2).
Proof.
  intros Hw Hx Hy. unfold in_sint in *.
  assert (Hp : 2 ^ (2 * w - 2) = 2 ^ (w - 1) * 2 ^ (w - 1))
    by (rewrite <- Z.pow_add_r by lia; f_equal; lia).
  rewrite Hp. assert (Z.abs (x * y) <= 2 ^ (w - 1) * 2 ^ (w - 1)); [|lia].
  rewrite Z.abs_mul. apply Z.mul_le_mono_nonneg; lia.
Qed.

(** The high half of the product of signed 64-bit values is a signed 64-bit
    value. *)
Lemma mulh64_range x y : in_sint 64 x -> in_sint 64 y -> in_sint 64 (mulh64 x y).
Proof.
  intros Hx Hy. pose proof (sint_mul_bound 64 x y ltac:(lia) Hx Hy) as Hb.
  unfold mulh64, in_sint. rewrite Z.shiftr_div_pow2 by lia. split.
  - apply Z.div_le_lower_bound; lia.
  - apply Z.div_lt_upper_bound; lia.
Qed.

Lemma mulh64_split x y : mulh64 x y * 2 ^ 64 + u64 (x * y) = x * y.
Proof.
  unfold mulh64, uint. rewrite Z.shiftr_div_pow2 by lia.
  pose proof (Z.div_mod (x * y) (2 ^ 64) ltac:(lia)). lia.
Qed.

Lemma uint_sint_mul w a b : 0 < w -> uint w (sint w a * sint w b) = uint w (a * b).
Proof.
  intros Hw. destruct (sint_mod w a Hw) as [k ->], (sint_mod w b Hw) as [l ->].
  unfold uint. replace (_ * _) with (a * b + (a * l + k * b + k * l * 2 ^ w) * 2 ^ w) by ring.
  apply Z.mod_add. apply Z.pow_nonzero; lia.
Qed.

Lemma umulh64_split a b : in_uint 64 a -> in_uint 64 b ->
  umulh64 a b * 2 ^ 64 + u64 (a * b) = a * b.
Proof.
  intros [Ha1 Ha2] [Hb1 Hb2]. unfold umulh64. rewrite Z.shiftr_div_pow2 by lia.
  rewrite (uint_small 64).
  - unfold uint. pose proof (Z.div_mod (a * b) (2 ^ 64) ltac:(lia)). lia.
  - split; [apply Z.div_pos; nia|]. apply Z.div_lt_upper_bound; [lia|]. nia.
Qed.

(** The test of MULLD: the high half is the sign extension of the low half. *)
Lemma mulld_rule P h : in_sint 64 h -> h * 2 ^ 64 + u64 P = P ->
  negb (h =? Z.shiftr (s64 (u64 P)) 63) = negb (fits 64 P).
Proof.
  intros Hh E. pose proof (uint_range 64 P ltac:(lia)) as Hl. set (l := u64 P) in *.
  rewrite sint_in_uint by done. rewrite Z.shiftr_div_pow2 by lia. unfold fits, in_uint, in_sint in *.
  change (64 - 1) with 63 in *. change (2 ^ 64) with (2 * 2 ^ 63) in *. rewrite <- E.
  change (2 ^ 63) with 9223372036854775808 in *.
  f_equal. destruct (Z.ltb_spec l 9223372036854775808).
  - rewrite Z.div_small by lia. lia.
  - replace ((l - 2 * 9223372036854775808) / 9223372036854775808) with (-1) by zlia. lia.
Qed.

Lemma s64_u64 x : in_sint 64 x -> s64 (u64 x) = x.
Proof. intros. rewrite sint_uint. apply sint_small; [lia|done]. Qed.

Lemma s32_mul_64 x y : in_sint 32 x -> in_sint 32 y -> in_sint 64 (x * y).
Proof.
  intros Hx Hy. pose proof (sint_mul_bound 32 x y ltac:(lia) Hx Hy) as Hb. unfold in_sint. lia.
Qed.

(** C31.  The high and low halves of a 64-bit product fit together: the signed
    pair [mulhd], [mulld] and the unsigned pair [mulhdu], [mulld] give the exact
    128-bit products; [mulld] with OE sets OV exactly when the signed product
    does not fit its low half.  The 32-bit products are exact. *)
Theorem products_exact (rc oe : bool) (op : Z) (p : ppu_thread) :
  wf p ->
  let A := r p (op_ra op) in
  let B := r p (op_rb op) in
  s64 (r (MULHD rc op p) (op_rd op)) * 2 ^ 64 + r (MULLD rc op p) (op_rd op) = s64 A * s64 B /\
  r (MULHDU rc op p) (op_rd op) * 2 ^ 64 + r (MULLD rc op p) (op_rd op) = A * B /\
  (op_oe op = true -> ov (xer (MULLD rc op p)) = negb (fits 64 (s64 A * s64 B))) /\
  s64 (r (MULLW oe rc op p) (op_rd op)) = s32 A * s32 B /\
  ov (xer (MULLW true rc op p)) = negb (fits 32 (s32 A * s32 B)) /\
  s64 (r (MULHW rc op p) (op_rd op)) = (s32 A * s32 B) / 2 ^ 32 /\
  r (MULHWU rc op p) (op_rd op) = (u32 A * u32 B) / 2 ^ 32.
Proof.
  intros H A B.
  assert (HA : in_uint 64 A) by (unfold A; auto with width).
  assert (HB : in_uint 64 B) by (unfold B; auto with width).
  assert (G : forall v, r (set_rc rc (op_rd op) v p) (op_rd op) = v)
    by (intros; apply r_set_rc_eq; auto with width).
  assert (D : r (MULLD rc op p) (op_rd op) = u64 (s64 A * s64 B)).
  { unfold MULLD. cbv zeta. rewrite r_record. destruct (op_oe op); [cbn|]; apply r_set_r_eq; auto with width. }
  assert (SA : in_sint 64 (s64 A)) by auto with width.
  assert (SB : in_sint 64 (s64 B)) by auto with width.
  assert (WA : in_sint 32 (s32 A)) by auto with width.
  assert (WB : in_sint 32 (s32 B)) by auto with width.
  pose proof (s32_mul_64 _ _ WA WB) as HW.
  assert (L : forall oe, r (MULLW oe rc op p) (op_rd op) = u64 (s32 A * s32 B)).
  { intros o. unfold MULLW. cbv zeta. rewrite r_record, r_overflow. apply r_set_r_eq; auto with width. }
  split_and!.
  - unfold MULHD. rewrite G, D. fold A B. rewrite s64_u64 by (by apply mulh64_range).
    apply mulh64_split.
  - unfold MULHDU. rewrite G, D. fold A B. rewrite uint_sint_mul by lia. by apply umulh64_split.
  - intros O. unfold MULLD. cbv zeta. rewrite O, xer_record. fold A B. cbn [ppu_ov_set xer set_xer ov].
    apply mulld_rule; [by apply mulh64_range|apply mulh64_split].
  - rewrite L. by apply s64_u64.
  - unfold MULLW. cbv zeta. rewrite xer_record, ov_overflow. fold A B. rewrite s64_u64 by done.
    unfold fits. change (32 - 1) with 31. lia.
  - unfold MULHW. cbv zeta. rewrite G. fold A B. rewrite Z.shiftr_div_pow2 by lia.
    apply s64_u64. unfold in_sint in *.
    change (2 ^ (64 - 1)) with 9223372036854775808 in *. change (2 ^ 32) with 4294967296. zlia.
  - unfold MULHWU. cbv zeta. rewrite G. fold A B. rewrite Z.shiftr_div_pow2, (uint_small 64); [done| |lia].
    pose proof (uint_range 32 A ltac:(lia)). pose proof (uint_range 32 B ltac:(lia)).
    unfold in_uint in *. split; nia.
Qed.

Lemma products_exact_witness :
  let p := set_r zero_thread 3 (2 ^ 63) in
  s64 (r (MULHD false 0x7C831892 p) (op_rd 0x7C831892)) * 2 ^ 64
    + r (MULLD false 0x7C831892 p) (op_rd 0x7C831892) = 2 ^ 126.
Proof.
  assert (W : wf (set_r zero_thread 3 (2 ^ 63)))
    by (apply set_r_wf; [exact zero_thread_wf|split; lia]).
  destruct (products_exact false false 0x7C831892 _ W) as [E _].
  cbv zeta. rewrite E. vm_compute. reflexivity.
Defined.

(** ** Quotients *)

(** The only quotient of [w]-bit signed numbers that does not fit. *)
Lemma quot_fits w x y : 1 < w -> in_sint w x -> in_sint w y -> y <> 0 ->
  negb (fits w (x ÷ y)) = (x =? - 2 ^ (w - 1)) && (y =? -1).
Proof.
  intros Hw Hx Hy N. unfold in_sint, fits in *. set (M := 2 ^ (w - 1)) in *.
  assert (1 < M) by (apply Z.pow_gt_1; lia).
  destruct (Z.eqb_spec y (-1)) as [->|N1].
  - change (-1) with (- (1)). rewrite Z.quot_opp_r, Z.quot_1_r by lia.
    destruct (Z.eqb_spec x (- M)); cbn [andb]; lia.
  - rewrite andb_false_r. apply negb_false_iff.
    destruct (Z.eq_dec y 1) as [->|N2]; [rewrite Z.quot_1_r; lia|].
    assert (Z.abs (x ÷ y) < M); [|lia].
    rewrite <- Z.quot_abs by lia. rewrite Z.quot_div_nonneg by lia.
    apply Z.div_lt_upper_bound; nia.
Qed.

Lemma bad_quot w x y : 1 < w -> in_sint w x -> in_sint w y ->
  (y =? 0) || ((x =? - 2 ^ (w - 1)) && (y =? -1)) = (y =? 0) || negb (fits w (x ÷ y)).
Proof.
  intros Hw Hx Hy. destruct (Z.eqb_spec y 0) as [|N]; [done|]. cbn [orb].
  symmetry. by apply quot_fits.
Qed.

Lemma fits_sint w x : fits w x = true -> in_sint w x.
Proof. unfold fits, in_sint. lia. Qed.



(** ** Shifts *)

Lemma uint_sint_inj w x y : 0 < w -> in_sint w x -> in_sint w y -> uint w x = uint w y -> x = y.
Proof.
  intros Hw Hx Hy E. rewrite <- (sint_small w x), <- (sint_small w y) by done.
  by rewrite <- (sint_uint w x), E, sint_uint.
Qed.

(** The multiple of [2 ^ n] below a signed number stays in range. *)
Lemma floor_pow_range w x n : 0 <= n < w -> in_sint w x -> in_sint w (x / 2 ^ n * 2 ^ n).
Proof.
  intros Hn Hx. unfold in_sint in *. pose proof (pow2_pos n ltac:(lia)) as Hp.
  assert (E : 2 ^ (w - 1) = 2 ^ (w - 1 - n) * 2 ^ n) by (rewrite <- Z.pow_add_r by lia; f_equal; lia).
  assert (- 2 ^ (w - 1 - n) <= x / 2 ^ n) by (apply Z.div_le_lower_bound; lia).
  pose proof (Z.mul_le_mono_nonneg_r (- 2 ^ (w - 1 - n)) (x / 2 ^ n) (2 ^ n)).
  pose proof (Z.mul_div_le x (2 ^ n) Hp). lia.
Qed.

(** The carry of an arithmetic right shift: a negative number that loses bits. *)
Definition lost_bits (x n : Z) : bool := (x <? 0) && negb (x mod 2 ^ n =? 0).

Lemma shift_back w x n res : 0 <= n < w -> in_sint w x -> uint w res = uint w (x / 2 ^ n) ->
  (uint w (Z.shiftl res n) =? uint w x) = (x mod 2 ^ n =? 0).
Proof.
  intros Hn Hx E. pose proof (pow2_pos n ltac:(lia)).
  assert (F : uint w (Z.shiftl res n) = uint w (x / 2 ^ n * 2 ^ n)).
  { rewrite Z.shiftl_mul_pow2 by lia. unfold uint in *.
    rewrite Z.mul_mod, E, <- Z.mul_mod by (apply Z.pow_nonzero; lia). done. }
  rewrite F. pose proof (Z.div_mod x (2 ^ n) ltac:(lia)) as D.
  destruct (Z.eqb_spec (x mod 2 ^ n) 0) as [Z0|N0].
  - apply Z.eqb_eq. f_equal. lia.
  - apply Z.eqb_neq. intros E'. apply uint_sint_inj in E'; [lia|lia|by apply floor_pow_range|done].
Qed.

Lemma shift_all w x n : 0 < w <= n -> in_sint w x ->
  x / 2 ^ n = 0 - Z.b2z (x <? 0) /\ lost_bits x n = (x <? 0).
Proof.
  intros Hn Hx. unfold in_sint, lost_bits in *.
  pose proof (Z.pow_le_mono_r 2 (w - 1) n ltac:(lia) ltac:(lia)).
  destruct (Z.ltb_spec x 0); cbn [Z.b2z andb].
  - assert (x / 2 ^ n = -1) as E by (symmetry; apply Z.div_unique with (x + 2 ^ n); lia).
    split; [lia|]. apply negb_true_iff, Z.eqb_neq.
    rewrite Z.mod_eq, E by lia. destruct (Z.eq_dec x (- 2 ^ n)); [|lia].
    pose proof (Z.pow_lt_mono_r 2 (w - 1) n ltac:(lia) ltac:(lia) ltac:(lia)). lia.
  - split; [|done]. rewrite Z.div_small by lia. lia.
Qed.

Lemma div_pow_range w x n : 0 < w -> 0 <= n -> in_sint w x -> in_sint w (x / 2 ^ n).
Proof.
  intros Hw Hn Hx. unfold in_sint in *. pose proof (pow2_pos n Hn). split.
  - apply Z.div_le_lower_bound; nia.
  - apply Z.div_lt_upper_bound; nia.
Qed.

Lemma in_sint_mono v w x : 0 < v <= w -> in_sint v x -> in_sint w x.
Proof.
  intros Hv Hx. unfold in_sint in *.
  pose proof (Z.pow_le_mono_r 2 (v - 1) (w - 1) ltac:(lia) ltac:(lia)). lia.
Qed.

(** One arithmetic right shift of [w] bits held sign-extended in 64. *)
Lemma sra_cases w x n :
  0 < w <= 64 -> 0 <= n -> in_sint w x ->
  forall result carry,
  (if w - 1 <? n then (u64 (0 - Z.b2z (x <? 0)), x <? 0)
   else (u64 (Z.shiftr x n), (x <? 0) && negb (u64 (Z.shiftl (u64 (Z.shiftr x n)) n) =? u64 x)))
  = (result, carry) ->
  s64 result = x / 2 ^ n /\ carry = lost_bits x n.
Proof.
  intros Hw Hn Hx result carry. pose proof (div_pow_range w x n ltac:(lia) Hn Hx) as Hd.
  apply (in_sint_mono w 64) in Hd; [|lia].
  destruct (Z.ltb_spec (w - 1) n) as [L|L]; intros [= <- <-].
  - destruct (shift_all w x n ltac:(lia) Hx) as [E1 E2]. rewrite <- E1, <- E2.
    split; [by apply s64_u64|done].
  - rewrite Z.shiftr_div_pow2 by done. split; [by apply s64_u64|]. unfold lost_bits.
    do 2 f_equal. apply shift_back; [lia|by apply (in_sint_mono w)|]. apply uint_uint.
Qed.

Lemma land_mask_range x n : 0 <= n -> 0 <= Z.land x (2 ^ n - 1) < 2 ^ n.
Proof. intros. rewrite land_ones_uint by done. by apply uint_range. Qed.

Lemma sh64_range op : 0 <= op_sh64 op < 64.
Proof.
  unfold op_sh64. rewrite lor_shiftl_add by (first [lia | apply (ppu_bf_range 16 5); lia]).
  pose proof (ppu_bf_range 30 1 op ltac:(lia)) as H1.
  pose proof (ppu_bf_range 16 5 op ltac:(lia)) as H2. unfold in_uint in *. lia.
Qed.

Lemma SRAWI_spec rc op p : wf p ->
  let x := s32 (r p (op_rs op)) in
  let q := SRAWI rc op p in
  wf q /\ s64 (r q (op_ra op)) = x / 2 ^ op_sh32 op /\ ca (xer q) = lost_bits x (op_sh32 op).
Proof.
  intros H x q. assert (Hn : 0 <= op_sh32 op < 32) by apply op_reg_range.
  assert (Hx : in_sint 32 x) by (unfold x; auto with width).
  split; [unfold q, SRAWI; auto 8 with wf width|]. unfold q, SRAWI. cbv zeta. ppu_simpl.
  fold x. rewrite r_set_r_eq by auto with width. rewrite Z.shiftr_div_pow2 by lia.
  pose proof (div_pow_range 32 x (op_sh32 op) ltac:(lia) ltac:(lia) Hx) as Hd.
  split; [apply s64_u64; apply (in_sint_mono 32); [lia|done]|]. unfold lost_bits. do 2 f_equal.
  rewrite uint_narrow by lia. apply shift_back; [lia|done|]. apply uint_narrow. lia.
Qed.

Lemma SRADI_spec rc op p : wf p ->
  let x := s64 (r p (op_rs op)) in
  let q := SRADI rc op p in
  wf q /\ s64 (r q (op_ra op)) = x / 2 ^ op_sh64 op /\ ca (xer q) = lost_bits x (op_sh64 op).
Proof.
  intros H x q. pose proof (sh64_range op) as Hn.
  assert (Hx : in_sint 64 x) by (unfold x; auto with width).
  split; [unfold q, SRADI; auto 8 with wf width|]. unfold q, SRADI. cbv zeta. ppu_simpl.
  fold x. rewrite r_set_r_eq by auto with width. rewrite Z.shiftr_div_pow2 by lia.
  split; [apply s64_u64; apply div_pow_range; [lia|lia|done]|]. unfold lost_bits. do 2 f_equal.
  apply shift_back; [lia|done|]. apply uint_uint.
Qed.

Lemma sra_result rc i res c p : wf p -> 0 <= i < 32 ->
  let q := record rc res (set_ca (set_r p i res) c) in r q i = res /\ ca (xer q) = c.
Proof. intros H Hi q. unfold q. ppu_simpl. split; [|done]. apply r_set_r_eq; auto with width. Qed.

(** The algebraic right shifts divide by a power of two, rounding down,
    for every shift amount the instruction can name (63 for [sraw], 127 for
    [srad] included); CA is set exactly when a negative operand loses one
    bits. *)
Theorem shift_right_algebraic (rc : bool) (op : Z) (p : ppu_thread) :
  wf p ->
  let shifts q x n := s64 (r q (op_ra op)) = x / 2 ^ n /\ ca (xer q) = lost_bits x n in
  let W := s32 (r p (op_rs op)) in
  let D := s64 (r p (op_rs op)) in
  shifts (SRAW rc op p) W (r p (op_rb op) mod 64) /\
  shifts (SRAD rc op p) D (r p (op_rb op) mod 128) /\
  shifts (SRAWI rc op p) W (op_sh32 op) /\
  shifts (SRADI rc op p) D (op_sh64 op).
Proof.
  intros H shifts W D.
  assert (HW : in_sint 32 W) by (unfold W; auto with width).
  assert (HD : in_sint 64 D) by (unfold D; auto with width).
  split_and!.
  - unfold shifts, SRAW. cbv zeta. fold W.
    change (Z.land (r p (op_rb op)) 63) with (Z.land (r p (op_rb op)) (2 ^ 6 - 1)).
    rewrite land_ones_uint by lia. change (r p (op_rb op) mod 64) with (uint 6 (r p (op_rb op))).
    pose proof (uint_range 6 (r p (op_rb op)) ltac:(lia)) as [Hn _].
    destruct (if 31 <? _ then _ else _) as [res c] eqn:E.
    destruct (sra_result rc (op_ra op) res c p) as [-> ->]; [auto with width..|].
    by apply (sra_cases 32) in E.
  - unfold shifts, SRAD. cbv zeta. fold D.
    change (Z.land (r p (op_rb op)) 127) with (Z.land (r p (op_rb op)) (2 ^ 7 - 1)).
    rewrite land_ones_uint by lia. change (r p (op_rb op) mod 128) with (uint 7 (r p (op_rb op))).
    pose proof (uint_range 7 (r p (op_rb op)) ltac:(lia)) as [Hn _].
    destruct (if 63 <? _ then _ else _) as [res c] eqn:E.
    destruct (sra_result rc (op_ra op) res c p) as [-> ->]; [auto with width..|].
    by apply (sra_cases 64) in E.
  - by apply SRAWI_spec.
  - by apply SRADI_spec.
Qed.

Lemma shift_right_algebraic_witness :
  let p := set_r (set_r zero_thread 3 (2 ^ 64 - 7)) 4 1 in
  wf p /\ s64 (r (SRAW false 0x7C651E30 (set_r p 3 1)) (op_ra 0x7C651E30)) = 0 /\
  s64 (r (SRAWI false 0x7C650E70 p) (op_ra 0x7C650E70)) = -4.
Proof.
  assert (W : wf (set_r (set_r zero_thread 3 (2 ^ 64 - 7)) 4 1))
    by (apply set_r_wf; [apply set_r_wf; [exact zero_thread_wf|split; lia]|split; lia]).
  split; [exact W|]. split; [vm_compute; reflexivity|].
  destruct (shift_right_algebraic false 0x7C650E70 _ W) as (_ & _ & [E _] & _).
  rewrite E. vm_compute. reflexivity.
Defined.

Lemma floor_carry_quot x n : 0 <= n -> x / 2 ^ n + Z.b2z (lost_bits x n) = x ÷ 2 ^ n.
Proof.
  intros Hn. pose proof (pow2_pos n Hn) as Hp. unfold lost_bits.
  destruct (Z.ltb_spec x 0); cbn [andb Z.b2z].
  - rewrite <- (Z.opp_involutive x) at 3. rewrite Z.quot_opp_l, Z.quot_div_nonneg by lia.
    pose proof (Z.div_mod x (2 ^ n) ltac:(lia)). pose proof (Z.mod_pos_bound x (2 ^ n) Hp).
    destruct (Z.eqb_spec (x mod 2 ^ n) 0); cbn [negb Z.b2z].
    + replace (- x / 2 ^ n) with (- (x / 2 ^ n)); [lia|].
      apply Z.div_unique with 0; lia.
    + replace (- x / 2 ^ n) with (- (x / 2 ^ n) - 1); [lia|].
      apply Z.div_unique with (2 ^ n - x mod 2 ^ n); lia.
  - rewrite Z.quot_div_nonneg by lia. lia.
Qed.

Lemma ADDZE_result oe rc op p : wf p ->
  r (ADDZE oe rc op p) (op_rd op) = u64 (r p (op_ra op) + Z.b2z (ca (xer p))).
Proof.
  intros H. unfold ADDZE. cbv zeta.
  pose proof (add64_flags_c_result (r p (op_ra op)) 0 (ca (xer p))) as R.
  destruct (add64_flags_c _ _ _) as [res c]. cbn [fst] in R. ppu_simpl.
  rewrite r_set_r_eq, R, Z.add_0_r by auto with width. done.
Qed.

(**  The compilers' signed division by a power of two: [srawi] then
    [addze] (and [sradi] then [addze]) on the shifted register give the
    quotient truncated towards zero, for every shift amount below the width. *)
Theorem shift_addze_division (rc oe rc' : bool) (op op' : Z) (p : ppu_thread) :
  wf p -> op_ra op' = op_ra op ->
  s64 (r (ADDZE oe rc' op' (SRAWI rc op p)) (op_rd op'))
    = s32 (r p (op_rs op)) ÷ 2 ^ op_sh32 op /\
  s64 (r (ADDZE oe rc' op' (SRADI rc op p)) (op_rd op'))
    = s64 (r p (op_rs op)) ÷ 2 ^ op_sh64 op.
Proof.
  intros H E.
  assert (F : forall q x n, wf q -> 0 <= n -> in_sint 64 x -> s64 (r q (op_ra op)) = x / 2 ^ n ->
    ca (xer q) = lost_bits x n -> s64 (r (ADDZE oe rc' op' q) (op_rd op')) = x ÷ 2 ^ n).
  { intros q x n Hq Hn Hx E1 E2. rewrite ADDZE_result, E, E2 by done.
    rewrite <- uint_add_l, <- (uint_sint 64 (r q _)), E1, uint_add_l by lia.
    rewrite sint_uint, floor_carry_quot by done. apply sint_small; [lia|].
    unfold in_sint in *. pose proof (pow2_pos n Hn).
    assert (Z.abs (x ÷ 2 ^ n) <= Z.abs x); [|destruct (Z.le_ge_cases 0 x)].
    - rewrite <- Z.quot_abs, Z.quot_div_nonneg by lia. apply Z.div_le_upper_bound; nia.
    - pose proof (Z.quot_pos x (2 ^ n)). lia.
    - pose proof (Z.quot_pos (- x) (2 ^ n)). rewrite Z.quot_opp_l in * by lia. lia. }
  destruct (SRAWI_spec rc op p H) as (W1 & A1 & C1).
  destruct (SRADI_spec rc op p H) as (W2 & A2 & C2).
  split; [apply F|apply F]; try done.
  - apply op_reg_range.
  - apply (in_sint_mono 32); auto with width.
  - apply sh64_range.
  - auto with width.
Qed.

Lemma shift_addze_division_witness :
  let p := set_r zero_thread 3 (2 ^ 64 - 7) in
  s64 (r (ADDZE false false 0x7CA50194 (SRAWI false 0x7C650E70 p)) (op_rd 0x7CA50194)) = -3.
Proof.
  assert (W : wf (set_r zero_thread 3 (2 ^ 64 - 7)))
    by (apply set_r_wf; [exact zero_thread_wf|split; lia]).
  destruct (shift_addze_division false false false 0x7C650E70 0x7CA50194 _ W eq_refl) as [E _].
  cbv zeta. rewrite E. vm_compute. reflexivity.
Defined.

(** ** Rotates *)

(** MASK(mb, me) of the architecture, on bits numbered from the most
    significant one: the bits from [mb] to [me], wrapping when [me < mb]. *)
Definition mask_bit (mb me b : Z) : bool :=
  if mb <=? me then (mb <=? b) && (b <=? me) else (mb <=? b) || (b <=? me).

Lemma high_ones s j : 0 <= s -> 0 <= j ->
  Z.testbit (u64 (Z.shiftl (2 ^ 64 - 1) s)) j = (s <=? j) && (j <? 64).
Proof.
  intros Hs Hj. rewrite testbit_uint by lia. rewrite Z.shiftl_spec by lia.
  change (2 ^ 64 - 1) with (Z.ones 64).
  destruct (Z.leb_spec s j).
  - destruct (Z.ltb_spec j 64); [|done]. rewrite Z.ones_spec_low by lia. done.
  - rewrite Z.testbit_neg_r by lia. by rewrite andb_false_r.
Qed.

Lemma land_63 x : Z.land x 63 = uint 6 x.
Proof. by apply (land_ones_uint 6). Qed.

Lemma rotate_mask_bits mb me i : 0 <= mb < 64 -> 0 <= me < 64 -> 0 <= i < 64 ->
  Z.testbit (ppu_rotate_mask mb me) i = mask_bit mb me (63 - i).
Proof.
  intros Hb He Hi. unfold ppu_rotate_mask. cbv zeta.
  rewrite !land_63. unfold bnot. rewrite !uint_narrow by lia.
  replace (uint 6 (Z.lnot (u32 (me - mb)))) with ((mb - me - 1) mod 64).
  2: { unfold Z.lnot. rewrite <- (uint_narrow 6 32) by lia. unfold uint. change (2 ^ 6) with 64.
       change (2 ^ 32) with 4294967296. zlia. }
  rewrite (uint_small 6 mb) by (unfold in_uint; lia).
  replace (uint 6 (64 - mb)) with (if mb =? 0 then 0 else 64 - mb).
  2: { unfold uint. change (2 ^ 6) with 64. destruct (Z.eqb_spec mb 0); zlia. }
  rewrite Z.lor_spec, Z.shiftr_spec by lia. rewrite high_ones by zlia.
  rewrite testbit_uint by lia. rewrite Z.shiftl_spec by lia.
  assert (Hs : (mb - me - 1) mod 64 = if mb <=? me then 63 - (me - mb) else mb - me - 1)
    by (destruct (Z.leb_spec mb me); zlia).
  rewrite Hs. unfold mask_bit.
  destruct (Z.le_gt_cases 0 (i - (if mb =? 0 then 0 else 64 - mb))).
  - rewrite high_ones by (destruct (Z.leb_spec mb me); lia).
    destruct (Z.eqb_spec mb 0), (Z.leb_spec mb me); lia.
  - rewrite Z.testbit_neg_r by lia. destruct (Z.eqb_spec mb 0), (Z.leb_spec mb me); lia.
Qed.

Lemma testbit_dup32 x i : in_uint 32 x -> 0 <= i < 64 -> Z.testbit (dup32 x) i = Z.testbit x (i mod 32).
Proof.
  intros Hx Hi. unfold dup32. rewrite Z.lor_spec, Z.shiftl_spec by lia.
  destruct (Z.lt_ge_cases i 32).
  - rewrite (Z.testbit_neg_r x (i - 32)), orb_false_r, Z.mod_small by lia. done.
  - rewrite (testbit_high 32 x i) by (done || lia). cbn [orb]. f_equal.
    apply Z.mod_unique with 1; lia.
Qed.

Lemma lxor_63 n : 0 <= n < 64 -> Z.lxor n 63 = 63 - n.
Proof.
  intros Hn. apply Z.eqb_eq.
  refine (forall_bits_0 (fun n => Z.lxor n 63 =? 63 - n) 6 _ n Hn). vm_compute. reflexivity.
Qed.

Lemma low_ones n i : 0 <= n < 64 -> 0 <= i < 64 ->
  Z.testbit (Z.shiftr (2 ^ 64 - 1) n) i = mask_bit n 63 (63 - i).
Proof.
  intros Hn Hi. rewrite Z.shiftr_spec by lia. change (2 ^ 64 - 1) with (Z.ones 64).
  rewrite Z.testbit_ones by lia. unfold mask_bit. destruct (Z.leb_spec n 63); lia.
Qed.

Lemma high_mask n i : 0 <= n < 64 -> 0 <= i < 64 ->
  Z.testbit (u64 (Z.shiftl (2 ^ 64 - 1) (Z.lxor n 63))) i = mask_bit 0 n (63 - i).
Proof.
  intros Hn Hi. rewrite lxor_63, high_ones by lia. unfold mask_bit.
  destruct (Z.leb_spec 0 n); lia.
Qed.

Lemma mbe64_range op : 0 <= op_mbe64 op < 64.
Proof.
  unfold op_mbe64. rewrite lor_shiftl_add by (first [lia | apply (ppu_bf_range 21 5); lia]).
  pose proof (ppu_bf_range 26 1 op ltac:(lia)) as H1.
  pose proof (ppu_bf_range 21 5 op ltac:(lia)) as H2. unfold in_uint in *. lia.
Qed.

(** Bit [i] of [x], a number of [w] bits rotated left by [n] (and repeated). *)
Definition rotated (w x n i : Z) : bool := Z.testbit x ((i - n) mod w).

Lemma dup_rotl_bit x n i : 0 <= i < 64 ->
  Z.testbit (dup32 (rotl 32 (u32 x) n)) i = rotated 32 x n i.
Proof.
  intros Hi. rewrite testbit_dup32 by auto with width.
  pose proof (Z.mod_pos_bound i 32 ltac:(lia)) as Hm.
  rewrite testbit_rotl by lia. unfold rotated.
  rewrite Zminus_mod_idemp_l, testbit_uint by lia.
  pose proof (Z.mod_pos_bound (i - n) 32 ltac:(lia)).
  by replace ((i - n) mod 32 <? 32) with true by lia.
Qed.

(** Inserting rotated bits under a mask. *)
Lemma insert_bit x y m i : 0 <= i < 64 ->
  Z.testbit (Z.lor (Z.land x (bnot 64 m)) (Z.land y m)) i
  = if Z.testbit m i then Z.testbit y i else Z.testbit x i.
Proof.
  intros Hi. rewrite Z.lor_spec, !Z.land_spec. unfold bnot. rewrite testbit_uint by lia.
  rewrite Z.lnot_spec by lia. replace (i <? 64) with true by lia.
  destruct (Z.testbit m i); cbn [negb andb]; by rewrite ?andb_true_r, ?andb_false_r, ?orb_false_r.
Qed.

(** C28.  The rotate instructions, bit by bit.  With bits numbered from the most
    significant one, the rotate-and-mask forms keep the rotated bits inside
    MASK(mb, me), with the start and end the architecture gives to each form,
    and clear the others; the insert forms keep the bits of RA outside it.  The
    word forms use two copies of the rotated low word. *)
Theorem rotates_select_mask (rc : bool) (op i : Z) (p : ppu_thread) :
  wf p -> 0 <= i < 64 ->
  let S := r p (op_rs op) in
  let A := Z.testbit (r p (op_ra op)) i in
  let N := r p (op_rb op) in
  let bit q := Z.testbit (r q (op_ra op)) i in
  let mw := mask_bit (32 + op_mb32 op) (32 + op_me32 op) (63 - i) in
  let m mb me := mask_bit mb me (63 - i) in
  bit (RLWINM rc op p) = rotated 32 S (op_sh32 op) i && mw /\
  bit (RLWNM rc op p) = rotated 32 S (N mod 32) i && mw /\
  bit (RLWIMI rc op p) = (if mw then rotated 32 S (op_sh32 op) i else A) /\
  bit (RLDICL rc op p) = rotated 64 S (op_sh64 op) i && m (op_mbe64 op) 63 /\
  bit (RLDICR rc op p) = rotated 64 S (op_sh64 op) i && m 0 (op_mbe64 op) /\
  bit (RLDIC rc op p) = rotated 64 S (op_sh64 op) i && m (op_mbe64 op) (63 - op_sh64 op) /\
  bit (RLDIMI rc op p)
    = (if m (op_mbe64 op) (63 - op_sh64 op) then rotated 64 S (op_sh64 op) i else A) /\
  bit (RLDCL rc op p) = rotated 64 S (N mod 64) i && m (op_mbe64 op) 63 /\
  bit (RLDCR rc op p) = rotated 64 S (N mod 64) i && m 0 (op_mbe64 op).
Proof.
  intros H Hi S A N bit mw m.
  assert (G : forall v, r (set_rc rc (op_ra op) v p) (op_ra op) = v)
    by (intros; apply r_set_rc_eq; auto with width).
  pose proof (op_reg_range 21 op : 0 <= op_mb32 op < 32) as Hmb.
  pose proof (op_reg_range 26 op : 0 <= op_me32 op < 32) as Hme.
  pose proof (mbe64_range op) as Hm. pose proof (sh64_range op) as Hs.
  assert (E5 : Z.land N 0x1f = N mod 32) by (by apply (land_ones_uint 5)).
  assert (E6 : Z.land N 0x3f = N mod 64) by (by apply (land_ones_uint 6)).
  unfold bit, RLWINM, RLWNM, RLWIMI, RLDICL, RLDICR, RLDIC, RLDIMI, RLDCL, RLDCR.
  cbv zeta. rewrite !G. fold S N. rewrite E5, E6, !lxor_63 by done.
  rewrite !insert_bit, !Z.land_spec, !dup_rotl_bit, !testbit_rotl, !rotate_mask_bits by lia.
  rewrite <- !lxor_63 by done. rewrite low_ones, high_mask, !lxor_63 by done.
  done.
Qed.

Lemma rotates_select_mask_witness :
  let p := set_r zero_thread 3 0x12345678 in
  Z.testbit (r (RLWINM false 0x5464C23E p) (op_ra 0x5464C23E)) 2 = true.
Proof.
  assert (W : wf (set_r zero_thread 3 0x12345678))
    by (apply set_r_wf; [exact zero_thread_wf|split; lia]).
  destruct (rotates_select_mask false 0x5464C23E 2 _ W ltac:(lia)) as [E _].
  cbv zeta. rewrite E. vm_compute. reflexivity.
Defined.

(** The logical shifts by a register amount: multiplication and division
    by a power of two modulo the width, with amounts at and beyond the width
    (up to 63 for words, 127 for doublewords) giving zero. *)
Theorem shift_logical (rc : bool) (op : Z) (p : ppu_thread) :
  wf p ->
  let S := r p (op_rs op) in
  let N := r p (op_rb op) in
  r (SLW rc op p) (op_ra op) = S * 2 ^ (N mod 64) mod 2 ^ 32 /\
  r (SRW rc op p) (op_ra op) = S mod 2 ^ 32 / 2 ^ (N mod 64) /\
  r (SLD rc op p) (op_ra op) = S * 2 ^ (N mod 128) mod 2 ^ 64 /\
  r (SRD rc op p) (op_ra op) = S / 2 ^ (N mod 128).
Proof.
  intros H S N.
  assert (G : forall v, r (set_rc rc (op_ra op) v p) (op_ra op) = v)
    by (intros; apply r_set_rc_eq; auto with width).
  assert (HS : in_uint 64 S) by (unfold S; auto with width).
  assert (E6 : Z.land N 0x3f = N mod 64) by (by apply (land_ones_uint 6)).
  assert (E7 : Z.land N 0x7f = N mod 128) by (by apply (land_ones_uint 7)).
  pose proof (Z.mod_pos_bound N 64 ltac:(lia)) as H6.
  pose proof (Z.mod_pos_bound N 128 ltac:(lia)) as H7.
  assert (B : forall n, 0 <= n < 128 -> (Z.land n 0x40 =? 0) = (n <? 64)).
  { intros n Hn. apply eqb_prop.
    refine (forall_bits_0 (fun n => eqb (Z.land n 0x40 =? 0) (n <? 64)) 7 _ n Hn).
    vm_compute. reflexivity. }
  unfold SLW, SRW, SLD, SRD. cbv zeta. rewrite !G. fold S N. rewrite E6, E7, !B by done.
  split_and!.
  - rewrite uint_narrow, Z.shiftl_mul_pow2 by lia. done.
  - change 0xffffffff with (2 ^ 32 - 1).
    rewrite (land_ones_uint 32 S), Z.shiftr_div_pow2 by lia. done.
  - destruct (Z.ltb_spec (N mod 128) 64); cbn [negb]; [by rewrite Z.shiftl_mul_pow2 by lia|].
    replace (N mod 128) with (N mod 128 - 64 + 64) by lia. rewrite Z.pow_add_r, Z.mul_assoc by lia.
    by rewrite Z.mod_mul.
  - destruct (Z.ltb_spec (N mod 128) 64); cbn [negb]; [by rewrite Z.shiftr_div_pow2 by lia|].
    symmetry. apply Z.div_small. destruct HS as [? HS]. split; [done|].
    eapply Z.lt_le_trans; [exact HS|]. apply Z.pow_le_mono_r; lia.
Qed.

Lemma shift_logical_witness :
  let p := set_r (set_r zero_thread 3 5) 4 65 in
  r (SLD false 0x7C652036 p) (op_ra 0x7C652036) = 0.
Proof.
  assert (W : wf (set_r (set_r zero_thread 3 5) 4 65))
    by (apply set_r_wf; [apply set_r_wf; [exact zero_thread_wf|split; lia]|split; lia]).
  destruct (shift_logical false 0x7C652036 _ W) as (_ & _ & E & _).
  cbv zeta. rewrite E. vm_compute. reflexivity.
Defined.
