(* ===== verification/PpuLoadStore.v ===== *)
(** * Correctness of the loads, stores and register transfers

    Round trips between registers and memory, the frame of a store, the
    reservation check of [ppu_feed_data] against a byte-wise reference, the
    agreement of the string instructions, and the CR and XER transfers. *)
From Stdlib Require Import ZArith Lia Bool List.
From stdpp Require Import base option list numbers.
From S2P Require Import Prelude PpuThread PpuInterpreter PpuControl PpuMemory PpuExec PpuArith.
Local Open Scope Z_scope.

(** ** Bytes in memory *)

Lemma write_bytes_outside bs : forall m a x, (x < a \/ a + Z.of_nat (length bs) <= x) ->
  write_bytes m a bs x = m x.
Proof.
  induction bs as [|b bs IH]; intros m a x Hx; [done|]. cbn [write_bytes length] in *.
  rewrite IH by lia. by replace (x =? a) with false by lia.
Qed.

Lemma write_bytes_inside bs : forall m a k, (k < length bs)%nat ->
  write_bytes m a bs (a + Z.of_nat k) = nth k bs 0.
Proof.
  induction bs as [|b bs IH]; intros m a k Hk; cbn [length] in Hk; [lia|]. cbn [write_bytes].
  destruct k as [|k].
  - rewrite write_bytes_outside by lia. cbn [nth]. change (Z.of_nat 0) with 0. by rewrite Z.add_0_r, Z.eqb_refl.
  - replace (a + Z.of_nat (S k)) with (a + 1 + Z.of_nat k) by lia. apply IH. lia.
Qed.

Lemma read_bytes_nth m n : forall a k, (k < n)%nat -> nth k (read_bytes m a n) 0 = m (a + Z.of_nat k).
Proof.
  induction n as [|n IH]; intros a k Hk; [lia|]. destruct k as [|k]; cbn [read_bytes nth].
  - f_equal. lia.
  - rewrite IH by lia. f_equal. lia.
Qed.

Lemma read_bytes_ext m m' a n : (forall k, 0 <= k < Z.of_nat n -> m (a + k) = m' (a + k)) ->
  read_bytes m a n = read_bytes m' a n.
Proof.
  revert a. induction n as [|n IH]; intros a H; [done|]. cbn [read_bytes]. f_equal.
  - rewrite <- (Z.add_0_r a). apply H. lia.
  - apply IH. intros k Hk. rewrite <- Z.add_assoc. apply H. lia.
Qed.

Lemma read_write_bytes m a bs : read_bytes (write_bytes m a bs) a (length bs) = bs.
Proof.
  apply (nth_ext _ _ 0 0); [apply read_bytes_length|]. intros k Hk.
  rewrite read_bytes_length in Hk. rewrite read_bytes_nth by done. by apply write_bytes_inside.
Qed.

(** A load never fails where [vm_cast] succeeds, and changes no memory. *)
Lemma feed_data_result fd n p addr a : vm_cast addr = Some a ->
  exists q, ppu_feed_data fd n p addr = Some (read_bytes (mem p) a n, q) /\
    mem q = mem p /\ gpr q = gpr p /\ xer q = xer p.
Proof.
  intros E. unfold ppu_feed_data. rewrite E. cbn [mbind option_bind]. cbv zeta.
  repeat case_match; eexists; split_and!; reflexivity || done.
Qed.

Lemma load_result fd n conv rd addr p a : vm_cast addr = Some a ->
  exists q, load fd n conv rd addr p = Some q /\ mem q = mem p /\ xer q = xer p /\
    gpr q = <[Z.to_nat rd := conv (read_bytes (mem p) a n)]> (gpr p).
Proof.
  intros E. destruct (feed_data_result fd n p addr a E) as (q & F & M & G & X).
  unfold load. rewrite F. cbn [mbind option_bind]. eexists. split; [reflexivity|].
  cbn [set_r set_gprs mem gpr xer]. by rewrite G.
Qed.

Lemma write_be_result n p addr v q : ppu_write_be n p addr v = Some q ->
  exists a, vm_cast addr = Some a /\ q = set_mem p (write_bytes (mem p) a (be_bytes n v)).
Proof. unfold ppu_write_be. destruct (vm_cast addr); [|done]. intros [= <-]. by eexists. Qed.

Lemma write_le_result n p addr v q : ppu_write_le n p addr v = Some q ->
  exists a, vm_cast addr = Some a /\ q = set_mem p (write_bytes (mem p) a (le_bytes n v)).
Proof. unfold ppu_write_le. destruct (vm_cast addr); [|done]. intros [= <-]. by eexists. Qed.

Lemma vm_cast_eq addr a : vm_cast addr = Some a -> a = addr /\ addr < 2 ^ 32.
Proof. unfold vm_cast. destruct (Z.ltb_spec addr (2 ^ 32)); [|done]. by intros [= ->]. Qed.

(** ** Round trips *)

Lemma read_write_len m a bs n : length bs = n -> read_bytes (write_bytes m a bs) a n = bs.
Proof. intros <-. apply read_write_bytes. Qed.

Lemma le_bytes_uint n : forall w v, 8 * Z.of_nat n <= w -> le_bytes n (uint w v) = le_bytes n v.
Proof.
  induction n as [|n IH]; intros w v Hw; [done|]. cbn [le_bytes]. f_equal.
  - apply uint_narrow. lia.
  - rewrite <- (IH (w - 8) (Z.shiftr v 8)) by lia. f_equal.
    rewrite !Z.shiftr_div_pow2 by lia. unfold uint.
    replace (2 ^ w) with (2 ^ 8 * 2 ^ (w - 8)) by (rewrite <- Z.pow_add_r by lia; f_equal; lia).
    rewrite Z.rem_mul_r by (try apply Z.pow_nonzero; lia).
    rewrite (Z.mul_comm (2 ^ 8)), Z.div_add by lia.
    rewrite (Z.div_small (v mod 2 ^ 8)) by (apply Z.mod_pos_bound; lia). done.
Qed.

Lemma roundtrip_be fd n conv rd addr v p q : wf p -> 0 <= rd < 32 ->
  ppu_write_be n p addr v = Some q ->
  exists q', load fd n conv rd addr q = Some q' /\ r q' rd = conv (be_bytes n v).
Proof.
  intros H Hrd (a & E & ->)%write_be_result.
  destruct (load_result fd n conv rd addr (set_mem p (write_bytes (mem p) a (be_bytes n v))) a E)
    as (q' & L & _ & _ & G).
  exists q'. split; [done|]. cbn [mem gpr set_mem] in G.
  rewrite (read_write_len _ _ _ _ (be_bytes_length n v)) in G.
  unfold r. rewrite G, nth_lookup, list_lookup_insert_eq; [done|]. rewrite (wf_gpr_len p H). lia.
Qed.

Lemma roundtrip_le fd n conv rd addr v p q : wf p -> 0 <= rd < 32 ->
  ppu_write_le n p addr v = Some q ->
  exists q', load fd n conv rd addr q = Some q' /\ r q' rd = conv (le_bytes n v).
Proof.
  intros H Hrd (a & E & ->)%write_le_result.
  destruct (load_result fd n conv rd addr (set_mem p (write_bytes (mem p) a (le_bytes n v))) a E)
    as (q' & L & _ & _ & G).
  exists q'. split; [done|]. cbn [mem gpr set_mem] in G.
  rewrite (read_write_len _ _ _ _ (le_bytes_length n v)) in G.
  unfold r. rewrite G, nth_lookup, list_lookup_insert_eq; [done|]. rewrite (wf_gpr_len p H). lia.
Qed.

Lemma write_be_gpr n p addr v q : ppu_write_be n p addr v = Some q -> gpr q = gpr p.
Proof. by intros (a & _ & ->)%write_be_result. Qed.

Lemma write_le_gpr n p addr v q : ppu_write_le n p addr v = Some q -> gpr q = gpr p.
Proof. by intros (a & _ & ->)%write_le_result. Qed.

Lemma ea_x_same st ld p q : gpr q = gpr p -> op_ra ld = op_ra st -> op_rb ld = op_rb st ->
  ea_x ld q = ea_x st p.
Proof. intros G E1 E2. unfold ea_x, r. by rewrite G, E1, E2. Qed.

(** C33.  A value stored by an indexed store is read back by the load of the
    same width and byte order at the same address: whole for doublewords, zero-
    or sign-extended for the narrower widths; a word stored in one byte order
    and loaded in the other is byte-reversed.  The load never fails where the
    store succeeded, whatever the reservation state. *)
Theorem store_load_roundtrip (fd : bool) (st ld : Z) (p : ppu_thread) :
  wf p -> op_ra ld = op_ra st -> op_rb ld = op_rb st ->
  let S := r p (op_rs st) in
  let reads store load v :=
    forall q, store = Some q -> exists q', load q = Some q' /\ r q' (op_rd ld) = v in
  reads (STDX st p) (LDX fd ld) S /\
  reads (STWX st p) (LWZX fd ld) (u32 S) /\ reads (STWX st p) (LWAX fd ld) (u64 (s32 S)) /\
  reads (STHX st p) (LHZX fd ld) (u16 S) /\ reads (STHX st p) (LHAX fd ld) (u64 (s16 S)) /\
  reads (STBX st p) (LBZX fd ld) (u8 S) /\
  reads (STDBRX st p) (LDBRX fd ld) S /\ reads (STWBRX st p) (LWBRX fd ld) (u32 S) /\
  reads (STHBRX st p) (LHBRX fd ld) (u16 S) /\
  reads (STWX st p) (LWBRX fd ld) (le_value (be_bytes 4 S)).
Proof.
  intros H Ra Rb S reads.
  assert (HS : in_uint 64 S) by (unfold S; auto with width).
  assert (BE : forall n conv v x, conv (be_bytes n v) = x ->
    reads (ppu_write_be n p (ea_x st p) v) (fun q => load fd n conv (op_rd ld) (ea_x ld q) q)
      x).
  { intros n conv v x <- q E. rewrite (ea_x_same st ld p q) by (done || by eapply write_be_gpr).
    eapply (roundtrip_be _ _ _ _ _ _ p); [done|auto with width|done]. }
  assert (LE : forall n conv v x, conv (le_bytes n v) = x -> reads (ppu_write_le n p (ea_x st p) v)
    (fun q => load fd n conv (op_rd ld) (ea_x ld q) q) x).
  { intros n conv v x <- q E. rewrite (ea_x_same st ld p q) by (done || by eapply write_le_gpr).
    eapply (roundtrip_le _ _ _ _ _ _ p); [done|auto with width|done]. }
  split_and!; first [apply BE | apply LE]; unfold be_s32, be_s16;
    rewrite ?be_value_bytes, ?le_value_bytes, ?sint_uint; try done.
  - by apply uint_small.
  - by rewrite uint_narrow by lia.
  - by rewrite uint_narrow by lia.
  - by rewrite uint_narrow by lia.
  - by apply uint_small.
  - by rewrite uint_narrow by lia.
  - by rewrite uint_narrow by lia.
  - unfold be_bytes. by rewrite le_bytes_uint by lia.
Qed.

Lemma store_load_roundtrip_witness :
  let p := set_r (set_r zero_thread 3 0xfedcba9876543210) 4 0x20000 in
  exists q q', STDX 0x7C60212A p = Some q /\ LDX false 0x7CA0202A q = Some q' /\
    r q' (op_rd 0x7CA0202A) = 0xfedcba9876543210.
Proof.
  assert (W : wf (set_r (set_r zero_thread 3 0xfedcba9876543210) 4 0x20000))
    by (apply set_r_wf; [apply set_r_wf; [exact zero_thread_wf|split; lia]|split; lia]).
  destruct (store_load_roundtrip false 0x7C60212A 0x7CA0202A _ W eq_refl eq_refl) as [E _].
  destruct (E _ eq_refl) as (q' & E1 & E2).
  exists (set_mem (set_r (set_r zero_thread 3 0xfedcba9876543210) 4 0x20000)
    (write_bytes (mem zero_thread) 0x20000 (be_bytes 8 0xfedcba9876543210))), q'.
  split; [reflexivity|]. split; [exact E1|]. rewrite E2. vm_compute. reflexivity.
Defined.

(** ** Multiple loads and stores *)

(** The words [STMW] writes from register [i] on, at [addr] on. *)
Lemma stmw_loop_spec fuel : forall i addr p q, 0 <= i -> 0 <= addr ->
  stmw_loop fuel i addr p = Some q ->
  gpr q = gpr p /\
  (i < 32 -> addr + 4 * (32 - i) <= 2 ^ 32 + 3) /\
  (forall x, x < addr -> mem q x = mem p x) /\
  (forall j, i <= j < 32 -> read_bytes (mem q) (addr + 4 * (j - i)) 4 = be_bytes 4 (u32 (r p j))).
Proof.
  induction fuel as [|fuel IH]; intros i addr p q Hi Ha; cbn [stmw_loop].
  { destruct (Z.leb_spec 32 i); [|done]. intros [= <-]. split_and!; try done; lia. }
  destruct (Z.leb_spec 32 i); [intros [= <-]; split_and!; try done; lia|].
  destruct (ppu_write_be 4 p addr (u32 (r p i))) as [p1|] eqn:E; [|done]. cbn [mbind option_bind].
  apply write_be_result in E as (a & [-> L]%vm_cast_eq & ->).
  set (m1 := write_bytes (mem p) addr (be_bytes 4 (u32 (r p i)))) in *.
  assert (U : u64 (addr + 4) = addr + 4) by (apply uint_small; split; lia).
  rewrite U. intros (G & B & F & R)%IH; [|lia..]. cbn [gpr mem set_mem] in *.
  split_and!; [done| | |].
  - destruct (Z.eq_dec i 31); lia.
  - intros x Hx. rewrite F by lia. apply write_bytes_outside. lia.
  - intros j Hj. destruct (Z.eq_dec j i) as [->|].
    + rewrite Z.sub_diag, Z.mul_0_r, Z.add_0_r.
      rewrite (read_bytes_ext _ m1) by (intros; apply F; lia).
      apply read_write_len, be_bytes_length.
    + replace (addr + 4 * (j - i)) with (addr + 4 + 4 * (j - (i + 1))) by lia.
      rewrite R by lia. f_equal.
Qed.

Lemma lmw_loop_spec fd fuel : forall i addr p, length (gpr p) = 32%nat ->
  0 <= i -> 0 <= addr -> (32 - i <= Z.of_nat fuel) -> (i < 32 -> addr + 4 * (32 - i) <= 2 ^ 32 + 3) ->
  exists q, lmw_loop fuel fd i addr p = Some q /\ length (gpr q) = 32%nat /\
  (forall j, 0 <= j < i -> r q j = r p j) /\
  (forall j, i <= j < 32 -> r q j = be_value (read_bytes (mem p) (addr + 4 * (j - i)) 4)).
Proof.
  induction fuel as [|fuel IH]; intros i addr p Hl Hi Ha Hf Hb; cbn [lmw_loop].
  { destruct (Z.leb_spec 32 i); [|lia]. exists p. split_and!; try done; lia. }
  destruct (Z.leb_spec 32 i); [exists p; split_and!; try done; lia|].
  assert (L : addr < 2 ^ 32) by (destruct (Z.eq_dec i 31); lia).
  destruct (load_result fd 4 be_value i addr p addr) as (p1 & E & M & _ & G).
  { unfold vm_cast. by replace (addr <? 2 ^ 32) with true by lia. }
  rewrite E. cbn [mbind option_bind].
  assert (U : u64 (addr + 4) = addr + 4) by (apply uint_small; split; lia). rewrite U.
  assert (L1 : length (gpr p1) = 32%nat) by (rewrite G, length_insert; done).
  destruct (IH (i + 1) (addr + 4) p1) as (q & E2 & L2 & F & R); [done|lia..|].
  assert (R1 : forall j, 0 <= j < 32 ->
    r p1 j = if i =? j then be_value (read_bytes (mem p) addr 4) else r p j).
  { intros j Hj. rewrite <- (r_set_r p i j) by (done || lia). unfold r. by rewrite G. }
  exists q. split_and!; [done|done| |].
  - intros j Hj. rewrite F, R1 by lia. by replace (i =? j) with false by lia.
  - intros j Hj. destruct (Z.eq_dec j i) as [->|].
    + rewrite F, R1, Z.eqb_refl by lia. do 2 f_equal. lia.
    + rewrite R by lia. rewrite M. do 2 f_equal. lia.
Qed.

(**  [stmw] followed by [lmw] of the same registers at the same address
    restores the low words of all of them, zero-extended, also when the base
    register is among them. *)
Theorem stmw_lmw_roundtrip (fd : bool) (st ld : Z) (p q q0 : ppu_thread) :
  wf p -> STMW st p = Some q ->
  wf q0 -> mem q0 = mem q -> op_rd ld = op_rs st -> ea_m ld q0 = ea_m st p ->
  exists q', LMW fd ld q0 = Some q' /\
    (forall j, 0 <= j < op_rs st -> r q' j = r q0 j) /\
    (forall j, op_rs st <= j < 32 -> r q' j = u32 (r p j)).
Proof.
  intros H E H0 M Rd Ea. unfold STMW in E.
  assert (Hi : 0 <= op_rs st < 32) by auto with width.
  assert (Ha : in_uint 64 (ea_m st p)) by (unfold ea_m; auto with width).
  apply stmw_loop_spec in E as (G & B & F & R); [|lia|apply Ha].
  destruct (lmw_loop_spec fd 32 (op_rs st) (ea_m st p) q0) as (q' & E' & L' & F' & R');
    [apply wf_gpr_len, H0|lia|apply Ha|lia|done|].
  exists q'. unfold LMW. rewrite Rd, Ea. split_and!; [done|done|].
  intros j Hj. rewrite R', M, R by done. rewrite be_value_bytes. apply uint_narrow. lia.
Qed.

Lemma stmw_lmw_roundtrip_witness :
  let p := set_r (set_r zero_thread 30 0x1_23456789) 1 0x20000 in
  exists q q', STMW 0xBFC10000 p = Some q /\ LMW false 0xBBC10000 q = Some q' /\
    r q' 30 = 0x23456789.
Proof.
  set (p := set_r (set_r zero_thread 30 0x1_23456789) 1 0x20000).
  assert (W : wf p)
    by (apply set_r_wf; [apply set_r_wf; [exact zero_thread_wf|split; lia]|split; lia]).
  destruct (STMW 0xBFC10000 p) as [q|] eqn:E; [|discriminate].
  assert (Wq : wf q) by (apply (stmw_loop_wf 32 (op_rs 0xBFC10000) (ea_m 0xBFC10000 p) p W); exact E).
  assert (G : gpr q = gpr p).
  { apply stmw_loop_spec in E as (G & _); [exact G|vm_compute; discriminate..]. }
  destruct (stmw_lmw_roundtrip false 0xBFC10000 0xBBC10000 p q q W E Wq eq_refl eq_refl) as (q' & L & _ & R).
  { unfold ea_m, r. rewrite G. reflexivity. }
  exists q, q'. split; [exact E|]. split; [exact L|].
  rewrite R by (vm_compute; split; [discriminate|reflexivity]). vm_compute. reflexivity.
Defined.

(** ** String instructions *)

Lemma feed_data_none fd n p addr : vm_cast addr = None -> ppu_feed_data fd n p addr = None.
Proof. intros E. unfold ppu_feed_data. by rewrite E. Qed.

Lemma cast_cases addr : 0 <= addr ->
  vm_cast addr = None \/ (vm_cast addr = Some addr /\ addr < 2 ^ 32).
Proof. intros. unfold vm_cast. destruct (Z.ltb_spec addr (2 ^ 32)); auto. Qed.

Lemma lxor_3 k : 0 <= k < 4 -> Z.lxor 3 k = 3 - k.
Proof.
  intros H. assert (C : k = 0 \/ k = 1 \/ k = 2 \/ k = 3) by lia. by destruct C as [->|[->|[->| ->]]].
Qed.

Lemma next_addr addr k : 0 <= addr < 2 ^ 32 -> 0 <= k <= 4 -> u64 (addr + k) = addr + k.
Proof. intros. apply uint_small. split; lia. Qed.

(** The byte loops of LSWI and LSWX read the same bytes into the same places. *)
Lemma lswi_tail_load fd fuel : forall n k addr buf p, 0 <= k -> 0 <= n -> n + k <= 4 ->
  0 <= addr -> addr + k < 2 ^ 64 ->
  lswi_tail fuel fd n (addr + k) (3 - k) buf p = load_tail fuel fd k (k + n) addr buf p.
Proof.
  induction fuel as [|fuel IH]; intros n k addr buf p Hk Hn Hnk Ha Hb; cbn [lswi_tail load_tail].
  - destruct (Z.eqb_spec n 0), (Z.leb_spec (k + n) k); lia || done.
  - destruct (Z.eqb_spec n 0), (Z.leb_spec (k + n) k); try lia; [done|].
    rewrite lxor_3, (uint_small 64 (addr + k)) by (unfold in_uint; lia).
    destruct (cast_cases (addr + k) ltac:(lia)) as [E|[E L]]; [by rewrite !feed_data_none|].
    destruct (feed_data_result fd 1 p (addr + k) _ E) as (q & -> & _). cbn [mbind option_bind].
    rewrite next_addr by lia. rewrite <- Z.add_assoc.
    replace (3 - k - 1) with (3 - (k + 1)) by lia. rewrite IH by lia. f_equal. lia.
Qed.

Lemma load_none fd n conv rd addr p : vm_cast addr = None -> load fd n conv rd addr p = None.
Proof. intros E. unfold load. by rewrite feed_data_none. Qed.

Lemma lswi_tail_0 fd n addr p : 0 <= n < 4 -> in_uint 64 addr ->
  lswi_tail 4 fd n addr 3 0 p = load_tail 4 fd 0 n addr 0 p.
Proof.
  intros Hn [Ha1 Ha2]. pose proof (lswi_tail_load fd 4 n 0 addr 0 p) as T.
  rewrite (Z.add_0_r addr) in T. apply T; lia.
Qed.

(** Fewer than four bytes left. *)
Lemma lswi_lswx_short fd f1 f2 n addr reg p : 0 <= n < 4 -> in_uint 64 addr ->
  lswi_loop (S f1) fd n addr reg p = lswx_loop f2 fd addr n reg p.
Proof.
  intros Hn Ha. destruct f2; cbn [lswi_loop lswx_loop];
    replace (4 <=? n) with false by lia; replace (3 <? n) with false by lia;
    (destruct (Z.eqb_spec n 0); [done|]); rewrite lswi_tail_0 by done;
    (destruct (load_tail 4 fd 0 n addr 0 p) as [[v q]|]; [by destruct f1|done]).
Qed.

Lemma lswi_lswx_loop fd : forall f1 f2 n addr reg p, 0 <= n -> n / 4 < Z.of_nat f1 ->
  n / 4 <= Z.of_nat f2 -> in_uint 64 addr -> 0 <= reg < 32 ->
  lswi_loop f1 fd n addr reg p = lswx_loop f2 fd addr n reg p.
Proof.
  induction f1 as [|f1 IH]; intros f2 n addr reg p Hn H1 H2 Ha Hr; [zlia|].
  destruct (Z.leb_spec 4 n); [|by apply lswi_lswx_short].
  destruct f2 as [|f2]; [zlia|]. cbn [lswi_loop lswx_loop]. unfold in_uint in Ha.
  replace (4 <=? n) with true by lia. replace (n =? 0) with false by lia.
  replace (3 <? n) with true by lia.
  destruct (cast_cases addr ltac:(lia)) as [E|[E L]]; [by rewrite !load_none|].
  destruct (load_result fd 4 be_value reg addr p addr E) as (q & -> & _). cbn [mbind option_bind].
  assert (R : Z.land (reg + 1) 31 = (reg + 1) mod 32) by (by apply (land_ones_uint 5)).
  rewrite R. apply IH; try zlia. apply uint_range. lia.
Qed.

(** The byte loops of STSWI and STSWX: the top byte of a word shifted up [k]
    times is its byte [k]. *)
Lemma stswi_tail_store fuel : forall n k addr v p, 0 <= k -> 0 <= n -> n + k <= 4 ->
  0 <= addr -> addr + k < 2 ^ 64 -> in_uint 32 v ->
  stswi_tail fuel n (addr + k) (u32 (Z.shiftl v (8 * k))) p
  = stswx_tail fuel k (k + n) addr v p.
Proof.
  induction fuel as [|fuel IH]; intros n k addr v p Hk Hn Hnk Ha Hb Hv; cbn [stswi_tail stswx_tail].
  - destruct (Z.eqb_spec n 0), (Z.leb_spec (k + n) k); lia || done.
  - destruct (Z.eqb_spec n 0), (Z.leb_spec (k + n) k); try lia; [done|].
    assert (B : Z.shiftr (Z.land 0xFF000000 (u32 (Z.shiftl v (8 * k)))) 24
      = u8 (Z.shiftr v (Z.lxor 3 k * 8))).
    { rewrite lxor_3 by lia. apply Z.bits_inj'. intros i Hi.
      rewrite Z.shiftr_spec, Z.land_spec, !testbit_uint, Z.shiftl_spec, Z.shiftr_spec by lia.
      change 0xFF000000 with (Z.shiftl (Z.ones 8) 24). rewrite Z.shiftl_spec by lia.
      rewrite Z.testbit_ones by lia. replace (i + 24 - 8 * k) with (i + (3 - k) * 8) by lia.
      replace (i + 24 <? 32) with (i <? 8) by lia. replace (i + 24 - 24) with i by lia.
      replace (0 <=? i) with true by lia. by destruct (i <? 8). }
    rewrite B, (uint_small 64 (addr + k)) by (unfold in_uint; lia).
    unfold ppu_write_be. destruct (cast_cases (addr + k) ltac:(lia)) as [E|[E L]]; rewrite E; [done|].
    cbn [mbind option_bind]. rewrite next_addr by lia. rewrite <- Z.add_assoc.
    assert (S : u32 (Z.shiftl (u32 (Z.shiftl v (8 * k))) 8) = u32 (Z.shiftl v (8 * (k + 1)))).
    { rewrite Z.shiftl_mul_pow2 by lia. unfold uint. rewrite Zmult_mod_idemp_l.
      rewrite !Z.shiftl_mul_pow2, <- Z.mul_assoc, <- Z.pow_add_r by lia. do 3 f_equal. lia. }
    rewrite S, IH by (done || lia). f_equal. lia.
Qed.

Lemma stswi_tail_0 n addr v p : 0 <= n < 4 -> in_uint 64 addr -> in_uint 32 v ->
  stswi_tail 4 n addr v p = stswx_tail 4 0 n addr v p.
Proof.
  intros Hn [Ha1 Ha2] Hv. pose proof (stswi_tail_store 4 n 0 addr v p) as T.
  rewrite (Z.add_0_r addr), Z.shiftl_0_r, (uint_small 32 v) in T by done. apply T; done || lia.
Qed.

Lemma stswi_stswx_short f1 f2 n addr reg p : 0 <= n < 4 -> in_uint 64 addr ->
  stswi_loop (S f1) n addr reg p = stswx_loop f2 addr n reg p.
Proof.
  intros Hn Ha. destruct f2; cbn [stswi_loop stswx_loop];
    replace (4 <=? n) with false by lia; replace (3 <? n) with false by lia;
    (destruct (Z.eqb_spec n 0); [done|]); rewrite stswi_tail_0 by auto with width;
    (destruct (stswx_tail 4 0 n addr (u32 (r p reg)) p) as [q|]; [by destruct f1|done]).
Qed.

Lemma stswi_stswx_loop : forall f1 f2 n addr reg p, 0 <= n -> n / 4 < Z.of_nat f1 ->
  n / 4 <= Z.of_nat f2 -> in_uint 64 addr -> 0 <= reg < 32 ->
  stswi_loop f1 n addr reg p = stswx_loop f2 addr n reg p.
Proof.
  induction f1 as [|f1 IH]; intros f2 n addr reg p Hn H1 H2 Ha Hr; [zlia|].
  destruct (Z.leb_spec 4 n); [|by apply stswi_stswx_short].
  destruct f2 as [|f2]; [zlia|]. cbn [stswi_loop stswx_loop].
  replace (4 <=? n) with true by lia. replace (n =? 0) with false by lia.
  replace (3 <? n) with true by lia.
  destruct (ppu_write_be 4 p addr (u32 (r p reg))) as [q|]; [|done]. cbn [mbind option_bind].
  assert (R : Z.land (reg + 1) 31 = (reg + 1) mod 32) by (by apply (land_ones_uint 5)).
  rewrite R. apply IH; try zlia. apply uint_range. lia.
Qed.

(** C29.  The immediate and the indexed string instructions, written as two
    different loops each, agree: with the byte count in XER and the same
    address and first register, [lswi] does what [lswx] does and [stswi] what
    [stswx] does, on every state, faults and reservation losses included.  The
    loops always end within their bound. *)
Theorem string_immediate_indexed (fd : bool) (imm idx : Z) (p : ppu_thread) :
  wf p -> op_rd idx = op_rd imm -> ea_x idx p = ea_s imm p ->
  cnt (xer p) = (if op_rb imm =? 0 then 32 else op_rb imm) ->
  LSWI fd imm p = LSWX fd idx p /\ STSWI imm p = STSWX idx p.
Proof.
  intros H Rd Ea C.
  assert (Ha : in_uint 64 (ea_s imm p)) by (unfold ea_s; apply if_range; [split; lia|auto with width]).
  assert (Hr : 0 <= op_rd imm < 32) by auto with width.
  assert (Hb : 0 <= op_rb imm < 32) by auto with width.
  assert (E : Z.land (cnt (xer p)) 0x7f = cnt (xer p)).
  { change 0x7f with (2 ^ 7 - 1). rewrite land_ones_uint by lia. apply uint_small, wf_cnt, H. }
  unfold LSWI, LSWX, STSWI, STSWX. rewrite E, Ea, C. change (op_rs idx) with (op_rd idx). rewrite Rd.
  destruct (Z.eqb_spec (op_rb imm) 0);
    split; (apply lswi_lswx_loop || apply stswi_stswx_loop); done || zlia.
Qed.

Lemma string_immediate_indexed_witness :
  let p := set_xer (set_r zero_thread 4 0x10000) (Xer false false false 3) in
  LSWI false 0x7D041CAA p = LSWX false 0x7D00242A p.
Proof.
  apply string_immediate_indexed; [|vm_compute; reflexivity..].
  apply set_xer_wf; [apply set_r_wf; [exact zero_thread_wf|split; lia]|split; cbn; lia].
Defined.

(** ** Losing a reservation by reading

    The reference for [ppu_feed_data]: the reservation is lost when one of the
    bytes read lies in the reserved line and differs from the reserved copy. *)

Definition stale_byte (p : ppu_thread) (addr : Z) (k : nat) : bool :=
  let x := addr + Z.of_nat k in
  (x / 128 =? raddr p / 128) && negb (mem p x =? nth (Z.to_nat (x mod 128)) (rdata p) 0).

Definition feed_data_ref (use_feed : bool) (n : nat) (p : ppu_thread) (addr : Z)
  : option (list Z * ppu_thread) :=
  a ← vm_cast addr;
  Some (read_bytes (mem p) a n,
        if use_feed && use_full_rdata p && existsb (stale_byte p addr) (seq 0 n)
        then set_reservation p 0 0 else p).

Lemma bytes_differ_spec a : forall b, bytes_differ a b = true <->
  exists k, (k < length a)%nat /\ (k < length b)%nat /\ nth k a 0 <> nth k b 0.
Proof.
  unfold bytes_differ. induction a as [|x a IH]; intros b.
  { cbn. split; [done|]. intros (k & ? & _). lia. }
  destruct b as [|y b]; [cbn; split; [done|]; intros (k & _ & ? & _); lia|].
  cbn [combine forallb]. rewrite negb_andb, orb_true_iff, IH. cbn [length]. split.
  - intros [E|(k & ? & ? & ?)]; [exists O|exists (S k)]; cbn [nth]; split_and!; lia || done.
  - intros (k & ? & ? & N). destruct k as [|k]; cbn [nth] in N; [left; lia|].
    right. exists k. split_and!; lia || done.
Qed.

Lemma nth_firstn_skipn s o (l : list Z) k : (k < s)%nat -> (k < length (skipn o l))%nat ->
  nth k (firstn s (skipn o l)) 0 = nth (o + k) l 0.
Proof.
  intros Hk Hl. rewrite length_skipn in Hl.
  rewrite nth_firstn, (proj2 (Nat.ltb_lt k s) Hk). apply nth_skipn.
Qed.

(** The bytes compared: [size] of them, from [offs] in the value and from
    [from] in the reserved copy. *)
Lemma compare_bytes n p addr (offs size from : nat) :
  (offs + size <= n)%nat -> (from + size <= length (rdata p))%nat ->
  (forall k, (k < n)%nat -> (addr + Z.of_nat k) / 128 = raddr p / 128 <-> (offs <= k < offs + size)%nat) ->
  (forall k, (offs <= k < offs + size)%nat ->
     Z.to_nat ((addr + Z.of_nat k) mod 128) = (from + (k - offs))%nat) ->
  bytes_differ (firstn size (skipn offs (read_bytes (mem p) addr n)))
               (firstn size (skipn from (rdata p)))
  = existsb (stale_byte p addr) (seq 0 n).
Proof.
  intros Ho Hf Hline Hpos. pose proof (read_bytes_length (mem p) addr n) as Hlen.
  apply eq_true_iff_eq. rewrite bytes_differ_spec, existsb_exists.
  rewrite !length_firstn, !length_skipn, Hlen. split.
  - intros (k & H1 & H2 & N). exists (offs + k)%nat. split; [apply in_seq; lia|].
    rewrite !nth_firstn_skipn in N by (rewrite ?length_skipn, ?Hlen; lia).
    rewrite read_bytes_nth in N by lia. unfold stale_byte. cbv zeta.
    rewrite andb_true_iff, Z.eqb_eq, (proj2 (Hline (offs + k)%nat ltac:(lia))) by lia.
    rewrite Hpos by lia. replace (from + (offs + k - offs))%nat with (from + k)%nat by lia.
    split; [done|]. lia.
  - intros (k & Hk%in_seq & S). unfold stale_byte in S. cbv zeta in S.
    apply andb_prop in S as [L%Z.eqb_eq D]. apply Hline in L; [|lia].
    rewrite Hpos in D by lia. exists (k - offs)%nat. split_and!; [lia..|].
    rewrite !nth_firstn_skipn by (rewrite ?length_skipn, ?Hlen; lia).
    rewrite read_bytes_nth by lia. replace (offs + (k - offs))%nat with k by lia. lia.
Qed.

Lemma no_stale_byte p addr n :
  (forall k, (k < n)%nat -> (addr + Z.of_nat k) / 128 <> raddr p / 128) ->
  existsb (stale_byte p addr) (seq 0 n) = false.
Proof.
  intros H. apply not_true_iff_false. rewrite existsb_exists.
  intros (k & Hk%in_seq & S). unfold stale_byte in S. cbv zeta in S.
  apply andb_prop in S as [L%Z.eqb_eq _]. by apply (H k); [lia|].
Qed.

Lemma firstn_all_bytes m a n : firstn n (read_bytes m a n) = read_bytes m a n.
Proof. apply firstn_all2. by rewrite read_bytes_length. Qed.

(** C12.  [ppu_feed_data], for any access of up to 128 bytes: it returns the
    bytes at the address and, when the check is on, drops the reservation
    exactly when one of the bytes read lies in the reserved line and differs
    from the reserved copy.  The accesses that straddle two lines, where the
    code compares only one side, are included. *)
Theorem feed_data_correct (use_feed : bool) (n : nat) (p : ppu_thread) (addr : Z) :
  (1 <= n <= 128)%nat -> 0 <= addr -> 0 <= raddr p -> length (rdata p) = 128%nat ->
  ppu_feed_data use_feed n p addr = feed_data_ref use_feed n p addr.
Proof.
  intros Hn Ha Hr Hd. unfold ppu_feed_data, feed_data_ref.
  destruct (cast_cases addr Ha) as [E|[E L]]; rewrite E; [done|]. cbn [mbind option_bind]. cbv zeta.
  destruct use_feed, (use_full_rdata p); cbn [negb andb]; try done.
  change (Z.land addr 127) with (Z.land addr (2 ^ 7 - 1)). rewrite land_ones_uint by lia.
  unfold uint. change (2 ^ 7) with 128. set (ra := raddr p) in *.
  destruct ((ra / 128 <? addr / 128) || ((addr + Z.of_nat n - 1) / 128 <? ra / 128)) eqn:O.
  { rewrite no_stale_byte; [done|]. intros k Hk. fold ra. zlia. }
  destruct ((n =? 1)%nat || (addr / 128 =? (addr + Z.of_nat n - 1) / 128)) eqn:Same.
  { assert (addr / 128 = (addr + Z.of_nat n - 1) / 128).
    { apply orb_true_iff in Same as [->%Nat.eqb_eq|]; [f_equal; lia|lia]. }
    pose proof (compare_bytes n p addr 0 n (Z.to_nat (addr mod 128))) as C.
    rewrite skipn_O in C. rewrite firstn_all_bytes in C. rewrite C; [by case_match|lia|zlia| |].
    - intros k Hk. fold ra. zlia.
    - intros k Hk. zlia. }
  apply orb_false_iff in O as [O1 O2]. apply orb_false_iff in Same as [_ Same].
  destruct (Z.eqb_spec (ra / 128) (addr / 128)) as [El|El].
  - pose proof (compare_bytes n p addr 0 (Z.to_nat (Z.min (128 - addr mod 128) (Z.of_nat n)))
      (Z.to_nat (addr mod 128))) as C.
    change (Z.to_nat 0) with O. rewrite C; [by case_match|zlia|zlia| |].
    + intros k Hk. fold ra. zlia.
    + intros k Hk. zlia.
  - set (size := (addr + Z.of_nat n) mod 128).
    pose proof (compare_bytes n p addr (Z.to_nat (Z.of_nat n - size)) (Z.to_nat size) 0) as C.
    rewrite skipn_O in C. rewrite C; [by case_match|unfold size; zlia|unfold size; zlia| |].
    + intros k Hk. fold ra. unfold size. zlia.
    + intros k Hk. unfold size in *. zlia.
Qed.

Lemma feed_data_correct_witness :
  let p := mk_ppu (repeat 0 32) (repeat false 32) 0 0 0 0 (Xer false false false 0) 0x10080
    (repeat 0 128) true 7 0 0 (fun a => if a =? 0x10081 then 1 else 0) [] in
  ppu_feed_data true 4 p 0x1007e = Some ([0; 0; 0; 1], set_reservation p 0 0).
Proof.
  intros p. assert (E : ppu_feed_data true 4 p 0x1007e = feed_data_ref true 4 p 0x1007e)
    by (apply feed_data_correct; [lia|lia|cbn; lia|reflexivity]).
  rewrite E. vm_compute. reflexivity.
Defined.
