(* ===== verification/PpuTransfer.v ===== *)
(** * Correctness of the CR and XER transfers, comparisons and branches

    [pack]/[unpack] and the two code paths of MFCR, MTCRF and its one-field
    form, the XER image of MTSPR and MFSPR, the result of the comparisons and
    the branch decisions. *)
From Stdlib Require Import ZArith Lia Bool List.
From stdpp Require Import base option list numbers.
From S2P Require Import Prelude PpuThread PpuInterpreter PpuControl PpuExec PpuArith.
Local Open Scope Z_scope.

(** ** The condition register as a word *)

(** The number whose binary digits are [l], the most significant first. *)
Definition bits_value (l : list bool) : Z := fold_left (fun v b => 2 * v + Z.b2z b) l 0.

Lemma bits_value_snoc l b : bits_value (l ++ [b]) = 2 * bits_value l + Z.b2z b.
Proof. unfold bits_value. by rewrite fold_left_app. Qed.

Lemma bits_value_range l : 0 <= bits_value l < 2 ^ Z.of_nat (length l).
Proof.
  induction l as [|b l IH] using rev_ind; [cbn; lia|]. rewrite bits_value_snoc, length_app. cbn [length].
  rewrite Nat2Z.inj_add, Z.pow_add_r by lia. change (2 ^ Z.of_nat 1) with 2. destruct b; cbn [Z.b2z]; lia.
Qed.

Lemma bits_value_app l l' :
  bits_value (l ++ l') = bits_value l * 2 ^ Z.of_nat (length l') + bits_value l'.
Proof.
  induction l' as [|b l' IH] using rev_ind; [rewrite app_nil_r; cbn; lia|].
  rewrite app_assoc, !bits_value_snoc, IH, length_app. cbn [length].
  rewrite Nat2Z.inj_add, Z.pow_add_r by lia. change (2 ^ Z.of_nat 1) with 2. lia.
Qed.

Lemma bits_value_testbit l : forall m, (m < length l)%nat ->
  Z.testbit (bits_value l) (Z.of_nat m) = nth (length l - 1 - m) l false.
Proof.
  induction l as [|b l IH] using rev_ind; intros m Hm; [cbn in Hm; lia|].
  rewrite bits_value_snoc, length_app in *. cbn [length] in *.
  destruct m as [|m].
  - change (Z.of_nat 0) with 0. rewrite app_nth2 by lia.
    replace (length l + 1 - 1 - 0 - length l)%nat with O by lia.
    destruct b; [apply Z.testbit_odd_0|cbn [Z.b2z]; rewrite Z.add_0_r; apply Z.testbit_even_0].
  - rewrite app_nth1 by lia. replace (length l + 1 - 1 - S m)%nat with (length l - 1 - m)%nat by lia.
    rewrite <- IH by lia. rewrite Nat2Z.inj_succ.
    destruct b; [apply Z.testbit_odd_succ; lia|cbn [Z.b2z]; rewrite Z.add_0_r; apply Z.testbit_even_succ; lia].
Qed.

Lemma pack_snoc l b : pack (l ++ [b]) = Z.lor (u32 (Z.shiftl (pack l) 1)) (Z.b2z b).
Proof. unfold pack. by rewrite fold_left_app. Qed.

Lemma pack_value l : (length l <= 32)%nat -> pack l = bits_value l.
Proof.
  induction l as [|b l IH] using rev_ind; intros H; [done|].
  rewrite length_app in H. cbn [length] in H. rewrite pack_snoc, IH, bits_value_snoc by lia.
  pose proof (bits_value_range l) as R.
  pose proof (Z.pow_le_mono_r 2 (Z.of_nat (length l)) 31 ltac:(lia) ltac:(lia)).
  rewrite (uint_small 32) by (rewrite Z.shiftl_mul_pow2 by lia; split; lia).
  rewrite lor_shiftl_add by (destruct b; cbn; lia). lia.
Qed.

Lemma movemask_rev l : movemask (rev l) = bits_value l.
Proof.
  unfold movemask. rewrite fold_left_rev_right.
  assert (G : forall v, fold_left (fun x y => Z.lor (Z.b2z y) (Z.shiftl x 1)) l v
    = fold_left (fun v b => 2 * v + Z.b2z b) l v); [|apply G].
  induction l as [|b l IH]; intros v; [done|]. cbn [fold_left].
  rewrite Z.lor_comm, lor_shiftl_add by (destruct b; cbn; lia).
  replace (v * 2 ^ 1) with (2 * v) by lia. apply IH.
Qed.

(** The two code paths of MFCR agree: gathering the condition bytes with
    two vector move-mask operations (x64) gives the word the portable
    [cr_bits::pack] loop builds, whatever the condition bits. *)
Theorem mfcr_paths_agree (op : Z) (p : ppu_thread) :
  length (cr p) = 32%nat -> MFCR_x64 op p = MFCR op p.
Proof.
  intros H. unfold MFCR_x64, MFCR. cbv zeta. rewrite !movemask_rev, pack_value by lia.
  f_equal. rewrite (firstn_all2 (n:=16) (skipn 16 (cr p))) by (rewrite length_skipn; lia).
  rewrite <- (firstn_skipn 16 (cr p)) at 3. rewrite bits_value_app, length_skipn, H.
  pose proof (bits_value_range (firstn 16 (cr p))) as R1. rewrite length_firstn, H in R1.
  pose proof (bits_value_range (skipn 16 (cr p))) as R2. rewrite length_skipn, H in R2.
  change (Z.of_nat (32 - 16)) with 16 in *. change (Z.of_nat (16 `min` 32)) with 16 in R1.
  rewrite (uint_small 32) by (rewrite Z.shiftl_mul_pow2 by lia; split; lia).
  by rewrite lor_shiftl_add.
Qed.

Lemma mfcr_paths_agree_witness :
  MFCR_x64 0x7C600026 (set_cr zero_thread (true :: repeat false 30 ++ [true]))
  = MFCR 0x7C600026 (set_cr zero_thread (true :: repeat false 30 ++ [true])).
Proof. apply mfcr_paths_agree. reflexivity. Defined.

(** ** Moving a register to CR *)

Lemma cr_bit_set_field p i bits j : length (cr p) = 32%nat -> 0 <= i < 8 -> length bits = 4%nat ->
  0 <= j < 32 ->
  cr_bit (set_cr_field p i bits) j
  = if j / 4 =? i then nth (Z.to_nat (j mod 4)) bits false else cr_bit p j.
Proof.
  intros Hl Hi Hb Hj. unfold cr_bit, set_cr_field. cbn [cr set_cr].
  assert (L : length (firstn (Z.to_nat (4 * i)) (cr p)) = Z.to_nat (4 * i))
    by (rewrite length_firstn; lia).
  destruct (Z.eqb_spec (j / 4) i).
  - rewrite app_nth2, L by (rewrite ?L; zlia). rewrite app_nth1 by (rewrite Hb; zlia).
    f_equal. zlia.
  - destruct (Z.lt_ge_cases j (4 * i)).
    + rewrite app_nth1 by (rewrite L; lia). rewrite nth_firstn.
      by rewrite (proj2 (Nat.ltb_lt _ _)) by lia.
    + rewrite app_nth2, L by (rewrite ?L; lia). rewrite app_nth2, Hb by (rewrite Hb; zlia).
      rewrite nth_skipn. f_equal. zlia.
Qed.

Lemma s_table_nth s i k : 0 <= i < 8 -> 0 <= k < 4 ->
  nth (Z.to_nat k) (s_table (Z.land (Z.shiftr s (Z.lxor (i * 4) 0x1c)) 0xf)) false
  = Z.testbit s (31 - (4 * i + k)).
Proof.
  intros Hi Hk.
  assert (X : Z.lxor (i * 4) 0x1c = 28 - 4 * i).
  { apply Z.eqb_eq. refine (forall_bits_0 (fun i => Z.lxor (i * 4) 0x1c =? 28 - 4 * i) 3 _ i Hi).
    vm_compute. reflexivity. }
  rewrite X. unfold s_table. change 0xf with (2 ^ 4 - 1). rewrite land_ones_uint by lia.
  assert (T : forall b, 0 <= b < 4 -> Z.testbit (uint 4 (Z.shiftr s (28 - 4 * i))) b
    = Z.testbit s (b + (28 - 4 * i))).
  { intros b Hb. rewrite testbit_uint, Z.shiftr_spec by lia. by replace (b <? 4) with true by lia. }
  assert (C : k = 0 \/ k = 1 \/ k = 2 \/ k = 3) by lia.
  destruct C as [->|[->|[->| ->]]];
    [change (Z.to_nat 0) with 0%nat|change (Z.to_nat 1) with 1%nat
    |change (Z.to_nat 2) with 2%nat|change (Z.to_nat 3) with 3%nat];
    cbn [nth]; rewrite T by lia; f_equal; lia.
Qed.

Lemma mtcrf_field_bit s p i j : length (cr p) = 32%nat -> 0 <= i < 8 -> 0 <= j < 32 ->
  cr_bit (mtcrf_field s p i) j = if j / 4 =? i then Z.testbit s (31 - j) else cr_bit p j.
Proof.
  intros Hl Hi Hj. unfold mtcrf_field. rewrite cr_bit_set_field by done.
  destruct (Z.eqb_spec (j / 4) i) as [<-|]; [|done].
  rewrite s_table_nth by zlia. f_equal. zlia.
Qed.

Lemma mtcrf_field_len s p i : length (cr p) = 32%nat -> 0 <= i < 8 ->
  length (cr (mtcrf_field s p i)) = 32%nat.
Proof.
  intros Hl Hi. unfold mtcrf_field, set_cr_field. cbn [cr set_cr].
  rewrite !length_app, length_firstn, length_skipn, Hl. cbn [length s_table]. lia.
Qed.

Lemma mtcrf_fold s m l : forall p, length (cr p) = 32%nat -> (forall i, In i l -> 0 <= i < 8) ->
  let q := fold_left (fun p i => if (m i : bool) then mtcrf_field s p i else p) l p in
  length (cr q) = 32%nat /\
  (forall j, 0 <= j < 32 -> cr_bit q j
    = if existsb (fun i => (j / 4 =? i) && m i) l then Z.testbit s (31 - j) else cr_bit p j).
Proof.
  induction l as [|i l IH]; intros p Hp Hl; [done|]. cbn [fold_left existsb].
  assert (Hi : 0 <= i < 8) by (apply Hl; by left).
  destruct (IH (if m i then mtcrf_field s p i else p)) as [L B].
  - destruct (m i); [by apply mtcrf_field_len|done].
  - intros; apply Hl; by right.
  - split; [done|]. intros j Hj. rewrite B by done.
    destruct (existsb _ l); [by rewrite orb_true_r|]. rewrite orb_false_r.
    destruct (m i); [rewrite mtcrf_field_bit by done|]; [by rewrite andb_true_r|by rewrite andb_false_r].
Qed.

Lemma MTOCRF_bit (op : Z) (p : ppu_thread) (j : Z) :
  length (cr p) = 32%nat -> 0 <= j < 32 ->
  let selected :=
    if op_l11 op then j / 4 =? countl_zero 8 (op_crm op) mod 8
    else Z.testbit (op_crm op) (7 - j / 4) in
  cr_bit (MTOCRF op p) j = if selected then Z.testbit (r p (op_rs op)) (31 - j) else cr_bit p j.
Proof.
  intros Hl Hj. cbv zeta. unfold MTOCRF. cbv zeta.
  pose proof (ppu_bf_range 12 8 op ltac:(lia)) as Hm. fold (op_crm op) in Hm.
  destruct (op_l11 op).
  - assert (E : Z.land (countl_zero 32 (op_crm op)) 7 = countl_zero 8 (op_crm op) mod 8).
    { apply Z.eqb_eq. refine (forall_bits_0
        (fun m => Z.land (countl_zero 32 m) 7 =? countl_zero 8 m mod 8) 8 _ _ Hm).
      vm_compute. reflexivity. }
    rewrite E. apply mtcrf_field_bit; [done|zlia|done].
  - set (m := fun i => negb (Z.land (op_crm op) (Z.shiftr 128 i) =? 0)).
    destruct (mtcrf_fold (r p (op_rs op)) m [0; 1; 2; 3; 4; 5; 6; 7] p Hl) as [_ B].
    { intros i Hi. cbn in Hi. lia. }
    etransitivity; [exact (B j Hj)|]. clear B.
    assert (Hq : 0 <= j / 4 < 8) by zlia.
    assert (T : m (j / 4) = Z.testbit (op_crm op) (7 - j / 4)).
    { unfold m. replace (Z.shiftr 128 (j / 4)) with (2 ^ (7 - j / 4)); [apply land_pow2_test; lia|].
      rewrite Z.shiftr_div_pow2 by lia. apply Z.div_unique with 0; [left|].
      - split; [lia|apply pow2_pos; lia].
      - rewrite <- Z.pow_add_r, Z.add_0_r by lia. change 128 with (2 ^ 7). f_equal. lia. }
    assert (X : existsb (fun i => (j / 4 =? i) && m i) [0; 1; 2; 3; 4; 5; 6; 7] = m (j / 4)).
    { apply eq_true_iff_eq. rewrite existsb_exists. split.
      - by intros (i & _ & [->%Z.eqb_eq ?]%andb_prop).
      - intros E. exists (j / 4). rewrite Z.eqb_refl, E. split; [cbn; lia|done]. }
    by rewrite X, T.
Qed.

(**  [mtcrf] and [mtocrf], bit by bit: a condition bit in a field selected
    by the mask takes the bit of the register at its place, the others keep
    their value.  For [mtocrf] the field selected is the first one of the mask
    (field 0 for an empty mask). *)
Theorem mtcrf_bits (op : Z) (p : ppu_thread) (j : Z) :
  length (cr p) = 32%nat -> 0 <= j < 32 ->
  let selected :=
    if op_l11 op then j / 4 =? countl_zero 8 (op_crm op) mod 8
    else Z.testbit (op_crm op) (7 - j / 4) in
  cr_bit (MTOCRF op p) j = if selected then Z.testbit (r p (op_rs op)) (31 - j) else cr_bit p j.
Proof. apply MTOCRF_bit. Qed.

Lemma mtcrf_bits_witness :
  cr_bit (MTOCRF 0x7C6FF120 (set_r zero_thread 3 0x80000001)) 31 = true.
Proof.
  rewrite mtcrf_bits; [vm_compute; reflexivity|reflexivity|lia].
Defined.

Lemma MTOCRF_len op p : length (cr p) = 32%nat -> length (cr (MTOCRF op p)) = 32%nat.
Proof.
  intros Hl. unfold MTOCRF. cbv zeta. destruct (op_l11 op).
  - apply mtcrf_field_len; [done|]. change 7 with (2 ^ 3 - 1).
    rewrite land_ones_uint by lia. apply (uint_range 3). lia.
  - apply (mtcrf_fold (r p (op_rs op)) (fun i => negb (Z.land (op_crm op) (Z.shiftr 128 i) =? 0)));
      [done|]. intros i Hi. cbn in Hi. lia.
Qed.

Lemma cr_ext p q : length (cr p) = 32%nat -> length (cr q) = 32%nat ->
  (forall j, 0 <= j < 32 -> cr_bit p j = cr_bit q j) -> cr p = cr q.
Proof.
  intros Hp Hq H. apply (nth_ext _ _ false false); [lia|]. intros k Hk.
  specialize (H (Z.of_nat k) ltac:(lia)). unfold cr_bit in H. by rewrite Nat2Z.id in H.
Qed.

Lemma pack_testbit l j : length l = 32%nat -> 0 <= j < 32 ->
  Z.testbit (pack l) (31 - j) = nth (Z.to_nat j) l false.
Proof.
  intros Hl Hj. rewrite pack_value by lia.
  replace (31 - j) with (Z.of_nat (31 - Z.to_nat j)) by lia.
  rewrite bits_value_testbit, Hl by lia. f_equal. lia.
Qed.

(** C34.  CR survives a trip through a general register and back: [mfcr] then
    [mtcrf 0xff] of the same register restores every condition bit; [mtcrf 0xff]
    then [mfcr] gives the low word of the register. *)
Theorem cr_roundtrip (mf mt : Z) (p : ppu_thread) :
  wf p -> op_rd mf = op_rs mt -> op_l11 mt = false -> op_crm mt = 0xff ->
  cr (MTOCRF mt (MFCR mf p)) = cr p /\
  r (MFCR mf (MTOCRF mt p)) (op_rd mf) = u32 (r p (op_rs mt)).
Proof.
  intros H Rd L11 Crm. pose proof (wf_cr p H) as Hl.
  assert (B : forall q j, length (cr q) = 32%nat -> 0 <= j < 32 ->
    cr_bit (MTOCRF mt q) j = Z.testbit (r q (op_rs mt)) (31 - j)).
  { intros q j Hq Hj. pose proof (MTOCRF_bit mt q j Hq Hj) as M. cbv zeta in M.
    rewrite L11, Crm in M. rewrite M. change 0xff with (Z.ones 8).
    rewrite Z.ones_spec_low by zlia. done. }
  split.
  - apply cr_ext; [by apply MTOCRF_len|done|]. intros j Hj. rewrite B by done.
    unfold MFCR. rewrite Rd, r_set_r_eq by auto with width. by apply pack_testbit.
  - unfold MFCR. pose proof (MTOCRF_len mt p Hl) as Lq.
    rewrite r_set_r_eq by (apply wf_gpr_len, MTOCRF_wf, H || auto with width).
    apply Z.bits_inj'. intros i Hi. rewrite testbit_uint by lia. destruct (Z.ltb_spec i 32).
    + replace i with (31 - (31 - i)) by lia. rewrite pack_testbit by (done || lia).
      fold (cr_bit (MTOCRF mt p) (31 - i)). by rewrite B by (done || lia).
    + apply (testbit_high 32); [apply pack_range|lia].
Qed.

Lemma cr_roundtrip_witness :
  cr (MTOCRF 0x7C6FF120 (MFCR 0x7C600026 zero_thread)) = cr zero_thread.
Proof. apply cr_roundtrip; [exact zero_thread_wf|vm_compute; reflexivity..]. Defined.

(** ** XER *)

Lemma xer_value_bits x i : in_uint 7 (cnt x) -> 0 <= i ->
  Z.testbit (xer_value x) i =
  ((i =? 31) && so x) || ((i =? 30) && ov x) || ((i =? 29) && ca x) || Z.testbit (cnt x) i.
Proof.
  intros Hc Hi. unfold xer_value. rewrite !Z.lor_spec, !Z.shiftl_spec by lia.
  assert (B : forall b k, 0 <= k -> Z.testbit (Z.b2z b) (i - k) = (i =? k) && b).
  { intros b k Hk. destruct (Z.eqb_spec i k) as [->|].
    - rewrite Z.sub_diag. by destruct b.
    - destruct (Z.lt_ge_cases i k); [by rewrite Z.testbit_neg_r by lia|].
      rewrite (testbit_high 1); [done|destruct b; split; cbn; lia|lia]. }
  by rewrite !B by lia.
Qed.

(** The XER image: [mtspr] of a register to XER followed by [mfspr] keeps
    the three status bits and the seven count bits of the register and clears
    the rest; [mfspr] followed by [mtspr] of the same register leaves XER as it
    was.  Neither throws. *)
Theorem xer_roundtrip (tb mf mt : Z) (p : ppu_thread) :
  wf p -> op_rd mf = op_rs mt -> spr_number mf = 1 -> spr_number mt = 1 ->
  (exists q q', MTSPR mt p = Some q /\ MFSPR tb mf q = Some q' /\
     r q' (op_rd mf) = Z.land (r p (op_rs mt)) 0xE000007F) /\
  (exists q q', MFSPR tb mf p = Some q /\ MTSPR mt q = Some q' /\ xer q' = xer p).
Proof.
  intros H Rd Sf St. set (v := r p (op_rs mt)).
  assert (T : forall w k m, 0 <= k -> m = 2 ^ k -> negb (Z.land w m =? 0) = Z.testbit w k)
    by (intros w k m Hk ->; by apply land_pow2_test).
  assert (C : forall w, Z.land w 0x7f = uint 7 w) by (intros; by apply (land_ones_uint 7)).
  assert (M : forall w, MTSPR mt w = Some (set_xer w (Xer (Z.testbit (r w (op_rs mt)) 31)
    (Z.testbit (r w (op_rs mt)) 30) (Z.testbit (r w (op_rs mt)) 29) (uint 7 (r w (op_rs mt)))))).
  { intros w. unfold MTSPR. rewrite St. cbv zeta. cbn [Z.eqb Pos.eqb].
    by rewrite (T _ 31 0x80000000), (T _ 30 0x40000000), (T _ 29 0x20000000), C by lia. }
  assert (F : forall w, MFSPR tb mf w = Some (set_r w (op_rd mf) (xer_value (xer w))))
    by (intros; unfold MFSPR; by rewrite Sf).
  split.
  - eexists _, _. rewrite M, F. split_and!; [done..|].
    rewrite r_set_r_eq by (exact (wf_gpr_len p H) || auto with width). fold v.
    cbn [xer set_xer]. apply Z.bits_inj'. intros i Hi.
    rewrite xer_value_bits, Z.land_spec by (done || apply uint_range; lia). cbn [so ov ca cnt].
    rewrite testbit_uint by lia.
    assert (K : Z.testbit 0xE000007F i = (i =? 31) || (i =? 30) || (i =? 29) || (i <? 7)).
    { destruct (Z.lt_ge_cases i 32); [|rewrite (testbit_high 32); [lia|split; lia|lia]].
      apply eqb_prop. refine (forall_bits_0 (fun i => eqb (Z.testbit 0xE000007F i)
        ((i =? 31) || (i =? 30) || (i =? 29) || (i <? 7))) 5 _ i _); [vm_compute; reflexivity|lia]. }
    rewrite K.
    destruct (Z.eq_dec i 31) as [->|]; [cbn; by rewrite andb_true_r, !orb_false_r|].
    destruct (Z.eq_dec i 30) as [->|]; [cbn; by rewrite andb_true_r, !orb_false_r|].
    destruct (Z.eq_dec i 29) as [->|]; [cbn; by rewrite andb_true_r, !orb_false_r|].
    replace (i =? 31) with false by lia. replace (i =? 30) with false by lia.
    replace (i =? 29) with false by lia. cbn [andb orb]. apply andb_comm.
  - eexists _, _. rewrite F, M. split_and!; [done..|]. cbn [xer set_xer].
    rewrite Rd, r_set_r_eq by (exact (wf_gpr_len p H) || auto with width).
    pose proof (wf_cnt p H) as Hc. rewrite !xer_value_bits by (done || lia).
    rewrite !(testbit_high 7 (cnt (xer p))) by (done || lia).
    assert (U : uint 7 (xer_value (xer p)) = cnt (xer p)).
    { apply Z.bits_inj'. intros i Hi. rewrite testbit_uint, xer_value_bits by (done || lia).
      destruct (Z.ltb_spec i 7); [|symmetry; by apply (testbit_high 7)].
      replace (i =? 31) with false by lia. replace (i =? 30) with false by lia.
      by replace (i =? 29) with false by lia. }
    rewrite U. destruct (xer p). cbn. by rewrite !orb_false_r.
Qed.

Lemma xer_roundtrip_witness :
  exists q q', MTSPR 0x7C6103A6 (set_r zero_thread 3 0xFFFFFFFF) = Some q /\
    MFSPR 0 0x7C6102A6 q = Some q' /\ r q' 3 = 0xE000007F.
Proof.
  destruct (xer_roundtrip 0 0x7C6102A6 0x7C6103A6 (set_r zero_thread 3 0xFFFFFFFF)) as [(q & q' & A & B & C) _];
    [apply set_r_wf; [exact zero_thread_wf|split; lia]|vm_compute; reflexivity..|].
  exists q, q'. split; [exact A|]. split; [exact B|]. etransitivity; [exact C|]. vm_compute. reflexivity.
Defined.

(** ** Comparisons *)

Lemma cr_bit_set p i j b : length (cr p) = 32%nat -> 0 <= i < 32 -> 0 <= j < 32 ->
  cr_bit (set_cr_bit p i b) j = if i =? j then b else cr_bit p j.
Proof.
  intros Hl Hi Hj. unfold cr_bit, set_cr_bit. cbn [cr set_cr]. rewrite !nth_lookup.
  destruct (Z.eqb_spec i j) as [->|N].
  - by rewrite list_lookup_insert_eq by lia.
  - by rewrite list_lookup_insert_ne by lia.
Qed.

Lemma set_cr_bit_len p i b : length (cr p) = 32%nat -> length (cr (set_cr_bit p i b)) = 32%nat.
Proof. intros. cbn [cr set_cr_bit set_cr]. by rewrite length_insert. Qed.

Lemma ppu_cr_cmp_bit p f a b j : length (cr p) = 32%nat -> 0 <= f < 8 -> 0 <= j < 32 ->
  cr_bit (ppu_cr_cmp p f a b) j =
  if j / 4 =? f then nth (Z.to_nat (j mod 4)) [a <? b; b <? a; a =? b; so (xer p)] false
  else cr_bit p j.
Proof.
  intros Hl Hf Hj. unfold ppu_cr_cmp, ppu_cr_set. cbv zeta.
  rewrite !cr_bit_set by (repeat apply set_cr_bit_len; done || lia).
  pose proof (Z.div_mod j 4 ltac:(lia)) as D. pose proof (Z.mod_pos_bound j 4 ltac:(lia)) as M.
  destruct (Z.eqb_spec (j / 4) f) as [<-|N].
  - assert (C : j mod 4 = 0 \/ j mod 4 = 1 \/ j mod 4 = 2 \/ j mod 4 = 3) by lia.
    replace (j / 4 * 4 + 3 =? j) with (j mod 4 =? 3) by lia.
    replace (j / 4 * 4 + 2 =? j) with (j mod 4 =? 2) by lia.
    replace (j / 4 * 4 + 1 =? j) with (j mod 4 =? 1) by lia.
    replace (j / 4 * 4 + 0 =? j) with (j mod 4 =? 0) by lia.
    by destruct C as [->|[->|[->| ->]]].
  - replace (f * 4 + 3 =? j) with false by lia. replace (f * 4 + 2 =? j) with false by lia.
    replace (f * 4 + 1 =? j) with false by lia. by replace (f * 4 + 0 =? j) with false by lia.
Qed.

(** The comparisons write LT, GT, EQ of the operands read with the
    signedness and width of the instruction, and a copy of SO, into the named
    field, and leave the other seven fields alone. *)
Theorem compare_fields (op j : Z) (p : ppu_thread) :
  wf p -> 0 <= j < 32 ->
  let A := r p (op_ra op) in
  let B := r p (op_rb op) in
  let l := op_l10 op in
  let sets q x y :=
    cr_bit q j = if j / 4 =? op_crfd op
                 then nth (Z.to_nat (j mod 4)) [x <? y; y <? x; x =? y; so (xer p)] false
                 else cr_bit p j in
  sets (CMP op p) (if l then s64 A else s32 A) (if l then s64 B else s32 B) /\
  sets (CMPL op p) (if l then A else u32 A) (if l then B else u32 B) /\
  sets (CMPI op p) (if l then s64 A else s32 A) (op_simm16 op) /\
  sets (CMPLI op p) (if l then A else u32 A) (op_uimm16 op).
Proof.
  intros H Hj A B l sets. pose proof (wf_cr p H) as Hl.
  assert (Hf : 0 <= op_crfd op < 8) by (apply (ppu_bf_range 6 3); lia).
  unfold sets, CMP, CMPL, CMPI, CMPLI. fold A B l.
  destruct l; split_and!; by apply ppu_cr_cmp_bit.
Qed.

Lemma compare_fields_witness :
  let p := set_r (set_r zero_thread 3 (2 ^ 64 - 1)) 4 1 in
  cr_bit (CMP 0x7FA32000 p) 28 = true /\ cr_bit (CMPL 0x7FA32040 p) 29 = true.
Proof.
  assert (W : wf (set_r (set_r zero_thread 3 (2 ^ 64 - 1)) 4 1))
    by (apply set_r_wf; [apply set_r_wf; [exact zero_thread_wf|split; lia]|split; lia]).
  split.
  - destruct (compare_fields 0x7FA32000 28 _ W ltac:(lia)) as [E _]. rewrite E. vm_compute. reflexivity.
  - destruct (compare_fields 0x7FA32040 29 _ W ltac:(lia)) as (_ & E & _). rewrite E. vm_compute. reflexivity.
Defined.

(** ** Branches *)

Lemma clear_low_bits x : in_uint 32 x -> x mod 4 = 0 -> Z.land x (bnot 32 3) = x.
Proof.
  intros Hx Hm. apply Z.bits_inj'. intros i Hi. rewrite Z.land_spec. unfold bnot.
  rewrite testbit_uint, Z.lnot_spec by lia. change 3 with (Z.ones 2). rewrite Z.testbit_ones by lia.
  destruct (Z.lt_ge_cases i 32); [|by rewrite (testbit_high 32 x i) by (done || lia)].
  destruct (Z.lt_ge_cases i 2).
  - rewrite <- (Z.mod_pow2_bits_low x 2 i) by lia. change (2 ^ 2) with 4. by rewrite Hm, Z.bits_0.
  - replace (i <? 32) with true by lia. replace (i <? 2) with false by lia.
    by rewrite !andb_false_r, andb_true_r.
Qed.

(** C35.  A call and its return: [bl] at [a] sends control to its target with
    the return address in LR, and an unconditional [blr], executed at any
    address by a thread that kept LR, resumes at the word after the call. *)
Theorem call_return (bl blr a a' : Z) (p : ppu_thread) :
  wf p -> in_uint 32 a -> a mod 4 = 0 -> op_lk bl = true -> Z.land (op_bo blr) 0x14 = 0x14 ->
  exists q, B bl a p = Return q /\
    cia q = u32 ((if op_aa bl then 0 else a) + op_bt24 bl) /\
    (forall q', lr q' = lr q ->
       exists q'', BCLR blr a' q' = Return q'' /\ cia q'' = u32 (a + 4)).
Proof.
  intros H Ha Al Lk Bo. unfold B. rewrite Lk. eexists. split; [reflexivity|]. split; [done|].
  intros q' Lr. unfold BCLR. cbv zeta.
  assert (B0 : bo_bit blr 0x10 = true /\ bo_bit blr 0x04 = true).
  { pose proof (op_reg_range 6 blr : in_uint 5 (op_bo blr)) as Hb. unfold bo_bit.
    revert Bo. generalize dependent (op_bo blr). intros b Hb E.
    apply andb_true_iff. apply Z.eqb_eq in E.
    pose proof (forall_bits_0 (fun b => implb (Z.land b 0x14 =? 0x14)
      (negb (Z.land b 0x10 =? 0) && negb (Z.land b 0x04 =? 0))) 5 eq_refl b Hb) as I.
    cbv beta in I. by rewrite E in I. }
  destruct B0 as [-> ->]. cbn [orb andb negb branch_to].
  eexists. split; [reflexivity|]. cbn [cia add_exec_bytes set_exec_bytes set_cia lr set_link set_ctr].
  rewrite Lr. cbn [lr add_exec_bytes set_exec_bytes set_link set_lr].
  rewrite uint_uint. apply clear_low_bits; [apply uint_range; lia|].
  unfold uint, in_uint in *. change (2 ^ 32) with 4294967296 in *. zlia.
Qed.

Lemma call_return_witness :
  exists q, B 0x48000101 0x10000 zero_thread = Return q /\ cia q = 0x10100 /\
    exists q'', BCLR 0x4E800020 0x10180 q = Return q'' /\ cia q'' = 0x10004.
Proof.
  destruct (call_return 0x48000101 0x4E800020 0x10000 0x10180 zero_thread) as (q & E & C & R);
    [exact zero_thread_wf|split; lia|reflexivity..|].
  exists q. split; [exact E|]. split; [rewrite C; vm_compute; reflexivity|].
  destruct (R q eq_refl) as (q'' & E' & C'). exists q''. split; [exact E'|]. rewrite C'.
  vm_compute. reflexivity.
Defined.

(** [bdnz]: BO = 16, decrement CTR and branch when it is not zero. *)
Fixpoint bdnz_trips (fuel : nat) (op a : Z) (p : ppu_thread) : option (Z * ppu_thread) :=
  match fuel with
  | O => None
  | S fuel =>
      match BC op a p with
      | Return q => '(n, q') ← bdnz_trips fuel op a q; Some (1 + n, q')
      | Next q => Some (1, q)
      | _ => None
      end
  end.

Lemma bdnz_step op a p : wf p -> op_bo op = 0x10 -> state p = 0 -> op_lk op = false ->
  if u64 (ctr p - 1) =? 0
  then exists q, BC op a p = Next q /\ ctr q = 0
  else exists q, BC op a p = Return q /\ ctr q = u64 (ctr p - 1) /\ state q = 0 /\ wf q.
Proof.
  intros H Bo St Lk. pose proof (BC_wf op a p H) as W.
  assert (B0 : bo_bit op 0x10 = true) by (unfold bo_bit; by rewrite Bo).
  assert (B2 : bo_bit op 0x04 = false) by (unfold bo_bit; by rewrite Bo).
  assert (B3 : bo_bit op 0x02 = false) by (unfold bo_bit; by rewrite Bo).
  unfold BC in *. cbv zeta in *. rewrite B0, B2, B3, Lk in *.
  cbn [negb Z.b2z set_link orb xorb ctr set_ctr] in *. unfold branch_to in *.
  cbn [state set_ctr cia] in *. rewrite St in *.
  destruct (Z.eqb_spec (u64 (ctr p - 1)) 0) as [E|E]; cbn [negb xorb orb andb Z.eqb] in *; by eexists.
Qed.


