(* ===== verification/SharedMutex.v ===== *)
(** The host's reader-writer mutex (src/Utilities/mutex.h, src/Utilities/mutex.cpp).

    [shared_mutex] is one 32-bit word: the number of readers in its low 14
    bits, the number of writers that hold or await the lock above them, and a
    notification bit.  The emulator's own critical sections, those of the LV2
    objects among them, are guarded by it.  Every atomic operation on the word
    is a step; the machine interleaves the calls of any number of threads.  The
    theorems: writers exclude each other and the readers, no check for underflow
    or overflow fails, threads never all sleep, and [lock_unlock] returns only
    after the critical section it found has ended. *)
From Stdlib Require Import ZArith Lia Bool List.
From stdpp Require Import base option list numbers gmap.
From S2P Require Import Prelude Machine.
Local Open Scope Z_scope.

(** ** The machine *)

Definition c_one : Z := 2 ^ 14.
Definition c_sig : Z := 2 ^ 30.
Definition c_err : Z := 2 ^ 31.

(** Why a thread is in [imp_wait], and where it goes from [imp_signal].  The
    argument of [lock_unlock] is a ghost: when a writer was inside at the call,
    the number of writer sections that had ended by then. *)
Inductive waitk : Set := KLock | KShared | KUpgrade | KLockUnlock (g : option Z).
Inductive sret : Set := RetIdle | RetLockUnlock (g : option Z).

(** Before which atomic operation a thread is.  [n] counts the turns left of a
    loop; [val] and [old] are values read from the word. *)
Inductive spoint : Set :=
  | SIdle
  | HeldW | HeldR                                  (* inside, as a writer or a reader *)
  | TsCas (val : Z)                                (* try_lock_shared *)
  | RCas (val : Z)                                 (* lock_shared *)
  | RSteal (val : Z)                               (* imp_lock_shared *)
  | RLoad (n : nat) | RTry (n : nat) (val : Z) | ROld (n : nat) | RStealL (n : nat) (old : Z)
  | RAdd | RDown
  | LSteal (val : Z)                               (* imp_lock *)
  | LLoad (n : nat) | LTry (n : nat) | LStealL (n : nat) (old : Z) | LAdd
  | WFetch (k : waitk) | WWait (k : waitk) (old : Z) | WBlocked (k : waitk)   (* imp_wait *)
  | Sig (r : sret) | Notify (r : sret)             (* imp_signal *)
  | TuCas (val : Z)                                (* try_lock_upgrade *)
  | ULoad (n : nat) | UCas (n : nat) (val : Z) | UAdd   (* lock_upgrade, imp_lock_upgrade *)
  | XLoad (n : nat) (max : Z) (g : option Z)       (* imp_lock_unlock *)
  | XAdd (g : option Z) | XUnlock (g : option Z) | XReturned (g : option Z).

Record smutex := SMutex {
  m_value : Z; sm_threads : gset Z; sm_points : gmap Z spoint; sm_releases : Z; sm_failed : bool
}.

Definition spc (s : smutex) (t : Z) : spoint := at_point SIdle (sm_points s) t.
Definition sgo (t : Z) (p : spoint) (s : smutex) : smutex :=
  SMutex (m_value s) (sm_threads s) (<[t := p]> (sm_points s)) (sm_releases s) (sm_failed s).
Definition s_value (v : Z) (s : smutex) : smutex :=
  SMutex v (sm_threads s) (sm_points s) (sm_releases s) (sm_failed s).
Definition s_release (s : smutex) : smutex :=
  SMutex (m_value s) (sm_threads s) (sm_points s) (sm_releases s + 1) (sm_failed s).
(** [ensure(b)]. *)
Definition s_ensure (b : bool) (s : smutex) : smutex :=
  if b then s else SMutex (m_value s) (sm_threads s) (sm_points s) (sm_releases s) true.

(** [compare_and_swap_test(old, new)], then [p] or [q]. *)
Definition s_cas (t old new : Z) (p q : spoint) (s : smutex) : smutex :=
  if m_value s =? old then sgo t p (s_value new s) else sgo t q s.

(** *** Waiting and signalling *)
Definition after_wait (k : waitk) : spoint :=
  match k with KLock | KUpgrade => HeldW | KShared => RDown | KLockUnlock g => XUnlock g end.

Definition imp_wait_fetch (t : Z) (k : waitk) (s : smutex) : smutex :=
  if m_value s >=? c_sig then sgo t (after_wait k) (s_value (u32 (m_value s - c_sig)) s)
  else sgo t (WWait k (m_value s)) s.

(** [m_value.wait(old)] sleeps when the value is still [old]. *)
Definition imp_wait_wait (t : Z) (k : waitk) (old : Z) (s : smutex) : smutex :=
  sgo t (if m_value s =? old then WBlocked k else WFetch k) s.

Definition after_signal (r : sret) : spoint :=
  match r with RetIdle => SIdle | RetLockUnlock g => XReturned g end.

Definition imp_signal_add (t : Z) (r : sret) (s : smutex) : smutex :=
  sgo t (Notify r) (s_value (u32 (m_value s + c_sig)) s).

(** *** Exclusive lock *)
Definition try_lock (t : Z) (s : smutex) : smutex := s_cas t 0 c_one HeldW SIdle s.

Definition l_turn (n : nat) : spoint := match n with O => LAdd | S n' => LLoad n' end.

Definition lock (t : Z) (s : smutex) : smutex :=
  let value := m_value s in
  if value =? 0 then sgo t HeldW (s_value c_one s)
  else
    let s' := s_ensure (value <? c_err) s in
    if Z.testbit value 30 then sgo t (LSteal value) s' else sgo t (l_turn 10) s'.

Definition imp_lock_load (t : Z) (n : nat) (s : smutex) : smutex :=
  let old := m_value s in
  if old =? 0 then sgo t (LTry n) s
  else if Z.testbit old 30 then sgo t (LStealL n old) s else sgo t (l_turn n) s.

Definition imp_lock_add (t : Z) (s : smutex) : smutex :=
  let old := m_value s in
  let s' := s_value (u32 (old + c_one)) s in
  if old =? 0 then sgo t HeldW s'
  else sgo t (WFetch KLock) (s_ensure (old mod c_sig + c_one <? c_sig) s').

(** [fetch_sub(c_one)] and what follows, for [unlock]. *)
Definition unlock (t : Z) (r : sret) (s : smutex) : smutex :=
  let value := m_value s in
  let s' := s_release (s_value (u32 (value - c_one)) s) in
  if value =? c_one then sgo t (after_signal r) s'
  else
    let s'' := s_ensure (u32 (value - c_one) <? c_err) s' in
    if u32 (value - c_one) =? 0 then sgo t (after_signal r) s'' else sgo t (Sig r) s''.

(** *** Shared lock *)
Definition try_lock_shared (t : Z) (s : smutex) : smutex :=
  if m_value s <? c_one - 1 then sgo t (TsCas (m_value s)) s else sgo t SIdle s.

Definition r_turn (n : nat) : spoint := match n with O => RAdd | S n' => RLoad n' end.

(** [imp_lock_shared(val)] up to its first operation. *)
Definition imp_lock_shared (t val : Z) (s : smutex) : smutex :=
  let s' := s_ensure (val <? c_err) s in
  if Z.testbit val 30 then sgo t (RSteal val) s' else sgo t (r_turn 10) s'.

Definition lock_shared (t : Z) (s : smutex) : smutex :=
  let value := m_value s in
  if value >=? c_one - 1 then imp_lock_shared t value s else sgo t (RCas value) s.

Definition lock_shared_cas (t val : Z) (s : smutex) : smutex :=
  if m_value s =? val then sgo t HeldR (s_value (u32 (val + 1)) s) else imp_lock_shared t val s.

Definition imp_lock_shared_load (t : Z) (n : nat) (s : smutex) : smutex :=
  if m_value s <? c_one - 1 then sgo t (RTry n (m_value s)) s else sgo t (ROld n) s.

Definition imp_lock_shared_old (t : Z) (n : nat) (s : smutex) : smutex :=
  let old := m_value s in
  if Z.testbit old 30 then sgo t (RStealL n old) s else sgo t (r_turn n) s.

Definition imp_lock_shared_add (t : Z) (s : smutex) : smutex :=
  let old := m_value s in
  let s' := s_value (u32 (old + c_one)) s in
  if old =? 0 then sgo t RDown s'
  else sgo t (WFetch KShared) (s_ensure (old mod c_sig + c_one <? c_sig) s').

Definition unlock_shared (t : Z) (s : smutex) : smutex :=
  let value := m_value s in
  let s' := s_value (u32 (value - 1)) s in
  if value >=? c_one then
    let s'' := s_ensure (u32 (value - 1) <? c_err) s' in
    if u32 (value - 1) mod c_one =? 0 then sgo t (Sig RetIdle) s'' else sgo t SIdle s''
  else sgo t SIdle s'.

(** *** Upgrade and downgrade *)
Definition single_reader (value : Z) : bool := u32 (value + c_one - 1) mod c_one =? 0.

Definition try_lock_upgrade (t : Z) (s : smutex) : smutex :=
  if single_reader (m_value s) then sgo t (TuCas (m_value s)) s else sgo t HeldR s.

Definition u_turn (n : nat) : spoint := match n with O => UAdd | S n' => ULoad n' end.

Definition lock_upgrade_load (t : Z) (n : nat) (s : smutex) : smutex :=
  if single_reader (m_value s) then sgo t (UCas n (m_value s)) s else sgo t (u_turn n) s.

Definition imp_lock_upgrade_add (t : Z) (s : smutex) : smutex :=
  let old := m_value s in
  let s' := s_ensure (old mod c_sig + c_one - 1 <? c_sig) (s_value (u32 (old + c_one - 1)) s) in
  if old mod c_one =? 1 then sgo t HeldW s' else sgo t (WFetch KUpgrade) s'.

Definition lock_downgrade (t : Z) (s : smutex) : smutex :=
  sgo t HeldR (s_release (s_value (u32 (m_value s - (c_one - 1))) s)).

(** *** lock_unlock *)

(** The threads inside as writers, those that are about to leave included. *)
Definition is_writer (p : spoint) : bool :=
  match p with HeldW | RDown | XUnlock _ => true | _ => false end.

Definition x_turn (n : nat) (max : Z) (g : option Z) : spoint :=
  match n with O => XAdd g | S n' => XLoad n' max g end.

Definition lock_unlock (t : Z) (s : smutex) : smutex :=
  let g := if 0 <? count_at is_writer (sm_points s) then Some (sm_releases s) else None in
  if m_value s =? 0 then sgo t (XReturned g) s else sgo t (x_turn 30 1 g) s.

Definition imp_lock_unlock_load (t : Z) (n : nat) (max : Z) (g : option Z) (s : smutex) : smutex :=
  let val := m_value s in
  if (val mod c_one =? 0) && ((val / c_one <? max) || (val >=? c_sig)) then sgo t (XReturned g) s
  else sgo t (x_turn n (val / c_one) g) s.

Definition imp_lock_unlock_add (t : Z) (g : option Z) (s : smutex) : smutex :=
  let old := m_value s in
  let s' := s_value (u32 (old + c_one)) s in
  if old =? 0 then sgo t (XUnlock g) s' else sgo t (WFetch (KLockUnlock g)) s'.

(** *** Steps *)
Definition is_blocked (p : spoint) : bool := match p with WBlocked _ => true | _ => false end.

Definition s_run (t : Z) (s : smutex) : option smutex :=
  match spc s t with
  | TsCas v => Some (s_cas t v (u32 (v + 1)) HeldR SIdle s)
  | RCas v => Some (lock_shared_cas t v s)
  | RSteal v => Some (s_cas t v (u32 (v - c_sig + 1)) HeldR (r_turn 10) s)
  | RLoad n => Some (imp_lock_shared_load t n s)
  | RTry n v => Some (s_cas t v (u32 (v + 1)) HeldR (ROld n) s)
  | ROld n => Some (imp_lock_shared_old t n s)
  | RStealL n old => Some (s_cas t old (u32 (old - c_sig + 1)) HeldR (r_turn n) s)
  | RAdd => Some (imp_lock_shared_add t s)
  | RDown => Some (lock_downgrade t s)
  | LSteal v => Some (s_cas t v (u32 (v - c_sig + c_one)) HeldW (l_turn 10) s)
  | LLoad n => Some (imp_lock_load t n s)
  | LTry n => Some (s_cas t 0 c_one HeldW (l_turn n) s)
  | LStealL n old => Some (s_cas t old (u32 (old - c_sig + c_one)) HeldW (l_turn n) s)
  | LAdd => Some (imp_lock_add t s)
  | WFetch k => Some (imp_wait_fetch t k s)
  | WWait k old => Some (imp_wait_wait t k old s)
  | Sig r => Some (imp_signal_add t r s)
  | Notify r =>        (* [notify_one] finds nobody asleep *)
      if 0 <? count_at is_blocked (sm_points s) then None else Some (sgo t (after_signal r) s)
  | TuCas v => Some (s_cas t v (u32 (v + c_one - 1)) HeldW HeldR s)
  | ULoad n => Some (lock_upgrade_load t n s)
  | UCas n v => Some (s_cas t v (u32 (v + c_one - 1)) HeldW (u_turn n) s)
  | UAdd => Some (imp_lock_upgrade_add t s)
  | XLoad n max g => Some (imp_lock_unlock_load t n max g s)
  | XAdd g => Some (imp_lock_unlock_add t g s)
  | XUnlock g => Some (unlock t (RetLockUnlock g) s)
  | _ => None
  end.

Inductive saction : Set :=
  | SLock (t : Z) | STryLock (t : Z) | SUnlock (t : Z)
  | SLockShared (t : Z) | STryLockShared (t : Z) | SUnlockShared (t : Z)
  | SUpgrade (t : Z) | STryUpgrade (t : Z) | SDowngrade (t : Z)
  | SLockUnlock (t : Z) | SReturn (t : Z)
  | SRun (t : Z)
  | SNotify (t u : Z)       (* [notify_one] of [t] wakes [u] *)
  | SSpurious (u : Z).      (* [u] wakes by itself *)

Definition wake (u : Z) (s : smutex) : option smutex :=
  match spc s u with WBlocked k => Some (sgo u (WFetch k) s) | _ => None end.

#[export] Instance smutex_machine : Machine smutex saction := fun a s =>
  let outside t s' := match spc s t with
    SIdle => if bool_decide (t ∈ sm_threads s) then Some s' else None | _ => None end in
  let writing t s' := match spc s t with HeldW => Some s' | _ => None end in
  let reading t s' := match spc s t with HeldR => Some s' | _ => None end in
  match a with
  | SLock t => outside t (lock t s)
  | STryLock t => outside t (try_lock t s)
  | SUnlock t => writing t (unlock t RetIdle s)
  | SLockShared t => outside t (lock_shared t s)
  | STryLockShared t => outside t (try_lock_shared t s)
  | SUnlockShared t => reading t (unlock_shared t s)
  | SUpgrade t => reading t (lock_upgrade_load t 10 s)
  | STryUpgrade t => reading t (try_lock_upgrade t s)
  | SDowngrade t => writing t (lock_downgrade t s)
  | SLockUnlock t => outside t (lock_unlock t s)
  | SReturn t => match spc s t with XReturned _ => Some (sgo t SIdle s) | _ => None end
  | SRun t => s_run t s
  | SNotify t u =>
      match spc s t with Notify r => s' ← wake u s; Some (sgo t (after_signal r) s') | _ => None end
  | SSpurious u => wake u s
  end.

(** A new mutex, with fewer threads than its writer count can hold. *)
Definition s_initial (s : smutex) : Prop :=
  m_value s = 0 /\ sm_points s = ∅ /\ Z.of_nat (size (sm_threads s)) < 2 ^ 16 /\ sm_failed s = false.

(** ** The invariant *)

Definition is_reader (p : spoint) : bool :=
  match p with HeldR | TuCas _ | ULoad _ | UCas _ _ | UAdd => true | _ => false end.
Definition is_awake (p : spoint) : bool := match p with WFetch _ | WWait _ _ => true | _ => false end.
Definition is_waiting (p : spoint) : bool := is_awake p || is_blocked p.
Definition is_pending (p : spoint) : bool := match p with Sig _ => true | _ => false end.
Definition is_notifying (p : spoint) : bool := match p with Notify _ => true | _ => false end.

Definition writers (s : smutex) : Z := count_at is_writer (sm_points s).
Definition readers (s : smutex) : Z := count_at is_reader (sm_points s).
Definition awake (s : smutex) : Z := count_at is_awake (sm_points s).
Definition blocked (s : smutex) : Z := count_at is_blocked (sm_points s).
Definition pending (s : smutex) : Z := count_at is_pending (sm_points s).
Definition notifying (s : smutex) : Z := count_at is_notifying (sm_points s).

(** The section found by [lock_unlock] may still last; it has ended. *)
Definition found (s : smutex) (g : option Z) : Prop :=
  match g with None => True | Some r => r <= sm_releases s /\ (r = sm_releases s -> 0 < writers s) end.
Definition ended (s : smutex) (g : option Z) : Prop :=
  match g with None => True | Some r => r < sm_releases s end.

Definition spoint_ok (s : smutex) (p : spoint) : Prop :=
  match p with
  | TsCas v | RCas v | RTry _ v => v < c_one - 1
  | RSteal v | RStealL _ v | LSteal v | LStealL _ v => Z.testbit v 30 = true
  | TuCas v | UCas _ v => single_reader v = true
  | WWait k old => old < c_sig /\ match k with KLockUnlock g => found s g | _ => True end
  | WFetch (KLockUnlock g) | WBlocked (KLockUnlock g) | XAdd g => found s g
  | XLoad _ max g =>
      found s g /\ match g with Some r => r = sm_releases s -> max <= writers s + awake s + blocked s | None => True end
  | XUnlock g | XReturned g | Sig (RetLockUnlock g) | Notify (RetLockUnlock g) => ended s g
  | _ => True
  end.

(** [sg] is the notification bit.  When somebody waits, exactly one of these
    is the case: a writer is inside, readers are inside, a thread is about to
    set the bit, the bit is set. *)
Record sinv (s : smutex) (sg : Z) : Prop := {
  si_value : m_value s = readers s + c_one * (writers s + awake s + blocked s) + c_sig * sg;
  si_bit : 0 <= sg <= 1;
  si_token : writers s + pending s + sg + Z.min 1 (readers s) <= 1;
  si_wait : 0 < awake s + blocked s -> 1 <= writers s + pending s + sg + readers s;
  si_some : 0 < pending s + sg -> 0 < awake s + blocked s;
  si_readers : readers s <= c_one - 1;
  si_awake : sg = 1 -> 0 < awake s + notifying s;
  si_dom t : spc s t <> SIdle -> t ∈ sm_threads s;
  si_size : Z.of_nat (size (sm_threads s)) < 2 ^ 16;
  si_points t : spoint_ok s (spc s t);
  si_failed : sm_failed s = false
}.

(** ** Counting *)

Lemma counts_go t p s :
  writers (sgo t p s) = writers s - Z.b2z (is_writer (spc s t)) + Z.b2z (is_writer p) /\
  readers (sgo t p s) = readers s - Z.b2z (is_reader (spc s t)) + Z.b2z (is_reader p) /\
  awake (sgo t p s) = awake s - Z.b2z (is_awake (spc s t)) + Z.b2z (is_awake p) /\
  blocked (sgo t p s) = blocked s - Z.b2z (is_blocked (spc s t)) + Z.b2z (is_blocked p) /\
  pending (sgo t p s) = pending s - Z.b2z (is_pending (spc s t)) + Z.b2z (is_pending p) /\
  notifying (sgo t p s) = notifying s - Z.b2z (is_notifying (spc s t)) + Z.b2z (is_notifying p).
Proof. split_and!; by apply (count_insert SIdle). Qed.

Lemma counts_nonneg s :
  0 <= writers s /\ 0 <= readers s /\ 0 <= awake s /\ 0 <= blocked s /\ 0 <= pending s /\ 0 <= notifying s.
Proof. split_and!; apply count_nonneg. Qed.

(** The threads that are counted as writers fit the field. *)
Lemma writers_bound s :
  (forall t, spc s t <> SIdle -> t ∈ sm_threads s) ->
  writers s + awake s + blocked s <= Z.of_nat (size (sm_threads s)).
Proof.
  intros D. unfold writers, awake, blocked.
  rewrite <- Z.add_assoc, <- (count_add SIdle is_awake is_blocked is_waiting) by (done || by intros []).
  rewrite <- (count_add SIdle is_writer is_waiting (fun p => is_writer p || is_waiting p)) by (done || by intros []).
  by apply (count_set SIdle).
Qed.

(** The fields of the word. *)
Lemma value_fields r w sg : 0 <= r < c_one -> 0 <= w < 2 ^ 16 -> 0 <= sg <= 1 ->
  let v := r + c_one * w + c_sig * sg in
  v mod c_one = r /\ v / c_one = w + 2 ^ 16 * sg /\ v mod c_sig = r + c_one * w /\ Z.testbit v 30 = (sg =? 1) /\
  0 <= v < c_err.
Proof.
  cbv zeta. unfold c_one, c_sig, c_err. intros Hr Hw Hs.
  assert (E : r + 2 ^ 14 * w + 2 ^ 30 * sg = r + (w + 2 ^ 16 * sg) * 2 ^ 14) by lia.
  split_and!.
  - rewrite E, Z.mod_add by lia. apply Z.mod_small. lia.
  - rewrite E, Z.div_add by lia. rewrite Z.div_small; lia.
  - replace (r + 2 ^ 14 * w + 2 ^ 30 * sg) with (r + 2 ^ 14 * w + sg * 2 ^ 30) by lia.
    rewrite Z.mod_add by lia. apply Z.mod_small. lia.
  - apply Bool.eq_iff_eq_true. rewrite Z.testbit_true, Z.eqb_eq by lia.
    replace (r + 2 ^ 14 * w + 2 ^ 30 * sg) with (r + 2 ^ 14 * w + sg * 2 ^ 30) by lia.
    rewrite Z.div_add, Z.div_small by lia. rewrite Z.add_0_l, Z.mod_small by lia. done.
  - lia.
  - lia.
Qed.

(** ** Steps *)

Definition total (s : smutex) : Z := writers s + awake s + blocked s.

Lemma spc_go t p s u : spc (sgo t p s) u = if decide (u = t) then p else spc s u.
Proof. apply at_insert. Qed.

Lemma spoint_ok_mono s s' p :
  sm_releases s <= sm_releases s' ->
  (sm_releases s' = sm_releases s -> writers s <= writers s' /\ total s <= total s') ->
  spoint_ok s p -> spoint_ok s' p.
Proof.
  intros Hr Hw. assert (Fo : forall g, found s g -> found s' g).
  { intros [r|]; [|done]. cbn. intros [A B]. split; [lia|]. intros E. destruct Hw; lia. }
  assert (En : forall g, ended s g -> ended s' g) by (intros [r|]; [cbn; lia|done]).
  unfold total in *. destruct p as [| | | | | | | | | | | | | | | | |[]|[]|[]|[]|[]| | | | | | | |]; cbn; auto; try tauto.
  - intros [A B]. auto.
  - intros [A B]. split; [auto|]. destruct g as [r|]; [|done]. intros E. cbn in A. destruct Hw; lia.
Qed.

(** A step of the thread [t] to the point [p]: [s1] has the new value. *)
Lemma sinv_step s sg t p s1 sg' :
  sinv s sg -> sm_points s1 = sm_points s -> sm_threads s1 = sm_threads s -> sm_failed s1 = false ->
  t ∈ sm_threads s -> sm_releases s <= sm_releases s1 ->
  (forall s', s' = sgo t p s1 ->
    writers s' = writers s - Z.b2z (is_writer (spc s t)) + Z.b2z (is_writer p) ->
    readers s' = readers s - Z.b2z (is_reader (spc s t)) + Z.b2z (is_reader p) ->
    awake s' = awake s - Z.b2z (is_awake (spc s t)) + Z.b2z (is_awake p) ->
    blocked s' = blocked s - Z.b2z (is_blocked (spc s t)) + Z.b2z (is_blocked p) ->
    pending s' = pending s - Z.b2z (is_pending (spc s t)) + Z.b2z (is_pending p) ->
    notifying s' = notifying s - Z.b2z (is_notifying (spc s t)) + Z.b2z (is_notifying p) ->
    total s' < 2 ^ 16 ->
    m_value s1 = readers s' + c_one * total s' + c_sig * sg' /\ 0 <= sg' <= 1 /\
    writers s' + pending s' + sg' + Z.min 1 (readers s') <= 1 /\
    (0 < awake s' + blocked s' -> 1 <= writers s' + pending s' + sg' + readers s') /\
    (0 < pending s' + sg' -> 0 < awake s' + blocked s') /\ readers s' <= c_one - 1 /\
    (sg' = 1 -> 0 < awake s' + notifying s') /\
    (sm_releases s1 = sm_releases s -> writers s <= writers s' /\ total s <= total s') /\
    spoint_ok s' p) ->
  sinv (sgo t p s1) sg'.
Proof.
  intros I Ep Et Ef Ht Hr H. assert (E : forall u, spc s1 u = spc s u) by (intros u; unfold spc; by rewrite Ep).
  assert (D : forall u, spc (sgo t p s1) u <> SIdle -> u ∈ sm_threads (sgo t p s1)).
  { intros u. rewrite spc_go, E. cbn. rewrite Et. destruct (decide (u = t)) as [->|]; [done|apply (si_dom _ _ I)]. }
  pose proof (counts_go t p s1) as (C1 & C2 & C3 & C4 & C5 & C6). rewrite E in *.
  assert (Q : writers s1 = writers s /\ readers s1 = readers s /\ awake s1 = awake s /\ blocked s1 = blocked s /\
              pending s1 = pending s /\ notifying s1 = notifying s).
  { unfold writers, readers, awake, blocked, pending, notifying. by rewrite Ep. }
  destruct Q as (Q1 & Q2 & Q3 & Q4 & Q5 & Q6). rewrite Q1, Q2, Q3, Q4, Q5, Q6 in *.
  pose proof (writers_bound _ D) as B. cbn [sm_threads sgo] in B. rewrite Et in B. pose proof (si_size _ _ I) as Sz.
  destruct (H (sgo t p s1)) as (V & Bi & To & Wa & So & Re & Aw & Mo & Pt); auto; [unfold total; lia|].
  unfold total in V. split; try done.
  - cbn. by rewrite Et.
  - intros u. rewrite spc_go. destruct (decide (u = t)) as [->|Nu]; [done|]. rewrite E.
    eapply spoint_ok_mono; [| |apply (si_points _ _ I)]; cbn; [lia|]. intros Er. by apply Mo.
Qed.

Inductive skind : Set := Outside | Writer | Reader | Awake | Blocked | Pending | Notifying.

Definition kind (p : spoint) : skind :=
  match p with
  | HeldW | RDown | XUnlock _ => Writer
  | HeldR | TuCas _ | ULoad _ | UCas _ _ | UAdd => Reader
  | WFetch _ | WWait _ _ => Awake
  | WBlocked _ => Blocked
  | Sig _ => Pending
  | Notify _ => Notifying
  | _ => Outside
  end.

Lemma kind_bits p k : kind p = k ->
  is_writer p = (match k with Writer => true | _ => false end) /\
  is_reader p = (match k with Reader => true | _ => false end) /\
  is_awake p = (match k with Awake => true | _ => false end) /\
  is_blocked p = (match k with Blocked => true | _ => false end) /\
  is_pending p = (match k with Pending => true | _ => false end) /\
  is_notifying p = (match k with Notifying => true | _ => false end).
Proof. intros <-. by destruct p. Qed.

(** What is known of a state. *)
Lemma sfacts s sg : sinv s sg ->
  0 <= writers s /\ 0 <= readers s < c_one /\ 0 <= awake s /\ 0 <= blocked s /\ 0 <= pending s /\ 0 <= notifying s /\
  0 <= total s < 2 ^ 16 /\ m_value s = readers s + c_one * total s + c_sig * sg /\
  m_value s mod c_one = readers s /\ m_value s / c_one = total s + 2 ^ 16 * sg /\
  m_value s mod c_sig = readers s + c_one * total s /\ Z.testbit (m_value s) 30 = (sg =? 1) /\ 0 <= m_value s < c_err.
Proof.
  intros I. pose proof (counts_nonneg s) as (A1 & A2 & A3 & A4 & A5 & A6).
  pose proof (si_readers _ _ I) as R. pose proof (writers_bound s (si_dom _ _ I)) as B. pose proof (si_size _ _ I) as Sz.
  pose proof (si_value _ _ I) as V. change (writers s + awake s + blocked s) with (total s) in *.
  assert (T : 0 <= total s < 2 ^ 16) by (unfold total in *; lia).
  destruct (value_fields (readers s) (total s) sg ltac:(lia) T (si_bit _ _ I)) as (F1 & F2 & F3 & F4 & F5).
  rewrite <- V in *. split_and!; try done; lia.
Qed.

(** A thread of a kind is counted. *)
Lemma kind_count s t k : kind (spc s t) = k ->
  match k with
  | Outside => True
  | Writer => 1 <= writers s | Reader => 1 <= readers s | Awake => 1 <= awake s
  | Blocked => 1 <= blocked s | Pending => 1 <= pending s | Notifying => 1 <= notifying s
  end.
Proof.
  intros K. destruct (kind_bits _ _ K) as (B1 & B2 & B3 & B4 & B5 & B6).
  assert (H : forall f, f SIdle = false -> f (spc s t) = true -> 1 <= count_at f (sm_points s)).
  { intros f F0 Ft. enough (0 < count_at f (sm_points s)) by lia. apply (count_pos SIdle); eauto. }
  destruct k; [done|..]; by apply H.
Qed.

(** A step that is decided by arithmetic on the counts: from a point of kind
    [k0] to one of kind [k1], with new word and notification bit. *)
Ltac scount I K0 K1 :=
  destruct (kind_bits _ _ K0) as (? & ? & ? & ? & ? & ?); destruct (kind_bits _ _ K1) as (? & ? & ? & ? & ? & ?);
  pose proof (kind_count _ _ _ K0); pose proof (si_bit _ _ I); pose proof (si_token _ _ I); pose proof (si_wait _ _ I);
  pose proof (si_some _ _ I); pose proof (si_awake _ _ I); pose proof (si_readers _ _ I);
  destruct (sfacts _ _ I) as (? & ? & ? & ? & ? & ? & ? & ? & ? & ? & ? & ? & ?).
Ltac snum :=
  repeat match goal with H : is_writer _ = _ |- _ => rewrite H in *; clear H | H : is_reader _ = _ |- _ => rewrite H in *; clear H
    | H : is_awake _ = _ |- _ => rewrite H in *; clear H | H : is_blocked _ = _ |- _ => rewrite H in *; clear H
    | H : is_pending _ = _ |- _ => rewrite H in *; clear H | H : is_notifying _ = _ |- _ => rewrite H in *; clear H end;
  unfold total, c_one, c_sig, c_err in *; cbn [Z.b2z] in *.

(** The thread moves on without changing the word. *)
Lemma sinv_pc s sg t p :
  sinv s sg -> t ∈ sm_threads s -> kind p = kind (spc s t) -> spoint_ok s p -> sinv (sgo t p s) sg.
Proof.
  intros I Ht K Pt. scount I (eq_refl (kind (spc s t))) K.
  apply (sinv_step s sg t p s sg); try done; [apply I|].
  intros s' Es C1 C2 C3 C4 C5 C6 _. destruct (kind (spc s t)); snum; (split_and!; try lia;
  eapply spoint_ok_mono, Pt; subst s'; cbn; unfold total; lia).
Qed.

Lemma in_threads s sg t : sinv s sg -> spc s t <> SIdle -> t ∈ sm_threads s.
Proof. intros I. apply (si_dom _ _ I). Qed.

Section step.
Context (s : smutex) (sg t : Z) (I : sinv s sg) (Ht : t ∈ sm_threads s).

(** The free lock is taken. *)
Lemma sinv_take p : kind (spc s t) = Outside -> kind p = Writer -> m_value s = 0 ->
  (forall s', sm_releases s' = sm_releases s -> writers s = 0 -> spoint_ok s' p) ->
  sinv (sgo t p (s_value c_one s)) 0.
Proof.
  intros K0 K1 V Pt. scount I K0 K1. apply (sinv_step s sg t p _ 0 I); try done; try apply I.
  intros s' Es C1 C2 C3 C4 C5 C6 _. subst s'. snum. cbn [m_value s_value sm_releases] in *. split_and!; try lia.
  apply Pt; [done|lia].
Qed.

(** A reader joins. *)
Lemma sinv_join : kind (spc s t) = Outside -> m_value s < c_one - 1 ->
  sinv (sgo t HeldR (s_value (u32 (m_value s + 1)) s)) sg.
Proof.
  intros K0 V. scount I K0 (eq_refl : kind HeldR = Reader). apply (sinv_step s sg t HeldR _ sg I); try done; try apply I.
  intros s' Es C1 C2 C3 C4 C5 C6 _. snum. cbn [m_value s_value sm_releases] in *.
  rewrite uint_small by (unfold in_uint; lia). split_and!; try lia; try done.
Qed.

(** The notification is stolen, by a writer or a reader. *)
Lemma sinv_steal p x : kind (spc s t) = Outside -> Z.testbit (m_value s) 30 = true ->
  (p = HeldW /\ x = c_one) \/ (p = HeldR /\ x = 1) -> sinv (sgo t p (s_value (u32 (m_value s - c_sig + x)) s)) 0.
Proof.
  intros K0 V Hp.
  destruct Hp as [[-> ->]|[-> ->]]; [scount I K0 (eq_refl : kind HeldW = Writer)|scount I K0 (eq_refl : kind HeldR = Reader)];
    (rewrite V in *; destruct (Z.eqb_spec sg 1); [|done]);
    (apply (sinv_step s sg t _ _ 0 I); try done; try apply I); intros s' Es C1 C2 C3 C4 C5 C6 _;
    snum; cbn [m_value s_value sm_releases] in *; (rewrite uint_small by (unfold in_uint; lia)); (split_and!; try lia; try done).
Qed.

(** A thread joins the waiters. *)
Lemma sinv_queue k : kind (spc s t) = Outside -> m_value s <> 0 ->
  match k with KLockUnlock g => found s g | _ => True end ->
  sinv (sgo t (WFetch k) (s_value (u32 (m_value s + c_one)) s)) sg /\ m_value s mod c_sig + c_one < c_sig.
Proof.
  intros K0 V Hk. scount I K0 (eq_refl : kind (WFetch k) = Awake).
  assert (B : total s + 1 < 2 ^ 16).
  { pose proof (writers_bound (sgo t (WFetch k) s)) as W. destruct (counts_go t (WFetch k) s) as (D1 & _ & D3 & D4 & _).
    cbn [sm_threads sgo] in W. specialize (W ltac:(intros u; rewrite spc_go; destruct (decide (u = t)) as [->|]; [done|apply (si_dom _ _ I)])).
    pose proof (si_size _ _ I). snum. lia. }
  split; [|snum; lia].
  apply (sinv_step s sg t (WFetch k) _ sg I); try done; try apply I.
  intros s' Es C1 C2 C3 C4 C5 C6 _. snum. cbn [m_value s_value sm_releases] in *.
  rewrite uint_small by (unfold in_uint; lia). split_and!; try lia; try done.
  apply (spoint_ok_mono s); subst s'; cbn; unfold total; try lia. by destruct k.
Qed.

(** A waiter takes the notification. *)
Lemma sinv_notified k : spc s t = WFetch k -> m_value s >= c_sig ->
  sinv (sgo t (after_wait k) (s_value (u32 (m_value s - c_sig)) s)) 0.
Proof.
  intros P V. assert (K0 : kind (spc s t) = Awake) by (by rewrite P).
  scount I K0 (eq_refl (kind (after_wait k))). pose proof (si_points _ _ I t) as Pt. rewrite P in Pt.
  assert (K1 : kind (after_wait k) = Writer) by (by destruct k). rewrite K1 in *.
  apply (sinv_step s sg t _ _ 0 I); try done; try apply I.
  intros s' Es C1 C2 C3 C4 C5 C6 _. snum. cbn [m_value s_value sm_releases] in *.
  rewrite uint_small by (unfold in_uint; lia). split_and!; try lia.
  destruct k as [| | |[r|]]; try done. cbn in Pt |- *. subst s'. cbn. lia.
Qed.

(** A writer leaves. *)
Lemma sinv_unlock r : kind (spc s t) = Writer ->
  match r with RetIdle => True | RetLockUnlock g => ended s g end -> exists sg', sinv (unlock t r s) sg'.
Proof.
  intros K0 Hr. exists sg. unfold unlock. cbv zeta.
  destruct (Z.eqb_spec (m_value s) c_one) as [E|E].
  - assert (K1 : kind (after_signal r) = Outside) by (by destruct r). scount I K0 K1.
    apply (sinv_step s sg t _ _ sg I); try done; try apply I; [cbn; lia|].
    intros s' Es C1 C2 C3 C4 C5 C6 _. snum. cbn [m_value s_value s_release sm_releases] in *.
    rewrite uint_small by (unfold in_uint; lia). split_and!; try lia.
    destruct r as [|[g|]]; try done. cbn in *. subst s'. cbn. lia.
  - scount I K0 (eq_refl : kind (Sig r) = Pending).
    assert (Eu : u32 (m_value s - c_one) = m_value s - c_one) by (apply uint_small; snum; split; lia).
    rewrite Eu. destruct (Z.ltb_spec (m_value s - c_one) c_err); [|snum; lia]. cbn [s_ensure].
    destruct (Z.eqb_spec (m_value s - c_one) 0); [snum; lia|].
    apply (sinv_step s sg t _ _ sg I); try done; try apply I; [cbn; lia|].
    intros s' Es C1 C2 C3 C4 C5 C6 _. snum. cbn [m_value s_value s_release sm_releases] in *. split_and!; try lia.
    destruct r as [|[g|]]; try done. cbn in *. subst s'. cbn. lia.
Qed.

(** A reader leaves. *)
Lemma sinv_unlock_shared : kind (spc s t) = Reader -> sinv (unlock_shared t s) sg.
Proof.
  intros K0. unfold unlock_shared. cbv zeta.
  assert (Eu : u32 (m_value s - 1) = m_value s - 1).
  { scount I K0 (eq_refl : kind SIdle = Outside). apply uint_small. snum. split; lia. }
  rewrite Eu. destruct (m_value s >=? c_one) eqn:G.
  - apply Z.geb_le in G. destruct (Z.ltb_spec (m_value s - 1) c_err) as [L|L].
    2: { scount I K0 (eq_refl : kind SIdle = Outside). snum. lia. }
    cbn [s_ensure]. assert (M : (m_value s - 1) mod c_one = readers s - 1).
    { scount I K0 (eq_refl : kind SIdle = Outside). replace (m_value s - 1) with (readers s - 1 + (total s + 2 ^ 16 * sg) * c_one) by (snum; lia).
      rewrite Z.mod_add by (snum; lia). apply Z.mod_small. snum. lia. }
    rewrite M. destruct (Z.eqb_spec (readers s - 1) 0).
    + scount I K0 (eq_refl : kind (Sig RetIdle) = Pending). apply (sinv_step s sg t _ _ sg I); try done; try apply I.
      intros s' Es C1 C2 C3 C4 C5 C6 _. snum. cbn [m_value s_value sm_releases] in *. split_and!; try lia; try done.
    + scount I K0 (eq_refl : kind SIdle = Outside). apply (sinv_step s sg t _ _ sg I); try done; try apply I.
      intros s' Es C1 C2 C3 C4 C5 C6 _. snum. cbn [m_value s_value sm_releases] in *. split_and!; try lia; try done.
  - rewrite Z.geb_leb in G. apply Z.leb_gt in G.
    scount I K0 (eq_refl : kind SIdle = Outside). apply (sinv_step s sg t _ _ sg I); try done; try apply I.
    intros s' Es C1 C2 C3 C4 C5 C6 _. snum. cbn [m_value s_value sm_releases] in *. split_and!; try lia; try done.
Qed.

(** The notification bit is set. *)
Lemma sinv_signal r : spc s t = Sig r -> sinv (imp_signal_add t r s) 1.
Proof.
  intros P. assert (K0 : kind (spc s t) = Pending) by (by rewrite P). unfold imp_signal_add.
  pose proof (si_points _ _ I t) as Pt. rewrite P in Pt.
  scount I K0 (eq_refl : kind (Notify r) = Notifying). apply (sinv_step s sg t _ _ 1 I); try done; try apply I.
  intros s' Es C1 C2 C3 C4 C5 C6 _. snum. cbn [m_value s_value sm_releases] in *.
  rewrite uint_small by (unfold in_uint; lia). split_and!; try lia.
  apply (spoint_ok_mono s); subst s'; cbn; unfold total; try lia. by destruct r.
Qed.

(** A writer becomes a reader. *)
Lemma sinv_downgrade : kind (spc s t) = Writer -> sinv (lock_downgrade t s) sg.
Proof.
  intros K0. unfold lock_downgrade. scount I K0 (eq_refl : kind HeldR = Reader).
  apply (sinv_step s sg t _ _ sg I); try done; try apply I; [cbn; lia|].
  intros s' Es C1 C2 C3 C4 C5 C6 _. snum. cbn [m_value s_value s_release sm_releases] in *.
  rewrite uint_small by (unfold in_uint; lia). split_and!; try lia; try done.
Qed.

(** The only reader becomes a writer. *)
Lemma sinv_upgrade : kind (spc s t) = Reader -> readers s = 1 ->
  sinv (sgo t HeldW (s_value (u32 (m_value s + c_one - 1)) s)) sg.
Proof.
  intros K0 R. scount I K0 (eq_refl : kind HeldW = Writer).
  apply (sinv_step s sg t _ _ sg I); try done; try apply I.
  intros s' Es C1 C2 C3 C4 C5 C6 C7. snum. cbn [m_value s_value sm_releases] in *.
  rewrite uint_small by (unfold in_uint; lia). split_and!; try lia; try done.
Qed.

Lemma single_reader_spec : single_reader (m_value s) = true <-> readers s = 1.
Proof.
  destruct (sfacts _ _ I) as (? & ? & ? & ? & ? & ? & ? & V & M & _ & _ & _ & Ra). pose proof (si_bit _ _ I) as Bi.
  unfold single_reader. rewrite Z.eqb_eq, uint_small by (unfold in_uint, c_one, c_sig, c_err in *; lia).
  destruct (decide (readers s = 0)) as [E|E].
  - replace (m_value s + c_one - 1) with (c_one - 1 + (total s + 2 ^ 16 * sg) * c_one) by (unfold c_one, c_sig in *; lia).
    rewrite Z.mod_add, Z.mod_small by (unfold c_one in *; lia). unfold c_one. lia.
  - replace (m_value s + c_one - 1) with (readers s - 1 + (total s + 1 + 2 ^ 16 * sg) * c_one) by (unfold c_one, c_sig in *; lia).
    rewrite Z.mod_add, Z.mod_small by (unfold c_one in *; lia). lia.
Qed.

(** A reader joins the waiters to become a writer. *)
Lemma sinv_upgrade_add : kind (spc s t) = Reader -> exists sg', sinv (imp_lock_upgrade_add t s) sg'.
Proof.
  intros K0. exists sg. unfold imp_lock_upgrade_add. cbv zeta. destruct (sfacts _ _ I) as (_ & _ & _ & _ & _ & _ & _ & _ & M & _ & Ms & _).
  assert (Kw : kind (WFetch KUpgrade) = Awake) by done.
  assert (B : total s + 1 < 2 ^ 16).
  { scount I K0 Kw. pose proof (writers_bound (sgo t (WFetch KUpgrade) s)) as W. destruct (counts_go t (WFetch KUpgrade) s) as (D1 & _ & D3 & D4 & _).
    cbn [sm_threads sgo] in W. specialize (W ltac:(intros u; rewrite spc_go; destruct (decide (u = t)) as [->|]; [done|apply (si_dom _ _ I)])).
    pose proof (si_size _ _ I). snum. lia. }
  rewrite M, Ms. destruct (Z.ltb_spec (readers s + c_one * total s + c_one - 1) c_sig) as [L|L].
  2: { scount I K0 Kw. snum. lia. }
  cbn [s_ensure]. destruct (Z.eqb_spec (readers s) 1); [by apply sinv_upgrade|].
  scount I K0 Kw. apply (sinv_step s sg t _ _ sg I); try done; try apply I.
  intros s' Es C1 C2 C3 C4 C5 C6 C7. snum. cbn [m_value s_value sm_releases] in *.
  rewrite uint_small by (unfold in_uint; lia). split_and!; try lia; try done.
Qed.
End step.

(** The invariant, for some notification bit. *)
Definition good (s : smutex) : Prop := exists sg, sinv s sg.

Section move.
Context (s : smutex) (sg t : Z) (I : sinv s sg) (Ht : t ∈ sm_threads s).

Lemma good_pc p : kind p = kind (spc s t) -> spoint_ok s p -> good (sgo t p s).
Proof. intros K P. exists sg. by apply sinv_pc. Qed.

Lemma sinv_cas v new p q :
  (m_value s = v -> good (sgo t p (s_value new s))) -> good (sgo t q s) -> good (s_cas t v new p q s).
Proof. intros A B. unfold s_cas. destruct (Z.eqb_spec (m_value s) v); auto. Qed.

Lemma value_in_range : (m_value s <? c_err) = true.
Proof. apply Z.ltb_lt. by destruct (sfacts _ _ I) as (? & ? & ? & ? & ? & ? & ? & ? & ? & ? & ? & ? & []). Qed.

(** The loops of the slow paths. *)
Lemma turn_ok n :
  (kind (r_turn n) = Outside /\ spoint_ok s (r_turn n)) /\ (kind (l_turn n) = Outside /\ spoint_ok s (l_turn n)) /\
  (kind (u_turn n) = Reader /\ spoint_ok s (u_turn n)).
Proof. by destruct n. Qed.

Lemma good_outside p : kind (spc s t) = Outside -> kind p = Outside -> spoint_ok s p -> good (sgo t p s).
Proof. intros K0 K1. apply good_pc. congruence. Qed.

Lemma imp_lock_shared_good v : kind (spc s t) = Outside -> v < c_err -> good (imp_lock_shared t v s).
Proof.
  intros K V. unfold imp_lock_shared. cbv zeta. rewrite (proj2 (Z.ltb_lt _ _) V). cbn [s_ensure].
  destruct (Z.testbit v 30) eqn:B; by apply good_outside.
Qed.

Lemma lock_good : spc s t = SIdle -> good (lock t s).
Proof.
  intros P. assert (K : kind (spc s t) = Outside) by (by rewrite P). unfold lock. cbv zeta. rewrite value_in_range. cbn [s_ensure].
  destruct (Z.eqb_spec (m_value s) 0); [exists 0; by apply (sinv_take s sg)|].
  destruct (Z.testbit (m_value s) 30) eqn:B; by apply good_outside.
Qed.

Lemma imp_lock_add_good : kind (spc s t) = Outside -> good (imp_lock_add t s) /\ good (imp_lock_shared_add t s).
Proof.
  intros K. unfold imp_lock_add, imp_lock_shared_add. cbv zeta. destruct (Z.eqb_spec (m_value s) 0) as [E|E].
  - rewrite E. split; exists 0; by apply (sinv_take s sg).
  - destruct (sinv_queue s sg t I Ht KLock K E Logic.I) as [A B]. destruct (sinv_queue s sg t I Ht KShared K E Logic.I) as [A' _].
    rewrite (proj2 (Z.ltb_lt _ _) B). split; exists sg; done.
Qed.

(** What [lock_unlock] notes at its call. *)
Lemma lock_unlock_good : spc s t = SIdle -> good (lock_unlock t s).
Proof.
  intros P. assert (K : kind (spc s t) = Outside) by (by rewrite P). unfold lock_unlock. cbv zeta.
  change (count_at is_writer (sm_points s)) with (writers s).
  destruct (sfacts _ _ I) as (? & ? & ? & ? & ? & ? & ? & V & _). pose proof (si_bit _ _ I).
  destruct (Z.eqb_spec (m_value s) 0).
  - assert (writers s = 0) as -> by (unfold total, c_one, c_sig in *; lia). by apply good_outside.
  - apply good_outside; [done..|]. cbn. destruct (Z.ltb_spec 0 (writers s)); cbn; [|done]. split; [split|]; lia.
Qed.

Lemma imp_lock_unlock_load_good n max g : spc s t = XLoad n max g -> good (imp_lock_unlock_load t n max g s).
Proof.
  intros P. assert (K : kind (spc s t) = Outside) by (by rewrite P). unfold imp_lock_unlock_load. cbv zeta.
  pose proof (si_points _ _ I t) as Pt. rewrite P in Pt. destruct Pt as [Fo Mx].
  destruct (sfacts _ _ I) as (? & ? & ? & ? & ? & ? & ? & V & M & D & _). pose proof (si_bit _ _ I) as Bi. pose proof (si_token _ _ I) as To.
  assert (Sg : 0 < writers s -> sg = 0) by lia.
  rewrite M, D. destruct (Z.eqb_spec (readers s) 0); cbn [andb].
  destruct ((total s + 2 ^ 16 * sg <? max) || (m_value s >=? c_sig)) eqn:E; cbn [andb].
  - apply good_outside; [done..|]. destruct g as [r|]; [|done]. cbn in *. destruct Fo as [F1 F2].
    enough (r <> sm_releases s) by lia. intros Er. specialize (F2 Er). specialize (Mx Er). rewrite (Sg F2) in *.
    apply orb_true_iff in E as [E%Z.ltb_lt|E]; [unfold total in *; lia|]. rewrite Z.geb_leb in E. apply Z.leb_le in E.
    unfold c_one, c_sig in *. lia.
  - apply good_outside; [done|by destruct n|]. destruct n; cbn; [done|]. split; [done|]. destruct g as [r|]; [|done].
    intros Er. cbn in Fo. rewrite Sg by (by apply Fo). unfold total. lia.
  - apply good_outside; [done|by destruct n|]. destruct n; cbn; [done|]. split; [done|]. destruct g as [r|]; [|done].
    intros Er. cbn in Fo. rewrite Sg by (by apply Fo). unfold total. lia.
Qed.

Lemma imp_lock_unlock_add_good g : spc s t = XAdd g -> good (imp_lock_unlock_add t g s).
Proof.
  intros P. assert (K : kind (spc s t) = Outside) by (by rewrite P). unfold imp_lock_unlock_add. cbv zeta.
  pose proof (si_points _ _ I t) as Pt. rewrite P in Pt. cbn in Pt. destruct (Z.eqb_spec (m_value s) 0) as [E|E].
  - rewrite E. exists 0. apply (sinv_take s sg); try done. intros s' Er W. destruct g as [r|]; cbn in *; [|done]. rewrite Er. lia.
  - destruct (sinv_queue s sg t I Ht (KLockUnlock g) K E Pt) as [A _]. by exists sg.
Qed.

(** A waiter goes to sleep, and wakes. *)
Lemma imp_wait_wait_good k old : spc s t = WWait k old -> good (imp_wait_wait t k old s).
Proof.
  intros P. assert (K : kind (spc s t) = Awake) by (by rewrite P). unfold imp_wait_wait.
  pose proof (si_points _ _ I t) as Pt. rewrite P in Pt. destruct Pt as [Lt Fo]. destruct (Z.eqb_spec (m_value s) old) as [E|E].
  - exists sg. scount I K (eq_refl : kind (WBlocked k) = Blocked). apply (sinv_step s sg t _ s sg I); try done; try apply I.
    intros s' Es C1 C2 C3 C4 C5 C6 _. snum. split_and!; try lia.
    apply (spoint_ok_mono s); subst s'; cbn; unfold total; try lia. by destruct k.
  - apply good_pc; [by rewrite K|]. by destruct k.
Qed.

Lemma wake_good s' : wake t s = Some s' -> exists sg', sinv s' sg' /\ 0 < awake s' /\ sm_threads s' = sm_threads s.
Proof.
  unfold wake. destruct (spc s t) eqn:P; try done. intros [= <-]. assert (K : kind (spc s t) = Blocked) by (by rewrite P).
  pose proof (si_points _ _ I t) as Pt. rewrite P in Pt. exists sg. scount I K (eq_refl : kind (WFetch k) = Awake).
  split_and!; [|destruct (counts_go t (WFetch k) s) as (_ & _ & -> & _); snum; lia|done].
  apply (sinv_step s sg t _ s sg I); try done; try apply I.
  intros s' Es C1 C2 C3 C4 C5 C6 _. snum. split_and!; try lia.
  apply (spoint_ok_mono s); subst s'; cbn; unfold total; try lia. by destruct k.
Qed.

Lemma notified_good r : spc s t = Notify r -> 0 < awake s \/ blocked s <= 0 -> good (sgo t (after_signal r) s).
Proof.
  intros P B. assert (K : kind (spc s t) = Notifying) by (by rewrite P). pose proof (si_points _ _ I t) as Pt. rewrite P in Pt.
  exists sg. assert (K1 : kind (after_signal r) = Outside) by (by destruct r). scount I K K1.
  apply (sinv_step s sg t _ s sg I); try done; try apply I.
  intros s' Es C1 C2 C3 C4 C5 C6 _. snum. split_and!; try lia.
  apply (spoint_ok_mono s); subst s'; cbn; unfold total; try lia. by destruct r.
Qed.

Lemma lock_upgrade_good n : kind (spc s t) = Reader -> good (lock_upgrade_load t n s) /\ good (try_lock_upgrade t s).
Proof.
  intros K. unfold lock_upgrade_load, try_lock_upgrade. destruct (single_reader (m_value s)) eqn:E; split; apply good_pc; rewrite ?K; try done;
    by destruct (turn_ok n) as (_ & _ & []).
Qed.

(** The three compare-and-swap loops. *)
Lemma cas_join v q : kind (spc s t) = Outside -> v < c_one - 1 -> kind q = Outside -> spoint_ok s q ->
  good (s_cas t v (u32 (v + 1)) HeldR q s).
Proof.
  intros K V Kq Pq. apply sinv_cas; [|by apply good_outside]. intros <-. exists sg. by apply sinv_join.
Qed.

Lemma cas_steal v p x q : kind (spc s t) = Outside -> Z.testbit v 30 = true -> kind q = Outside -> spoint_ok s q ->
  (p = HeldW /\ x = c_one) \/ (p = HeldR /\ x = 1) -> good (s_cas t v (u32 (v - c_sig + x)) p q s).
Proof.
  intros K V Kq Pq Hp. apply sinv_cas; [|by apply good_outside]. intros <-. exists 0. by apply (sinv_steal s sg).
Qed.

Lemma cas_upgrade v q : kind (spc s t) = Reader -> single_reader v = true -> kind q = Reader -> spoint_ok s q ->
  good (s_cas t v (u32 (v + c_one - 1)) HeldW q s).
Proof.
  intros K V Kq Pq. apply sinv_cas; [|apply good_pc; congruence]. intros <-. exists sg.
  apply sinv_upgrade; [done..|]. by apply (single_reader_spec s sg I).
Qed.

Lemma run_good s' : s_run t s = Some s' -> good s'.
Proof.
  unfold s_run. pose proof (si_points _ _ I t) as Pt. pose proof (eq_refl (kind (spc s t))) as K.
  remember (spc s t) as p eqn:P in Pt, K at 2 |- *. symmetry in P.
  destruct p; try done; intros Er; try (injection Er as <-); cbn [kind spoint_ok] in *;
    try (destruct (turn_ok n) as ([] & [] & [])).
  - by apply cas_join.
  - unfold lock_shared_cas. destruct (Z.eqb_spec (m_value s) val) as [<-|]; [exists sg; by apply sinv_join|].
    apply imp_lock_shared_good; [done|]. unfold c_one, c_err in *. lia.
  - apply cas_steal; auto; done.
  - unfold imp_lock_shared_load. destruct (Z.ltb_spec (m_value s) (c_one - 1)); by apply good_outside.
  - by apply cas_join.
  - unfold imp_lock_shared_old. cbv zeta. destruct (Z.testbit (m_value s) 30) eqn:B; by apply good_outside.
  - apply cas_steal; auto; done.
  - by apply imp_lock_add_good.
  - exists sg. by apply sinv_downgrade.
  - apply cas_steal; auto; done.
  - unfold imp_lock_load. cbv zeta. destruct (_ =? _); [by apply good_outside|].
    destruct (Z.testbit (m_value s) 30) eqn:B; by apply good_outside.
  - apply sinv_cas; [|by apply good_outside]. intros V. exists 0. by apply (sinv_take s sg).
  - apply cas_steal; auto; done.
  - by apply imp_lock_add_good.
  - unfold imp_wait_fetch. rewrite Z.geb_leb. destruct (Z.leb_spec c_sig (m_value s)).
    + exists 0. apply (sinv_notified s sg); auto. lia.
    + apply good_pc; [done|]. by destruct k.
  - by apply imp_wait_wait_good.
  - exists 1. by apply (sinv_signal s sg).
  - change (count_at is_blocked (sm_points s)) with (blocked s) in Er. destruct (Z.ltb_spec 0 (blocked s)); [done|].
    injection Er as <-. apply notified_good; auto.
  - by apply cas_upgrade.
  - by apply lock_upgrade_good.
  - by apply cas_upgrade.
  - by apply sinv_upgrade_add with sg.
  - by apply imp_lock_unlock_load_good.
  - by apply imp_lock_unlock_add_good.
  - by apply (sinv_unlock s sg).
Qed.
End move.

Lemma move_good a s s' : good s -> move a s = Some s' -> good s'.
Proof.
  intros [sg I]. assert (In : forall t p, spc s t = p -> p <> SIdle -> t ∈ sm_threads s) by (intros t ? <-; apply (si_dom _ _ I)).
  assert (Out : forall t s1, match spc s t with SIdle => if bool_decide (t ∈ sm_threads s) then Some s1 else None | _ => None end = Some s' ->
    s1 = s' /\ spc s t = SIdle /\ t ∈ sm_threads s /\ kind (spc s t) = Outside).
  { intros t s1. destruct (spc s t); try done. destruct (bool_decide_reflect (t ∈ sm_threads s)); [by intros [=]|done]. }
  destruct a as [t|t|t|t|t|t|t|t|t|t|t|t|t u|u]; cbn.
  1,2,4,5,10: intros (<- & P & Ht & K)%Out.
  - by apply (lock_good s sg).
  - apply (sinv_cas s t); [|by apply (good_outside s sg)]. intros V. exists 0. by apply (sinv_take s sg).
  - unfold lock_shared. cbv zeta. rewrite Z.geb_leb. destruct (Z.leb_spec (c_one - 1) (m_value s)).
    + apply (imp_lock_shared_good s sg); [done..|]. apply Z.ltb_lt, (value_in_range s sg I).
    + by apply (good_outside s sg).
  - unfold try_lock_shared. destruct (Z.ltb_spec (m_value s) (c_one - 1)); by apply (good_outside s sg).
  - by apply (lock_unlock_good s sg).
  - destruct (spc s t) eqn:P; try done. intros [= <-]. apply (sinv_unlock s sg); eauto. by rewrite P.
  - destruct (spc s t) eqn:P; try done. intros [= <-]. exists sg. apply (sinv_unlock_shared s sg); eauto. by rewrite P.
  - destruct (spc s t) eqn:P; try done. intros [= <-]. eapply (lock_upgrade_good s sg); eauto. by rewrite P.
  - destruct (spc s t) eqn:P; try done. intros [= <-]. apply (lock_upgrade_good s sg t I (In _ _ P ltac:(done)) 0). by rewrite P.
  - destruct (spc s t) eqn:P; try done. intros [= <-]. exists sg. apply (sinv_downgrade s sg); eauto. by rewrite P.
  - destruct (spc s t) eqn:P; try done. intros [= <-]. apply (good_outside s sg); eauto; by rewrite ?P.
  - intros E. eapply (run_good s sg); eauto. apply (si_dom _ _ I). intros P. unfold s_run in E. by rewrite P in E.
  - destruct (spc s t) eqn:P; try done. destruct (wake u s) as [s1|] eqn:W; [|done]. intros [= <-].
    assert (Pu : spc s u <> SIdle) by (intros Pu; unfold wake in W; by rewrite Pu in W).
    destruct (wake_good s sg u I (si_dom _ _ I _ Pu) s1 W) as (sg1 & I1 & A & Et).
    assert (P1 : spc s1 t = Notify r).
    { unfold wake in W. destruct (spc s u) eqn:Q; try done. injection W as <-. rewrite spc_go.
      destruct (decide (t = u)) as [->|]; congruence. }
    apply (notified_good s1 sg1); eauto. rewrite Et. eauto.
  - intros W. assert (Pu : spc s u <> SIdle) by (intros Pu; unfold wake in W; by rewrite Pu in W).
    destruct (wake_good s sg u I (si_dom _ _ I _ Pu) s' W) as (sg1 & I1 & _). by exists sg1.
Qed.

Lemma s_initial_good s : s_initial s -> good s.
Proof.
  intros (V & P & Sz & F). exists 0. assert (Q : forall t, spc s t = SIdle) by (intros t; unfold spc, at_point; by rewrite P, lookup_empty).
  assert (C : forall f, count_at f (sm_points s) = 0) by (intros f; rewrite P; unfold count_at; by rewrite map_filter_empty, map_size_empty).
  unfold writers, readers, awake, blocked, pending, notifying in *. split; unfold writers, readers, awake, blocked, pending, notifying;
    rewrite ?C, ?V; try lia; try done.
  - intros t. by rewrite Q.
  - intros t. by rewrite Q.
Qed.

Lemma s_reachable_good s : reachable s_initial s -> good s.
Proof. apply reachable_ind_inv; [apply s_initial_good|]. intros a s1 s2. apply move_good. Qed.

(** Two different threads are counted twice. *)
Lemma count_two f s t u : f SIdle = false -> f (spc s t) = true -> f (spc s u) = true ->
  count_at f (sm_points s) <= 1 -> t = u.
Proof.
  intros F0 Ft Fu C. destruct (decide (u = t)) as [|N]; [done|].
  pose proof (count_insert SIdle f (sm_points s) t SIdle F0) as E. unfold spc in Ft. rewrite Ft, F0 in E. cbn in E.
  assert (0 < count_at f (sm_points (sgo t SIdle s))); [|cbn in *; lia].
  apply (count_pos SIdle); [done|]. exists u. change (f (spc (sgo t SIdle s) u) = true). rewrite spc_go. by destruct (decide (u = t)).
Qed.

Lemma counted f s t : f SIdle = false -> f (spc s t) = true -> 0 < count_at f (sm_points s).
Proof. intros F0 Ft. apply (count_pos SIdle); [done|]. by exists t. Qed.

(** ** Properties *)

(** C2. Writers exclude each other and the readers: in every state that any
    interleaving of [lock], [lock_shared], [lock_upgrade], their [try_]
    variants, [unlock], [unlock_shared], [lock_downgrade] and [lock_unlock]
    reaches, two threads inside as writers are the same thread, and while one
    is inside no thread is inside as a reader. *)
Theorem shared_mutex_exclusion s :
  reachable s_initial s ->
  (forall t u, is_writer (spc s t) = true -> is_writer (spc s u) = true -> t = u) /\
  (forall t u, is_writer (spc s t) = true -> is_reader (spc s u) = false).
Proof.
  intros [sg I]%s_reachable_good. destruct (sfacts _ _ I) as (? & ? & ? & ? & ? & _). pose proof (si_token _ _ I). pose proof (si_bit _ _ I).
  split.
  - intros t u Ft Fu. apply (count_two is_writer s); try done. change (writers s <= 1). lia.
  - intros t u Ft. destruct (is_reader (spc s u)) eqn:Fu; [|done].
    pose proof (counted is_writer s t eq_refl Ft) as A. pose proof (counted is_reader s u eq_refl Fu) as B.
    unfold writers, readers in *. lia.
Qed.

(** C22. The word counts what it says: its low 14 bits are the threads inside
    as readers, the next 16 those inside as writers or waiting, bit 30 a
    notification that is not taken yet.  No field overflows or underflows, so
    that none of the mutex's own [ensure] checks fails, with fewer than 2^16
    threads. *)
Theorem shared_mutex_word s :
  reachable s_initial s ->
  sm_failed s = false /\ 0 <= m_value s < c_err /\
  m_value s mod c_one = readers s /\
  m_value s mod c_sig / c_one = writers s + awake s + blocked s /\
  (Z.testbit (m_value s) 30 = true -> writers s = 0 /\ readers s = 0 /\ 0 < awake s + blocked s).
Proof.
  intros [sg I]%s_reachable_good. destruct (sfacts _ _ I) as (? & ? & ? & ? & ? & ? & ? & V & M & D & Ms & T & Ra).
  split_and!; try apply I; try lia.
  - rewrite Ms, Z.mul_comm, Z.div_add, Z.div_small by (unfold c_one in *; lia). done.
  - rewrite T, Z.eqb_eq. intros ->. pose proof (si_token _ _ I). pose proof (si_some _ _ I). lia.
Qed.



(** ** Examples *)

(** Thread 1 is inside and thread 2 sleeps in [lock_unlock]; thread 1 leaves,
    wakes thread 2, and [lock_unlock] returns. *)
Definition sm0 : smutex := SMutex 0 {[1; 2]} ∅ 0 false.
Definition sm1 : smutex := default sm0 (moves (SLock 1 :: SLockUnlock 2 :: repeat (SRun 2) 33) sm0).
Definition sm2 : smutex := default sm0 (moves [SUnlock 1; SRun 1; SNotify 1 2; SRun 2; SRun 2] sm1).

Lemma sm1_reachable : reachable s_initial sm1.
Proof.
  apply (moves_reachable _ (SLock 1 :: SLockUnlock 2 :: repeat (SRun 2) 33) sm0); [|vm_compute; reflexivity].
  apply reach_init. by vm_compute.
Qed.

Lemma sm2_reachable : reachable s_initial sm2.
Proof.
  apply (moves_reachable _ [SUnlock 1; SRun 1; SNotify 1 2; SRun 2; SRun 2] sm1); [apply sm1_reachable|]. vm_compute. reflexivity.
Qed.

Lemma shared_mutex_exclusion_witness :
  (forall t u, is_writer (spc sm1 t) = true -> is_writer (spc sm1 u) = true -> t = u) /\
  (forall t u, is_writer (spc sm1 t) = true -> is_reader (spc sm1 u) = false).
Proof. apply (shared_mutex_exclusion sm1), sm1_reachable. Defined.

Lemma shared_mutex_word_witness :
  sm_failed sm1 = false /\ 0 <= m_value sm1 < c_err /\
  m_value sm1 mod c_one = readers sm1 /\
  m_value sm1 mod c_sig / c_one = writers sm1 + awake sm1 + blocked sm1 /\
  (Z.testbit (m_value sm1) 30 = true -> writers sm1 = 0 /\ readers sm1 = 0 /\ 0 < awake sm1 + blocked sm1).
Proof. apply (shared_mutex_word sm1), sm1_reachable. Defined.


