(* ===== verification/Lv2Queue.v ===== *)
(** The wait queues of the LV2 kernel objects (src/rpcs3/Emu/Cell/lv2/sys_sync.h).

    Every synchronization object keeps the threads that wait on it in a singly
    linked list: the object holds the pointer to the newest waiter, each thread
    the pointer [next_cpu] to the one that came before it.  [lv2_obj::emplace]
    pushes a thread, [lv2_obj::schedule] unlinks the one to wake according to
    the object's protocol, [lv2_obj::unqueue] unlinks a given thread (on a
    timeout).  The file models the three at the level of pointers and shows
    that they implement operations on the list of waiters. *)
From Stdlib Require Import ZArith Lia Bool List.
From stdpp Require Import base option list numbers gmap sorting.
From S2P Require Import Prelude.
Local Open Scope Z_scope.
#[local] Set Warnings "-clear-no-such-hyp".

(** ** Threads

    The part of [ppu_thread] (PPUThread.h) the queues use.  A thread is named
    by its address, never null; [again] is the bit [cpu_flag::again] of its
    state. *)
Record ppu_prio_t := Prio { prio : Z; order : Z; preserve_bit : bool }.
Record cpu := Cpu { next_cpu : Z; cprio : ppu_prio_t; again : bool }.

Abbreviation threads := (gmap Z cpu).

Definition set_next (n : Z) (c : cpu) : cpu := Cpu n (cprio c) (again c).
Definition set_prio (x : ppu_prio_t) (c : cpu) : cpu := Cpu (next_cpu c) x (again c).
Definition set_again (c : cpu) : cpu := Cpu (next_cpu c) (cprio c) true.

Definition SYS_SYNC_FIFO : Z := 1.
Definition SYS_SYNC_PRIORITY : Z := 2.
Definition SYS_SYNC_PRIORITY_INHERIT : Z := 3.
Definition SYS_SYNC_RETRY : Z := 4.

(** ** The operations

    A pointer to a link ([&first] or [&it->next_cpu]) is [None] or [Some it].
    The loops carry a bound on the nodes they visit, one more than there are
    threads; [None] is an access through a null or dangling pointer, or a list
    that does not end. *)
Definition store_link (link : option Z) (v first : Z) (h : threads) : Z * threads :=
  match link with
  | None => (v, h)
  | Some it => (first, alter (set_next v) it h)
  end.

Definition clear_next (modify_node : bool) (t : Z) (h : threads) : threads :=
  if modify_node then alter (set_next 0) t h else h.

Fixpoint unqueue_loop (fuel : nat) (h : threads) (it object : Z) : option (option Z) :=
  match fuel with
  | O => None
  | S n =>
      if it =? 0 then Some None
      else c ← h !! it;
           if next_cpu c =? object then Some (Some it)
           else unqueue_loop n h (next_cpu c) object
  end.

(** The thread unlinked (0 for none), the new head and the new links. *)
Definition unqueue (modify_node : bool) (h : threads) (first object : Z)
  : option (Z * Z * threads) :=
  if first =? object then
    c ← h !! first;
    Some (first, next_cpu c, clear_next modify_node first h)
  else
    found ← unqueue_loop (S (size h)) h first object;
    match found with
    | None => Some (0, first, h)
    | Some it =>
        c ← h !! object;
        let '(first', h') := store_link (Some it) (next_cpu c) first h in
        Some (object, first', clear_next modify_node object h')
    end.

Fixpoint fifo_loop (fuel : nat) (h : threads) (parent_found : option Z) (it : Z)
  : option (option Z * Z) :=
  match fuel with
  | O => None
  | S n =>
      c ← h !! it;
      if next_cpu c =? 0 then Some (parent_found, it)
      else fifo_loop n h (Some it) (next_cpu c)
  end.

(** The comparison of [schedule]: a lower [prio], then an earlier [order]. *)
Definition before (a b : ppu_prio_t) : bool :=
  (prio a <? prio b) || ((prio a =? prio b) && (order a <? order b)).

Fixpoint prio_loop (fuel : nat) (h : threads) (parent_found : option Z) (found : Z)
    (best : ppu_prio_t) (it : Z) : option (option Z * Z) :=
  match fuel with
  | O => None
  | S n =>
      c ← h !! it;
      if next_cpu c =? 0 then Some (parent_found, found)
      else
        c' ← h !! next_cpu c;
        if before (cprio c') best
        then prio_loop n h (Some it) (next_cpu c) (cprio c') (next_cpu c)
        else prio_loop n h parent_found found best (next_cpu c)
  end.

(** The thread found (0 for an empty queue), the new head and the new links; a
    thread marked [again] is returned but stays in the queue. *)
Definition schedule (protocol : Z) (modify_node : bool) (h : threads) (first : Z)
  : option (Z * Z * threads) :=
  if first =? 0 then Some (0, first, h)
  else if protocol =? SYS_SYNC_FIFO then
    '(parent, it) ← fifo_loop (S (size h)) h None first;
    c ← h !! it;
    if again c then Some (it, first, h)
    else let '(first', h') := store_link parent 0 first h in Some (it, first', h')
  else
    c0 ← h !! first;
    '(parent, found) ← prio_loop (S (size h)) h None first (cprio c0) first;
    c ← h !! found;
    if again c then Some (found, first, h)
    else let '(first', h') := store_link parent (next_cpu c) first h in
         Some (found, first', clear_next modify_node found h').

(** [++g_priority_order_tag]; the order of a thread has 50 bits. *)
Definition next_tag (tag : Z) : Z := u64 (tag + 1).

Definition enqueue_prio (tag : Z) (p : ppu_prio_t) : ppu_prio_t :=
  if preserve_bit p then Prio (prio p) (order p) false
  else Prio (prio p) (sint 50 tag) false.

(** The new tag, the new head and the new links. *)
Definition emplace (tag : Z) (h : threads) (first object : Z) : Z * Z * threads :=
  let tag' := next_tag tag in
  (tag', object, alter (fun c => set_prio (enqueue_prio tag' (cprio c)) (set_next first c)) object h).

(** The walk of the queue, [for (auto cpu = +sq; cpu; cpu = cpu->next_cpu)]. *)
Fixpoint walk_loop (fuel : nat) (h : threads) (it : Z) : option (list Z) :=
  match fuel with
  | O => None
  | S n =>
      if it =? 0 then Some []
      else c ← h !! it; l ← walk_loop n h (next_cpu c); Some (it :: l)
  end.
Definition walk (h : threads) (first : Z) : option (list Z) := walk_loop (S (size h)) h first.

(** ** The list of waiters *)

(** The links from [p] go through [l] and reach [q]. *)
Fixpoint seg (h : threads) (p : Z) (l : list Z) (q : Z) : Prop :=
  match l with
  | [] => p = q
  | t :: l' => p = t /\ t <> 0 /\ exists c, h !! t = Some c /\ seg h (next_cpu c) l' q
  end.

(** [first] heads a queue of the threads [l], the newest first. *)
Definition queue (h : threads) (first : Z) (l : list Z) : Prop := seg h first l 0 /\ NoDup l.

Definition qremove (x : Z) (l : list Z) : list Z := filter (fun y => y <> x) l.

Definition prio_of (h : threads) (t : Z) : ppu_prio_t :=
  match h !! t with Some c => cprio c | None => Prio 0 0 false end.
Definition is_again (h : threads) (t : Z) : bool :=
  match h !! t with Some c => again c | None => false end.

(** The waiter [schedule] selects: the oldest for FIFO, otherwise the first of
    the list no other one is [before]. *)
Definition best_of (h : threads) (found : Z) (l : list Z) : Z :=
  fold_left (fun f t => if before (prio_of h t) (prio_of h f) then t else f) l found.
Definition pick (protocol : Z) (h : threads) (l : list Z) : Z :=
  match l with
  | [] => 0
  | t :: l' => if protocol =? SYS_SYNC_FIFO then List.last l' t else best_of h t l'
  end.

(** Two thread tables that differ only in the links. *)
Definition same_cpus (h h' : threads) : Prop :=
  forall t, (fun c => (cprio c, again c)) <$> h' !! t = (fun c => (cprio c, again c)) <$> h !! t.

(** ** Lemmas on links *)

Lemma seg_app h p l1 l2 q :
  seg h p (l1 ++ l2) q <-> exists m, seg h p l1 m /\ seg h m l2 q.
Proof.
  revert p. induction l1 as [|t l1 IH]; intros p; cbn.
  - split; [eauto|]. by intros (m & -> & ?).
  - split.
    + intros (-> & Hz & c & Hc & (m & ? & ?)%IH). eauto 10.
    + intros (m & (-> & Hz & c & Hc & S1) & S2). split_and!; [done..|]. exists c. split; [done|].
      apply IH. eauto.
Qed.

Lemma seg_same h h' p l q :
  (forall t, t ∈ l -> next_cpu <$> h' !! t = next_cpu <$> h !! t) -> seg h p l q -> seg h' p l q.
Proof.
  revert p. induction l as [|t l IH]; intros p E; cbn; [done|].
  intros (-> & Hz & c & Hc & S). split_and!; [done..|].
  pose proof (E t ltac:(set_solver)) as Et. rewrite Hc in Et. cbn in Et.
  destruct (h' !! t) as [c'|]; [|done]. cbn in Et. injection Et as Et.
  exists c'. split; [done|]. rewrite Et. apply IH; [|done]. intros; apply E; set_solver.
Qed.

Lemma queue_same h h' p l :
  (forall t, t ∈ l -> next_cpu <$> h' !! t = next_cpu <$> h !! t) -> queue h p l -> queue h' p l.
Proof. intros E [S N]. split; [eapply seg_same; eauto|done]. Qed.

Lemma seg_in h p l q t : seg h p l q -> t ∈ l -> t <> 0 /\ is_Some (h !! t).
Proof.
  revert p. induction l as [|u l IH]; intros p; cbn; [set_solver|].
  intros (-> & Hz & c & Hc & S) [->|Hin]%elem_of_cons; eauto.
Qed.

Lemma queue_in h p l t : queue h p l -> t ∈ l -> t <> 0 /\ is_Some (h !! t).
Proof. intros [S _]. by eapply seg_in. Qed.

Lemma queue_nil h p l : queue h p l -> (p = 0 <-> l = []).
Proof.
  intros [S _]. destruct l as [|t l]; cbn in S; [by subst|].
  destruct S as (-> & Hz & _). split; [done|discriminate].
Qed.

Lemma queue_length h p l : queue h p l -> (length l <= size h)%nat.
Proof.
  intros Q. rewrite <- size_dom. rewrite <- (size_list_to_set (C := gset Z) l) by apply Q.
  apply subseteq_size. intros t Ht%elem_of_list_to_set. apply elem_of_dom.
  by eapply queue_in.
Qed.

Lemma queue_unique h p l l' : queue h p l -> queue h p l' -> l = l'.
Proof.
  intros [S _] [S' _]. revert p l' S S'. induction l as [|t l IH]; intros p [|t' l']; cbn.
  - done.
  - intros -> (-> & ? & _). done.
  - intros (-> & ? & _) E. done.
  - intros (-> & _ & c & Hc & S) (<- & _ & c' & Hc' & S'). rewrite Hc in Hc'.
    injection Hc' as <-. f_equal. by eapply IH.
Qed.

Lemma same_cpus_refl h : same_cpus h h.
Proof. done. Qed.

Lemma same_cpus_trans h1 h2 h3 : same_cpus h1 h2 -> same_cpus h2 h3 -> same_cpus h1 h3.
Proof. intros A B t. by rewrite B, A. Qed.

Lemma same_cpus_alter h t v : same_cpus h (alter (set_next v) t h).
Proof.
  intros u. destruct (decide (t = u)) as [->|N].
  - rewrite lookup_alter_eq. by destruct (h !! u).
  - by rewrite lookup_alter_ne.
Qed.

Lemma same_cpus_prio h h' t : same_cpus h h' -> prio_of h' t = prio_of h t.
Proof. intros E. specialize (E t). unfold prio_of. destruct (h !! t), (h' !! t); by simplify_eq/=. Qed.

Lemma same_cpus_again h h' t : same_cpus h h' -> is_again h' t = is_again h t.
Proof. intros E. specialize (E t). unfold is_again. destruct (h !! t), (h' !! t); by simplify_eq/=. Qed.

Lemma same_cpus_dom h h' t : same_cpus h h' -> is_Some (h' !! t) <-> is_Some (h !! t).
Proof.
  intros E. specialize (E t). rewrite <- (fmap_is_Some (fun c => (cprio c, again c))), E.
  apply fmap_is_Some.
Qed.

Lemma same_cpus_size h h' : same_cpus h h' -> size h' = size h.
Proof.
  intros E. rewrite <- !size_dom. f_equal. apply set_eq. intros t.
  rewrite !elem_of_dom. by apply same_cpus_dom.
Qed.

Lemma qremove_notin x l : x ∉ l -> qremove x l = l.
Proof.
  intros N. unfold qremove. induction l as [|y l IH]; [done|].
  rewrite filter_cons_True by set_solver. f_equal. apply IH. set_solver.
Qed.

Lemma qremove_app x l1 l2 : NoDup (l1 ++ x :: l2) -> qremove x (l1 ++ x :: l2) = l1 ++ l2.
Proof.
  intros (N1 & D & N2)%NoDup_app. apply NoDup_cons in N2 as [Nx N2].
  unfold qremove. rewrite filter_app, filter_cons_False by (intros F; by apply F).
  fold (qremove x l1) (qremove x l2).
  rewrite !qremove_notin; set_solver.
Qed.

Lemma elem_of_qremove x y l : y ∈ qremove x l <-> y ∈ l /\ y <> x.
Proof. unfold qremove. rewrite list_elem_of_filter. tauto. Qed.

Lemma qremove_NoDup x l : NoDup l -> NoDup (qremove x l).
Proof. apply NoDup_filter. Qed.

Lemma qremove_length x l : NoDup l -> x ∈ l -> length l = S (length (qremove x l)).
Proof.
  intros N (l1 & l2 & ->)%list_elem_of_split. rewrite qremove_app by done.
  rewrite !length_app. cbn. lia.
Qed.

(** Storing the successor of [x] in the link that points to it unlinks [x]. *)
Lemma unlink_queue h first l1 x l2 c h' first' :
  queue h first (l1 ++ x :: l2) -> h !! x = Some c ->
  store_link (last l1) (next_cpu c) first h = (first', h') ->
  queue h' first' (l1 ++ l2) /\ same_cpus h h' /\ (forall t, t ∉ l1 -> h' !! t = h !! t).
Proof.
  intros [S N] Hx E. pose proof N as N0. apply NoDup_app in N as (N1 & D & [Nx N2]%NoDup_cons).
  assert (N' : NoDup (l1 ++ l2)) by (apply NoDup_app; set_solver).
  apply seg_app in S as (m & S1 & (-> & Hz & c' & Hc' & S2)). rewrite Hx in Hc'. injection Hc' as <-.
  destruct l1 as [|p l1 _] using rev_ind.
  - cbn in *. injection E as <- <-. subst. split_and!; [by split|done|done].
  - rewrite last_snoc in E. cbn in E. injection E as <- <-.
    apply seg_app in S1 as (m & S1 & (-> & Hpz & cp & Hp & Enx)). cbn in Enx.
    assert (F : forall t, t <> p -> alter (set_next (next_cpu c)) p h !! t = h !! t)
      by (intros; by rewrite lookup_alter_ne).
    split_and!; [split; [|done]|apply same_cpus_alter|intros; apply F; set_solver].
    apply seg_app. exists (next_cpu c). split.
    + apply seg_app. exists p. split.
      * eapply seg_same, S1. intros t Ht. rewrite F; [done|]. intros ->.
        apply NoDup_app in N1 as (_ & N1 & _). eapply N1; [done|set_solver].
      * cbn. split_and!; [done..|]. eexists. split; [by rewrite lookup_alter_eq, Hp|done].
    + eapply seg_same, S2. intros t Ht. rewrite F; [done|]. intros ->.
      apply (D p); set_solver.
Qed.

Lemma clear_next_queue b x h first l :
  queue h first l -> x ∉ l -> queue (clear_next b x h) first l.
Proof.
  intros Q N. destruct b; [|done]. eapply queue_same, Q. intros t Ht.
  cbn. rewrite lookup_alter_ne; [done|set_solver].
Qed.

Lemma clear_next_same b x h : same_cpus h (clear_next b x h).
Proof. destruct b; [apply same_cpus_alter|done]. Qed.

Lemma clear_next_other b x h t : t <> x -> clear_next b x h !! t = h !! t.
Proof. intros. destruct b; [|done]. cbn. by rewrite lookup_alter_ne. Qed.

(** ** The loops find the thread and the link to it *)

Lemma unqueue_loop_spec fuel h it l object :
  seg h it l 0 -> object <> 0 -> head l <> Some object -> (length l < fuel)%nat ->
  ((object ∉ l) /\ unqueue_loop fuel h it object = Some None) \/
  (exists l1 l2 p, l = l1 ++ object :: l2 /\ last l1 = Some p /\
     unqueue_loop fuel h it object = Some (Some p)).
Proof.
  intros S Ho Hh Hf. revert it l S Hh Hf. induction fuel as [|n IH]; intros it l S Hh Hf; [lia|].
  destruct l as [|t l]; cbn [seg] in S.
  { subst. left. split; [set_solver|done]. }
  destruct S as (-> & Hz & c & Hc & S). cbn [unqueue_loop].
  destruct (Z.eqb_spec t 0); [done|]. rewrite Hc. cbn [mbind option_bind].
  destruct (Z.eqb_spec (next_cpu c) object) as [E|E].
  - right. destruct l as [|u l]; cbn in S; [congruence|]. destruct S as (E' & _).
    exists [t], l, t. rewrite <- E', E. done.
  - destruct (IH (next_cpu c) l S) as [[Ni ->]|(l1 & l2 & p & -> & Hp & ->)].
    + destruct l; [done|]. cbn in *. destruct S as (E' & _). congruence.
    + cbn in Hf. lia.
    + left. split; [|done]. cbn in Hh. apply not_elem_of_cons. split; [congruence|done].
    + right. exists (t :: l1), l2, p. split_and!; [done| |done]. by rewrite last_cons, Hp.
Qed.

(** [unqueue] on a queue: it unlinks the thread if it is there. *)
Lemma unqueue_spec b h first l object :
  queue h first l -> object <> 0 ->
  exists first' h', unqueue b h first object =
      Some (if decide (object ∈ l) then object else 0, first', h') /\
    queue h' first' (qremove object l) /\ same_cpus h h' /\
    (forall t, t ∉ l -> h' !! t = h !! t).
Proof.
  intros Q Ho. pose proof (queue_length _ _ _ Q) as Hl. unfold unqueue.
  destruct (Z.eqb_spec first object) as [->|Hne].
  - destruct l as [|t l]; [destruct Q as [S _]; cbn in S; congruence|].
    destruct Q as [(<- & Hz & c & Hc & S) N]. rewrite Hc. cbn [mbind option_bind].
    rewrite decide_True by set_solver. eexists _, _. split; [done|].
    change (object :: l) with ([] ++ object :: l) at 1. rewrite (qremove_app object [] l) by done. apply NoDup_cons in N as [Nx N].
    split_and!; [by apply clear_next_queue|apply clear_next_same|].
    intros t Ht. apply clear_next_other. set_solver.
  - destruct (unqueue_loop_spec (S (size h)) h first l object) as
      [[Ni ->]|(l1 & l2 & p & -> & Hp & ->)]; [apply Q|done| |lia|..].
    + destruct l; [done|]. cbn. destruct Q as [(-> & _) _]. congruence.
    + cbn [mbind option_bind]. rewrite decide_False by done. rewrite qremove_notin by done.
      eexists _, _. split; [done|]. by split_and!.
    + destruct (queue_in _ _ _ object Q) as [_ [c Hc]]; [set_solver|].
      cbn [mbind option_bind]. rewrite Hc. cbn [mbind option_bind].
      destruct (store_link (Some p) (next_cpu c) first h) as [f' h'] eqn:E.
      rewrite decide_True by set_solver. eexists _, _. split; [done|].
      pose proof Q as [_ N]. rewrite qremove_app by done.
      rewrite <- Hp in E. destruct (unlink_queue _ _ _ _ _ _ _ _ Q Hc E) as (Q' & Sc & F).
      assert (Nx : object ∉ l1 ++ l2)
        by (apply NoDup_app in N as (_ & D & [Nx _]%NoDup_cons); set_solver).
      split_and!; [by apply clear_next_queue|eapply same_cpus_trans, clear_next_same; done|].
      intros t Ht. rewrite clear_next_other by set_solver. apply F. set_solver.
Qed.

Lemma last_cons_default {A} (l : list A) (u t : A) : List.last (u :: l) t = List.last l u.
Proof. revert u t. induction l as [|v l IH]; intros u t; [done|]. by rewrite (IH v u), <- (IH v t). Qed.

Lemma fifo_loop_spec fuel h t l l0 :
  seg h t (t :: l) 0 -> (length l < fuel)%nat ->
  exists l1, t :: l = l1 ++ [List.last l t] /\
    fifo_loop fuel h (last l0) t = Some (last (l0 ++ l1), List.last l t).
Proof.
  revert t l l0. induction fuel as [|n IH]; intros t l l0 S Hf; [lia|].
  destruct S as (_ & Hz & c & Hc & S). cbn [fifo_loop]. rewrite Hc. cbn [mbind option_bind].
  destruct l as [|u l].
  - cbn in S. rewrite S. exists []. by rewrite app_nil_r.
  - pose proof S as (E & Hu & _). destruct (Z.eqb_spec (next_cpu c) 0); [congruence|].
    rewrite E in *. destruct (IH u l (l0 ++ [t])) as (l1 & E1 & E2); [done|cbn in Hf; lia|].
    rewrite last_snoc in E2. exists (t :: l1).
    rewrite last_cons_default. split; [by rewrite E1|]. rewrite E2, <- app_assoc. done.
Qed.

Lemma prio_of_lookup h t c : h !! t = Some c -> prio_of h t = cprio c.
Proof. unfold prio_of. by intros ->. Qed.

(** The loop over the rest [t :: l] of the queue, when [pre ++ found :: mid] came
    before it. *)
Lemma prio_loop_spec fuel h t l pre found mid :
  seg h t (t :: l) 0 -> (length l < fuel)%nat ->
  (exists mid', found :: mid = mid' ++ [t]) ->
  exists l1 l2, pre ++ found :: mid ++ l = l1 ++ best_of h found l :: l2 /\
    prio_loop fuel h (last pre) found (prio_of h found) t = Some (last l1, best_of h found l).
Proof.
  revert t l pre found mid. induction fuel as [|n IH]; intros t l pre found mid S Hf [mid' Em]; [lia|].
  destruct S as (_ & Hz & c & Hc & S). cbn [prio_loop]. rewrite Hc. cbn [mbind option_bind].
  destruct l as [|u l].
  - cbn in S. rewrite S. cbn. rewrite app_nil_r. by exists pre, mid.
  - pose proof S as (E & Hu & cu & Hcu & _). destruct (Z.eqb_spec (next_cpu c) 0); [congruence|].
    rewrite E in *. rewrite Hcu. cbn [mbind option_bind]. rewrite <- (prio_of_lookup _ _ _ Hcu).
    change (best_of h found (u :: l)) with
      (best_of h (if before (prio_of h u) (prio_of h found) then u else found) l).
    destruct (before (prio_of h u) (prio_of h found)) eqn:B.
    + destruct (IH u l (pre ++ mid' ++ [t]) u []) as (l1 & l2 & E1 & E2);
        [done|cbn in Hf; lia|by exists []|].
      exists l1, l2. rewrite app_assoc, last_snoc in E2. split; [|done].
      rewrite <- E1, <- Em. cbn. by rewrite <- !app_assoc.
    + destruct (IH u l pre found (mid ++ [u])) as (l1 & l2 & E1 & E2);
        [done|cbn in Hf; lia|by exists (found :: mid)|].
      exists l1, l2. split; [|done]. rewrite <- E1, <- app_assoc. done.
Qed.

(** [schedule] on a queue: the thread picked, unlinked unless it is marked
    [again]. *)
Lemma schedule_spec protocol b h first l :
  queue h first l ->
  exists first' h', schedule protocol b h first = Some (pick protocol h l, first', h') /\
    same_cpus h h' /\ (forall t, t ∉ l -> h' !! t = h !! t) /\
    (if is_again h (pick protocol h l) then first' = first /\ h' = h
     else queue h' first' (qremove (pick protocol h l) l)).
Proof.
  intros Q. pose proof (queue_length _ _ _ Q) as Hl. unfold schedule.
  destruct l as [|t l].
  { pose proof Q as [E _]. cbn in E. subst. cbn [Z.eqb]. eexists _, _. split; [done|].
    split_and!; [done..|]. by destruct (is_again _ _). }
  pose proof Q as [S N]. pose proof S as (-> & Hz & c0 & Hc0 & _).
  destruct (Z.eqb_spec t 0); [done|]. cbn [pick]. destruct (protocol =? SYS_SYNC_FIFO).
  - destruct (fifo_loop_spec (Datatypes.S (size h)) h t l []) as (l1 & El & Ef);
      [done|cbn in Hl; lia|].
    cbn [last] in Ef. rewrite Ef. cbn [mbind option_bind].
    set (x := List.last l t) in *.
    destruct (queue_in _ _ _ x Q) as [_ [c Hc]]; [rewrite El; set_solver|].
    rewrite Hc. cbn [mbind option_bind]. unfold is_again. rewrite Hc.
    destruct (again c); [by eexists _, _; split_and!|]. cbn [app].
    destruct (store_link (last l1) 0 t h) as [f' h'] eqn:E. eexists _, _. split; [done|].
    rewrite El in *. assert (Enx : next_cpu c = 0).
    { apply seg_app in S as (m & _ & S2). destruct S2 as (_ & _ & c' & Hc' & S2). cbn in S2. congruence. }
    rewrite <- Enx in E. destruct (unlink_queue _ _ _ _ _ _ _ _ Q Hc E) as (Q' & Sc & F).
    rewrite qremove_app by done. split_and!; [done| |done]. intros. apply F. set_solver.
  - rewrite Hc0. cbn [mbind option_bind].
    destruct (prio_loop_spec (Datatypes.S (size h)) h t l [] t []) as (l1 & l2 & El & Ef);
      [done|cbn in Hl; lia|by exists []|].
    cbn [last app] in Ef, El. rewrite (prio_of_lookup _ _ _ Hc0) in Ef. rewrite Ef. cbn [mbind option_bind].
    set (x := best_of h t l) in *.
    destruct (queue_in _ _ _ x Q) as [_ [c Hc]]; [rewrite El; set_solver|].
    rewrite Hc. cbn [mbind option_bind]. unfold is_again. rewrite Hc.
    destruct (again c); [by eexists _, _; split_and!|].
    destruct (store_link (last l1) (next_cpu c) t h) as [f' h'] eqn:E. eexists _, _. split; [done|].
    rewrite El in *. destruct (unlink_queue _ _ _ _ _ _ _ _ Q Hc E) as (Q' & Sc & F).
    rewrite qremove_app by done.
    assert (Nx : x ∉ l1 ++ l2)
      by (apply NoDup_app in N as (_ & D & [Nx _]%NoDup_cons); set_solver).
    split_and!; [eapply same_cpus_trans, clear_next_same; done| |by apply clear_next_queue].
    intros u Hu. rewrite clear_next_other by set_solver. apply F. set_solver.
Qed.

(** [emplace] pushes a thread that is in no queue, and gives it the next tag as
    its order. *)
Lemma emplace_spec tag h first l object c :
  queue h first l -> object ∉ l -> object <> 0 -> h !! object = Some c ->
  exists h', emplace tag h first object = (next_tag tag, object, h') /\
    queue h' object (object :: l) /\
    h' !! object = Some (Cpu first (enqueue_prio (next_tag tag) (cprio c)) (again c)) /\
    (forall t, t <> object -> h' !! t = h !! t).
Proof.
  intros [S N] Ni Hz Hc. unfold emplace. cbv zeta. eexists. split; [done|].
  assert (F : forall t, t <> object -> alter (fun c => set_prio (enqueue_prio (next_tag tag) (cprio c))
      (set_next first c)) object h !! t = h !! t) by (intros; by rewrite lookup_alter_ne).
  assert (E : alter (fun c => set_prio (enqueue_prio (next_tag tag) (cprio c)) (set_next first c))
      object h !! object = Some (Cpu first (enqueue_prio (next_tag tag) (cprio c)) (again c)))
    by (rewrite lookup_alter_eq, Hc; done).
  split_and!; [split; [|by constructor]|done|done].
  cbn. split_and!; [done..|]. eexists. split; [exact E|]. cbn.
  eapply seg_same, S. intros t Ht. rewrite F; [done|]. set_solver.
Qed.

Lemma walk_spec h first l : queue h first l -> walk h first = Some l.
Proof.
  intros Q. pose proof (queue_length _ _ _ Q) as Hl. destruct Q as [S _]. unfold walk.
  assert (Hf : (length l < Datatypes.S (size h))%nat) by lia. clear Hl.
  revert first l S Hf. generalize (Datatypes.S (size h)) as n.
  induction n as [|n IH]; intros first l S Hf; [lia|].
  destruct l as [|t l]; cbn [seg] in S; [by subst|].
  destruct S as (-> & Hz & c & Hc & S). cbn [walk_loop]. destruct (Z.eqb_spec t 0); [done|].
  rewrite Hc. cbn [mbind option_bind]. rewrite (IH _ _ S); [done|cbn in Hf; lia].
Qed.

(** *** What [pick] selects *)

Lemma best_of_in h found l : best_of h found l ∈ found :: l.
Proof.
  revert found. induction l as [|t l IH]; intros found; cbn; [set_solver|].
  specialize (IH (if before (prio_of h t) (prio_of h found) then t else found)).
  destruct (before _ _); set_solver.
Qed.

Lemma pick_in protocol h l : l <> [] -> pick protocol h l ∈ l.
Proof.
  destruct l as [|t l]; [done|]. intros _. cbn. destruct (protocol =? SYS_SYNC_FIFO).
  - revert t. induction l as [|u l IH]; intros t; [set_solver|].
    rewrite last_cons_default. specialize (IH u). set_solver.
  - apply best_of_in.
Qed.

Definition before_p (h : threads) (a b : Z) : Prop := before (prio_of h a) (prio_of h b) = true.

Lemma before_spec a b :
  before a b = true <-> prio a < prio b \/ (prio a = prio b /\ order a < order b).
Proof. unfold before. rewrite orb_true_iff, andb_true_iff, !Z.ltb_lt, Z.eqb_eq. tauto. Qed.

Lemma before_trans h a b c : before_p h a b -> before_p h b c -> before_p h a c.
Proof. unfold before_p. rewrite !before_spec. lia. Qed.

Lemma best_of_le h found l t :
  t ∈ found :: l -> ~ before_p h t (best_of h found l).
Proof.
  revert found t. induction l as [|u l IH]; intros found t Ht.
  - apply list_elem_of_singleton in Ht as ->. unfold before_p. rewrite before_spec. cbn. lia.
  - change (best_of h found (u :: l)) with
      (best_of h (if before (prio_of h u) (prio_of h found) then u else found) l).
    destruct (before (prio_of h u) (prio_of h found)) eqn:B.
    + apply elem_of_cons in Ht as [->|Ht]; [|by apply IH].
      intros F. apply (IH u u ltac:(set_solver)). by eapply before_trans.
    + destruct (decide (t = u)) as [->|]; [|apply IH; set_solver].
      intros F. apply (IH found found ltac:(set_solver)). revert F B.
      unfold before_p. rewrite <- not_true_iff_false, !before_spec. lia.
Qed.

(** ** The order in which waiters are woken *)

Fixpoint emplace_all (tag : Z) (h : threads) (first : Z) (ts : list Z) : Z * Z * threads :=
  match ts with
  | [] => (tag, first, h)
  | t :: ts' => let '(tag', first', h') := emplace tag h first t in emplace_all tag' h' first' ts'
  end.

Fixpoint drain (n : nat) (protocol : Z) (h : threads) (first : Z)
  : option (list Z * Z * threads) :=
  match n with
  | O => Some ([], first, h)
  | S n' =>
      '(t, first', h') ← schedule protocol true h first;
      '(ts, first'', h'') ← drain n' protocol h' first';
      Some (t :: ts, first'', h'')
  end.

(** The reference: each arrival goes to the end of the queue, or behind the
    threads of the same or a better (lower) priority. *)
Fixpoint prio_insert (p : Z -> Z) (x : Z) (l : list Z) : list Z :=
  match l with
  | [] => [x]
  | y :: l' => if p y <=? p x then y :: prio_insert p x l' else x :: l
  end.
Definition arrive (protocol : Z) (p : Z -> Z) (x : Z) (l : list Z) : list Z :=
  if protocol =? SYS_SYNC_FIFO then l ++ [x] else prio_insert p x l.
Definition wake_order (protocol : Z) (p : Z -> Z) (ts : list Z) : list Z :=
  fold_left (fun l x => arrive protocol p x l) ts [].

Fixpoint picks (n : nat) (protocol : Z) (h : threads) (l : list Z) : list Z :=
  match n with
  | O => []
  | S n' => let m := pick protocol h l in m :: picks n' protocol h (qremove m l)
  end.

Lemma pick_ext protocol h h' l : (forall t, prio_of h' t = prio_of h t) -> pick protocol h' l = pick protocol h l.
Proof.
  intros E. destruct l as [|t l]; [done|]. cbn. destruct (protocol =? SYS_SYNC_FIFO); [done|].
  revert t. induction l as [|u l IH]; intros t; [done|]. cbn. rewrite !E. apply IH.
Qed.

Lemma picks_ext n protocol h h' l :
  (forall t, prio_of h' t = prio_of h t) -> picks n protocol h' l = picks n protocol h l.
Proof.
  intros E. revert l. induction n as [|n IH]; intros l; [done|]. cbn. by rewrite (pick_ext protocol h h') by done; rewrite IH.
Qed.

Lemma drain_picks n protocol h first l :
  queue h first l -> (forall t, t ∈ l -> is_again h t = false) -> n = length l ->
  exists h', drain n protocol h first = Some (picks n protocol h l, 0, h').
Proof.
  revert h first l. induction n as [|n IH]; intros h first l Q A En.
  - destruct l; [|done]. destruct Q as [E _]. cbn in E. subst. by eexists.
  - destruct (schedule_spec protocol true h first l Q) as (f1 & h1 & E & Sc & _ & Q').
    assert (Hp : pick protocol h l ∈ l) by (apply pick_in; by destruct l).
    rewrite (A _ Hp) in Q'. cbn [drain]. rewrite E. cbn [mbind option_bind].
    pose proof (qremove_length (pick protocol h l) l (proj2 Q) Hp) as Hlen.
    destruct (IH h1 f1 (qremove (pick protocol h l) l)) as (h2 & ->); [done| |lia|].
    { intros t [Ht _]%elem_of_qremove. rewrite (same_cpus_again h h1) by done. auto. }
    cbn [mbind option_bind picks]. eexists. do 4 f_equal. apply picks_ext.
    intros. by apply same_cpus_prio.
Qed.

Lemma pick_unique protocol h l m :
  (protocol =? SYS_SYNC_FIFO) = false -> m ∈ l ->
  (forall t, t ∈ l -> t <> m -> before_p h m t) -> pick protocol h l = m.
Proof.
  intros P Hm Hb. destruct l as [|t l]; [set_solver|]. cbn. rewrite P.
  destruct (decide (best_of h t l = m)) as [|N]; [done|].
  pose proof (best_of_in h t l) as Hi. pose proof (best_of_le h t l m Hm) as Hle.
  destruct (Hle (Hb _ Hi N)).
Qed.

(** The newest waiter has the greatest order. *)
Definition newest_first (h : threads) (l : list Z) : Prop :=
  StronglySorted (fun a b => order (prio_of h b) < order (prio_of h a)) l.

Lemma newest_first_qremove h x l : newest_first h l -> newest_first h (qremove x l).
Proof.
  unfold newest_first. induction 1 as [|a l S IH F]; [constructor|].
  unfold qremove in *. rewrite filter_cons. case_decide; [|done].
  constructor; [done|]. rewrite Forall_forall in *. intros t Ht. apply F.
  by apply list_elem_of_filter in Ht as [_ Ht].
Qed.

Lemma order_distinct h l a b :
  newest_first h l -> a ∈ l -> b ∈ l -> a <> b -> order (prio_of h a) <> order (prio_of h b).
Proof.
  unfold newest_first. induction 1 as [|x l S IH F]; [set_solver|].
  rewrite Forall_forall in F. rewrite !elem_of_cons. intros [->|Ha] [->|Hb] N; [done|..|auto].
  - specialize (F b Hb). cbn in F. lia.
  - specialize (F a Ha). cbn in F. lia.
Qed.

(** Under a priority protocol, the waiter picked precedes all others. *)
Lemma pick_before protocol h l t :
  (protocol =? SYS_SYNC_FIFO) = false -> newest_first h l -> t ∈ l -> t <> pick protocol h l ->
  before_p h (pick protocol h l) t.
Proof.
  intros P S Ht N. assert (Hp : pick protocol h l ∈ l) by (apply pick_in; intros ->; set_solver).
  pose proof (order_distinct h l t _ S Ht Hp N) as D.
  destruct l as [|x l]; [set_solver|]. cbn in *. rewrite P in *.
  pose proof (best_of_le h x l t Ht) as L. revert L D. unfold before_p. rewrite !before_spec. lia.
Qed.

Lemma pick_last protocol h x l :
  (protocol =? SYS_SYNC_FIFO) = true -> l <> [] -> pick protocol h (x :: l) = pick protocol h l.
Proof. intros P N. destruct l as [|y l]; [done|]. cbn [pick]. rewrite P. apply last_cons_default. Qed.

Lemma qremove_cons_ne m x l : x <> m -> qremove m (x :: l) = x :: qremove m l.
Proof. intros. unfold qremove. by rewrite filter_cons_True. Qed.

(** A newer waiter takes its place in the wake order of the others. *)
Lemma picks_cons n protocol h x l :
  NoDup (x :: l) -> newest_first h (x :: l) -> n = length l ->
  picks (S n) protocol h (x :: l) =
  arrive protocol (fun t => prio (prio_of h t)) x (picks n protocol h l).
Proof.
  revert l. induction n as [|n IH]; intros l [Nx N]%NoDup_cons S En.
  { destruct l; [|done]. cbn. unfold arrive. by destruct (protocol =? SYS_SYNC_FIFO). }
  assert (Hl : l <> []) by (by destruct l). pose proof (pick_in protocol h l Hl) as Hm.
  set (m := pick protocol h l) in *. assert (Hx : x <> m) by set_solver.
  pose proof S as S0. apply StronglySorted_inv in S0 as [Sl F]. fold (newest_first h l) in Sl.
  rewrite Forall_forall in F.
  assert (R : picks (Datatypes.S n) protocol h (x :: qremove m l) =
              arrive protocol (fun t => prio (prio_of h t)) x (picks n protocol h (qremove m l))).
  { apply IH.
    - constructor; [|by apply qremove_NoDup]. rewrite elem_of_qremove. tauto.
    - rewrite <- (qremove_cons_ne m x l) by done. by apply newest_first_qremove.
    - pose proof (qremove_length m l N Hm). lia. }
  change (picks (Datatypes.S n) protocol h l) with (m :: picks n protocol h (qremove m l)).
  change (picks (Datatypes.S (Datatypes.S n)) protocol h (x :: l)) with
    (let m' := pick protocol h (x :: l) in m' :: picks (Datatypes.S n) protocol h (qremove m' (x :: l))).
  cbv zeta. unfold arrive in *. destruct (protocol =? SYS_SYNC_FIFO) eqn:P.
  - rewrite pick_last by done. fold m. by rewrite qremove_cons_ne, R by done.
  - cbn [prio_insert]. destruct (Z.leb_spec (prio (prio_of h m)) (prio (prio_of h x))) as [L|L].
    + assert (E : pick protocol h (x :: l) = m).
      { apply pick_unique; [done|set_solver|]. intros t [->|Ht]%elem_of_cons Nt.
        - specialize (F m Hm). cbn in F. unfold before_p. rewrite before_spec. lia.
        - by apply pick_before. }
      rewrite E. by rewrite qremove_cons_ne, R by done.
    + assert (E : pick protocol h (x :: l) = x).
      { apply pick_unique; [done|set_solver|]. intros t [->|Ht]%elem_of_cons Nt; [done|].
        assert (X : before_p h x m) by (unfold before_p; rewrite before_spec; lia).
        destruct (decide (t = m)) as [->|Ntm]; [done|].
        eapply before_trans; [exact X|]. by apply pick_before. }
      rewrite E. change (x :: l) with ([] ++ x :: l). rewrite qremove_app by (by constructor).
      done.
Qed.

Lemma picks_wake protocol h l :
  NoDup l -> newest_first h l ->
  picks (length l) protocol h l = wake_order protocol (fun t => prio (prio_of h t)) (rev l).
Proof.
  unfold wake_order. rewrite <- fold_left_rev_right, rev_involutive.
  induction l as [|x l IH]; intros N S; [done|].
  cbn [length fold_right]. rewrite picks_cons by done. f_equal. apply IH.
  - by apply NoDup_cons in N as [_ N].
  - by apply StronglySorted_inv in S as [S _].
Qed.

Lemma newest_first_ext h h' l :
  (forall t, t ∈ l -> prio_of h' t = prio_of h t) -> newest_first h l -> newest_first h' l.
Proof.
  intros E S. unfold newest_first in *. induction S as [|x l S IH F]; [constructor|].
  constructor; [apply IH; set_solver|]. rewrite Forall_forall in *. intros t Ht.
  rewrite !E by set_solver. by apply F.
Qed.

Lemma next_tag_small tag : 0 <= tag < 2 ^ 49 - 1 -> next_tag tag = tag + 1 /\ sint 50 (next_tag tag) = tag + 1.
Proof.
  intros H. assert (E : next_tag tag = tag + 1) by (unfold next_tag; apply uint_small; split; lia).
  rewrite E. split; [done|]. apply sint_small; [lia|]. split; lia.
Qed.

Lemma emplace_all_spec ts tag h first l :
  queue h first l -> newest_first h l -> NoDup ts ->
  (forall t, t ∈ l -> order (prio_of h t) <= tag) ->
  (forall t, t ∈ ts -> t <> 0 /\ (t ∉ l) /\ is_Some (h !! t) /\ preserve_bit (prio_of h t) = false) ->
  0 <= tag -> tag + Z.of_nat (length ts) < 2 ^ 49 ->
  exists first' h', emplace_all tag h first ts = (tag + Z.of_nat (length ts), first', h') /\
    queue h' first' (rev ts ++ l) /\ newest_first h' (rev ts ++ l) /\
    (forall t, prio (prio_of h' t) = prio (prio_of h t)) /\
    (forall t, is_again h' t = is_again h t).
Proof.
  revert tag h first l. induction ts as [|x ts IH]; intros tag h first l Q S N Ho Hts Ht0 Ht1.
  { cbn. rewrite Z.add_0_r. eexists _, _. split; [done|]. by split_and!. }
  destruct (Hts x ltac:(set_solver)) as (Hx & Nx & [c Hc] & Hp).
  destruct (emplace_spec tag h first l x c Q Nx Hx Hc) as (h1 & E & Q1 & E1 & F1).
  cbn [length] in *. destruct (next_tag_small tag ltac:(lia)) as [T1 T2].
  assert (P1 : prio_of h1 x = Prio (prio (prio_of h x)) (tag + 1) false).
  { unfold prio_of in *. rewrite E1. rewrite Hc in *. cbn. unfold enqueue_prio. by rewrite Hp, T2. }
  assert (P2 : forall t, t <> x -> prio_of h1 t = prio_of h t) by (intros; unfold prio_of; by rewrite F1).
  assert (Hne : forall t, t ∈ l -> t <> x) by set_solver.
  cbn [emplace_all]. rewrite E, T1. apply NoDup_cons in N as [Nxs N].
  destruct (IH (tag + 1) h1 x (x :: l)) as (f2 & h2 & E2 & Q2 & S2 & Pr & Ag); [done| |done|..].
  - constructor.
    + eapply newest_first_ext, S. intros t Ht. apply P2. auto.
    + apply Forall_forall. intros t Ht. rewrite P1, P2 by auto. cbn. specialize (Ho t Ht). lia.
  - intros t [->|Ht]%elem_of_cons; [rewrite P1; cbn; lia|]. rewrite P2 by auto.
    specialize (Ho t Ht). lia.
  - intros t Ht. destruct (Hts t ltac:(set_solver)) as (A & B & C & D).
    assert (t <> x) by set_solver. rewrite P2, F1 by done. split_and!; [done| |done..]. set_solver.
  - lia.
  - lia.
  - exists f2, h2. rewrite E2. cbn [rev]. rewrite <- app_assoc. split_and!; [f_equal; f_equal; lia|done..| |].
    + intros t. rewrite Pr. destruct (decide (t = x)) as [->|]; [by rewrite P1|by rewrite P2].
    + intros t. rewrite Ag. unfold is_again. destruct (decide (t = x)) as [->|];
        [by rewrite E1, Hc|by rewrite F1].
Qed.

(** ** Refinement

    A queue used through its three operations, at the level of pointers
    ([ptr_op]) and as a list of waiters ([list_op], which reads the priorities
    of the thread table and never a link). *)
Inductive queue_op : Set := OpEmplace (t : Z) | OpSchedule | OpUnqueue (t : Z).

Definition ptr_op (protocol : Z) (o : queue_op) (s : Z * Z * threads) : option (Z * (Z * Z * threads)) :=
  let '(tag, first, h) := s in
  match o with
  | OpEmplace t => Some (0, emplace tag h first t)
  | OpSchedule => '(t, first', h') ← schedule protocol true h first; Some (t, (tag, first', h'))
  | OpUnqueue t => '(r, first', h') ← unqueue true h first t; Some (r, (tag, first', h'))
  end.

Definition list_op (protocol : Z) (o : queue_op) (s : Z * list Z * threads)
  : Z * (Z * list Z * threads) :=
  let '(tag, l, h) := s in
  match o with
  | OpEmplace t =>
      (0, (next_tag tag, t :: l, alter (fun c => set_prio (enqueue_prio (next_tag tag) (cprio c)) c) t h))
  | OpSchedule =>
      let m := pick protocol h l in
      (m, (tag, if is_again h m then l else qremove m l, h))
  | OpUnqueue t => (if decide (t ∈ l) then t else 0, (tag, qremove t l, h))
  end.

(** The caller's side: only an existing thread that is not waiting is pushed. *)
Definition op_legal (o : queue_op) (s : Z * list Z * threads) : Prop :=
  let '(_, l, h) := s in
  match o with
  | OpEmplace t => t <> 0 /\ (t ∉ l) /\ is_Some (h !! t)
  | OpSchedule => True
  | OpUnqueue t => t <> 0
  end.

Fixpoint ptr_run (protocol : Z) (os : list queue_op) (s : Z * Z * threads)
  : option (list Z * (Z * Z * threads)) :=
  match os with
  | [] => Some ([], s)
  | o :: os' => '(r, s1) ← ptr_op protocol o s; '(rs, s2) ← ptr_run protocol os' s1; Some (r :: rs, s2)
  end.
Fixpoint list_run (protocol : Z) (os : list queue_op) (s : Z * list Z * threads)
  : list Z * (Z * list Z * threads) :=
  match os with
  | [] => ([], s)
  | o :: os' =>
      let '(r, s1) := list_op protocol o s in
      let '(rs, s2) := list_run protocol os' s1 in (r :: rs, s2)
  end.
Fixpoint run_legal (protocol : Z) (os : list queue_op) (s : Z * list Z * threads) : Prop :=
  match os with
  | [] => True
  | o :: os' => op_legal o s /\ run_legal protocol os' (snd (list_op protocol o s))
  end.

(** A pointer state stands for a list state. *)
Definition stands_for (s : Z * Z * threads) (a : Z * list Z * threads) : Prop :=
  let '(tag, first, h) := s in
  let '(tag', l, h0) := a in
  tag = tag' /\ queue h first l /\ same_cpus h0 h.

Lemma op_refines protocol o s a :
  stands_for s a -> op_legal o a ->
  exists s', ptr_op protocol o s = Some (fst (list_op protocol o a), s') /\
    stands_for s' (snd (list_op protocol o a)).
Proof.
  destruct s as [[tag first] h], a as [[tag' l] h0]. intros (<- & Q & Sc) L. destruct o as [t| |t]; cbn in *.
  - destruct L as (Hz & Ni & Hs). pose proof (proj2 (same_cpus_dom h0 h t Sc) Hs) as [c Hc].
    destruct (emplace_spec tag h first l t c Q Ni Hz Hc) as (h' & E & Q' & E' & F').
    eexists. split; [done|]. rewrite E. split_and!; [done..|].
    intros u. destruct (decide (u = t)) as [->|N].
    + rewrite E', lookup_alter_eq. cbn. specialize (Sc t). rewrite Hc in Sc.
      destruct (h0 !! t); [|done]. cbn in *. by injection Sc as -> ->.
    + rewrite F', lookup_alter_ne by done. apply Sc.
  - destruct (schedule_spec protocol true h first l Q) as (f' & h' & E & Sc' & _ & Q').
    rewrite E. cbn [mbind option_bind].
    rewrite (pick_ext protocol h0 h l) in * by (intros; by apply same_cpus_prio).
    eexists. split; [done|]. split_and!; [done| |by eapply same_cpus_trans].
    rewrite (same_cpus_again h0 h) in Q' by done. destruct (is_again _ _); [by destruct Q' as [-> ->]|done].
  - destruct (unqueue_spec true h first l t Q L) as (f' & h' & E & Q' & Sc' & _).
    rewrite E. cbn [mbind option_bind]. eexists. split; [done|].
    split_and!; [done..|by eapply same_cpus_trans].
Qed.

Lemma run_refines protocol os s a :
  stands_for s a -> run_legal protocol os a ->
  exists s', ptr_run protocol os s = Some (fst (list_run protocol os a), s') /\
    stands_for s' (snd (list_run protocol os a)).
Proof.
  revert s a. induction os as [|o os IH]; intros s a R L; [by exists s|].
  destruct L as [L1 L2]. destruct (op_refines protocol o s a R L1) as (s1 & E1 & R1).
  cbn [ptr_run list_run]. rewrite E1. destruct (list_op protocol o a) as [r a1]. cbn in *.
  destruct (IH s1 a1 R1 L2) as (s2 & E2 & R2). rewrite E2.
  destruct (list_run protocol os a1) as [rs a2]. cbn in *. by exists s2.
Qed.

Lemma wake_order_ext protocol p p' ts :
  (forall t, p t = p' t) -> wake_order protocol p ts = wake_order protocol p' ts.
Proof.
  intros E. unfold wake_order. generalize (@nil Z). induction ts as [|x ts IH]; intros l; [done|].
  cbn. rewrite IH. f_equal. unfold arrive. destruct (protocol =? SYS_SYNC_FIFO); [done|].
  induction l as [|y l IHl]; [done|]. cbn. by rewrite !E, IHl.
Qed.

(** ** The claims *)

(** C10.  The linked queue of an LV2 object implements the list of its waiters:
    any sequence of [emplace], [schedule] and [unqueue] calls, starting from an
    empty queue, returns the threads the list operations return, never follows
    a null or dangling pointer, ends every loop within its bound, and leaves
    links that stand for the final list.  Threads marked [again] stay queued
    when they are selected. *)
Theorem queue_refines_list (protocol tag : Z) (h : threads) (os : list queue_op) :
  run_legal protocol os (tag, [], h) ->
  exists tag' first' h', ptr_run protocol os (tag, 0, h) =
      Some (fst (list_run protocol os (tag, [], h)), (tag', first', h')) /\
    stands_for (tag', first', h') (snd (list_run protocol os (tag, [], h))).
Proof.
  intros L. destruct (run_refines protocol os (tag, 0, h) (tag, [], h)) as ([[tag' f'] h'] & E & R).
  - split_and!; [done|split; [done|constructor]|done].
  - done.
  - eauto.
Qed.

(** Three threads of priorities 7, 3 and 7. *)
Definition three_threads : threads :=
  list_to_map [(16, Cpu 0 (Prio 7 0 false) false); (32, Cpu 0 (Prio 3 0 false) false);
               (48, Cpu 0 (Prio 7 0 false) false)].

Lemma three_threads_again t : is_again three_threads t = false.
Proof.
  unfold is_again. destruct (three_threads !! t) as [c|] eqn:E; [|done].
  apply elem_of_list_to_map_2 in E. set_solver.
Qed.

Lemma queue_refines_list_witness :
  exists tag' first' h', ptr_run SYS_SYNC_PRIORITY
      [OpEmplace 16; OpEmplace 32; OpEmplace 48; OpSchedule; OpUnqueue 48; OpSchedule] (0, 0, three_threads) =
      Some ([0; 0; 0; 32; 48; 16], (tag', first', h')) /\
    stands_for (tag', first', h') (snd (list_run SYS_SYNC_PRIORITY
      [OpEmplace 16; OpEmplace 32; OpEmplace 48; OpSchedule; OpUnqueue 48; OpSchedule] (0, [], three_threads))).
Proof.
  apply (queue_refines_list SYS_SYNC_PRIORITY 0 three_threads
    [OpEmplace 16; OpEmplace 32; OpEmplace 48; OpSchedule; OpUnqueue 48; OpSchedule]).
  repeat split; try (eexists; reflexivity); try discriminate; set_solver.
Defined.

(** C25.  The order in which an object wakes its waiters: threads that queue up
    and are then scheduled one by one come out in the order of their arrival
    under the FIFO protocol; under a priority protocol each comes out before
    the threads of a worse priority and after those of the same priority that
    arrived before it.  The tags must stay below 2^49, where the 50-bit order
    field is not truncated. *)
Theorem wake_order_correct (protocol tag : Z) (h : threads) (ts : list Z) :
  NoDup ts ->
  (forall t, t ∈ ts -> t <> 0 /\ is_Some (h !! t) /\ preserve_bit (prio_of h t) = false /\
                       is_again h t = false) ->
  0 <= tag -> tag + Z.of_nat (length ts) < 2 ^ 49 ->
  let '(_, first, h') := emplace_all tag h 0 ts in
  exists h'', drain (length ts) protocol h' first =
    Some (wake_order protocol (fun t => prio (prio_of h t)) ts, 0, h'').
Proof.
  intros N Hts H0 H1.
  destruct (emplace_all_spec ts tag h 0 []) as (f' & h' & E & Q & S & Pr & Ag);
    [split; [done|constructor]|constructor|done|set_solver| |done|done|].
  { intros t Ht. destruct (Hts t Ht) as (A & B & C & _). split_and!; [done|set_solver|done..]. }
  rewrite E. rewrite app_nil_r in *.
  destruct (drain_picks (length ts) protocol h' f' (rev ts)) as (h'' & D); [done| |by rewrite length_rev|].
  { intros t Ht. rewrite Ag. apply Hts. apply list_elem_of_In, in_rev, list_elem_of_In, Ht. }
  exists h''. rewrite D. do 3 f_equal. rewrite <- (length_rev ts), picks_wake; [|apply Q|done].
  rewrite rev_involutive. by apply wake_order_ext.
Qed.

Lemma wake_order_correct_witness :
  let '(_, first, h') := emplace_all 5 three_threads 0 [16; 32; 48] in
  exists h'', drain 3 SYS_SYNC_PRIORITY h' first = Some ([32; 16; 48], 0, h'').
Proof.
  apply (wake_order_correct SYS_SYNC_PRIORITY 5 three_threads [16; 32; 48]).
  - apply (bool_decide_unpack _). reflexivity.
  - intros t Ht. repeat (apply elem_of_cons in Ht as [->|Ht]); [..|by apply not_elem_of_nil in Ht];
      (split_and!; [lia|eexists; reflexivity|reflexivity|reflexivity]).
  - lia.
  - reflexivity.
Defined.
