(* ===== verification/Lv2Sync.v ===== *)
(** What the models of the LV2 synchronization objects share: the error codes
    of the system calls (src/rpcs3/Emu/Cell/ErrorCodes.h), the marks of stopped
    threads, and the loop that wakes a whole queue. *)
From Stdlib Require Import ZArith Lia Bool List.
From stdpp Require Import base option list numbers gmap.
From S2P Require Import Prelude Machine Lv2Queue.
Local Open Scope Z_scope.

Definition CELL_OK : Z := 0.
Definition CELL_EAGAIN : Z := 0x80010001.
Definition CELL_EINVAL : Z := 0x80010002.
Definition CELL_ESRCH : Z := 0x80010005.
Definition CELL_EDEADLK : Z := 0x80010008.
Definition CELL_EPERM : Z := 0x80010009.
Definition CELL_EBUSY : Z := 0x8001000A.
Definition CELL_ETIMEDOUT : Z := 0x8001000B.
Definition CELL_EABORT : Z := 0x8001000C.
Definition CELL_EFAULT : Z := 0x8001000D.
Definition CELL_EKRESOURCE : Z := 0x80010011.
Definition CELL_ECANCELED : Z := 0x80010013.
Definition CELL_EEXIST : Z := 0x80010014.
Definition CELL_EISCONN : Z := 0x80010015.
Definition CELL_ENOTCONN : Z := 0x80010016.

(** ** Membership and marks *)

Definition mem_list (t : Z) (l : list Z) : bool := existsb (Z.eqb t) l.

Lemma mem_list_spec t l : mem_list t l = true <-> t ∈ l.
Proof.
  unfold mem_list. rewrite existsb_exists, list_elem_of_In. split.
  - intros (u & Hu & ->%Z.eqb_eq). done.
  - intros H. exists t. by rewrite Z.eqb_refl.
Qed.

Lemma head_nil h q l : queue h q l -> (q =? 0) = bool_decide (l = []).
Proof.
  intros Q. apply queue_nil in Q. destruct (Z.eqb_spec q 0) as [E|E].
  - by rewrite bool_decide_eq_true_2 by (by apply Q).
  - rewrite bool_decide_eq_false_2; [done|]. intros F. by apply E, Q.
Qed.

Lemma again_none h l : existsb (is_again h) l = false -> forall u, u ∈ l -> is_again h u = false.
Proof.
  intros E u Hu. apply not_true_iff_false. intros A. apply not_true_iff_false in E. apply E.
  apply existsb_exists. exists u. split; [by apply list_elem_of_In|done].
Qed.

(** Marking a thread [again]. *)
Lemma set_again_queue h first l t : queue h first l -> queue (alter set_again t h) first l.
Proof.
  apply queue_same. intros u _. destruct (decide (u = t)) as [->|].
  - rewrite lookup_alter_eq. by destruct (h !! t).
  - by rewrite lookup_alter_ne.
Qed.

Lemma set_again_is h t u :
  is_again (alter set_again t h) u = (if decide (u = t) then bool_decide (is_Some (h !! t)) else is_again h u).
Proof.
  unfold is_again. destruct (decide (u = t)) as [->|].
  - rewrite lookup_alter_eq. by destruct (h !! t).
  - by rewrite lookup_alter_ne.
Qed.

Lemma set_again_dom (h : threads) t u : is_Some (alter set_again t h !! u) <-> is_Some (h !! u).
Proof.
  destruct (decide (u = t)) as [->|]; [|by rewrite lookup_alter_ne].
  rewrite lookup_alter_eq. apply fmap_is_Some.
Qed.

Lemma set_again_size (h : threads) t : size (alter set_again t h) = size h.
Proof.
  rewrite <- !size_dom. f_equal. apply set_eq. intros u. rewrite !elem_of_dom. apply set_again_dom.
Qed.

(** ** Waking all waiters

    The loop [while (auto cpu = schedule(sq, SYS_SYNC_FIFO)) append(cpu)] of the
    calls that wake a whole queue; [ws] are the threads to wake. *)
Fixpoint drain_fifo (fuel : nat) (h : threads) (first : Z) (ws : list Z) : option (list Z * Z * threads) :=
  match fuel with
  | O => None
  | S n =>
      '(cpu, first', h') ← schedule SYS_SYNC_FIFO true h first;
      if cpu =? 0 then Some (ws, first', h') else drain_fifo n h' first' (cpu :: ws)
  end.

Lemma drain_fifo_spec fuel h first l acc :
  queue h first l -> (forall t, t ∈ l -> is_again h t = false) -> (length l < fuel)%nat ->
  exists ws h', drain_fifo fuel h first acc = Some (ws ++ acc, 0, h') /\
    (forall u, u ∈ ws <-> u ∈ l) /\ length ws = length l /\ same_cpus h h' /\
    (forall u, u ∉ l -> h' !! u = h !! u).
Proof.
  revert h first l acc. induction fuel as [|n IH]; intros h first l acc Q A Hf; [lia|].
  destruct (schedule_spec SYS_SYNC_FIFO true h first l Q) as (f & h1 & E & Sc & F & Q').
  cbn [drain_fifo]. rewrite E. cbn [mbind option_bind].
  destruct l as [|x l].
  { cbn in *. destruct Q as [Q0 _]. cbn in Q0. subst.
    assert (f = 0).
    { revert Q'. destruct (is_again h 0); [by intros [-> _]|]. intros [Q' _]. exact Q'. }
    subst. exists [], h1. split_and!; try done. }
  set (l0 := x :: l) in *. assert (Hr : pick SYS_SYNC_FIFO h l0 ∈ l0) by (by apply pick_in).
  set (r := pick SYS_SYNC_FIFO h l0) in *.
  destruct (queue_in _ _ _ r Q Hr) as [Hr0 _]. destruct (Z.eqb_spec r 0); [done|].
  rewrite (A r Hr) in Q'. pose proof (qremove_length r l0 (proj2 Q) Hr) as Len.
  destruct (IH h1 f (qremove r l0) (r :: acc) Q') as (ws & h2 & E2 & M & Lw & Sc2 & F2).
  { intros t [Ht _]%elem_of_qremove. rewrite (same_cpus_again _ _ _ Sc). auto. }
  { lia. }
  exists (ws ++ [r]), h2. rewrite E2, <- app_assoc. split_and!; [done| | | |].
  - intros u. rewrite elem_of_app, M, elem_of_qremove, list_elem_of_singleton.
    destruct (decide (u = r)) as [->|]; tauto.
  - rewrite length_app, Lw, Len. cbn [length]. lia.
  - by eapply same_cpus_trans.
  - intros u Hu. rewrite F2; [by apply F|]. rewrite elem_of_qremove. tauto.
Qed.
