(* ===== verification/Lv2Semaphore.v ===== *)
(** The LV2 semaphore (src/rpcs3/Emu/Cell/lv2/sys_semaphore.cpp, sys_semaphore.h).

    The counter [val] is changed by lock-free compare-and-swap in the fast
    paths of wait and post and under the object's host mutex in the slow ones;
    a negative value counts the waiters.  The machine below interleaves the
    atomic operations of any number of threads; the theorems show that counter
    and queue never disagree, that the [ensure]s hold, that no wake-up is lost,
    and that the object implements a counting semaphore. *)
From Stdlib Require Import ZArith Lia Bool List.
From stdpp Require Import base option list numbers gmap.
From S2P Require Import Prelude Machine Lv2Queue Lv2Sync.
Local Open Scope Z_scope.
#[local] Set Warnings "-clear-no-such-hyp".

(** ** The machine

    Where a thread is in the code: the value loaded by a fast path is in the
    program point, [timeout] tells whether the wait has one. *)
Inductive point : Set :=
  | Idle                                     (* not in a call *)
  | WaitCas (v : Z) (timeout : bool)         (* sys_semaphore_wait: val loaded *)
  | WaitLock (timeout : bool)                (* about to lock sema.mutex *)
  | WaitEnq (timeout : bool)                 (* locked, val-- was <= 0 *)
  | Sleep (timeout : bool)                   (* in the loop on ppu.state *)
  | TimeoutLock                              (* timed out, about to lock *)
  | TimeoutFix                               (* locked and unqueued *)
  | PostCas (count v : Z)                    (* sys_semaphore_post: val loaded *)
  | PostLock (count : Z)                     (* about to lock sem->mutex *)
  | PostWake (to_awake : nat) (ws : list Z)  (* locked, waking; ws is g_to_awake *)
  | Returned (r : Z)                         (* the call returned r *)
  | StoppedWait                              (* returned with again set, still queued *)
  | StoppedPost.                             (* returned with again set *)

Record sema := Sema {
  protocol : Z;
  max : Z;
  exists_ : bool;             (* the ID is valid *)
  mutex : option Z;           (* the holder of the host mutex *)
  val : Z;
  sq : Z;
  cpus : threads;
  tag : Z;                    (* g_priority_order_tag *)
  points : gmap Z point;
  signal : gset Z;            (* threads with cpu_flag::signal *)
  failed : bool               (* an [ensure] failed *)
}.

Definition pc (s : sema) (t : Z) : point := default Idle (points s !! t).

Definition set_pc (t : Z) (p : point) (s : sema) : sema :=
  Sema (protocol s) (max s) (exists_ s) (mutex s) (val s) (sq s) (cpus s) (tag s) (<[t := p]> (points s))
    (signal s) (failed s).
Definition set_val (v : Z) (s : sema) : sema :=
  Sema (protocol s) (max s) (exists_ s) (mutex s) v (sq s) (cpus s) (tag s) (points s) (signal s) (failed s).
Definition set_mutex (m : option Z) (s : sema) : sema :=
  Sema (protocol s) (max s) (exists_ s) m (val s) (sq s) (cpus s) (tag s) (points s) (signal s) (failed s).
Definition set_queue (first : Z) (h : threads) (s : sema) : sema :=
  Sema (protocol s) (max s) (exists_ s) (mutex s) (val s) first h (tag s) (points s) (signal s) (failed s).
Definition set_tag (x : Z) (s : sema) : sema :=
  Sema (protocol s) (max s) (exists_ s) (mutex s) (val s) (sq s) (cpus s) x (points s) (signal s) (failed s).
Definition set_signal (x : gset Z) (s : sema) : sema :=
  Sema (protocol s) (max s) (exists_ s) (mutex s) (val s) (sq s) (cpus s) (tag s) (points s) x (failed s).
Definition set_exists (b : bool) (s : sema) : sema :=
  Sema (protocol s) (max s) b (mutex s) (val s) (sq s) (cpus s) (tag s) (points s) (signal s) (failed s).
Definition fail (s : sema) : sema :=
  Sema (protocol s) (max s) (exists_ s) (mutex s) (val s) (sq s) (cpus s) (tag s) (points s) (signal s) true.

Inductive action : Set :=
  | CallWait (t : Z) (timeout : bool)
  | CallTrywait (t : Z)
  | CallPost (t count : Z)
  | CallDestroy (t : Z)
  | Run (t : Z)              (* the next step of a call *)
  | Timeout (t : Z)          (* wait_timeout returned true *)
  | Stop (t : Z)             (* the emulator stops the thread (is_stopped) *)
  | Return (t : Z).          (* back in guest code *)

(** A call starts on a running thread. *)
Definition can_call (t : Z) (s : sema) : bool :=
  match cpus s !! t, pc s t with
  | Some c, Idle => negb (again c) && negb (t =? 0)
  | _, _ => false
  end.

(** Inside the callback of [idm::get], which runs under the reader lock of the
    ID manager; [idm::withdraw] takes the writer lock. *)
Definition in_idm (p : point) : bool :=
  match p with WaitCas _ _ | WaitLock _ | WaitEnq _ | PostCas _ _ => true | _ => false end.

Definition unlocked (s : sema) : bool := match mutex s with None => true | Some _ => false end.

(** *** sys_semaphore_wait *)
Definition wait_call (t : Z) (timeout : bool) (s : sema) : sema :=
  if exists_ s then set_pc t (WaitCas (val s) timeout) s else set_pc t (Returned CELL_ESRCH) s.

Definition wait_cas (t v : Z) (timeout : bool) (s : sema) : sema :=
  if (v >? 0) && (val s =? v) then set_pc t (Returned CELL_OK) (set_val (s32 (v - 1)) s)
  else set_pc t (WaitLock timeout) s.

Definition wait_lock (t : Z) (timeout : bool) (s : sema) : sema :=
  let s' := set_val (s32 (val s - 1)) s in
  if val s <=? 0 then set_pc t (WaitEnq timeout) (set_mutex (Some t) s')
  else set_pc t (Returned CELL_OK) s'.

Definition wait_enq (t : Z) (timeout : bool) (s : sema) : sema :=
  let '(tag', first, h) := emplace (tag s) (cpus s) (sq s) t in
  set_pc t (Sleep timeout) (set_mutex None (set_tag tag' (set_queue first h s))).

Definition wait_signal (t : Z) (s : sema) : option sema :=
  if bool_decide (t ∈ signal s)
  then Some (set_pc t (Returned CELL_OK) (set_signal (signal s ∖ {[t]}) s)) else None.

Definition wait_stop (t : Z) (s : sema) : option sema :=
  l ← walk (cpus s) (sq s);
  Some (if mem_list t l then set_pc t StoppedWait (set_queue (sq s) (alter set_again t (cpus s)) s)
        else set_pc t (Returned CELL_OK) s).

Definition wait_timeout (t : Z) (s : sema) : option sema :=
  '(r, first, h) ← unqueue true (cpus s) (sq s) t;
  Some (if r =? 0 then set_pc t (Returned CELL_OK) (set_queue first h s)
        else set_pc t TimeoutFix (set_mutex (Some t) (set_queue first h s))).

Definition wait_timeout_fix (t : Z) (s : sema) : sema :=
  let s' := set_val (if val s <? 0 then s32 (val s + 1) else val s) s in
  let s' := if 0 >? val s then s' else fail s' in
  set_pc t (Returned CELL_ETIMEDOUT) (set_mutex None s').

(** *** sys_semaphore_trywait *)
Definition trywait (t : Z) (s : sema) : sema :=
  if exists_ s then
    if val s >? 0 then set_pc t (Returned CELL_OK) (set_val (s32 (val s - 1)) s)
    else set_pc t (Returned CELL_EBUSY) s
  else set_pc t (Returned CELL_ESRCH) s.

(** *** sys_semaphore_post *)
Definition post_call (t count : Z) (s : sema) : sema :=
  if exists_ s then set_pc t (PostCas count (val s)) s else set_pc t (Returned CELL_ESRCH) s.

Definition post_cas (t count v : Z) (s : sema) : sema :=
  if (v >=? 0) && (count >? 0) && (count <=? s32 (max s - v)) && (val s =? v)
  then set_pc t (Returned CELL_OK) (set_val (s32 (v + count)) s)
  else if count <=? 0 then set_pc t (Returned CELL_EINVAL) s
  else set_pc t (PostLock count) s.

Definition post_lock (t count : Z) (s : sema) : option sema :=
  l ← walk (cpus s) (sq s);
  Some
    (if existsb (is_again (cpus s)) l
     then set_pc t StoppedPost (set_queue (sq s) (alter set_again t (cpus s)) s)
     else if u32 count <=? u32 (max s - val s)
     then
       let to_awake := Z.min (- Z.min (val s) 0) count in
       set_pc t (PostWake (Z.to_nat to_awake) []) (set_mutex (Some t) (set_val (s32 (val s + count)) s))
     else set_pc t (Returned CELL_EBUSY) s).

Definition post_wake (t : Z) (n : nat) (ws : list Z) (s : sema) : option sema :=
  match n with
  | O => Some (set_pc t (Returned CELL_OK) (set_mutex None (set_signal (signal s ∪ list_to_set ws) s)))
  | S n' =>
      '(r, first, h) ← schedule (protocol s) true (cpus s) (sq s);
      let s' := set_pc t (PostWake n' (r :: ws)) (set_queue first h s) in
      Some (if r =? 0 then fail s' else s')
  end.

(** *** sys_semaphore_destroy *)
Definition destroy (t : Z) (s : sema) : sema :=
  if exists_ s then
    if val s <? 0 then set_pc t (Returned CELL_EBUSY) s
    else set_pc t (Returned CELL_OK) (set_exists false s)
  else set_pc t (Returned CELL_ESRCH) s.

(** *** sys_semaphore_get_value *)
Definition get_value (s : sema) : option Z := if exists_ s then Some (Z.max 0 (val s)) else None.

Definition run_thread (t : Z) (s : sema) : option sema :=
  match pc s t with
  | WaitCas v to => Some (wait_cas t v to s)
  | WaitLock to => if unlocked s then Some (wait_lock t to s) else None
  | WaitEnq to => Some (wait_enq t to s)
  | Sleep _ => wait_signal t s
  | TimeoutLock => if unlocked s then wait_timeout t s else None
  | TimeoutFix => Some (wait_timeout_fix t s)
  | PostCas count v => Some (post_cas t count v s)
  | PostLock count => if unlocked s then post_lock t count s else None
  | PostWake n ws => post_wake t n ws s
  | _ => None
  end.

#[export] Instance sema_machine : Machine sema action := fun a s =>
  match a with
  | CallWait t to => if can_call t s then Some (wait_call t to s) else None
  | CallTrywait t => if can_call t s then Some (trywait t s) else None
  | CallPost t count => if can_call t s && bool_decide (in_sint 32 count) then Some (post_call t count s) else None
  | CallDestroy t =>
      if can_call t s && forallb (fun '(_, p) => negb (in_idm p)) (map_to_list (points s))
      then Some (destroy t s) else None
  | Run t => run_thread t s
  | Timeout t => match pc s t with Sleep true => Some (set_pc t TimeoutLock s) | _ => None end
  | Stop t => match pc s t with Sleep _ => if unlocked s then wait_stop t s else None | _ => None end
  | Return t =>
      match pc s t with
      | Returned _ => Some (set_pc t Idle (set_signal (signal s ∖ {[t]}) s))
      | _ => None
      end
  end.

(** A new semaphore ([sys_semaphore_create] accepted its arguments), with
    threads that are in no call. *)
Definition initial (s : sema) : Prop :=
  0 < max s /\ in_sint 32 (max s) /\ 0 <= val s <= max s /\ sq s = 0 /\ mutex s = None /\
  exists_ s = true /\ points s = ∅ /\ signal s = ∅ /\ failed s = false /\
  (forall t, is_again (cpus s) t = false) /\ cpus s !! 0 = None /\ Z.of_nat (size (cpus s)) < 2 ^ 31.

(** ** The invariant *)

(** Queued, or taken out of the queue and not yet back from the wait. *)
Definition asleep (p : point) : bool := match p with Sleep _ | TimeoutLock => true | _ => false end.
Definition stopped (p : point) : bool := match p with StoppedWait | StoppedPost => true | _ => false end.
(** The thread holds the host mutex. *)
Definition holds (p : point) : bool :=
  match p with WaitEnq _ | TimeoutFix | PostWake _ _ => true | _ => false end.
Definition outside (p : point) : bool := negb (asleep p || stopped p || holds p).

(** What the holder of the mutex still has to do to the queue. *)
Definition pend (p : point) : Z :=
  match p with WaitEnq _ | TimeoutFix => 1 | PostWake n _ => - Z.of_nat n | _ => 0 end.
Definition pending (s : sema) : Z := match mutex s with Some t => pend (pc s t) | None => 0 end.
Definition waking (s : sema) : list Z :=
  match mutex s with
  | Some t => match pc s t with PostWake _ ws => ws | _ => [] end
  | None => []
  end.

Record inv (s : sema) (l : list Z) : Prop := {
  i_queue : queue (cpus s) (sq s) l;
  i_max : 0 < max s < 2 ^ 31;
  i_size : Z.of_nat (size (cpus s)) < 2 ^ 31;
  i_le : val s <= max s;
  i_val : Z.max 0 (- val s) = Z.of_nat (length l) + pending s;
  i_in t : t ∈ l -> asleep (pc s t) = true \/ pc s t = StoppedWait;
  i_out t : asleep (pc s t) = true -> t ∈ l \/ t ∈ signal s \/ t ∈ waking s;
  i_fresh t : t ∈ l -> (t ∉ signal s) /\ (t ∉ waking s);
  i_again t : is_again (cpus s) t = stopped (pc s t);
  i_stop t : pc s t = StoppedWait -> t ∈ l;
  i_lock t : holds (pc s t) = true <-> mutex s = Some t;
  i_wake t n ws : pc s t = PostWake n ws -> forall u, u ∈ l -> is_again (cpus s) u = false;
  i_waking t : t ∈ waking s -> asleep (pc s t) = true /\ (t ∉ signal s);
  i_alive t : pc s t <> Idle -> t <> 0 /\ is_Some (cpus s !! t);
  i_signal t : t ∈ signal s -> asleep (pc s t) = true \/ exists r, pc s t = Returned r;
  i_destroyed : exists_ s = false -> 0 <= val s /\ forall t, in_idm (pc s t) = false;
  i_failed : failed s = false
}.

Lemma pc_set_pc t p s u : pc (set_pc t p s) u = if decide (u = t) then p else pc s u.
Proof.
  unfold pc. cbn. destruct (decide (u = t)) as [->|]; [by rewrite lookup_insert_eq|by rewrite lookup_insert_ne].
Qed.

Lemma pc_set_val v s u : pc (set_val v s) u = pc s u.
Proof. done. Qed.
Lemma pc_set_mutex m s u : pc (set_mutex m s) u = pc s u.
Proof. done. Qed.
Lemma pc_set_queue f h s u : pc (set_queue f h s) u = pc s u.
Proof. done. Qed.
Lemma pc_set_tag x s u : pc (set_tag x s) u = pc s u.
Proof. done. Qed.
Lemma pc_set_signal x s u : pc (set_signal x s) u = pc s u.
Proof. done. Qed.
Lemma pc_fail s u : pc (fail s) u = pc s u.
Proof. done. Qed.
Create Rewrite HintDb sema.
#[local] Hint Rewrite pc_set_pc pc_set_val pc_set_mutex pc_set_queue pc_set_tag pc_set_signal pc_fail : sema.

Lemma pc_other t p s u : u <> t -> pc (set_pc t p s) u = pc s u.
Proof. intros. rewrite pc_set_pc. by rewrite decide_False. Qed.

Lemma pc_same t p s : pc (set_pc t p s) t = p.
Proof. rewrite pc_set_pc. by rewrite decide_True. Qed.

(** A step of a thread that is neither asleep nor in the critical section. *)
Lemma inv_outside s l t p v e :
  inv s l -> outside (pc s t) = true -> outside p = true -> t <> 0 -> is_Some (cpus s !! t) ->
  v <= max s -> Z.max 0 (- v) = Z.max 0 (- val s) ->
  (p = Idle -> t ∉ signal s) -> (t ∈ signal s -> exists r, p = Returned r) ->
  (e = false -> 0 <= v /\ in_idm p = false /\ forall u, u <> t -> in_idm (pc s u) = false) ->
  inv (set_pc t p (set_val v (set_exists e s))) l.
Proof.
  intros I Ho Hp Ht0 Hts Hv Hm Hs1 Hs2 He.
  set (s' := set_val v (set_exists e s)).
  assert (Pc : forall u, pc s' u = pc s u) by done.
  assert (Nl : holds (pc s t) = false) by (unfold outside in Ho; by destruct (pc s t)).
  assert (Hm' : mutex s <> Some t) by (intros E; apply (i_lock _ _ I) in E; congruence).
  assert (Hpd : pending (set_pc t p s') = pending s).
  { unfold pending. cbn. destruct (mutex s) as [u|] eqn:Em; [|done]. rewrite pc_other by congruence. done. }
  assert (Hw : waking (set_pc t p s') = waking s).
  { unfold waking. cbn. destruct (mutex s) as [u|] eqn:Em; [|done]. rewrite pc_other by congruence. done. }
  assert (Hni : t ∉ l).
  { intros Hin. destruct (i_in _ _ I t Hin) as [E|E]; unfold outside in Ho; rewrite ?E in Ho; done. }
  assert (Hnw : t ∉ waking s).
  { intros Hin. apply (i_waking _ _ I) in Hin as [Hin _]. unfold outside in Ho. rewrite Hin in Ho. done. }
  split; rewrite ?Hpd, ?Hw; try apply I; try done.
  - cbn. rewrite Hm. apply I.
  - intros u Hu. rewrite pc_other by set_solver. by apply (i_in _ _ I).
  - intros u. rewrite pc_set_pc. destruct (decide (u = t)) as [->|].
    + unfold outside in Hp. intros E. by rewrite E in Hp.
    + apply (i_out _ _ I).
  - intros u. rewrite pc_set_pc. destruct (decide (u = t)) as [->|]; [|apply (i_again _ _ I)].
    cbn. rewrite (i_again _ _ I). unfold outside in *. by destruct (pc s t), p.
  - intros u. rewrite pc_set_pc. destruct (decide (u = t)) as [->|]; [by intros ->|apply (i_stop _ _ I)].
  - intros u. rewrite pc_set_pc. destruct (decide (u = t)) as [->|]; [|apply (i_lock _ _ I)].
    cbn. unfold outside in Hp. split; [|done]. intros E. by destruct p.
  - intros u n ws. rewrite pc_set_pc. destruct (decide (u = t)) as [->|]; [by intros ->|apply (i_wake _ _ I)].
  - intros u Hu. rewrite pc_other by set_solver. by apply (i_waking _ _ I).
  - intros u. rewrite pc_set_pc. destruct (decide (u = t)) as [->|]; [done|apply (i_alive _ _ I)].
  - intros u Hu. cbn in Hu. rewrite pc_set_pc. destruct (decide (u = t)) as [->|]; [eauto|by apply (i_signal _ _ I)].
  - cbn. intros ->. destruct (He eq_refl) as (A & B & C). split; [done|].
    intros u. rewrite pc_set_pc. destruct (decide (u = t)) as [->|]; [done|by apply C].
Qed.

Lemma set_val_exists_id s : set_val (val s) (set_exists (exists_ s) s) = s.
Proof. by destruct s. Qed.

(** A thread in a call, outside, and its next point. *)
Lemma inv_goto s l t p :
  inv s l -> outside (pc s t) = true -> outside p = true -> (forall r, pc s t <> Returned r) ->
  t <> 0 -> is_Some (cpus s !! t) -> p <> Idle -> (in_idm p = true -> exists_ s = true) ->
  inv (set_pc t p s) l.
Proof.
  intros I Ho Hp Nr H0 Hs Hi He. rewrite <- (set_val_exists_id s) at 1.
  apply inv_outside; try done.
  - apply I.
  - intros Hin. destruct (i_signal _ _ I t Hin) as [E|[r E]]; [|by apply Nr in E].
    unfold outside in Ho. by rewrite E in Ho.
  - intros E. destruct (i_destroyed _ _ I E) as [A B]. split_and!; [done| |intros; apply B].
    destruct (in_idm p); [|done]. rewrite He in E; done.
Qed.

(** The same with a change of the counter. *)
Lemma inv_goto_val s l t p v :
  inv s l -> outside (pc s t) = true -> outside p = true -> (forall r, pc s t <> Returned r) ->
  t <> 0 -> is_Some (cpus s !! t) -> p <> Idle -> (in_idm p = true -> exists_ s = true) ->
  v <= max s -> Z.max 0 (- v) = Z.max 0 (- val s) -> (exists_ s = false -> 0 <= v) ->
  inv (set_pc t p (set_val v s)) l.
Proof.
  intros I Ho Hp Nr H0 Hs Hi He Hv Hm Hd.
  replace (set_val v s) with (set_val v (set_exists (exists_ s) s)) by (by destruct s).
  apply inv_outside; try done.
  - intros Hin. destruct (i_signal _ _ I t Hin) as [E|[r E]]; [|by apply Nr in E].
    unfold outside in Ho. by rewrite E in Ho.
  - intros E. destruct (i_destroyed _ _ I E) as [A B]. split_and!; [auto| |intros; apply B].
    destruct (in_idm p); [|done]. rewrite He in E; done.
Qed.

Lemma can_call_spec t s :
  can_call t s = true -> pc s t = Idle /\ t <> 0 /\ is_Some (cpus s !! t).
Proof.
  unfold can_call. destruct (cpus s !! t) eqn:E; [|done]. destruct (pc s t) eqn:P; try done.
  rewrite andb_true_iff, !negb_true_iff, Z.eqb_neq. intros [_ H]. eauto.
Qed.

Lemma alive s l t p : inv s l -> pc s t = p -> p <> Idle -> t <> 0 /\ is_Some (cpus s !! t).
Proof. intros I E N. apply (i_alive _ _ I). congruence. Qed.

(** The mutex is free and [val] says whether somebody waits. *)
Lemma unlocked_val s l : inv s l -> unlocked s = true -> Z.max 0 (- val s) = Z.of_nat (length l) /\ waking s = [].
Proof.
  intros I U. pose proof (i_val _ _ I) as V. unfold pending, waking, unlocked in *.
  destruct (mutex s); [done|]. split; [lia|done].
Qed.

(** A thread that is not queued leaves room for one more waiter. *)
Lemma room s l t : inv s l -> t ∉ l -> is_Some (cpus s !! t) -> Z.of_nat (length l) + 1 < 2 ^ 31.
Proof.
  intros I Ni Hs. pose proof (i_size _ _ I).
  assert (S (length l) <= size (cpus s))%nat; [|lia].
  rewrite <- size_dom. change (S (length l)) with (length (t :: l)).
  rewrite <- (size_list_to_set (C := gset Z) (t :: l)).
  - apply subseteq_size. intros u Hu%elem_of_list_to_set. apply elem_of_dom.
    apply elem_of_cons in Hu as [->|Hu]; [done|]. exact (proj2 (queue_in _ _ _ u (i_queue _ _ I) Hu)).
  - constructor; [done|]. exact (proj2 (i_queue _ _ I)).
Qed.

Ltac other u t := autorewrite with sema; destruct (decide (u = t)) as [->|].

Lemma inv_wait_lock s l t timeout :
  inv s l -> pc s t = WaitLock timeout -> unlocked s = true -> exists l', inv (wait_lock t timeout s) l'.
Proof.
  intros I P U. destruct (alive _ _ _ _ I P) as [H0 Hs]; [done|].
  destruct (unlocked_val _ _ I U) as [V W].
  assert (Ni : t ∉ l) by (intros Hin; destruct (i_in _ _ I t Hin) as [E|E]; rewrite P in E; done).
  pose proof (room _ _ _ I Ni Hs) as R. pose proof (i_max _ _ I). pose proof (i_le _ _ I).
  assert (Ev : s32 (val s - 1) = val s - 1) by (apply sint_small; [lia|split; lia]).
  exists l. unfold wait_lock. rewrite Ev. destruct (Z.leb_spec (val s) 0) as [L|L].
  - assert (Mt : mutex s = None) by (unfold unlocked in U; by destruct (mutex s)).
    split; cbn -[pc]; try apply I; try lia; try done.
    + unfold pending. cbn -[pc]. rewrite pc_same. cbn [pend]. lia.
    + intros u Hu. rewrite pc_other by set_solver. by apply (i_in _ _ I).
    + intros u. unfold waking. cbn -[pc]. rewrite pc_same. other u t; [done|].
      intros A. destruct (i_out _ _ I u A) as [|[|B]]; [by left|by right; left|]. rewrite W in B. set_solver.
    + intros u Hu. split; [by apply (i_fresh _ _ I)|]. unfold waking. cbn -[pc]. rewrite pc_same. set_solver.
    + intros u. other u t; [rewrite (i_again _ _ I), P; done|apply (i_again _ _ I)].
    + intros u. other u t; [done|apply (i_stop _ _ I)].
    + intros u. other u t; [done|]. split; [|congruence]. intros A. apply (i_lock _ _ I) in A. congruence.
    + intros u n ws. other u t; [done|apply (i_wake _ _ I)].
    + intros u. unfold waking. cbn -[pc]. rewrite pc_same. set_solver.
    + intros u. other u t; [done|apply (i_alive _ _ I)].
    + intros u Hu. other u t; [|by apply (i_signal _ _ I)].
      destruct (i_signal _ _ I t Hu) as [E|[r E]]; rewrite P in E; done.
    + intros E. destruct (i_destroyed _ _ I E) as [_ B]. specialize (B t). rewrite P in B. done.
  - apply inv_goto_val; try done; rewrite ?P; try done; try lia.
Qed.

Lemma inv_wait_enq s l t timeout :
  inv s l -> pc s t = WaitEnq timeout -> inv (wait_enq t timeout s) (t :: l).
Proof.
  intros I P. destruct (alive _ _ _ _ I P) as [H0 [c Hc]]; [done|].
  assert (Ni : t ∉ l) by (intros Hin; destruct (i_in _ _ I t Hin) as [E|E]; rewrite P in E; done).
  assert (Mt : mutex s = Some t) by (apply (i_lock _ _ I); by rewrite P).
  unfold wait_enq.
  destruct (emplace_spec (tag s) (cpus s) (sq s) l t c (i_queue _ _ I) Ni H0 Hc) as (h' & -> & Q' & E' & F').
  assert (Ag : forall u, is_again h' u = is_again (cpus s) u).
  { intros u. unfold is_again. destruct (decide (u = t)) as [->|]; [by rewrite E', Hc|by rewrite F']. }
  assert (Dm : forall u, is_Some (cpus s !! u) -> is_Some (h' !! u)).
  { intros u Hu. destruct (decide (u = t)) as [->|]; [by rewrite E'|by rewrite F']. }
  assert (Sz : size h' = size (cpus s)).
  { rewrite <- !size_dom. f_equal. apply set_eq. intros u. rewrite !elem_of_dom. split; [|apply Dm].
    destruct (decide (u = t)) as [->|]; [by rewrite Hc|by rewrite F']. }
  pose proof (i_val _ _ I) as V. unfold pending in V. rewrite Mt, P in V. cbn in V.
  assert (W : waking s = []) by (unfold waking; by rewrite Mt, P).
  split; cbn -[pc length]; try apply I; try done.
  - rewrite Sz. apply I.
  - cbn [length]. unfold pending. cbn. lia.
  - intros u Hu. other u t; [by left|]. apply (i_in _ _ I). set_solver.
  - intros u. other u t; [set_solver|]. intros A. destruct (i_out _ _ I u A) as [|[|B]];
      [set_solver|set_solver|rewrite W in B; set_solver].
  - intros u Hu. split; [|unfold waking; cbn; set_solver]. apply elem_of_cons in Hu as [->|Hu].
    + intros Hu. destruct (i_signal _ _ I t Hu) as [E|[r E]]; rewrite P in E; done.
    + by apply (i_fresh _ _ I).
  - intros u. rewrite Ag. other u t; [rewrite (i_again _ _ I), P; done|apply (i_again _ _ I)].
  - intros u. other u t; [done|]. intros A. apply (i_stop _ _ I) in A. set_solver.
  - intros u. other u t; [done|]. split; [|done]. intros A. apply (i_lock _ _ I) in A. congruence.
  - intros u n ws. other u t; [done|]. intros A.
    assert (B : mutex s = Some u) by (apply (i_lock _ _ I); by rewrite A). congruence.
  - intros u. unfold waking. cbn. set_solver.
  - intros u. other u t; [eauto|]. intros A. apply (i_alive _ _ I) in A as [? ?]. auto.
  - intros u Hu. other u t; [|by apply (i_signal _ _ I)].
    destruct (i_signal _ _ I t Hu) as [E|[r E]]; rewrite P in E; done.
  - intros E. destruct (i_destroyed _ _ I E) as [_ B]. specialize (B t). rewrite P in B. done.
Qed.

(** A thread that sleeps and is not queued goes back to its caller. *)
Lemma inv_wake_up s l t g :
  inv s l -> asleep (pc s t) = true -> t ∉ l -> t ∉ waking s ->
  g ⊆ signal s -> (forall u, u <> t -> u ∈ signal s -> u ∈ g) ->
  inv (set_pc t (Returned CELL_OK) (set_signal g s)) l.
Proof.
  intros I A Ni Nw G1 G2.
  assert (Mt : mutex s <> Some t) by (intros E; apply (i_lock _ _ I) in E; by destruct (pc s t)).
  set (s' := set_pc t (Returned CELL_OK) (set_signal g s)).
  assert (Hpd : pending s' = pending s).
  { unfold pending, s'. cbn. destruct (mutex s) as [u|]; [|done]. by rewrite pc_other by congruence. }
  assert (Hw : waking s' = waking s).
  { unfold waking, s'. cbn. destruct (mutex s) as [u|]; [|done]. by rewrite pc_other by congruence. }
  split; rewrite ?Hpd, ?Hw; unfold s'; cbn -[pc]; try apply I.
  - intros u Hu. rewrite pc_other by set_solver. by apply (i_in _ _ I).
  - intros u. other u t; [done|]. intros B. destruct (i_out _ _ I u B) as [|[|]]; auto.
  - intros u Hu. destruct (i_fresh _ _ I u Hu). set_solver.
  - intros u. other u t; [|apply (i_again _ _ I)]. rewrite (i_again _ _ I). by destruct (pc s t).
  - intros u. other u t; [done|apply (i_stop _ _ I)].
  - intros u. other u t; [done|apply (i_lock _ _ I)].
  - intros u n ws. other u t; [done|apply (i_wake _ _ I)].
  - intros u Hu. rewrite pc_other by set_solver. destruct (i_waking _ _ I u Hu). split; [done|set_solver].
  - intros u. other u t; [|apply (i_alive _ _ I)]. intros _. apply (i_alive _ _ I). by destruct (pc s t).
  - intros u Hu. other u t; [eauto|]. apply (i_signal _ _ I). set_solver.
  - intros E. destruct (i_destroyed _ _ I E) as [B C]. split; [done|]. intros u. other u t; [done|apply C].
Qed.

Lemma inv_stop s l t p :
  inv s l -> unlocked s = true -> pc s t <> Idle -> stopped p = true ->
  (asleep (pc s t) = true /\ p = StoppedWait /\ t ∈ l) \/ (outside (pc s t) = true /\ p = StoppedPost) ->
  t ∉ signal s ->
  inv (set_pc t p (set_queue (sq s) (alter set_again t (cpus s)) s)) l.
Proof.
  intros I U Ni Sp H Ns. destruct (i_alive _ _ I t Ni) as [H0 Hs].
  destruct (unlocked_val _ _ I U) as [V W].
  assert (Mt : mutex s = None) by (unfold unlocked in U; by destruct (mutex s)).
  split; cbn -[pc]; try apply I.
  - apply set_again_queue, I.
  - rewrite set_again_size. apply I.
  - rewrite V. unfold pending. cbn. rewrite Mt. lia.
  - intros u Hu. other u t; [|by apply (i_in _ _ I)].
    right. destruct H as [(_ & -> & _)|(O & ->)]; [done|].
    destruct (i_in _ _ I t Hu) as [E|E]; unfold outside in O; rewrite E in O; done.
  - intros u. unfold waking. cbn. rewrite Mt. other u t.
    + by destruct p.
    + intros A. destruct (i_out _ _ I u A) as [|[|B]]; [auto|auto|]. rewrite W in B. auto.
  - intros u Hu. split; [by apply (i_fresh _ _ I)|]. unfold waking. cbn. rewrite Mt. set_solver.
  - intros u. rewrite set_again_is. other u t; [by rewrite bool_decide_true|apply (i_again _ _ I)].
  - intros u. other u t; [|apply (i_stop _ _ I)]. by destruct H as [(_ & -> & ?)|(O & ->)].
  - intros u. other u t; [|apply (i_lock _ _ I)]. rewrite Mt. by destruct p.
  - intros u n ws. other u t; [by intros ->|]. intros A.
    assert (B : mutex s = Some u) by (apply (i_lock _ _ I); by rewrite A). congruence.
  - intros u. unfold waking. cbn. rewrite Mt. set_solver.
  - intros u. rewrite set_again_dom. other u t; [done|apply (i_alive _ _ I)].
  - intros u Hu. rewrite pc_other by set_solver. by apply (i_signal _ _ I).
  - intros E. destruct (i_destroyed _ _ I E) as [B C]. split; [done|]. intros u. other u t; [by destruct p|apply C].
Qed.

(** A timed-out waiter takes itself out of the queue. *)
Lemma inv_unqueued s l t first h :
  inv s l -> pc s t = TimeoutLock -> unlocked s = true -> t ∈ l ->
  queue h first (qremove t l) -> same_cpus (cpus s) h ->
  inv (set_pc t TimeoutFix (set_mutex (Some t) (set_queue first h s))) (qremove t l).
Proof.
  intros I P U Hl Q Sc. destruct (unlocked_val _ _ I U) as [V W].
  assert (Mt : mutex s = None) by (unfold unlocked in U; by destruct (mutex s)).
  pose proof (qremove_length t l (proj2 (i_queue _ _ I)) Hl) as Len.
  assert (W' : waking (set_pc t TimeoutFix (set_mutex (Some t) (set_queue first h s))) = [])
    by (unfold waking; cbn -[pc]; by rewrite pc_same).
  split; rewrite ?W'; cbn -[pc]; try apply I; try done.
  - rewrite (same_cpus_size _ _ Sc). apply I.
  - unfold pending. cbn -[pc]. rewrite pc_same. cbn. lia.
  - intros u [Hu N]%elem_of_qremove. rewrite pc_other by done. by apply (i_in _ _ I).
  - intros u. other u t; [done|]. intros A. rewrite elem_of_qremove.
    destruct (i_out _ _ I u A) as [|[|B]]; [auto|auto|]. rewrite W in B. auto.
  - intros u [Hu N]%elem_of_qremove. split; [by apply (i_fresh _ _ I)|set_solver].
  - intros u. rewrite (same_cpus_again _ _ _ Sc). other u t; [|apply (i_again _ _ I)].
    by rewrite (i_again _ _ I), P.
  - intros u. other u t; [done|]. intros A. apply elem_of_qremove. split; [by apply (i_stop _ _ I)|done].
  - intros u. other u t; [done|]. split; [|congruence]. intros A. apply (i_lock _ _ I) in A. congruence.
  - intros u n ws. other u t; [done|]. intros A.
    assert (B : mutex s = Some u) by (apply (i_lock _ _ I); by rewrite A). congruence.
  - set_solver.
  - intros u. rewrite (same_cpus_dom _ _ _ Sc). other u t; [|apply (i_alive _ _ I)].
    intros _. apply (i_alive _ _ I). by rewrite P.
  - intros u Hu. other u t; [|by apply (i_signal _ _ I)].
    by destruct (i_fresh _ _ I t Hl) as [? _].
  - intros E. destruct (i_destroyed _ _ I E) as [B C]. split; [done|]. intros u. other u t; [done|apply C].
Qed.

Lemma inv_wait_timeout s l t s' :
  inv s l -> pc s t = TimeoutLock -> unlocked s = true -> wait_timeout t s = Some s' ->
  exists l', inv s' l'.
Proof.
  intros I P U E. destruct (alive _ _ _ _ I P) as [H0 Hs]; [done|]. unfold wait_timeout in E.
  destruct (unqueue_spec true (cpus s) (sq s) l t (i_queue _ _ I) H0) as (f & h & Eu & Q & Sc & F).
  rewrite Eu in E. cbn [mbind option_bind] in E. destruct (decide (t ∈ l)) as [Hl|Hl].
  - destruct (Z.eqb_spec t 0); [done|]. injection E as <-. eexists. by eapply inv_unqueued.
  - cbn in E. injection E as <-. rewrite qremove_notin in Q by done. exists l.
    assert (I' : inv (set_queue f h s) l).
    { destruct (unlocked_val _ _ I U) as [V W]. split; cbn -[pc]; autorewrite with sema; try apply I; try done.
      - rewrite (same_cpus_size _ _ Sc). apply I.
      - intros u. rewrite (same_cpus_again _ _ _ Sc). apply (i_again _ _ I).
      - intros u n ws A v Hv. rewrite (same_cpus_again _ _ _ Sc). by eapply (i_wake _ _ I).
      - intros u. rewrite (same_cpus_dom _ _ _ Sc). apply (i_alive _ _ I). }
    replace (set_queue f h s) with (set_signal (signal s) (set_queue f h s)) by (by destruct s).
    apply inv_wake_up; try done; autorewrite with sema; [by rewrite P|].
    destruct (unlocked_val _ _ I U) as [_ W]. unfold waking in *. cbn in *.
    unfold unlocked in U. destruct (mutex s); [done|]. set_solver.
Qed.

Lemma inv_timeout_fix s l t :
  inv s l -> pc s t = TimeoutFix -> inv (wait_timeout_fix t s) l.
Proof.
  intros I P. assert (Mt : mutex s = Some t) by (apply (i_lock _ _ I); by rewrite P).
  pose proof (i_val _ _ I) as V. unfold pending in V. rewrite Mt, P in V. cbn in V.
  assert (Hneg : val s < 0) by lia. assert (W : waking s = []) by (unfold waking; by rewrite Mt, P).
  destruct (alive _ _ _ _ I P) as [H0 Hs]; [done|].
  assert (Ni : t ∉ l) by (intros Hin; destruct (i_in _ _ I t Hin) as [E|E]; rewrite P in E; done).
  pose proof (room _ _ _ I Ni Hs) as R. pose proof (i_max _ _ I).
  unfold wait_timeout_fix. cbv zeta. rewrite (proj2 (Z.ltb_lt (val s) 0)) by done.
  rewrite (proj2 (Z.gtb_lt 0 (val s))) by done.
  rewrite sint_small by (try lia; split; lia).
  split; cbn -[pc]; try apply I; try done; try lia.
  - intros u Hu. rewrite pc_other by set_solver. by apply (i_in _ _ I).
  - intros u. other u t; [done|]. intros A. destruct (i_out _ _ I u A) as [|[|B]]; [auto|auto|].
    rewrite W in B. set_solver.
  - intros u Hu. split; [by apply (i_fresh _ _ I)|unfold waking; cbn; set_solver].
  - intros u. other u t; [by rewrite (i_again _ _ I), P|apply (i_again _ _ I)].
  - intros u. other u t; [done|apply (i_stop _ _ I)].
  - intros u. other u t; [done|]. split; [|done]. intros A. apply (i_lock _ _ I) in A. congruence.
  - intros u n ws. other u t; [done|apply (i_wake _ _ I)].
  - intros u. unfold waking. cbn. set_solver.
  - intros u. other u t; [done|apply (i_alive _ _ I)].
  - intros u Hu. other u t; [eauto|]. by apply (i_signal _ _ I).
  - intros E. destruct (i_destroyed _ _ I E). lia.
Qed.

(** The lock of [sys_semaphore_post]: the counter is raised first. *)
Lemma inv_post_lock s l t count s' :
  inv s l -> pc s t = PostLock count -> 0 < count < 2 ^ 31 -> unlocked s = true ->
  post_lock t count s = Some s' -> inv s' l.
Proof.
  intros I P Hc U E. destruct (unlocked_val _ _ I U) as [V W]. unfold post_lock in E.
  assert (Mt : mutex s = None) by (unfold unlocked in U; by destruct (mutex s)).
  rewrite (walk_spec _ _ _ (i_queue _ _ I)) in E. cbn [mbind option_bind] in E. injection E as <-.
  destruct (alive _ _ _ _ I P) as [H0 Hs]; [done|].
  assert (Ns : t ∉ signal s)
    by (intros Hin; destruct (i_signal _ _ I t Hin) as [E|[r E]]; rewrite P in E; done).
  assert (Ni : t ∉ l) by (intros Hin; destruct (i_in _ _ I t Hin) as [E|E]; rewrite P in E; done).
  destruct (existsb (is_again (cpus s)) l) eqn:Ea.
  { apply inv_stop; try done; [by rewrite P|]. right. by rewrite P. }
  pose proof (room _ _ _ I Ni Hs) as R. pose proof (i_max _ _ I). pose proof (i_le _ _ I).
  rewrite (uint_small 32 count), (uint_small 32 (max s - val s)) by (split; lia).
  destruct (Z.leb_spec count (max s - val s)) as [L|L].
  2: { apply inv_goto; try done; rewrite ?P; done. }
  assert (Ev : s32 (val s + count) = val s + count) by (apply sint_small; [lia|split; lia]).
  rewrite Ev. split; cbn -[pc]; try apply I; try done; try lia.
  - unfold pending. cbn -[pc]. rewrite pc_same. cbn. lia.
  - intros u Hu. rewrite pc_other by set_solver. by apply (i_in _ _ I).
  - intros u. unfold waking. cbn -[pc]. rewrite pc_same. other u t; [done|]. intros A.
    destruct (i_out _ _ I u A) as [|[|B]]; [auto|auto|]. rewrite W in B. auto.
  - intros u Hu. split; [by apply (i_fresh _ _ I)|]. unfold waking; cbn -[pc]. rewrite pc_same. set_solver.
  - intros u. other u t; [by rewrite (i_again _ _ I), P|apply (i_again _ _ I)].
  - intros u. other u t; [done|apply (i_stop _ _ I)].
  - intros u. other u t; [done|]. split; [|congruence]. intros A. apply (i_lock _ _ I) in A. congruence.
  - intros u n ws. other u t.
    + intros _ v Hv. destruct (is_again (cpus s) v) eqn:Ev'; [|done].
      apply not_true_iff_false in Ea. destruct Ea. apply existsb_exists. exists v.
      split; [by apply list_elem_of_In|done].
    + intros A. assert (B : mutex s = Some u) by (apply (i_lock _ _ I); by rewrite A). congruence.
  - intros u. unfold waking. cbn -[pc]. rewrite pc_same. set_solver.
  - intros u. other u t; [done|apply (i_alive _ _ I)].
  - intros u Hu. other u t; [done|]. by apply (i_signal _ _ I).
  - intros E. destruct (i_destroyed _ _ I E) as [B C]. split; [lia|]. intros u. other u t; [done|apply C].
Qed.

(** One waiter is scheduled and put on the list of threads to wake. *)
Lemma inv_post_wake_one s l t n ws s' :
  inv s l -> pc s t = PostWake (S n) ws -> post_wake t (S n) ws s = Some s' ->
  exists r, r = pick (protocol s) (cpus s) l /\ inv s' (qremove r l) /\ r ∈ l.
Proof.
  intros I P E. assert (Mt : mutex s = Some t) by (apply (i_lock _ _ I); by rewrite P).
  pose proof (i_val _ _ I) as V. unfold pending in V. rewrite Mt, P in V. cbn [pend] in V.
  assert (Hn : l <> []) by (intros ->; cbn in V; lia).
  pose proof (pick_in (protocol s) (cpus s) l Hn) as Hr. cbn [post_wake] in E.
  destruct (schedule_spec (protocol s) true (cpus s) (sq s) l (i_queue _ _ I)) as (f & h & Es & Sc & _ & Q).
  rewrite Es in E. cbn [mbind option_bind] in E. set (r := pick (protocol s) (cpus s) l) in *.
  destruct (queue_in _ _ _ r (i_queue _ _ I) Hr) as [Hr0 Hrs].
  destruct (Z.eqb_spec r 0); [done|]. injection E as <-.
  rewrite (i_wake _ _ I _ _ _ P r Hr) in Q. exists r. split_and!; [done| |done].
  pose proof (qremove_length r l (proj2 (i_queue _ _ I)) Hr) as Len.
  assert (Ni : t ∉ l) by (intros Hin; destruct (i_in _ _ I t Hin) as [E|E]; rewrite P in E; done).
  assert (W : waking s = ws) by (unfold waking; by rewrite Mt, P).
  assert (Ws : waking (set_pc t (PostWake n (r :: ws)) (set_queue f h s)) = r :: ws)
    by (unfold waking; cbn -[pc]; by rewrite Mt, pc_same).
  split; rewrite ?Ws; cbn -[pc]; try apply I; try done.
  - rewrite (same_cpus_size _ _ Sc). apply I.
  - unfold pending. cbn -[pc Z.max Z.opp]. rewrite Mt, pc_same. cbn [pend]. lia.
  - intros u [Hu N]%elem_of_qremove. rewrite pc_other by set_solver. by apply (i_in _ _ I).
  - intros u. other u t; [done|]. intros A. destruct (decide (u = r)) as [->|]; [set_solver|].
    rewrite elem_of_qremove. destruct (i_out _ _ I u A) as [|[|B]]; [auto|auto|]. rewrite W in B. set_solver.
  - intros u [Hu N]%elem_of_qremove. destruct (i_fresh _ _ I u Hu) as [A B]. rewrite W in B. set_solver.
  - intros u. rewrite (same_cpus_again _ _ _ Sc). other u t; [by rewrite (i_again _ _ I), P|apply (i_again _ _ I)].
  - intros u. other u t; [done|]. intros A. apply elem_of_qremove. split; [by apply (i_stop _ _ I)|].
    intros ->. pose proof (i_wake _ _ I _ _ _ P r Hr) as F. rewrite (i_again _ _ I), A in F. done.
  - intros u. other u t; [done|apply (i_lock _ _ I)].
  - intros u k vs _ v [Hv N]%elem_of_qremove. rewrite (same_cpus_again _ _ _ Sc). by eapply (i_wake _ _ I).
  - intros u Hu. apply elem_of_cons in Hu as [->|Hu].
    + split; [|by apply (i_fresh _ _ I)]. rewrite pc_other by set_solver.
      destruct (i_in _ _ I r Hr) as [A|A]; [done|].
      pose proof (i_wake _ _ I _ _ _ P r Hr) as F. rewrite (i_again _ _ I), A in F. done.
    + rewrite <- W in Hu. destruct (i_waking _ _ I u Hu) as [A B]. other u t; [|done]. by rewrite P in A.
  - intros u. rewrite (same_cpus_dom _ _ _ Sc). other u t; [|apply (i_alive _ _ I)].
    intros _. apply (i_alive _ _ I). by rewrite P.
  - intros u Hu. other u t; [|by apply (i_signal _ _ I)].
    destruct (i_signal _ _ I t Hu) as [E|[x E]]; rewrite P in E; done.
  - intros E. destruct (i_destroyed _ _ I E) as [B C]. split; [done|]. intros u. other u t; [done|apply C].
Qed.

(** The threads on the list are signalled and the mutex is released. *)
Lemma inv_post_wake_done s l t ws s' :
  inv s l -> pc s t = PostWake 0 ws -> post_wake t 0 ws s = Some s' -> inv s' l.
Proof.
  intros I P E. assert (Mt : mutex s = Some t) by (apply (i_lock _ _ I); by rewrite P).
  cbn [post_wake] in E. injection E as <-.
  pose proof (i_val _ _ I) as V. unfold pending in V. rewrite Mt, P in V. cbn [pend] in V.
  assert (W : waking s = ws) by (unfold waking; by rewrite Mt, P).
  split; cbn -[pc]; try apply I; try done.
  - intros u Hu. other u t; [|by apply (i_in _ _ I)].
    destruct (i_in _ _ I t Hu) as [E|E]; rewrite P in E; done.
  - intros u. other u t; [done|]. intros A. rewrite elem_of_union, elem_of_list_to_set.
    destruct (i_out _ _ I u A) as [|[|B]]; [auto|auto|]. rewrite W in B. auto.
  - intros u Hu. destruct (i_fresh _ _ I u Hu) as [A B]. rewrite W in B.
    rewrite elem_of_union, elem_of_list_to_set. split; [tauto|unfold waking; cbn; set_solver].
  - intros u. other u t; [by rewrite (i_again _ _ I), P|apply (i_again _ _ I)].
  - intros u. other u t; [done|apply (i_stop _ _ I)].
  - intros u. other u t; [done|]. split; [|done]. intros A. apply (i_lock _ _ I) in A. congruence.
  - intros u n vs. other u t; [done|]. apply (i_wake _ _ I).
  - intros u. unfold waking. cbn. set_solver.
  - intros u. other u t; [|apply (i_alive _ _ I)]. intros _. apply (i_alive _ _ I). by rewrite P.
  - intros u. rewrite elem_of_union, elem_of_list_to_set, <- W. intros [Hu|Hu].
    + other u t; [eauto|]. by apply (i_signal _ _ I).
    + destruct (i_waking _ _ I u Hu) as [A _]. other u t; [eauto|]. auto.
  - intros E. destruct (i_destroyed _ _ I E) as [B C]. split; [done|]. intros u. other u t; [done|apply C].
Qed.

(** [wait_timeout] returned, or the call returned to guest code. *)
Lemma inv_timeout_lock s l t b :
  inv s l -> pc s t = Sleep b -> inv (set_pc t TimeoutLock s) l.
Proof.
  intros I P. assert (Mt : mutex s <> Some t) by (intros E; apply (i_lock _ _ I) in E; by rewrite P in E).
  assert (Hpd : pending (set_pc t TimeoutLock s) = pending s).
  { unfold pending. cbn. destruct (mutex s) as [u|]; [|done]. by rewrite pc_other by congruence. }
  assert (Hw : waking (set_pc t TimeoutLock s) = waking s).
  { unfold waking. cbn. destruct (mutex s) as [u|]; [|done]. by rewrite pc_other by congruence. }
  split; rewrite ?Hpd, ?Hw; try apply I.
  - intros u Hu. other u t; [auto|]. by apply (i_in _ _ I).
  - intros u. other u t; [|apply (i_out _ _ I)]. intros _. apply (i_out _ _ I). by rewrite P.
  - intros u. other u t; [|apply (i_again _ _ I)]. cbn. by rewrite (i_again _ _ I), P.
  - intros u. other u t; [done|apply (i_stop _ _ I)].
  - intros u. other u t; [|apply (i_lock _ _ I)]. done.
  - intros u n ws. other u t; [done|apply (i_wake _ _ I)].
  - intros u Hu. pose proof (i_waking _ _ I u Hu) as [A B]. other u t; done.
  - intros u. other u t; [|apply (i_alive _ _ I)]. intros _. apply (i_alive _ _ I). by rewrite P.
  - intros u Hu. other u t; [auto|]. by apply (i_signal _ _ I).
  - intros E. destruct (i_destroyed _ _ I E) as [B C]. split; [done|]. intros u. other u t; [done|apply C].
Qed.

Lemma inv_return s l t r :
  inv s l -> pc s t = Returned r -> inv (set_pc t Idle (set_signal (signal s ∖ {[t]}) s)) l.
Proof.
  intros I P. destruct (alive _ _ _ _ I P) as [H0 Hs]; [done|].
  assert (I' : inv (set_signal (signal s ∖ {[t]}) s) l).
  { split; try apply I.
    - intros u A. destruct (i_out _ _ I u A) as [|[|]]; [auto| |auto]. right. left. cbn.
      apply elem_of_difference. split; [done|]. intros ->%elem_of_singleton.
      change (pc (set_signal (signal s ∖ {[t]}) s) t) with (pc s t) in A. by rewrite P in A.
    - intros u Hu. destruct (i_fresh _ _ I u Hu). cbn. set_solver.
    - intros u Hu. destruct (i_waking _ _ I u Hu). split; [done|]. cbn. set_solver.
    - intros u Hu. apply (i_signal _ _ I). cbn in Hu. set_solver. }
  rewrite <- (set_val_exists_id (set_signal _ s)) at 1. apply inv_outside; try done; autorewrite with sema.
  - by rewrite P.
  - cbn. apply I.
  - cbn. set_solver.
  - cbn. set_solver.
  - intros E. destruct (i_destroyed _ _ I E) as [B C]. split_and!; [done|done|intros; apply C].
Qed.

(** ** The specification: a counting semaphore

    The value is never negative, and the waiters are a list.  A post hands its
    units to waiters first, chosen by the protocol. *)
Record counting := Counting { count : Z; waiters : list Z }.

Inductive event : Set :=
  | Tau                 (* nothing observable *)
  | Acquire (t : Z)     (* a unit is taken *)
  | Block (t : Z)       (* no unit: the thread queues *)
  | Leave (t : Z)       (* a waiter gives up *)
  | Refuse              (* trywait finds no unit *)
  | Post (n : Z)
  | Full (n : Z)        (* the post would exceed the maximum *)
  | Invalid (n : Z).    (* the count posted is not positive *)

Fixpoint after (n : nat) (protocol : Z) (h : threads) (l : list Z) : list Z :=
  match n with
  | O => l
  | S n' => after n' protocol h (qremove (pick protocol h l) l)
  end.

Definition spec_step (protocol max : Z) (h : threads) (e : event) (a : counting) : option counting :=
  let nw := Z.of_nat (length (waiters a)) in
  match e with
  | Tau => Some a
  | Acquire _ => if 0 <? count a then Some (Counting (count a - 1) (waiters a)) else None
  | Block t => if count a =? 0 then Some (Counting 0 (t :: waiters a)) else None
  | Leave t => if mem_list t (waiters a) then Some (Counting (count a) (qremove t (waiters a))) else None
  | Refuse => if count a =? 0 then Some a else None
  | Post n =>
      if (0 <? n) && (n <=? max - count a + nw) then
        let k := Z.min n nw in
        Some (Counting (count a + n - k) (after (Z.to_nat k) protocol h (waiters a)))
      else None
  | Full n => if max - count a + nw <? n then Some a else None
  | Invalid n => if n <=? 0 then Some a else None
  end.

(** The event a step makes visible, read off where the thread was and where it
    is. *)
Definition event_of (a : action) (s s' : sema) : event :=
  match a with
  | CallTrywait t =>
      match pc s' t with
      | Returned r => if r =? CELL_OK then Acquire t else if r =? CELL_EBUSY then Refuse else Tau
      | _ => Tau
      end
  | Run t =>
      match pc s t, pc s' t with
      | WaitCas _ _, Returned _ => Acquire t
      | WaitLock _, Returned _ => Acquire t
      | WaitLock _, WaitEnq _ => Block t
      | TimeoutLock, TimeoutFix => Leave t
      | PostCas n _, Returned r => if r =? CELL_OK then Post n else Invalid n
      | PostLock n, PostWake _ _ => Post n
      | PostLock n, Returned _ => Full n
      | _, _ => Tau
      end
  | _ => Tau
  end.

(** The waiters of the specification: the queue, with what the holder of the
    mutex is about to do to it already done. *)
Definition view (s : sema) (l : list Z) : list Z :=
  match mutex s with
  | Some t =>
      match pc s t with
      | WaitEnq _ => t :: l
      | PostWake n _ => after n (protocol s) (cpus s) l
      | _ => l
      end
  | None => l
  end.
Definition abs (s : sema) (l : list Z) : counting := Counting (Z.max 0 (val s)) (view s l).

Lemma after_ext n protocol h h' l :
  (forall t, prio_of h' t = prio_of h t) -> after n protocol h' l = after n protocol h l.
Proof.
  intros E. revert l. induction n as [|n IH]; intros l; [done|].
  cbn. rewrite (pick_ext protocol h h') by done. apply IH.
Qed.

Lemma after_all n protocol h l : NoDup l -> n = length l -> after n protocol h l = [].
Proof.
  revert l. induction n as [|n IH]; intros l N E; [by destruct l|].
  assert (Hl : l <> []) by (intros ->; discriminate).
  cbn. apply IH; [by apply qremove_NoDup|].
  pose proof (qremove_length (pick protocol h l) l N (pick_in _ _ _ Hl)). lia.
Qed.

(** The counter is not negative: nobody waits. *)
Lemma view_nil s l : inv s l -> 0 <= val s -> view s l = [].
Proof.
  intros I V. pose proof (i_val _ _ I) as E. unfold pending, view in *.
  destruct (mutex s) as [t|] eqn:Mt; [|destruct l; [done|cbn [length] in E; lia]].
  pose proof (proj2 (i_lock _ _ I t) Mt) as H. destruct (pc s t) eqn:P; try done; cbn [pend] in E; try lia.
  apply after_all; [apply (i_queue _ _ I)|lia].
Qed.

Lemma view_set_pc s l t p : mutex s <> Some t -> view (set_pc t p s) l = view s l.
Proof.
  intros N. unfold view. cbn. destruct (mutex s) as [u|]; [|done]. by rewrite pc_other by congruence.
Qed.

Lemma not_holder s l t : inv s l -> holds (pc s t) = false -> mutex s <> Some t.
Proof. intros I H E. apply (i_lock _ _ I) in E. congruence. Qed.

Definition count_ok (p : point) : Prop :=
  match p with PostCas c _ => in_sint 32 c | PostLock c => 0 < c < 2 ^ 31 | _ => True end.

Record good (s : sema) (l : list Z) : Prop := {
  g_inv : inv s l;
  g_count t : count_ok (pc s t)
}.

Lemma count_ok_set s t p : (forall u, count_ok (pc s u)) -> count_ok p -> forall u, count_ok (pc (set_pc t p s) u).
Proof. intros H Hp u. rewrite pc_set_pc. by destruct (decide (u = t)). Qed.

(** A step leads to a good state and is a step of the specification. *)
Definition simulates (a : action) (s s' : sema) (l : list Z) : Prop :=
  exists l', good s' l' /\
    spec_step (protocol s) (max s) (cpus s) (event_of a s s') (abs s l) = Some (abs s' l').

(** Steps that leave counter, queue and mutex alone. *)
Lemma simulates_tau a s l t p g :
  good (set_pc t p (set_signal g s)) l -> mutex s <> Some t -> event_of a s (set_pc t p (set_signal g s)) = Tau ->
  simulates a s (set_pc t p (set_signal g s)) l.
Proof.
  intros G N E. exists l. split; [done|]. rewrite E. cbn [spec_step]. unfold abs. by rewrite view_set_pc.
Qed.

Lemma set_signal_id s : set_signal (signal s) s = s.
Proof. by destruct s. Qed.

(** A step from an outside point to another one. *)
Lemma simulates_goto a s l t p :
  good s l -> outside (pc s t) = true -> outside p = true -> (forall r, pc s t <> Returned r) ->
  t <> 0 -> is_Some (cpus s !! t) -> p <> Idle -> (in_idm p = true -> exists_ s = true) -> count_ok p ->
  event_of a s (set_pc t p s) = Tau -> simulates a s (set_pc t p s) l.
Proof.
  intros [I C] Ho Hp Nr H0 Hs Hi He Hc Ev. rewrite <- (set_signal_id s) at 2. apply simulates_tau.
  - rewrite set_signal_id. split; [by apply inv_goto|by apply count_ok_set].
  - apply (not_holder s l); [done|]. unfold outside in Ho. by destruct (pc s t).
  - by rewrite set_signal_id.
Qed.

(** A step that also changes the counter, with the event it shows. *)
Lemma simulates_val a s l t p v e :
  good s l -> outside (pc s t) = true -> outside p = true -> (forall r, pc s t <> Returned r) ->
  t <> 0 -> is_Some (cpus s !! t) -> p <> Idle -> in_idm p = false -> count_ok p ->
  v <= max s -> 0 <= v -> 0 <= val s -> event_of a s (set_pc t p (set_val v s)) = e ->
  spec_step (protocol s) (max s) (cpus s) e (Counting (val s) []) = Some (Counting v []) ->
  simulates a s (set_pc t p (set_val v s)) l.
Proof.
  intros [I C] Ho Hp Nr H0 Hs Hi He Hc Hv Hv0 Hs0 <- Sp. exists l. split.
  - split; [|by apply count_ok_set]. apply inv_goto_val; try done; [by rewrite He|lia].
  - assert (N : mutex s <> Some t)
      by (apply (not_holder s l); [done|]; unfold outside in Ho; by destruct (pc s t)).
    unfold abs. rewrite (view_nil s l I Hs0), view_set_pc by done.
    change (view (set_val v s) l) with (view s l). rewrite (view_nil s l I Hs0). cbn [val set_pc set_val].
    rewrite !Z.max_r by lia. exact Sp.
Qed.

Lemma step_wait_cas s l t v to :
  good s l -> pc s t = WaitCas v to -> simulates (Run t) s (wait_cas t v to s) l.
Proof.
  intros G P. pose proof (g_inv _ _ G) as I. destruct (alive _ _ _ _ I P) as [H0 Hs]; [done|].
  pose proof (i_max _ _ I). pose proof (i_le _ _ I). unfold wait_cas.
  destruct (Z.gtb_spec v 0) as [Hv|Hv]; cbn [andb].
  1: destruct (Z.eqb_spec (val s) v) as [Ev|Ev].
  - rewrite sint_small by (try lia; split; lia).
    apply (simulates_val _ _ _ _ _ _ (Acquire t)); rewrite ?P; try done; try lia.
    + cbn. by rewrite P, ?pc_same.
    + cbn. rewrite (proj2 (Z.ltb_lt 0 (val s))) by lia. by subst.
  - apply simulates_goto; rewrite ?P; try done; [|by cbn; rewrite P, pc_same].
    intros _. destruct (exists_ s) eqn:E; [done|]. destruct (i_destroyed _ _ I E) as [_ B].
    specialize (B t). by rewrite P in B.
  - apply simulates_goto; rewrite ?P; try done; [|by cbn; rewrite P, pc_same].
    intros _. destruct (exists_ s) eqn:E; [done|]. destruct (i_destroyed _ _ I E) as [_ B].
    specialize (B t). by rewrite P in B.
Qed.

Lemma step_wait_lock s l t to :
  good s l -> pc s t = WaitLock to -> unlocked s = true -> simulates (Run t) s (wait_lock t to s) l.
Proof.
  intros G P U. pose proof (g_inv _ _ G) as I. destruct (alive _ _ _ _ I P) as [H0 Hs]; [done|].
  destruct (inv_wait_lock s l t to I P U) as [l' I']. unfold wait_lock in *.
  destruct (Z.leb_spec (val s) 0) as [L|L].
  - assert (Ql : l' = l) by (eapply queue_unique; [apply (i_queue _ _ I')|apply (i_queue _ _ I)]). subst l'.
    exists l. split; [split; [done|by apply count_ok_set; [apply G|]]|].
    cbn [event_of]. rewrite P, ?pc_same. unfold abs. cbn [spec_step count waiters].
    rewrite Z.max_l by lia. cbn [Z.eqb]. unfold view. cbn -[pc Z.max]. rewrite pc_same.
    unfold unlocked in U. destruct (mutex s); [done|]. f_equal. f_equal.
    pose proof (i_val _ _ I'). pose proof (i_le _ _ I') as Hle. revert Hle H. unfold pending. cbn -[pc Z.max].
    rewrite pc_same. cbn [pend]. lia.
  - pose proof (i_max _ _ I). pose proof (i_le _ _ I).
    rewrite sint_small by (try lia; split; lia).
    apply (simulates_val _ _ _ _ _ _ (Acquire t)); rewrite ?P; try done; try lia.
    + cbn. by rewrite P, ?pc_same.
    + cbn. by rewrite (proj2 (Z.ltb_lt 0 (val s))) by lia.
Qed.

Lemma step_wait_enq s l t to :
  good s l -> pc s t = WaitEnq to -> simulates (Run t) s (wait_enq t to s) l.
Proof.
  intros G P. pose proof (g_inv _ _ G) as I. pose proof (inv_wait_enq s l t to I P) as I'.
  assert (Mt : mutex s = Some t) by (apply (i_lock _ _ I); by rewrite P).
  exists (t :: l). unfold wait_enq in *. destruct (emplace (tag s) (cpus s) (sq s) t) as [[tag' f] h].
  split; [split; [done|by apply count_ok_set; [apply G|]]|].
  cbn [event_of]. rewrite P, ?pc_same. cbn [spec_step]. unfold abs, view. cbn -[pc Z.max]. by rewrite Mt, P.
Qed.

Lemma step_wait_signal s l t to s' :
  good s l -> pc s t = Sleep to -> wait_signal t s = Some s' -> simulates (Run t) s s' l.
Proof.
  intros G P E. pose proof (g_inv _ _ G) as I. unfold wait_signal in E.
  case_bool_decide as Hg; [|done]. injection E as <-.
  apply simulates_tau.
  - split; [|by apply count_ok_set; [apply G|]]. apply inv_wake_up; try done; [by rewrite P|..].
    + intros Hin. by destruct (i_fresh _ _ I t Hin).
    + intros Hin. by destruct (i_waking _ _ I t Hin).
    + set_solver.
    + set_solver.
  - apply (not_holder s l); [done|by rewrite P].
  - cbn [event_of]. by rewrite P, ?pc_same.
Qed.

Lemma step_wait_stop s l t to s' :
  good s l -> pc s t = Sleep to -> unlocked s = true -> wait_stop t s = Some s' -> simulates (Stop t) s s' l.
Proof.
  intros G P U E. pose proof (g_inv _ _ G) as I. unfold wait_stop in E.
  rewrite (walk_spec _ _ _ (i_queue _ _ I)) in E. cbn [mbind option_bind] in E. injection E as <-.
  assert (N : mutex s <> Some t) by (apply (not_holder s l); [done|by rewrite P]).
  destruct (unlocked_val _ _ I U) as [_ W].
  destruct (mem_list t l) eqn:M.
  - apply mem_list_spec in M. exists l. split.
    + split; [|by apply count_ok_set; [apply G|]]. apply inv_stop; try done.
      * by rewrite P.
      * left. by rewrite P.
      * by apply (i_fresh _ _ I).
    + cbn [event_of spec_step]. unfold abs. rewrite view_set_pc by done.
      unfold view, unlocked in *. cbn -[Z.max]. by destruct (mutex s).
  - apply not_true_iff_false in M. rewrite mem_list_spec in M.
    rewrite <- (set_signal_id s) at 2. apply simulates_tau; [|done..].
    split; [|by apply count_ok_set; [apply G|]]. apply inv_wake_up; try done; [by rewrite P|rewrite W; set_solver].
Qed.

Lemma step_wait_timeout s l t s' :
  good s l -> pc s t = TimeoutLock -> unlocked s = true -> wait_timeout t s = Some s' -> simulates (Run t) s s' l.
Proof.
  intros G P U E. pose proof (g_inv _ _ G) as I. destruct (alive _ _ _ _ I P) as [H0 Hs]; [done|].
  destruct (inv_wait_timeout s l t s' I P U E) as [l' I']. exists l'.
  assert (N : mutex s = None) by (unfold unlocked in U; by destruct (mutex s)).
  unfold wait_timeout in E.
  destruct (unqueue_spec true (cpus s) (sq s) l t (i_queue _ _ I) H0) as (f & h & Eu & Q & Sc & F).
  rewrite Eu in E. cbn [mbind option_bind] in E. destruct (decide (t ∈ l)) as [Hl|Hl].
  - destruct (Z.eqb_spec t 0); [done|]. injection E as <-.
    assert (l' = qremove t l) by (eapply queue_unique; [apply (i_queue _ _ I')|done]). subst l'.
    split; [split; [done|by apply count_ok_set; [apply G|]]|].
    cbn [event_of]. rewrite P, pc_same. unfold abs. cbn [spec_step waiters count].
    unfold view. cbn -[pc Z.max]. rewrite pc_same, N. rewrite (proj2 (mem_list_spec t l)) by done. done.
  - cbn in E. injection E as <-. rewrite qremove_notin in Q by done.
    assert (l' = l) by (eapply queue_unique; [apply (i_queue _ _ I')|done]). subst l'.
    split; [split; [done|by apply count_ok_set; [apply G|]]|].
    cbn [event_of]. rewrite P, pc_same. unfold abs, view. cbn -[pc Z.max]. by rewrite N.
Qed.

Lemma step_timeout_fix s l t :
  good s l -> pc s t = TimeoutFix -> simulates (Run t) s (wait_timeout_fix t s) l.
Proof.
  intros G P. pose proof (g_inv _ _ G) as I. exists l. pose proof (inv_timeout_fix s l t I P) as I'.
  assert (Mt : mutex s = Some t) by (apply (i_lock _ _ I); by rewrite P).
  pose proof (i_val _ _ I) as V. unfold pending in V. rewrite Mt, P in V. cbn [pend] in V.
  pose proof (i_size _ _ I). pose proof (queue_length _ _ _ (i_queue _ _ I)).
  unfold wait_timeout_fix in *. cbv zeta in *. rewrite (proj2 (Z.ltb_lt (val s) 0)) in * by lia.
  rewrite (proj2 (Z.gtb_lt 0 (val s))) in * by lia.
  rewrite sint_small in * by (try lia; split; lia).
  split; [split; [done|by apply count_ok_set; [apply G|]]|].
  cbn [event_of]. rewrite P, ?pc_same. cbn [spec_step]. unfold abs, view. cbn -[pc Z.max]. rewrite Mt, P.
  by rewrite !Z.max_l by lia.
Qed.

Lemma step_post_cas s l t n v :
  good s l -> pc s t = PostCas n v -> simulates (Run t) s (post_cas t n v s) l.
Proof.
  intros G P. pose proof (g_inv _ _ G) as I. destruct (alive _ _ _ _ I P) as [H0 Hs]; [done|].
  pose proof (g_count _ _ G t) as C. rewrite P in C. destruct C as [C1 C2].
  pose proof (i_max _ _ I). pose proof (i_le _ _ I). unfold post_cas.
  destruct ((v >=? 0) && (n >? 0) && (n <=? s32 (max s - v)) && (val s =? v)) eqn:E.
  - rewrite !andb_true_iff, Z.geb_le, Z.gtb_lt, Z.leb_le, Z.eqb_eq in E. destruct E as [[[A B] D] F].
    rewrite sint_small in D by (try lia; split; lia). rewrite sint_small by (try lia; split; lia).
    apply (simulates_val _ _ _ _ _ _ (Post n)); rewrite ?P; try done; try lia.
    + cbn [event_of]. by rewrite P, pc_same.
    + cbn [spec_step count waiters length]. rewrite (proj2 (Z.ltb_lt 0 n)), (proj2 (Z.leb_le n _)) by lia.
      cbn [andb]. rewrite Z.min_r by lia. cbn. do 2 f_equal. lia.
  - destruct (Z.leb_spec n 0).
    + exists l. split; [split; [|by apply count_ok_set; [apply G|]]|].
      * apply inv_goto; rewrite ?P; try done.
      * cbn [event_of]. rewrite P, pc_same. cbn [Z.eqb CELL_EINVAL CELL_OK spec_step].
        rewrite (proj2 (Z.leb_le n 0)) by done. unfold abs. rewrite view_set_pc; [done|].
        apply (not_holder s l); [done|by rewrite P].
    + apply simulates_goto; rewrite ?P; try done; try (cbn; lia). cbn [event_of]. by rewrite P, pc_same.
Qed.

Lemma step_post_lock s l t n s' :
  good s l -> pc s t = PostLock n -> unlocked s = true -> post_lock t n s = Some s' -> simulates (Run t) s s' l.
Proof.
  intros G P U E. pose proof (g_inv _ _ G) as I. destruct (alive _ _ _ _ I P) as [H0 Hs]; [done|].
  pose proof (g_count _ _ G t) as C; rewrite P in C. cbn in C.
  pose proof (inv_post_lock s l t n s' I P C U E) as I'. exists l.
  destruct (unlocked_val _ _ I U) as [V _].
  assert (N : mutex s = None) by (unfold unlocked in U; by destruct (mutex s)).
  assert (Ni : t ∉ l) by (intros Hin; destruct (i_in _ _ I t Hin) as [A|A]; rewrite P in A; done).
  pose proof (room _ _ _ I Ni Hs) as R. pose proof (i_max _ _ I). pose proof (i_le _ _ I).
  unfold post_lock in E.
  rewrite (walk_spec _ _ _ (i_queue _ _ I)) in E. cbn [mbind option_bind] in E. injection E as <-.
  destruct (existsb _ l).
  { split; [split; [done|by apply count_ok_set; [apply G|]]|].
    cbn [event_of]. rewrite P, pc_same. unfold abs. rewrite view_set_pc by (cbn; by rewrite N).
    unfold view. cbn -[Z.max]. by rewrite N. }
  rewrite (uint_small 32 n), (uint_small 32 (max s - val s)) in * by (split; lia).
  destruct (Z.leb_spec n (max s - val s)) as [L|L];
    (split; [split; [done|by apply count_ok_set; [apply G|]]|]);
    cbn [event_of]; rewrite P, pc_same; unfold abs; cbn [spec_step waiters count];
    unfold view; cbn -[pc Z.max Z.min after]; rewrite ?pc_same, N.
  - rewrite sint_small by (try lia; split; lia).
    rewrite (proj2 (Z.ltb_lt 0 n)), (proj2 (Z.leb_le n _)) by lia. cbn [andb].
    replace (Z.min (- Z.min (val s) 0) n) with (Z.min n (Z.of_nat (length l))) by lia.
    do 2 f_equal. lia.
  - by rewrite (proj2 (Z.ltb_lt _ n)) by lia.
Qed.

Lemma step_post_wake s l t n ws s' :
  good s l -> pc s t = PostWake n ws -> post_wake t n ws s = Some s' -> simulates (Run t) s s' l.
Proof.
  intros G P E. pose proof (g_inv _ _ G) as I.
  assert (Mt : mutex s = Some t) by (apply (i_lock _ _ I); by rewrite P). destruct n as [|n].
  - pose proof (inv_post_wake_done s l t ws s' I P E) as I'. cbn [post_wake] in E. injection E as <-.
    exists l. split; [split; [done|by apply count_ok_set; [apply G|]]|].
    cbn [event_of]. rewrite P, ?pc_same. cbn [spec_step]. unfold abs, view. cbn -[pc Z.max]. by rewrite Mt, P.
  - destruct (inv_post_wake_one s l t n ws s' I P E) as (r & Er & I' & Hr).
    exists (qremove r l). cbn [post_wake] in E.
    destruct (schedule_spec (protocol s) true (cpus s) (sq s) l (i_queue _ _ I)) as (f & h & Es & Sc & _ & Q).
    rewrite Es in E. cbn [mbind option_bind] in E. rewrite <- Er in E.
    destruct (queue_in _ _ _ r (i_queue _ _ I) Hr) as [Hr0 _].
    destruct (Z.eqb_spec r 0); [done|]. injection E as <-.
    split; [split; [done|by apply count_ok_set; [apply G|]]|].
    cbn [event_of]. rewrite P, ?pc_same. cbn [spec_step]. unfold abs, view. cbn -[pc Z.max after].
    rewrite Mt, P, pc_same. cbn [after]. rewrite <- Er. do 2 f_equal. symmetry. apply after_ext.
    intros. by apply same_cpus_prio.
Qed.

Lemma step_run s l t s' : good s l -> run_thread t s = Some s' -> simulates (Run t) s s' l.
Proof.
  intros G E. unfold run_thread in E. destruct (pc s t) eqn:P; try done.
  - injection E as <-. by apply step_wait_cas.
  - destruct (unlocked s) eqn:U; [|done]. injection E as <-. by apply step_wait_lock.
  - injection E as <-. by apply step_wait_enq.
  - by eapply step_wait_signal.
  - destruct (unlocked s) eqn:U; [|done]. by apply step_wait_timeout.
  - injection E as <-. by apply step_timeout_fix.
  - injection E as <-. by apply step_post_cas.
  - destruct (unlocked s) eqn:U; [|done]. by eapply step_post_lock.
  - by eapply step_post_wake.
Qed.

(** The start of a call. *)
Lemma step_call a s l t p :
  good s l -> can_call t s = true -> outside p = true -> p <> Idle -> (in_idm p = true -> exists_ s = true) ->
  count_ok p -> event_of a s (set_pc t p s) = Tau -> simulates a s (set_pc t p s) l.
Proof.
  intros G Cc Ho Hi He Hc Ev. destruct (can_call_spec t s Cc) as (P & H0 & Hs).
  apply simulates_goto; rewrite ?P; try done.
Qed.

Lemma step_trywait s l t :
  good s l -> can_call t s = true -> simulates (CallTrywait t) s (trywait t s) l.
Proof.
  intros G Cc. pose proof (g_inv _ _ G) as I. destruct (can_call_spec t s Cc) as (P & H0 & Hs).
  pose proof (i_max _ _ I). pose proof (i_le _ _ I). unfold trywait. destruct (exists_ s) eqn:Ex.
  - destruct (Z.gtb_spec (val s) 0) as [L|L].
    + rewrite sint_small by (try lia; split; lia).
      apply (simulates_val _ _ _ _ _ _ (Acquire t)); rewrite ?P; try done; try lia.
      * cbn [event_of]. by rewrite pc_same.
      * cbn. by rewrite (proj2 (Z.ltb_lt 0 (val s))) by lia.
    + exists l. split; [split; [|by apply count_ok_set; [apply G|]]|].
      * apply inv_goto; rewrite ?P; done.
      * cbn [event_of]. rewrite pc_same. cbn [Z.eqb CELL_EBUSY CELL_OK Pos.eqb spec_step].
        unfold abs. rewrite view_set_pc by (apply (not_holder s l); [done|by rewrite P]).
        cbn [count val set_pc]. by rewrite Z.max_l by lia.
  - apply step_call; try done. cbn [event_of]. by rewrite pc_same.
Qed.

Lemma step_destroy s l t :
  good s l -> can_call t s = true -> (forall u, in_idm (pc s u) = false) ->
  simulates (CallDestroy t) s (destroy t s) l.
Proof.
  intros G Cc Hi. pose proof (g_inv _ _ G) as I. destruct (can_call_spec t s Cc) as (P & H0 & Hs).
  unfold destroy. destruct (exists_ s) eqn:Ex; [|by apply step_call].
  destruct (Z.ltb_spec (val s) 0) as [L|L]; [by apply step_call|].
  exists l. split; [split; [|by apply count_ok_set; [apply G|]]|].
  - replace (set_exists false s) with (set_val (val s) (set_exists false s)) by (by destruct s).
    apply inv_outside; try done; rewrite ?P; try done; [apply I|eauto].
  - cbn [event_of spec_step]. unfold abs.
    rewrite view_set_pc by (apply (not_holder s l); [done|by rewrite P]). done.
Qed.

Lemma step_simulates a s s' l : good s l -> move a s = Some s' -> simulates a s s' l.
Proof.
  intros G E. pose proof (g_inv _ _ G) as I.
  destruct a as [t to|t|t n|t|t|t|t|t]; cbn [move sema_machine] in E.
  - destruct (can_call t s) eqn:Cc; [|done]. injection E as <-. unfold wait_call.
    destruct (exists_ s) eqn:Ex; by apply step_call.
  - destruct (can_call t s) eqn:Cc; [|done]. injection E as <-. by apply step_trywait.
  - destruct (can_call t s) eqn:Cc; [|done]. cbn [andb] in E. case_bool_decide as Hc; [|done].
    injection E as <-. unfold post_call. destruct (exists_ s) eqn:Ex; by apply step_call.
  - destruct (can_call t s) eqn:Cc; [|done]. cbn [andb] in E.
    destruct (forallb _ _) eqn:F; [|done]. injection E as <-. apply step_destroy; try done.
    intros u. rewrite forallb_forall in F. unfold pc. destruct (points s !! u) as [p|] eqn:Pu; [|done].
    specialize (F (u, p)). cbn in F. apply negb_true_iff, F, list_elem_of_In. by apply elem_of_map_to_list.
  - by apply step_run.
  - destruct (pc s t) as [| | | |[]| | | | | | | |] eqn:P; try done. injection E as <-.
    rewrite <- (set_signal_id s) at 2. apply simulates_tau; rewrite ?set_signal_id; [|by apply (not_holder s l); [|rewrite P]|done].
    split; [by eapply inv_timeout_lock|by apply count_ok_set; [apply G|]].
  - destruct (pc s t) eqn:P; try done. destruct (unlocked s) eqn:U; [|done]. by eapply step_wait_stop.
  - destruct (pc s t) eqn:P; try done. injection E as <-. apply simulates_tau; [|by apply (not_holder s l); [|rewrite P]|done].
    split; [by eapply inv_return|by apply count_ok_set; [apply G|]].
Qed.

Lemma initial_good s : initial s -> good s [].
Proof.
  intros (M0 & [_ M1] & V & Q & Mt & Ex & Po & Si & Fa & Ag & _ & Sz).
  assert (Pc : forall t, pc s t = Idle) by (intros; unfold pc; by rewrite Po).
  assert (W : waking s = []) by (unfold waking; by rewrite Mt).
  split; [|intros t; by rewrite Pc].
  split; rewrite ?W, ?Si, ?Mt; try done; try (intros t; rewrite ?Pc; done); try lia; try set_solver.
  - split; [done|constructor].
  - unfold pending. rewrite Mt. cbn [length]. lia.
  - by rewrite Ex.
Qed.

Lemma reachable_good s : reachable initial s -> exists l, good s l.
Proof.
  apply (reachable_ind_inv initial (fun s => exists l, good s l)); [intros s0 H; eexists; by apply initial_good|].
  intros a s1 s2 [l G] E. destruct (step_simulates a s1 s2 l G E) as (l' & G' & _). eauto.
Qed.

(** ** The claims *)


(** The state of the counting semaphore a state stands for. *)
Definition spec_state (s : sema) : counting := abs s (default [] (walk (cpus s) (sq s))).


(** C26.  A critical section always ends: from any reachable state, running the
    holder of the host mutex alone releases it, within as many steps as there
    are threads plus one. *)
Theorem sema_mutex_released (t : Z) (s : sema) :
  reachable initial s -> mutex s = Some t ->
  exists n s', (n <= S (size (cpus s)))%nat /\ moves (repeat (Run t) n) s = Some s' /\ mutex s' = None.
Proof.
  intros [l G]%reachable_good Mt. pose proof (g_inv _ _ G) as I.
  pose proof (queue_length _ _ _ (i_queue _ _ I)) as Hl.
  pose proof (proj2 (i_lock _ _ I t) Mt) as H. destruct (pc s t) as [| | |to| | | | | |n ws| | |] eqn:P; try done.
  - exists 1%nat. cbn [repeat moves move sema_machine]. unfold run_thread. rewrite P. cbn [mbind option_bind].
    eexists. split_and!; [lia|done|]. unfold wait_enq. by destruct (emplace _ _ _ _) as [[? ?] ?].
  - exists 1%nat. cbn [repeat moves move sema_machine]. unfold run_thread. rewrite P. cbn [mbind option_bind].
    eexists. split_and!; [lia|done|done].
  - assert (Hn : (n <= length l)%nat).
    { pose proof (i_val _ _ I) as V. unfold pending in V. rewrite Mt, P in V. cbn [pend] in V. lia. }
    exists (S n). enough (exists s', moves (repeat (Run t) (S n)) s = Some s' /\ mutex s' = None) as (s' & ? & ?).
    { exists s'. split_and!; [lia|done|done]. }
    clear Hn Hl H I. revert ws s l G Mt P. induction n as [|n IH]; intros ws s l G Mt P.
    + cbn [repeat moves move sema_machine]. unfold run_thread. rewrite P. cbn [post_wake mbind option_bind]. eauto.
    + pose proof (g_inv _ _ G) as I.
      assert (E : exists s1, move (Run t) s = Some s1 /\ mutex s1 = Some t /\ exists r, pc s1 t = PostWake n (r :: ws)).
      { cbn [move sema_machine]. unfold run_thread. rewrite P. cbn [post_wake].
        destruct (schedule_spec (protocol s) true (cpus s) (sq s) l (i_queue _ _ I)) as (f & h & -> & _).
        cbn [mbind option_bind]. eexists. split; [done|].
        destruct (_ =? 0); (split; [done|]); eexists; autorewrite with sema; by rewrite decide_True. }
      destruct E as (s1 & E & Mt1 & r & P1). destruct (step_simulates (Run t) s s1 l G E) as (l1 & G1 & _).
      destruct (IH (r :: ws) s1 l1 G1 Mt1 P1) as (s2 & E2 & M2). exists s2. split; [|done].
      change (repeat (Run t) (S (S n))) with (Run t :: repeat (Run t) (S n)). cbn [moves].
      by rewrite E.
Qed.

(** *** Witnesses: two waiters, a post that wakes one of them *)
Definition sema0 : sema := Sema SYS_SYNC_PRIORITY 2 true None 0 0 three_threads 0 ∅ ∅ false.
Definition two_waits : list action :=
  [CallWait 16 false; CallWait 32 true; Run 16; Run 32; Run 16; Run 16; Run 32; Run 32].
Definition one_post : list action := [CallPost 48 1; Run 48; Run 48].
Definition sema1 : sema := default sema0 (moves (two_waits ++ one_post) sema0).

Lemma sema0_initial : initial sema0.
Proof.
  unfold initial, sema0; cbn -[three_threads]. split_and!; try done; apply three_threads_again.
Qed.

Lemma sema1_reachable : reachable initial sema1.
Proof.
  eapply (moves_reachable initial (two_waits ++ one_post) sema0).
  - by apply reach_init, sema0_initial.
  - vm_compute. reflexivity.
Qed.



Lemma sema_mutex_released_witness :
  mutex sema1 = Some 48 /\
  exists n s', (n <= 4)%nat /\ moves (repeat (Run 48) n) sema1 = Some s' /\ mutex s' = None.
Proof.
  assert (E : mutex sema1 = Some 48) by (vm_compute; reflexivity).
  split; [exact E|]. exact (sema_mutex_released 48 sema1 sema1_reachable E).
Defined.
