(* ===== verification/Lv2RwLock.v ===== *)
(** The LV2 reader-writer lock (src/rpcs3/Emu/Cell/lv2/sys_rwlock.cpp, sys_rwlock.h).

    [owner] is 0 when the lock is free, twice the writer's id when it is held
    for writing, and minus twice the number of readers when it is held for
    reading; its lowest bit says that threads wait.  Uncontended calls change
    it by compare-and-swap; the others work under the object's host mutex, with
    one queue of readers and one of writers.  The machine interleaves the calls
    of any number of threads; two ghost fields record who holds the lock, and
    the theorems relate them to [owner] and to what the calls return. *)
From Stdlib Require Import ZArith Lia Bool List.
From stdpp Require Import base option list numbers gmap.
From S2P Require Import Prelude Machine Lv2Queue Lv2Sync.
Local Open Scope Z_scope.
#[local] Set Warnings "-clear-no-such-hyp".

(** ** The machine *)
Inductive rpoint : Set :=
  | RIdle
  | RCas (v : Z) (timeout : bool)        (* sys_rwlock_rlock: owner loaded *)
  | RLock (timeout : bool)               (* about to lock rwlock.mutex *)
  | REnq (timeout : bool)                (* locked, the wait bit is set *)
  | RSleep (timeout : bool)
  | RTimeout                             (* wait_timeout returned true *)
  | RTimeoutSync                         (* rq was empty: mutex.lock_unlock *)
  | RTimeoutLock
  | RReturned (r : Z)
  | WCas (v : Z) (timeout : bool)        (* sys_rwlock_wlock: owner loaded *)
  | WLock (timeout : bool)
  | WEnq (old : Z) (timeout : bool)      (* locked, the wait bit is set; owner was old *)
  | WSleep (timeout : bool)
  | WTimeoutLock
  | WTimeoutWake (size : Z) (ws : list Z) (* locked, waking the readers; ws is g_to_awake *)
  | WReturned (r : Z)
  | RuCas (v : Z)                        (* sys_rwlock_runlock: owner loaded *)
  | RuLock
  | TwCas (v : Z)                        (* sys_rwlock_trywlock: owner loaded *)
  | WuCas (v : Z)                        (* sys_rwlock_wunlock: owner loaded *)
  | WuLock
  | Returned (r : Z)
  | RStopped                             (* returned with again set, still in rq *)
  | WStopped                             (* ... still in wq *)
  | Stopped.                             (* ... in no queue *)

Record rwlock := RwLock {
  rw_protocol : Z;
  rw_exists : bool;
  rw_mutex : option Z;
  owner : Z;
  rq : Z;
  wq : Z;
  rw_cpus : threads;
  rw_tag : Z;
  rw_points : gmap Z rpoint;
  rw_signal : gset Z;
  readers : list Z;            (* ghost: a thread for each read lock granted and not released *)
  writer : option Z;           (* ghost: the thread the lock is granted to for writing *)
  rw_failed : bool
}.

Definition rpc (s : rwlock) (t : Z) : rpoint := at_point RIdle (rw_points s) t.

Definition goto (t : Z) (p : rpoint) (s : rwlock) : rwlock :=
  RwLock (rw_protocol s) (rw_exists s) (rw_mutex s) (owner s) (rq s) (wq s) (rw_cpus s) (rw_tag s)
    (<[t := p]> (rw_points s)) (rw_signal s) (readers s) (writer s) (rw_failed s).
Definition with_owner (v : Z) (s : rwlock) : rwlock :=
  RwLock (rw_protocol s) (rw_exists s) (rw_mutex s) v (rq s) (wq s) (rw_cpus s) (rw_tag s)
    (rw_points s) (rw_signal s) (readers s) (writer s) (rw_failed s).
Definition with_mutex (m : option Z) (s : rwlock) : rwlock :=
  RwLock (rw_protocol s) (rw_exists s) m (owner s) (rq s) (wq s) (rw_cpus s) (rw_tag s)
    (rw_points s) (rw_signal s) (readers s) (writer s) (rw_failed s).
Definition with_queues (r w : Z) (h : threads) (s : rwlock) : rwlock :=
  RwLock (rw_protocol s) (rw_exists s) (rw_mutex s) (owner s) r w h (rw_tag s)
    (rw_points s) (rw_signal s) (readers s) (writer s) (rw_failed s).
Definition with_tag (x : Z) (s : rwlock) : rwlock :=
  RwLock (rw_protocol s) (rw_exists s) (rw_mutex s) (owner s) (rq s) (wq s) (rw_cpus s) x
    (rw_points s) (rw_signal s) (readers s) (writer s) (rw_failed s).
Definition with_signal (x : gset Z) (s : rwlock) : rwlock :=
  RwLock (rw_protocol s) (rw_exists s) (rw_mutex s) (owner s) (rq s) (wq s) (rw_cpus s) (rw_tag s)
    (rw_points s) x (readers s) (writer s) (rw_failed s).
Definition with_holders (rs : list Z) (w : option Z) (s : rwlock) : rwlock :=
  RwLock (rw_protocol s) (rw_exists s) (rw_mutex s) (owner s) (rq s) (wq s) (rw_cpus s) (rw_tag s)
    (rw_points s) (rw_signal s) rs w (rw_failed s).
Definition with_exists (b : bool) (s : rwlock) : rwlock :=
  RwLock (rw_protocol s) b (rw_mutex s) (owner s) (rq s) (wq s) (rw_cpus s) (rw_tag s)
    (rw_points s) (rw_signal s) (readers s) (writer s) (rw_failed s).
Definition rw_fail (s : rwlock) : rwlock :=
  RwLock (rw_protocol s) (rw_exists s) (rw_mutex s) (owner s) (rq s) (wq s) (rw_cpus s) (rw_tag s)
    (rw_points s) (rw_signal s) (readers s) (writer s) true.

(** [ppu.id << 1] on 32 bits. *)
Definition id2 (t : Z) : Z := u32 (Z.shiftl t 1).

(** [val <= 0 && !(val & 1)]: free or held by readers, and nobody waits. *)
Definition readable (v : Z) : bool := (v <=? 0) && negb (Z.odd v).

Definition remove_one (x : Z) : list Z -> list Z :=
  fix go l := match l with [] => [] | y :: l' => if y =? x then l' else y :: go l' end.

Definition nonempty (first : Z) : Z := if first =? 0 then 0 else 1.

(** *** sys_rwlock_rlock *)
Definition rlock_cas (t v : Z) (timeout : bool) (s : rwlock) : rwlock :=
  if readable v && (owner s =? v)
  then goto t (RReturned CELL_OK) (with_owner (s64 (v - 2)) (with_holders (t :: readers s) (writer s) s))
  else goto t (RLock timeout) s.

Definition rlock_lock (t : Z) (timeout : bool) (s : rwlock) : rwlock :=
  if readable (owner s)
  then goto t (RReturned CELL_OK)
         (with_owner (s64 (owner s - 2)) (with_holders (t :: readers s) (writer s) s))
  else goto t (REnq timeout) (with_mutex (Some t) (with_owner (Z.lor (owner s) 1) s)).

Definition rlock_enq (t : Z) (timeout : bool) (s : rwlock) : rwlock :=
  let '(tag', first, h) := emplace (rw_tag s) (rw_cpus s) (rq s) t in
  goto t (RSleep timeout) (with_mutex None (with_tag tag' (with_queues first (wq s) h s))).

Definition rlock_timeout (t : Z) (s : rwlock) : rwlock :=
  if rq s =? 0 then goto t RTimeoutSync s else goto t RTimeoutLock s.

Definition rlock_unqueue (t : Z) (s : rwlock) : option rwlock :=
  '(r, first, h) ← unqueue true (rw_cpus s) (rq s) t;
  Some (goto t (RReturned (if r =? 0 then CELL_OK else CELL_ETIMEDOUT)) (with_queues first (wq s) h s)).

(** *** sys_rwlock_tryrlock *)
Definition tryrlock (t : Z) (s : rwlock) : rwlock :=
  if readable (owner s)
  then goto t (RReturned CELL_OK)
         (with_owner (s64 (owner s - 2)) (with_holders (t :: readers s) (writer s) s))
  else goto t (RReturned CELL_EBUSY) s.

(** *** sys_rwlock_runlock *)
Definition runlock_cas (t v : Z) (s : rwlock) : rwlock :=
  if (v <? 0) && negb (Z.odd v) && (owner s =? v)
  then goto t (Returned CELL_OK)
         (with_owner (s64 (v + 2)) (with_holders (remove_one t (readers s)) (writer s) s))
  else goto t RuLock s.

(** The next writer takes the lock over from its holder. *)
Definition hand_over (t cpu first : Z) (h : threads) (rs : list Z) (s : rwlock) : rwlock :=
  goto t (Returned CELL_OK)
    (with_signal (rw_signal s ∪ {[cpu]})
      (with_holders rs (Some cpu)
        (with_owner (Z.lor (Z.lor (id2 cpu) (nonempty first)) (nonempty (rq s)))
          (with_queues (rq s) first h s)))).

Definition stop_caller (t : Z) (s : rwlock) : rwlock :=
  goto t Stopped (with_queues (rq s) (wq s) (alter set_again t (rw_cpus s)) s).

Definition runlock_lock (t : Z) (s : rwlock) : option rwlock :=
  let old := owner s in
  if old >=? 0 then Some (goto t (Returned CELL_EPERM) s)
  else if old =? -1 then
    '(cpu, first, h) ← schedule (rw_protocol s) true (rw_cpus s) (wq s);
    Some
      (if cpu =? 0 then
         let s' := goto t (Returned CELL_OK)
                     (with_owner 0 (with_holders (remove_one t (readers s)) (writer s) s)) in
         if rq s =? 0 then s' else rw_fail s'
       else if is_again h cpu then stop_caller t s
       else hand_over t cpu first h (remove_one t (readers s)) s)
  else Some (goto t (Returned CELL_OK)
               (with_owner (if old <? -1 then s64 (old + 2) else old)
                 (with_holders (remove_one t (readers s)) (writer s) s))).

(** *** sys_rwlock_wlock *)
Definition wlock_cas (t v : Z) (timeout : bool) (s : rwlock) : rwlock :=
  if (v =? 0) && (owner s =? 0)
  then goto t (WReturned CELL_OK) (with_owner (id2 t) (with_holders (readers s) (Some t) s))
  else if negb (v =? 0) && (Z.shiftr v 1 =? t) then goto t (WReturned CELL_EDEADLK) s
  else goto t (WLock timeout) s.

Definition wlock_lock (t : Z) (timeout : bool) (s : rwlock) : rwlock :=
  if owner s =? 0
  then goto t (WReturned CELL_OK) (with_owner (id2 t) (with_holders (readers s) (Some t) s))
  else goto t (WEnq (owner s) timeout) (with_mutex (Some t) (with_owner (Z.lor (owner s) 1) s)).

Definition wlock_enq (t old : Z) (timeout : bool) (s : rwlock) : rwlock :=
  let '(tag', first, h) := emplace (rw_tag s) (rw_cpus s) (wq s) t in
  let s' := with_mutex None (with_tag tag' (with_queues (rq s) first h s)) in
  if Z.shiftr old 1 =? t then goto t (WReturned CELL_EDEADLK) s' else goto t (WSleep timeout) s'.

Definition wlock_unqueue (t : Z) (s : rwlock) : option rwlock :=
  '(r, first, h) ← unqueue true (rw_cpus s) (wq s) t;
  let s' := with_queues (rq s) first h s in
  Some
    (if r =? 0 then goto t (WReturned CELL_OK) s'
     else if negb (rq s =? 0) && (first =? 0) && (owner s <? 0)
     then goto t (WTimeoutWake 0 []) (with_mutex (Some t) s')
     else if (rq s =? 0) && (first =? 0)
     then goto t (WReturned CELL_ETIMEDOUT) (with_owner (Z.land (owner s) (-2)) s')
     else goto t (WReturned CELL_ETIMEDOUT) s').

(** One turn of the loop that wakes the readers, or its end. *)
Definition wlock_wake (t size : Z) (ws : list Z) (s : rwlock) : option rwlock :=
  '(cpu, first, h) ← schedule SYS_SYNC_FIFO true (rw_cpus s) (rq s);
  Some
    (if cpu =? 0 then
       goto t (WReturned CELL_ETIMEDOUT)
         (with_mutex None
           (with_signal (rw_signal s ∪ list_to_set ws)
             (with_owner (Z.land (s64 (owner s - 2 * size)) (-2)) (with_holders (ws ++ readers s) (writer s) s))))
     else goto t (WTimeoutWake (size + 1) (cpu :: ws)) (with_queues first (wq s) h s)).

(** *** sys_rwlock_trywlock *)
Definition trywlock_cas (t v : Z) (s : rwlock) : rwlock :=
  let ret := if v =? 0 then owner s else v in
  if ret =? 0 then goto t (WReturned CELL_OK) (with_owner (id2 t) (with_holders (readers s) (Some t) s))
  else goto t (WReturned (if Z.shiftr ret 1 =? t then CELL_EDEADLK else CELL_EBUSY)) s.

(** *** sys_rwlock_wunlock *)
Definition wunlock_cas (t v : Z) (s : rwlock) : rwlock :=
  let ret := if v =? id2 t then owner s else v in
  let s' := if (v =? id2 t) && (owner s =? v) then with_owner 0 (with_holders (readers s) None s) else s in
  if negb (Z.shiftr ret 1 =? t) then goto t (Returned CELL_EPERM) s'
  else if Z.odd ret then goto t WuLock s'
  else goto t (Returned CELL_OK) s'.

Definition wunlock_lock (t : Z) (s : rwlock) : option rwlock :=
  '(cpu, first, h) ← schedule (rw_protocol s) true (rw_cpus s) (wq s);
  if negb (cpu =? 0) then
    Some (if is_again h cpu then stop_caller t s else hand_over t cpu first h (readers s) s)
  else if negb (rq s =? 0) then
    l ← walk (rw_cpus s) (rq s);
    if existsb (is_again (rw_cpus s)) l then Some (stop_caller t s)
    else
      '(ws, first', h') ← drain_fifo (S (size (rw_cpus s))) (rw_cpus s) (rq s) [];
      Some (goto t (Returned CELL_OK)
              (with_signal (rw_signal s ∪ list_to_set ws)
                (with_holders (ws ++ readers s) None
                  (with_owner (s64 (-2 * Z.of_nat (length ws))) (with_queues first' (wq s) h' s)))))
  else Some (goto t (Returned CELL_OK) (with_owner 0 (with_holders (readers s) None s))).

(** *** The loops on [ppu.state], and the end of the calls *)
Definition rw_wake_up (t : Z) (p : rpoint) (s : rwlock) : option rwlock :=
  if bool_decide (t ∈ rw_signal s) then Some (goto t p (with_signal (rw_signal s ∖ {[t]}) s)) else None.

Definition rw_stop (t first : Z) (queued back : rpoint) (s : rwlock) : option rwlock :=
  l ← walk (rw_cpus s) first;
  Some (if mem_list t l
        then goto t queued (with_queues (rq s) (wq s) (alter set_again t (rw_cpus s)) s)
        else goto t back s).

Definition rw_unlocked (s : rwlock) : bool := match rw_mutex s with None => true | Some _ => false end.

Definition rw_run (t : Z) (s : rwlock) : option rwlock :=
  let locked (o : option rwlock) := if rw_unlocked s then o else None in
  match rpc s t with
  | RCas v to => Some (rlock_cas t v to s)
  | RLock to => locked (Some (rlock_lock t to s))
  | REnq to => Some (rlock_enq t to s)
  | RSleep _ => rw_wake_up t (RReturned CELL_OK) s
  | RTimeout => Some (rlock_timeout t s)
  | RTimeoutSync => locked (Some (goto t (RReturned CELL_OK) s))
  | RTimeoutLock => locked (rlock_unqueue t s)
  | WCas v to => Some (wlock_cas t v to s)
  | WLock to => locked (Some (wlock_lock t to s))
  | WEnq old to => Some (wlock_enq t old to s)
  | WSleep _ => rw_wake_up t (WReturned CELL_OK) s
  | WTimeoutLock => locked (wlock_unqueue t s)
  | WTimeoutWake size ws => wlock_wake t size ws s
  | RuCas v => Some (runlock_cas t v s)
  | RuLock => locked (runlock_lock t s)
  | TwCas v => Some (trywlock_cas t v s)
  | WuCas v => Some (wunlock_cas t v s)
  | WuLock => locked (wunlock_lock t s)
  | _ => None
  end.

Inductive raction : Set :=
  | CallRlock (t : Z) (timeout : bool)
  | CallTryrlock (t : Z)
  | CallRunlock (t : Z)
  | CallWlock (t : Z) (timeout : bool)
  | CallTrywlock (t : Z)
  | CallWunlock (t : Z)
  | CallDestroy (t : Z)
  | Run (t : Z)
  | Timeout (t : Z)
  | Stop (t : Z)
  | Return (t : Z).

Definition rw_can_call (t : Z) (s : rwlock) : bool :=
  match rw_cpus s !! t, rpc s t with
  | Some c, RIdle => negb (again c)
  | _, _ => false
  end.

(** Inside the callback of [idm::get] or [idm::check], under the reader lock of
    the ID manager. *)
Definition rw_in_idm (p : rpoint) : bool :=
  match p with
  | RCas _ _ | RLock _ | REnq _ | WCas _ _ | WLock _ | WEnq _ _ | RuCas _ | TwCas _ | WuCas _ => true
  | _ => false
  end.

Definition rw_call (t : Z) (p : rpoint) (s : rwlock) : option rwlock :=
  if rw_can_call t s then Some (if rw_exists s then goto t p s else goto t (Returned CELL_ESRCH) s) else None.

Definition rw_destroy (t : Z) (s : rwlock) : rwlock :=
  if rw_exists s then
    if owner s =? 0 then goto t (Returned CELL_OK) (with_exists false s) else goto t (Returned CELL_EBUSY) s
  else goto t (Returned CELL_ESRCH) s.

Definition rw_act (a : raction) (s : rwlock) : option rwlock :=
  match a with
  | CallRlock t to => rw_call t (RCas (owner s) to) s
  | CallTryrlock t =>
      if rw_can_call t s then Some (if rw_exists s then tryrlock t s else goto t (Returned CELL_ESRCH) s) else None
  | CallRunlock t => if mem_list t (readers s) then rw_call t (RuCas (owner s)) s else None
  | CallWlock t to => rw_call t (WCas (owner s) to) s
  | CallTrywlock t => rw_call t (TwCas (owner s)) s
  | CallWunlock t => rw_call t (WuCas (owner s)) s
  | CallDestroy t =>
      if rw_can_call t s && forallb (fun '(_, p) => negb (rw_in_idm p)) (map_to_list (rw_points s))
      then Some (rw_destroy t s) else None
  | Run t => rw_run t s
  | Timeout t =>
      match rpc s t with
      | RSleep true => Some (goto t RTimeout s)
      | WSleep true => Some (goto t WTimeoutLock s)
      | _ => None
      end
  | Stop t =>
      match rpc s t with
      | RSleep _ => if rw_unlocked s then rw_stop t (rq s) RStopped (RReturned CELL_OK) s else None
      | WSleep _ => if rw_unlocked s then rw_stop t (wq s) WStopped (WReturned CELL_OK) s else None
      | _ => None
      end
  | Return t =>
      match rpc s t with
      | RReturned _ | WReturned _ | Returned _ => Some (goto t RIdle (with_signal (rw_signal s ∖ {[t]}) s))
      | _ => None
      end
  end.

(** Two assumptions on the program that uses the lock: a thread releases a read
    lock only when it has one (the kernel does not know the readers), and fewer
    than 2^60 read locks are outstanding. *)
#[export] Instance rwlock_machine : Machine rwlock raction := fun a s =>
  s' ← rw_act a s;
  if Z.of_nat (length (readers s')) <? 2 ^ 60 then Some s' else None.

Definition rw_initial (s : rwlock) : Prop :=
  owner s = 0 /\ rq s = 0 /\ wq s = 0 /\ rw_mutex s = None /\ rw_exists s = true /\
  rw_points s = ∅ /\ rw_signal s = ∅ /\ readers s = [] /\ writer s = None /\ rw_failed s = false /\
  (forall t, is_again (rw_cpus s) t = false) /\
  (forall t, is_Some (rw_cpus s !! t) -> 0 < t < 2 ^ 31).

(** ** The invariant

    What a thread can tell of the state: whether it is in the readers' queue,
    in the writers' queue, signalled, among the readers, the writer, about to
    be signalled by the holder of the mutex, the holder of the mutex, marked
    [again]. *)
Record local := Local {
  in_r : bool; in_w : bool; sig : bool; rd : bool; wr : bool; wk : bool; lk : bool; ag : bool
}.

(** The readers the holder of the mutex has taken out of their queue. *)
Definition rwaking (s : rwlock) (lr : list Z) : list Z :=
  match rw_mutex s with
  | Some t => match rpc s t with WTimeoutWake _ ws => filter (fun u => u ∉ lr) ws | _ => [] end
  | None => []
  end.

Definition local_of (s : rwlock) (lr lw : list Z) (t : Z) : local :=
  Local (bool_decide (t ∈ lr)) (bool_decide (t ∈ lw)) (bool_decide (t ∈ rw_signal s))
    (bool_decide (t ∈ readers s)) (bool_decide (writer s = Some t)) (bool_decide (t ∈ rwaking s lr))
    (bool_decide (rw_mutex s = Some t)) (is_again (rw_cpus s) t).

Definition calm (v : local) : bool := negb (in_r v || in_w v || wk v || lk v || ag v).
Definition idle (v : local) : bool := calm v && negb (sig v).

(** What holds of a thread at each point. *)
Definition point_ok (t : Z) (p : rpoint) (v : local) : bool :=
  let waits_r := negb (in_w v || lk v || ag v) in
  let granted_r := negb (in_r v) && ((wk v && negb (sig v)) || (negb (wk v) && sig v && rd v)) in
  match p with
  | RIdle | RCas _ _ | RLock _ | TwCas _ => idle v
  | REnq _ => negb (in_r v || in_w v || wk v || ag v || sig v) && lk v
  | RSleep _ | RTimeout | RTimeoutLock =>
      waits_r && ((in_r v && negb (sig v || wk v)) || granted_r)
  | RTimeoutSync => waits_r && granted_r
  | RReturned r => calm v && (negb (r =? CELL_OK) || rd v)
  | WCas x _ | WuCas x => idle v && Bool.eqb (Z.shiftr x 1 =? t) (wr v)
  | WLock _ => idle v && negb (wr v)
  | WEnq x _ =>
      negb (in_r v || in_w v || wk v || ag v || sig v || wr v) && lk v && negb (Z.shiftr x 1 =? t)
  | WSleep _ | WTimeoutLock =>
      negb (in_r v || lk v || ag v || wk v) &&
      ((in_w v && negb (sig v || wr v)) || (negb (in_w v) && sig v && wr v))
  | WTimeoutWake _ _ => negb (in_r v || in_w v || wk v || ag v || sig v || wr v) && lk v
  | WReturned r => calm v && (negb (r =? CELL_OK) || wr v)
  | RuCas _ | RuLock => idle v && rd v
  | WuLock => idle v && wr v
  | Returned _ => calm v
  | RStopped => in_r v && ag v && negb (in_w v || sig v || wk v || lk v)
  | WStopped => in_w v && ag v && negb (in_r v || sig v || wk v || lk v)
  | Stopped => ag v && negb (in_r v || in_w v || sig v || wk v || lk v)
  end.

Definition base (s : rwlock) : Z :=
  match writer s with Some t => 2 * t | None => -2 * Z.of_nat (length (readers s)) end.

(** The holder of the mutex is about to queue a writer or wakes the readers. *)
Definition busy (s : rwlock) : bool :=
  match rw_mutex s with
  | Some t => match rpc s t with WEnq _ _ | WTimeoutWake _ _ => true | _ => false end
  | None => false
  end.

(** The points at which a thread holds the mutex. *)
Definition rholds (p : rpoint) : bool :=
  match p with REnq _ | WEnq _ _ | WTimeoutWake _ _ => true | _ => false end.

Record rinv (s : rwlock) (lr lw : list Z) : Prop := {
  ri_rq : queue (rw_cpus s) (rq s) lr;
  ri_wq : queue (rw_cpus s) (wq s) lw;
  ri_owner : owner s = base s + Z.b2z (Z.odd (owner s));
  ri_excl t : writer s = Some t -> readers s = [] /\ 0 < t < 2 ^ 31;
  ri_bit : lr <> [] \/ lw <> [] -> Z.odd (owner s) = true;
  ri_wait : writer s = None -> Z.odd (owner s) = true -> readers s <> [] /\ (lw <> [] \/ busy s = true);
  ri_wake t size ws : rpc s t = WTimeoutWake size ws ->
    writer s = None /\ lw = [] /\
    ((size = Z.of_nat (length ws) /\ forall u, u ∈ ws -> u ∉ lr) \/
     (lr <> [] /\ is_again (rw_cpus s) (pick SYS_SYNC_FIFO (rw_cpus s) lr) = true));
  ri_held t : rholds (rpc s t) = true -> Z.odd (owner s) = true;
  ri_few : Z.of_nat (length (readers s)) < 2 ^ 60;
  ri_ids t : is_Some (rw_cpus s !! t) -> 0 < t < 2 ^ 31;
  ri_alive t : rpc s t <> RIdle -> is_Some (rw_cpus s !! t);
  ri_local t : point_ok t (rpc s t) (local_of s lr lw t) = true;
  ri_destroyed : rw_exists s = false -> owner s = 0 /\ forall t, rw_in_idm (rpc s t) = false;
  ri_failed : rw_failed s = false
}.

(** ** Lemmas on the invariant *)

Lemma rpc_goto t p s u : rpc (goto t p s) u = if decide (u = t) then p else rpc s u.
Proof. apply at_insert. Qed.
Lemma rpc_here t p s : rpc (goto t p s) t = p.
Proof. rewrite rpc_goto. by rewrite decide_True. Qed.
Lemma rpc_elsewhere t p s u : u <> t -> rpc (goto t p s) u = rpc s u.
Proof. intros. rewrite rpc_goto. by rewrite decide_False. Qed.

(** Replaces the local view in the goal by a value with the given fields. *)
Ltac field_is :=
  first [done | apply bool_decide_eq_true_2; set_solver | apply bool_decide_eq_false_2; set_solver
        | apply bool_decide_ext; set_solver | apply bool_decide_eq_false_2; congruence
        | apply bool_decide_ext; split; congruence].
Tactic Notation "local_is" uconstr(e) "by" tactic3(tac) :=
  match goal with
  | |- point_ok _ _ ?x = true =>
      let H := fresh in
      assert (H : x = e);
        [unfold local_of; cbn -[rpc rwaking]; f_equal; first [solve [tac] | field_is] | rewrite H; clear H]
  end.
(** Decides a statement on the fields of a local view. *)
Ltac local_done v := destruct v as [[] [] [] [] [] [] [] []]; cbn in *; congruence || done.

Lemma rholds_lk t p v : point_ok t p v = true -> lk v = rholds p.
Proof. intros H. destruct v as [[] [] [] [] [] [] [] []], p; cbn in *; congruence || (by destruct (_ =? _)) || done. Qed.

Lemma rmutex s lr lw t : rinv s lr lw -> rw_mutex s = Some t <-> rholds (rpc s t) = true.
Proof.
  intros I. pose proof (rholds_lk _ _ _ (ri_local _ _ _ I t)) as H. cbn in H.
  rewrite <- H, bool_decide_eq_true. done.
Qed.

Lemma in_r_or_w t p v : point_ok t p v = true -> in_r v = true -> in_w v = false.
Proof. intros H Hr. destruct v as [[] [] [] [] [] [] [] []], p; cbn in *; congruence || done. Qed.

Lemma queues_disjoint s lr lw t : rinv s lr lw -> t ∈ lr -> t ∉ lw.
Proof.
  intros I Hr Hw. pose proof (in_r_or_w _ _ _ (ri_local _ _ _ I t)) as H. cbn in H.
  rewrite !bool_decide_eq_true_2 in H by done. specialize (H eq_refl). done.
Qed.

Lemma base_even s : Z.odd (base s) = false.
Proof.
  unfold base. destruct (writer s); [by rewrite Z.odd_mul|].
  replace (-2 * Z.of_nat (length (readers s))) with (2 * - Z.of_nat (length (readers s))) by lia.
  by rewrite Z.odd_mul.
Qed.

Lemma owner_half s lr lw : rinv s lr lw -> Z.shiftr (owner s) 1 = match writer s with Some t => t | None => - Z.of_nat (length (readers s)) end.
Proof.
  intros I. rewrite (ri_owner _ _ _ I), Z.shiftr_div_pow2 by lia. change (2 ^ 1) with 2.
  unfold base. destruct (writer s), (Z.odd (owner s)); cbn [Z.b2z]; zlia.
Qed.

(** The owner's id is in the field exactly when the thread is the writer. *)
Lemma owner_is s lr lw t : rinv s lr lw -> 0 < t -> (Z.shiftr (owner s) 1 =? t) = bool_decide (writer s = Some t).
Proof.
  intros I Ht. rewrite (owner_half _ _ _ I). destruct (writer s) as [u|] eqn:W.
  - destruct (Z.eqb_spec u t) as [->|]; [by rewrite bool_decide_true|rewrite bool_decide_false; congruence].
  - destruct (Z.eqb_spec (- Z.of_nat (length (readers s))) t); [lia|done].
Qed.

Lemma owner_zero s lr lw : rinv s lr lw -> owner s = 0 -> writer s = None /\ readers s = [].
Proof.
  intros I E. pose proof (owner_half _ _ _ I) as H. rewrite E in H. change (Z.shiftr 0 1) with 0 in H.
  destruct (writer s) as [t|] eqn:W.
  - destruct (ri_excl _ _ _ I t W). lia.
  - split; [done|]. destruct (readers s); [done|]. cbn [length] in H. lia.
Qed.

(** A step of the thread [t] to the point [p]. *)
Lemma rinv_step s lr lw s' lr' lw' t p :
  rinv s lr lw ->
  (forall u, rpc s' u = if decide (u = t) then p else rpc s u) ->
  is_Some (rw_cpus s !! t) ->
  (forall u, is_Some (rw_cpus s' !! u) <-> is_Some (rw_cpus s !! u)) ->
  queue (rw_cpus s') (rq s') lr' -> queue (rw_cpus s') (wq s') lw' ->
  owner s' = base s' + Z.b2z (Z.odd (owner s')) ->
  (forall w, writer s' = Some w -> readers s' = [] /\ 0 < w < 2 ^ 31) ->
  (lr' <> [] \/ lw' <> [] -> Z.odd (owner s') = true) ->
  (writer s' = None -> Z.odd (owner s') = true -> readers s' <> [] /\ (lw' <> [] \/ busy s' = true)) ->
  (rw_mutex s = None \/ rw_mutex s = Some t \/ Z.odd (owner s) = false \/
     (writer s' = writer s /\ Z.odd (owner s') = Z.odd (owner s) /\ lw' = lw /\ lr' = lr /\ rw_cpus s' = rw_cpus s)) ->
  (forall size ws, p = WTimeoutWake size ws ->
     writer s' = None /\ lw' = [] /\
     ((size = Z.of_nat (length ws) /\ forall u, u ∈ ws -> u ∉ lr') \/
      (lr' <> [] /\ is_again (rw_cpus s') (pick SYS_SYNC_FIFO (rw_cpus s') lr') = true))) ->
  (rholds p = true -> Z.odd (owner s') = true) ->
  Z.of_nat (length (readers s')) < 2 ^ 60 ->
  (forall u, u <> t -> point_ok u (rpc s u) (local_of s' lr' lw' u) = true) ->
  point_ok t p (local_of s' lr' lw' t) = true ->
  (rw_exists s' = false -> owner s' = 0 /\ rw_in_idm p = false /\
     ((forall u, u <> t -> rw_in_idm (rpc s u) = false) \/ rw_exists s = false)) ->
  rw_failed s' = false ->
  rinv s' lr' lw'.
Proof.
  intros I Pc Ht Dm Qr Qw Ow Ex Bi Wa Mu Wk Hd Fe Lo Lt De Fa.
  split; try done.
  - intros u size ws. rewrite Pc. destruct (decide (u = t)) as [->|N]; [apply Wk|]. intros Pu.
    assert (Hm : rw_mutex s = Some u) by (apply (rmutex _ _ _ _ I); by rewrite Pu).
    pose proof (ri_held _ _ _ I u) as Hu. rewrite Pu in Hu. specialize (Hu eq_refl).
    destruct (ri_wake _ _ _ I _ _ _ Pu) as (A & B & C).
    destruct Mu as [E|[E|[E|(-> & _ & -> & -> & ->)]]]; [congruence..|done].
  - intros u. rewrite Pc. destruct (decide (u = t)) as [->|N]; [apply Hd|]. intros Hu.
    pose proof (proj2 (rmutex _ _ _ _ I) Hu) as Hm. pose proof (ri_held _ _ _ I u Hu) as Od.
    destruct Mu as [E|[E|[E|(_ & -> & _)]]]; [congruence..|done].
  - intros u Hu. apply Dm in Hu. by apply (ri_ids _ _ _ I).
  - intros u. rewrite Pc, Dm. destruct (decide (u = t)) as [->|N]; [done|apply (ri_alive _ _ _ I)].
  - intros u. rewrite Pc. destruct (decide (u = t)) as [->|N]; [done|by apply Lo].
  - intros E. destruct (De E) as (A & B & C). split; [done|]. intros u. rewrite Pc.
    destruct (decide (u = t)) as [->|N]; [done|]. destruct C as [C|C]; [by apply C|].
    by destruct (ri_destroyed _ _ _ I C) as [_ ?].
Qed.

(** What is about to be signalled depends on the holder of the mutex only. *)
Lemma rwaking_goto s lr t p : rw_mutex s <> Some t -> rwaking (goto t p s) lr = rwaking s lr.
Proof.
  intros N. unfold rwaking. cbn. destruct (rw_mutex s) as [u|]; [|done]. by rewrite rpc_elsewhere by congruence.
Qed.
Lemma busy_goto s t p : rw_mutex s <> Some t -> busy (goto t p s) = busy s.
Proof.
  intros N. unfold busy. cbn. destruct (rw_mutex s) as [u|]; [|done]. by rewrite rpc_elsewhere by congruence.
Qed.

Lemma not_locker s lr lw t : rinv s lr lw -> rholds (rpc s t) = false -> rw_mutex s <> Some t.
Proof. intros I H E. apply (rmutex _ _ _ _ I) in E. congruence. Qed.

Definition quiet_state (v : Z) (rs : list Z) (w : option Z) (e : bool) (s : rwlock) : rwlock :=
  with_owner v (with_holders rs w (with_exists e s)).

(** A step outside the critical section: queues, signals and the mutex stay. *)
Lemma rinv_quiet s lr lw t p v rs w e :
  rinv s lr lw -> rholds (rpc s t) = false -> rholds p = false -> is_Some (rw_cpus s !! t) ->
  (forall u, u <> t -> u ∈ rs <-> u ∈ readers s) -> (forall u, u <> t -> w = Some u <-> writer s = Some u) ->
  v = (match w with Some u => 2 * u | None => -2 * Z.of_nat (length rs) end) + Z.b2z (Z.odd v) ->
  (w = Some t -> rs = []) -> (rw_mutex s = None \/ Z.odd (owner s) = false \/ w = writer s) ->
  (forall u, w = Some u -> u = t \/ rs = readers s) ->
  Z.odd v = Z.odd (owner s) -> (w = None -> Z.odd v = true -> rs <> [] /\ writer s = None) ->
  Z.of_nat (length rs) < 2 ^ 60 ->
  point_ok t p (local_of (quiet_state v rs w e s) lr lw t) = true ->
  (e = false -> v = 0 /\ rw_in_idm p = false /\
     ((forall u, u <> t -> rw_in_idm (rpc s u) = false) \/ rw_exists s = false)) ->
  rinv (goto t p (quiet_state v rs w e s)) lr lw.
Proof.
  intros I Hh Hp Ht Hr Hw Ev Ex Mu Ex2 Od Wa Fe Lt De.
  assert (N : rw_mutex s <> Some t) by (eapply not_locker; eauto).
  assert (Nq : rw_mutex (quiet_state v rs w e s) <> Some t) by done.
  eapply (rinv_step s lr lw _ lr lw t p); try done; try apply I.
  - intros u. rewrite rpc_goto. done.
  - intros u E. cbn in E. destruct (decide (u = t)) as [->|Nu].
    + split; [by apply Ex|]. by apply (ri_ids _ _ _ I).
    + apply Hw in E as E'; [|done]. destruct (ri_excl _ _ _ I u E') as [A B]. split; [|done].
      cbn. destruct (Ex2 u E) as [E2|E2]; [done|by rewrite E2].
  - cbn. rewrite Od. apply I.
  - cbn. intros W O. destruct (Wa W O) as [A B]. split; [done|]. rewrite Od in O.
    destruct (ri_wait _ _ _ I B O) as [_ C]. by rewrite busy_goto.
  - destruct Mu as [Mu|[Mu|Mu]]; auto.
    right. right. right. by cbn.
  - by intros size ws ->.
  - by rewrite Hp.
  - intros u Nu. rewrite <- (ri_local _ _ _ I u). f_equal. unfold local_of. rewrite rwaking_goto by done.
    cbn. f_equal; apply bool_decide_ext; auto.
  - rewrite <- Lt. f_equal. unfold local_of. by rewrite rwaking_goto.
Qed.

Lemma quiet_same s : quiet_state (owner s) (readers s) (writer s) (rw_exists s) s = s.
Proof. by destruct s. Qed.
Lemma quiet_exists v rs w s : quiet_state v rs w (rw_exists s) s = with_owner v (with_holders rs w s).
Proof. by destruct s. Qed.

(** A step that changes nothing but the thread's point. *)
Lemma rinv_pc s lr lw t p :
  rinv s lr lw -> rholds (rpc s t) = false -> rholds p = false -> is_Some (rw_cpus s !! t) ->
  point_ok t p (local_of s lr lw t) = true -> (rw_in_idm p = true -> rw_exists s = true) ->
  rinv (goto t p s) lr lw.
Proof.
  intros I Hh Hp Ht Lt De. rewrite <- (quiet_same s) at 1. apply rinv_quiet; try done.
  - apply I.
  - intros E. by destruct (ri_excl _ _ _ I t E).
  - auto.
  - auto.
  - intros W O. by destruct (ri_wait _ _ _ I W O).
  - apply I.
  - intros E. destruct (ri_destroyed _ _ _ I E) as [A B]. split_and!; [done| |by right].
    destruct (rw_in_idm p); [|done]. rewrite De in E; done.
Qed.

Lemma readable_spec s lr lw :
  rinv s lr lw -> readable (owner s) = true ->
  writer s = None /\ Z.odd (owner s) = false /\ owner s = -2 * Z.of_nat (length (readers s)).
Proof.
  intros I H. unfold readable in H. rewrite andb_true_iff, Z.leb_le, negb_true_iff in H. destruct H as [L O].
  pose proof (ri_owner _ _ _ I) as E. rewrite O in E. unfold base in E. cbn in E.
  destruct (writer s) as [u|] eqn:W; [|split_and!; [done..|lia]].
  destruct (ri_excl _ _ _ I u W). lia.
Qed.

Lemma odd_double n : Z.odd (-2 * n) = false.
Proof. by rewrite Z.odd_mul. Qed.

(** The local view after a change of the holders. *)
Lemma local_quiet s lr lw t v rs w e :
  local_of (quiet_state v rs w e s) lr lw t =
  let l := local_of s lr lw t in
  Local (in_r l) (in_w l) (sig l) (bool_decide (t ∈ rs)) (bool_decide (w = Some t)) (wk l) (lk l) (ag l).
Proof. done. Qed.

(** A read lock is granted to the caller. *)
Lemma rinv_grant_read s lr lw t :
  rinv s lr lw -> idle (local_of s lr lw t) = true -> rholds (rpc s t) = false -> is_Some (rw_cpus s !! t) ->
  readable (owner s) = true -> rw_exists s = true -> Z.of_nat (length (t :: readers s)) < 2 ^ 60 ->
  rinv (goto t (RReturned CELL_OK)
         (with_owner (s64 (owner s - 2)) (with_holders (t :: readers s) (writer s) s))) lr lw.
Proof.
  intros I Hi Hh Ht Hr Hx Fe. destruct (readable_spec _ _ _ I Hr) as (W & O & E).
  cbn [length] in Fe.
  assert (Ev : s64 (owner s - 2) = -2 * Z.of_nat (length (t :: readers s))).
  { rewrite sint_small; cbn [length]; [lia|lia|split; lia]. }
  rewrite Ev, <- quiet_exists. apply rinv_quiet; try done.
  - set_solver.
  - rewrite W, odd_double. cbn [Z.b2z]. lia.
  - congruence.
  - auto.
  - intros u. congruence.
  - rewrite local_quiet. cbn -[local_of]. unfold idle, calm in *. rewrite bool_decide_eq_true_2 by set_solver.
    destruct (local_of s lr lw t) as [[] [] [] [] [] [] [] []]; done.
  - congruence.
Qed.

Lemma remove_one_in x y l : y <> x -> y ∈ remove_one x l <-> y ∈ l.
Proof.
  intros N. induction l as [|z l IH]; [done|]. cbn. destruct (Z.eqb_spec z x) as [->|].
  - rewrite elem_of_cons. tauto.
  - rewrite !elem_of_cons, IH. done.
Qed.

Lemma remove_one_length x l : x ∈ l -> length l = S (length (remove_one x l)).
Proof.
  induction l as [|z l IH]; [set_solver|]. cbn. destruct (Z.eqb_spec z x) as [->|N]; [done|].
  intros [->|H]%elem_of_cons; [done|]. cbn. by rewrite <- IH.
Qed.

(** A read lock is released and others remain, or nobody waits. *)
Lemma rinv_release_read s lr lw t v :
  rinv s lr lw -> idle (local_of s lr lw t) = true -> rholds (rpc s t) = false -> is_Some (rw_cpus s !! t) ->
  t ∈ readers s -> v = owner s + 2 -> Z.odd v = false \/ owner s <> -1 -> 
  rinv (goto t (Returned CELL_OK)
         (with_owner v (with_holders (remove_one t (readers s)) (writer s) s))) lr lw.
Proof.
  intros I Hi Hh Ht Hr -> Ho. pose proof (remove_one_length _ _ Hr) as Len.
  assert (W : writer s = None).
  { destruct (writer s) as [u|] eqn:W; [|done]. destruct (ri_excl _ _ _ I u W) as [E _]. rewrite E in Hr. set_solver. }
  assert (O : Z.odd (owner s + 2) = Z.odd (owner s)) by (by rewrite Z.odd_add, xorb_false_r).
  pose proof (ri_owner _ _ _ I) as E. unfold base in E. rewrite W in E.
  rewrite <- quiet_exists. apply rinv_quiet; try done.
  - intros u N. by apply remove_one_in.
  - rewrite W, O. lia.
  - congruence.
  - auto.
  - intros u. congruence.
  - intros _ O'. split; [|done]. intros En. rewrite En in Len. rewrite O' in *. rewrite Len in E.
    rewrite <- O in E. cbn in E. destruct Ho; [congruence|lia].
  - pose proof (ri_few _ _ _ I). lia.
  - rewrite local_quiet. cbn -[local_of]. unfold idle, calm in *.
    destruct (local_of s lr lw t) as [[] [] [] [] [] [] [] []]; done.
  - intros De. destruct (ri_destroyed _ _ _ I De) as [A B]. exfalso.
    destruct (owner_zero _ _ _ I A) as [_ C]. rewrite C in Hr. set_solver.
Qed.

(** The lock is granted to the caller for writing. *)
Lemma rinv_grant_write s lr lw t :
  rinv s lr lw -> idle (local_of s lr lw t) = true -> rholds (rpc s t) = false -> is_Some (rw_cpus s !! t) ->
  owner s = 0 -> rw_exists s = true ->
  rinv (goto t (WReturned CELL_OK) (with_owner (id2 t) (with_holders (readers s) (Some t) s))) lr lw.
Proof.
  intros I Hi Hh Ht Ho Hx. destruct (owner_zero _ _ _ I Ho) as [W R].
  pose proof (ri_ids _ _ _ I t Ht) as Hid.
  assert (E : id2 t = 2 * t).
  { unfold id2. rewrite Z.shiftl_mul_pow2 by lia. rewrite uint_small by (split; lia). lia. }
  assert (O : Z.odd (2 * t) = false) by (by rewrite Z.odd_mul).
  rewrite E, <- quiet_exists. apply rinv_quiet; try done.
  - intros u N. rewrite W. split; congruence.
  - rewrite O. cbn [Z.b2z]. lia.
  - right. left. by rewrite Ho.
  - intros u. auto.
  - by rewrite O, Ho.
  - apply I.
  - rewrite local_quiet. cbn -[local_of]. unfold idle, calm in *. rewrite (bool_decide_eq_true_2 (Some t = Some t)) by done.
    destruct (local_of s lr lw t) as [[] [] [] [] [] [] [] []]; done.
  - congruence.
Qed.

(** The writer releases the lock and nobody waits. *)
Lemma rinv_release_write s lr lw t :
  rinv s lr lw -> idle (local_of s lr lw t) = true -> rholds (rpc s t) = false -> is_Some (rw_cpus s !! t) ->
  writer s = Some t -> Z.odd (owner s) = false \/ (rw_mutex s = None /\ lr = [] /\ lw = []) ->
  rinv (goto t (Returned CELL_OK) (with_owner 0 (with_holders (readers s) None s))) lr lw.
Proof.
  intros I Hi Hh Ht W Ho. destruct (ri_excl _ _ _ I t W) as [R _].
  destruct Ho as [Ho|(Mu & -> & ->)].
  - rewrite <- quiet_exists. apply rinv_quiet; try done.
    + intros u N. rewrite W. split; congruence.
    + by rewrite R.
    + auto.
    + apply I.
    + rewrite local_quiet. cbn -[local_of]. unfold idle, calm in *.
      destruct (local_of s lr lw t) as [[] [] [] [] [] [] [] []]; done.
    + intros De. destruct (ri_destroyed _ _ _ I De) as [A _]. by destruct (owner_zero _ _ _ I A); congruence.
  - assert (N : rw_mutex s <> Some t) by (eapply not_locker; eauto).
    eapply (rinv_step s [] [] _ [] [] t (Returned CELL_OK)); try done; try apply I.
    + intros u. rewrite rpc_goto. done.
    + cbn. by rewrite R.
    + intros [|]; done.
    + auto.
    + intros u Nu. rewrite <- (ri_local _ _ _ I u). f_equal. unfold local_of. rewrite rwaking_goto by done.
      cbn. f_equal. apply bool_decide_ext. rewrite W. split; congruence.
    + unfold point_ok, calm, local_of. rewrite rwaking_goto by done. cbn.
      unfold idle, calm, local_of in Hi. cbn in Hi. apply andb_true_iff in Hi as [Hi _]. exact Hi.
    + intros De. destruct (ri_destroyed _ _ _ I De) as [A _]. by destruct (owner_zero _ _ _ I A); congruence.
Qed.

Lemma lor_1 x : Z.lor x 1 = x - Z.b2z (Z.odd x) + 1.
Proof.
  pose proof (Z.div2_odd x) as E.
  assert (H : Z.lor x 1 = 2 * Z.div2 x + 1).
  { apply Z.bits_inj'. intros n Hn. rewrite Z.lor_spec. destruct (Z.eq_dec n 0) as [->|N].
    - rewrite Z.testbit_odd_0. apply orb_true_r.
    - replace n with (Z.succ (n - 1)) by lia. rewrite Z.testbit_odd_succ by lia.
      rewrite Z.div2_spec, Z.shiftr_spec by lia. replace (n - 1 + 1) with (Z.succ (n - 1)) by lia.
      rewrite (Z.bits_above_log2 1) by (cbn; lia). apply orb_false_r. }
  lia.
Qed.

Lemma land_m2 x : Z.land x (-2) = x - Z.b2z (Z.odd x).
Proof.
  pose proof (Z.div2_odd x) as E.
  assert (H : Z.land x (-2) = 2 * Z.div2 x).
  { apply Z.bits_inj'. intros n Hn. rewrite Z.land_spec. change (-2) with (Z.lnot 1). rewrite Z.lnot_spec by done.
    destruct (Z.eq_dec n 0) as [->|N].
    - rewrite Z.testbit_even_0. apply andb_false_r.
    - replace n with (Z.succ (n - 1)) by lia. rewrite Z.testbit_even_succ by lia.
      rewrite Z.div2_spec, Z.shiftr_spec by lia. replace (n - 1 + 1) with (Z.succ (n - 1)) by lia.
      rewrite (Z.bits_above_log2 1) by (cbn; lia). apply andb_true_r. }
  lia.
Qed.

Lemma rw_unlocked_none s : rw_unlocked s = true -> rw_mutex s = None.
Proof. unfold rw_unlocked. by destruct (rw_mutex s). Qed.

(** The wait bit is set and the mutex kept to queue the caller. *)
Lemma rinv_set_bit s lr lw t p :
  rinv s lr lw -> idle (local_of s lr lw t) = true -> rw_unlocked s = true -> is_Some (rw_cpus s !! t) ->
  (exists to, p = REnq to /\ readable (owner s) = false) \/
  (exists to, p = WEnq (owner s) to /\ owner s <> 0 /\ writer s <> Some t) ->
  rw_exists s = true ->
  rinv (goto t p (with_mutex (Some t) (with_owner (Z.lor (owner s) 1) s))) lr lw.
Proof.
  intros I Hi U Ht Hp Hx. apply rw_unlocked_none in U as Mu.
  pose proof (ri_owner _ _ _ I) as E.
  assert (Ev : Z.lor (owner s) 1 = base s + 1) by (rewrite lor_1; lia).
  assert (O : Z.odd (base s + 1) = true) by (by rewrite Z.odd_add, base_even).
  assert (W0 : rwaking s lr = []) by (unfold rwaking; by rewrite Mu).
  assert (W1 : rwaking (goto t p (with_mutex (Some t) (with_owner (Z.lor (owner s) 1) s))) lr = []).
  { unfold rwaking. cbn -[rpc]. rewrite rpc_here. by destruct Hp as [(to & -> & _)|(to & -> & _)]. }
  assert (Rn : writer s = None -> owner s <> 0 -> readers s <> []).
  { intros W N R. unfold base in E. rewrite W, R in E. cbn in E.
    destruct (Z.odd (owner s)) eqn:Od; [|done]. destruct (ri_wait _ _ _ I W Od). congruence. }
  eapply (rinv_step s lr lw _ lr lw t p); try done; try apply I.
  - intros u. rewrite rpc_goto. done.
  - cbn -[base Z.odd]. rewrite Ev, O. done.
  - intros _. cbn -[Z.odd]. by rewrite Ev.
  - cbn -[Z.odd busy]. intros W _. destruct Hp as [(to & -> & Hr)|(to & -> & Hz & _)].
    + unfold readable in Hr. pose proof (ri_wait _ _ _ I W) as Wa. unfold busy in Wa. rewrite Mu in Wa.
      destruct (Z.odd (owner s)) eqn:Od.
      * destruct Wa as [A [B|B]]; [done|..]; [|done]. auto.
      * exfalso. unfold base in E. rewrite W in E. cbn [Z.b2z] in E.
        rewrite (proj2 (Z.leb_le _ _)) in Hr by lia. done.
    + split; [by apply Rn|]. right. unfold busy. cbn -[rpc]. by rewrite rpc_here.
  - auto.
  - intros size ws ->. by destruct Hp as [(? & ? & _)|(? & ? & _)].
  - intros _. cbn -[Z.odd]. by rewrite Ev.
  - intros u N. rewrite <- (ri_local _ _ _ I u). f_equal. unfold local_of. rewrite W0, W1. cbn -[rpc].
    f_equal. apply bool_decide_ext. rewrite Mu. split; congruence.
  - local_is (let l := local_of s lr lw t in Local (in_r l) (in_w l) (sig l) (rd l) (wr l) false true (ag l)) by (by rewrite W1).
    unfold idle, calm in Hi. destruct Hp as [(to & -> & _)|(to & -> & _ & Nw)].
    + local_done (local_of s lr lw t).
    + cbn -[Z.shiftr local_of]. rewrite (owner_is _ _ _ _ I) by (by apply (ri_ids _ _ _ I)).
      rewrite (bool_decide_eq_false_2 (writer s = Some t)) by done.
      assert (Wr : wr (local_of s lr lw t) = false) by (cbn; by rewrite bool_decide_eq_false_2).
      rewrite Wr. local_done (local_of s lr lw t).
  - intros De. cbn in De. congruence.
Qed.

(** Pushing the caller on one of the two queues. *)
Lemma emplace_frame tag h first object h' tag' first' l l2 q2 c :
  emplace tag h first object = (tag', first', h') -> queue h first l -> object ∉ l -> object <> 0 ->
  h !! object = Some c -> queue h q2 l2 -> object ∉ l2 ->
  first' = object /\ queue h' first' (object :: l) /\ queue h' q2 l2 /\
  (forall u, is_Some (h' !! u) <-> is_Some (h !! u)) /\ (forall u, is_again h' u = is_again h u).
Proof.
  intros E Q N Hz Hc Q2 N2.
  destruct (emplace_spec tag h first l object c Q N Hz Hc) as (h1 & E1 & Q1 & L1 & F1).
  rewrite E1 in E. injection E as <- <- <-. split_and!; [done|done| | |].
  - eapply queue_same, Q2. intros u Hu. rewrite F1; [done|set_solver].
  - intros u. destruct (decide (u = object)) as [->|]; [rewrite L1, Hc; by split|by rewrite F1].
  - intros u. unfold is_again. destruct (decide (u = object)) as [->|]; [by rewrite L1, Hc|by rewrite F1].
Qed.

(** The fields of a thread's view. *)
Lemma in_r_spec s lr lw t : in_r (local_of s lr lw t) = false -> t ∉ lr.
Proof. cbn. by rewrite bool_decide_eq_false. Qed.
Lemma in_w_spec s lr lw t : in_w (local_of s lr lw t) = false -> t ∉ lw.
Proof. cbn. by rewrite bool_decide_eq_false. Qed.

Lemma rinv_rlock_enq s lr lw t to :
  rinv s lr lw -> rpc s t = REnq to -> rinv (rlock_enq t to s) (t :: lr) lw.
Proof.
  intros I P. assert (Mu : rw_mutex s = Some t) by (apply (rmutex _ _ _ _ I); by rewrite P).
  assert (Ht : is_Some (rw_cpus s !! t)) by (apply (ri_alive _ _ _ I); by rewrite P).
  pose proof (ri_ids _ _ _ I t Ht) as Hid. destruct Ht as [c Hc].
  pose proof (ri_local _ _ _ I t) as L. rewrite P in L.
  assert (Nr : t ∉ lr) by (apply (in_r_spec s lr lw); local_done (local_of s lr lw t)).
  assert (Nw : t ∉ lw) by (apply (in_w_spec s lr lw); local_done (local_of s lr lw t)).
  unfold rlock_enq. destruct (emplace (rw_tag s) (rw_cpus s) (rq s) t) as [[tag' first] h] eqn:E.
  destruct (emplace_frame _ _ _ _ _ _ _ lr lw (wq s) c E) as (-> & Qr & Qw & Dm & Ag); try done; try lia; try apply I.
  assert (W0 : rwaking s lr = []) by (unfold rwaking; by rewrite Mu, P).
  assert (Bu : busy s = false) by (unfold busy; by rewrite Mu, P).
  assert (O : Z.odd (owner s) = true) by (apply (ri_held _ _ _ I t); by rewrite P).
  eapply (rinv_step s lr lw _ (t :: lr) lw t (RSleep to)); try done; try apply I; try by rewrite Hc.
  - intros u. rewrite rpc_goto. done.
  - intros W _. destruct (ri_wait _ _ _ I W O) as [A [B|B]]; [auto|congruence].
  - auto.
  - intros u N. rewrite <- (ri_local _ _ _ I u). f_equal. unfold local_of. rewrite W0. cbn -[rpc].
    rewrite Ag. f_equal; apply bool_decide_ext; [set_solver|]. rewrite Mu. split; congruence.
  - local_is (let l := local_of s lr lw t in Local true (in_w l) (sig l) (rd l) (wr l) (wk l) false (ag l)) by (by rewrite W0).
    local_done (local_of s lr lw t).
  - intros De. destruct (ri_destroyed _ _ _ I De) as [A _]. by rewrite A in O.
Qed.

Lemma rinv_wlock_enq s lr lw t old to :
  rinv s lr lw -> rpc s t = WEnq old to -> rinv (wlock_enq t old to s) lr (t :: lw).
Proof.
  intros I P. assert (Mu : rw_mutex s = Some t) by (apply (rmutex _ _ _ _ I); by rewrite P).
  assert (Ht : is_Some (rw_cpus s !! t)) by (apply (ri_alive _ _ _ I); by rewrite P).
  pose proof (ri_ids _ _ _ I t Ht) as Hid. destruct Ht as [c Hc].
  pose proof (ri_local _ _ _ I t) as L. rewrite P in L.
  assert (Nr : t ∉ lr) by (apply (in_r_spec s lr lw); local_done (local_of s lr lw t)).
  assert (Nw : t ∉ lw) by (apply (in_w_spec s lr lw); local_done (local_of s lr lw t)).
  assert (Nd : (Z.shiftr old 1 =? t) = false) by (cbn -[Z.shiftr] in L; apply andb_true_iff in L as [_ L]; by apply negb_true_iff in L).
  unfold wlock_enq. destruct (emplace (rw_tag s) (rw_cpus s) (wq s) t) as [[tag' first] h] eqn:E. rewrite Nd.
  destruct (emplace_frame _ _ _ _ _ _ _ lw lr (rq s) c E) as (-> & Qw & Qr & Dm & Ag); try done; try lia; try apply I.
  assert (W0 : rwaking s lr = []) by (unfold rwaking; by rewrite Mu, P).
  assert (O : Z.odd (owner s) = true) by (apply (ri_held _ _ _ I t); by rewrite P).
  eapply (rinv_step s lr lw _ lr (t :: lw) t (WSleep to)); try done; try apply I; try by rewrite Hc.
  - intros u. rewrite rpc_goto. done.
  - intros W _. destruct (ri_wait _ _ _ I W O) as [A _]. auto.
  - auto.
  - intros u N. rewrite <- (ri_local _ _ _ I u). f_equal. unfold local_of. rewrite W0. cbn -[rpc].
    rewrite Ag. f_equal; apply bool_decide_ext; [set_solver|]. rewrite Mu. split; congruence.
  - local_is (let l := local_of s lr lw t in Local (in_r l) true (sig l) (rd l) (wr l) (wk l) false (ag l)) by (by rewrite W0).
    local_done (local_of s lr lw t).
  - intros De. destruct (ri_destroyed _ _ _ I De) as [A _]. by rewrite A in O.
Qed.

(** A step that changes the caller's signal. *)
Lemma rinv_signal s lr lw t p g :
  rinv s lr lw -> rholds (rpc s t) = false -> rholds p = false -> is_Some (rw_cpus s !! t) ->
  (forall u, u <> t -> u ∈ g <-> u ∈ rw_signal s) -> rw_in_idm p = false ->
  point_ok t p (let l := local_of s lr lw t in
    Local (in_r l) (in_w l) (bool_decide (t ∈ g)) (rd l) (wr l) (wk l) (lk l) (ag l)) = true ->
  rinv (goto t p (with_signal g s)) lr lw.
Proof.
  intros I Hh Hp Ht Hg Hi Lt. assert (N : rw_mutex s <> Some t) by (eapply not_locker; eauto).
  eapply (rinv_step s lr lw _ lr lw t p); try done; try apply I.
  - intros u. rewrite rpc_goto. done.
  - intros W O. destruct (ri_wait _ _ _ I W O) as [A B]. split; [done|]. by rewrite busy_goto.
  - do 3 right. done.
  - by intros size ws ->.
  - by rewrite Hp.
  - intros u Nu. rewrite <- (ri_local _ _ _ I u). f_equal. unfold local_of. rewrite rwaking_goto by done.
    cbn. f_equal. apply bool_decide_ext. auto.
  - rewrite <- Lt. f_equal. unfold local_of. by rewrite rwaking_goto.
  - intros De. destruct (ri_destroyed _ _ _ I De). auto.
Qed.

Lemma rinv_wake_up s lr lw t p s' :
  rinv s lr lw -> rw_wake_up t p s = Some s' ->
  (exists to, rpc s t = RSleep to /\ p = RReturned CELL_OK) \/ (exists to, rpc s t = WSleep to /\ p = WReturned CELL_OK) ->
  rinv s' lr lw.
Proof.
  intros I E Hp. unfold rw_wake_up in E. case_bool_decide as Hs; [|done]. injection E as <-.
  assert (S : sig (local_of s lr lw t) = true) by (cbn; by apply bool_decide_eq_true_2).
  pose proof (ri_local _ _ _ I t) as L.
  assert (Ht : is_Some (rw_cpus s !! t)) by (apply (ri_alive _ _ _ I); by destruct Hp as [(to & -> & _)|(to & -> & _)]).
  assert (Ng : bool_decide (t ∈ rw_signal s ∖ {[t]}) = false) by (apply bool_decide_eq_false_2; set_solver).
  destruct Hp as [(to & P & ->)|(to & P & ->)]; rewrite P in L; (apply rinv_signal; rewrite ?P; try done; [set_solver|]);
    rewrite Ng; local_done (local_of s lr lw t).
Qed.

Lemma rinv_return s lr lw t :
  rinv s lr lw -> (exists r, rpc s t = RReturned r \/ rpc s t = WReturned r \/ rpc s t = Returned r) ->
  rinv (goto t RIdle (with_signal (rw_signal s ∖ {[t]}) s)) lr lw.
Proof.
  intros I [r Hp]. pose proof (ri_local _ _ _ I t) as L.
  assert (Ht : is_Some (rw_cpus s !! t)) by (apply (ri_alive _ _ _ I); by destruct Hp as [->|[->| ->]]).
  assert (Ng : bool_decide (t ∈ rw_signal s ∖ {[t]}) = false) by (apply bool_decide_eq_false_2; set_solver).
  apply rinv_signal; try done; [by destruct Hp as [->|[->| ->]]|set_solver|]. rewrite Ng.
  destruct Hp as [P|[P|P]]; rewrite P in L; unfold point_ok, idle, calm in *; cbn -[local_of] in *;
    try (apply andb_true_iff in L as [L _]); local_done (local_of s lr lw t).
Qed.

(** A thread is marked [again]; it stays where it is queued. *)
Lemma rinv_again s lr lw t p :
  rinv s lr lw -> rw_unlocked s = true -> is_Some (rw_cpus s !! t) ->
  rholds p = false -> rw_in_idm p = false -> rholds (rpc s t) = false ->
  point_ok t p (let l := local_of s lr lw t in
    Local (in_r l) (in_w l) (sig l) (rd l) (wr l) false (lk l) true) = true ->
  rinv (goto t p (with_queues (rq s) (wq s) (alter set_again t (rw_cpus s)) s)) lr lw.
Proof.
  intros I U Ht Hp Hi Hh Lt. apply rw_unlocked_none in U as Mu.
  assert (W0 : rwaking s lr = []) by (unfold rwaking; by rewrite Mu).
  assert (W1 : forall h, rwaking (goto t p (with_queues (rq s) (wq s) h s)) lr = [])
    by (intros; unfold rwaking; cbn; by rewrite Mu).
  eapply (rinv_step s lr lw _ lr lw t p); try done; try apply I.
  - intros u. rewrite rpc_goto. done.
  - intros u. apply set_again_dom.
  - apply set_again_queue, I.
  - apply set_again_queue, I.
  - intros W O. destruct (ri_wait _ _ _ I W O) as [A B]. split; [done|]. rewrite busy_goto by (cbn; congruence). done.
  - auto.
  - by intros size ws ->.
  - by rewrite Hp.
  - intros u Nu. rewrite <- (ri_local _ _ _ I u). f_equal. unfold local_of. rewrite W0, W1. cbn.
    f_equal. rewrite set_again_is. by rewrite decide_False.
  - rewrite <- Lt. f_equal. unfold local_of. rewrite W1. cbn. f_equal.
    rewrite set_again_is, decide_True by done. by apply bool_decide_eq_true_2.
  - intros De. destruct (ri_destroyed _ _ _ I De). auto.
Qed.

Lemma idle_unlocked s lr : rw_mutex s = None -> rwaking s lr = [].
Proof. unfold rwaking. by intros ->. Qed.

Lemma rinv_stop_caller s lr lw t :
  rinv s lr lw -> rw_unlocked s = true -> rpc s t = RuLock \/ rpc s t = WuLock -> rinv (stop_caller t s) lr lw.
Proof.
  intros I U Hp. pose proof (ri_local _ _ _ I t) as L.
  apply rinv_again; try done; try (by destruct Hp as [->| ->]).
  - apply (ri_alive _ _ _ I). by destruct Hp as [->| ->].
  - destruct Hp as [P|P]; rewrite P in L; local_done (local_of s lr lw t).
Qed.

Lemma rinv_stop s lr lw t s' :
  rinv s lr lw -> rw_unlocked s = true ->
  ((exists to, rpc s t = RSleep to) /\ rw_stop t (rq s) RStopped (RReturned CELL_OK) s = Some s') \/
  ((exists to, rpc s t = WSleep to) /\ rw_stop t (wq s) WStopped (WReturned CELL_OK) s = Some s') ->
  rinv s' lr lw.
Proof.
  intros I U H. pose proof (ri_local _ _ _ I t) as L.
  assert (Wk : wk (local_of s lr lw t) = false).
  { cbn. rewrite (idle_unlocked s lr) by (by apply rw_unlocked_none). by apply bool_decide_eq_false_2, not_elem_of_nil. }
  assert (Ht : is_Some (rw_cpus s !! t)) by (apply (ri_alive _ _ _ I); by destruct H as [[[to ->] _]|[[to ->] _]]).
  destruct H as [[[to P] E]|[[to P] E]]; rewrite P in L; unfold rw_stop in E.
  - rewrite (walk_spec _ _ _ (ri_rq _ _ _ I)) in E. cbn [mbind option_bind] in E. injection E as <-.
    destruct (mem_list t lr) eqn:M.
    + apply mem_list_spec in M. apply rinv_again; rewrite ?P; try done.
      assert (R : in_r (local_of s lr lw t) = true) by (cbn; by apply bool_decide_eq_true_2).
      local_done (local_of s lr lw t).
    + apply not_true_iff_false in M. rewrite mem_list_spec in M. apply rinv_pc; rewrite ?P; try done.
      assert (R : in_r (local_of s lr lw t) = false) by (cbn; by apply bool_decide_eq_false_2).
      local_done (local_of s lr lw t).
  - rewrite (walk_spec _ _ _ (ri_wq _ _ _ I)) in E. cbn [mbind option_bind] in E. injection E as <-.
    destruct (mem_list t lw) eqn:M.
    + apply mem_list_spec in M. apply rinv_again; rewrite ?P; try done.
      assert (R : in_w (local_of s lr lw t) = true) by (cbn; by apply bool_decide_eq_true_2).
      local_done (local_of s lr lw t).
    + apply not_true_iff_false in M. rewrite mem_list_spec in M. apply rinv_pc; rewrite ?P; try done.
      assert (R : in_w (local_of s lr lw t) = false) by (cbn; by apply bool_decide_eq_false_2).
      local_done (local_of s lr lw t).
Qed.

(** A queue is not touched by changes to threads that are not in it. *)
Lemma queue_frame (h h' : threads) q (l l2 : list Z) :
  queue h q l -> (forall u, u ∉ l2 -> h' !! u = h !! u) -> (forall u, u ∈ l -> u ∉ l2) -> queue h' q l.
Proof. intros Q F D. eapply queue_same, Q. intros u Hu. by rewrite F by auto. Qed.

Lemma rinv_rlock_unqueue s lr lw t s' :
  rinv s lr lw -> rpc s t = RTimeoutLock -> rw_unlocked s = true -> rlock_unqueue t s = Some s' ->
  exists lr', rinv s' lr' lw.
Proof.
  intros I P U E. apply rw_unlocked_none in U as Mu.
  assert (Ht : is_Some (rw_cpus s !! t)) by (apply (ri_alive _ _ _ I); by rewrite P).
  pose proof (ri_ids _ _ _ I t Ht) as Hid. pose proof (ri_local _ _ _ I t) as L. rewrite P in L.
  unfold rlock_unqueue in E.
  destruct (unqueue_spec true (rw_cpus s) (rq s) lr t (ri_rq _ _ _ I)) as (f & h & Eu & Q & Sc & F); [lia|].
  rewrite Eu in E. cbn [mbind option_bind] in E. injection E as <-. exists (qremove t lr).
  assert (W0 : rwaking s lr = []) by (by apply idle_unlocked).
  assert (Wk : wk (local_of s lr lw t) = false) by (cbn; rewrite W0; by apply bool_decide_eq_false_2, not_elem_of_nil).
  set (p := RReturned _).
  assert (W1 : rwaking (goto t p (with_queues f (wq s) h s)) (qremove t lr) = []) by (unfold rwaking; cbn; by rewrite Mu).
  eapply (rinv_step s lr lw _ (qremove t lr) lw t p); try done; try apply I.
  - intros u. rewrite rpc_goto. done.
  - intros u. by apply same_cpus_dom.
  - eapply queue_frame; [apply I|exact F|]. intros u Hu Hr. by eapply queues_disjoint.
  - intros H. apply (ri_bit _ _ _ I). destruct H as [H|H]; [|by right]. left. by intros ->.
  - intros W O. destruct (ri_wait _ _ _ I W O) as [A B]. split; [done|]. rewrite busy_goto by (cbn; congruence). done.
  - auto.
  - intros u Nu. rewrite <- (ri_local _ _ _ I u). f_equal. unfold local_of. rewrite W0, W1. cbn.
    f_equal; [|by apply same_cpus_again]. apply bool_decide_ext. rewrite elem_of_qremove. tauto.
  - local_is (let l := local_of s lr lw t in Local false (in_w l) (sig l) (rd l) (wr l) false (lk l) (ag l))
      by first [rewrite W1; apply bool_decide_eq_false_2, not_elem_of_nil | by apply same_cpus_again
               | apply bool_decide_eq_false_2; rewrite elem_of_qremove; tauto].
    unfold p. destruct (decide (t ∈ lr)) as [Hr|Hr].
    + destruct (Z.eqb_spec t 0); [lia|]. local_done (local_of s lr lw t).
    + assert (R : in_r (local_of s lr lw t) = false) by (cbn; by apply bool_decide_eq_false_2).
      local_done (local_of s lr lw t).
  - intros De. destruct (ri_destroyed _ _ _ I De) as [A B]. auto.
Qed.

(** A thread leaves the writers' queue. *)
Lemma rinv_leave_wq s lr lw t p v m f h :
  rinv s lr lw -> rpc s t = WTimeoutLock -> rw_mutex s = None ->
  queue h f (qremove t lw) -> same_cpus (rw_cpus s) h -> (forall u, u ∉ lw -> h !! u = rw_cpus s !! u) ->
  (m = None /\ rholds p = false) \/ (m = Some t /\ p = WTimeoutWake 0 [] /\ writer s = None /\ qremove t lw = []) ->
  rw_in_idm p = false ->
  v = base s + Z.b2z (Z.odd v) ->
  (lr <> [] \/ qremove t lw <> [] -> Z.odd v = true) -> (m = Some t -> Z.odd v = true) ->
  (writer s = None -> Z.odd v = true -> readers s <> [] /\ (qremove t lw <> [] \/ m = Some t)) ->
  point_ok t p (let l := local_of s lr lw t in
    Local (in_r l) false (sig l) (rd l) (wr l) false (bool_decide (m = Some t)) (ag l)) = true ->
  rinv (goto t p (with_mutex m (with_owner v (with_queues (rq s) f h s)))) lr (qremove t lw).
Proof.
  intros I P Mu Q Sc F Hm Hi Ev Bi Bm Wa Lt. set (s' := with_mutex m (with_owner v (with_queues (rq s) f h s))).
  assert (W0 : rwaking s lr = []) by (by apply idle_unlocked).
  assert (W1 : rwaking (goto t p s') lr = []).
  { unfold rwaking. cbn -[rpc]. destruct Hm as [[-> _]|(-> & -> & _)]; [done|]. by rewrite rpc_here. }
  assert (Ht : is_Some (rw_cpus s !! t)) by (apply (ri_alive _ _ _ I); by rewrite P).
  eapply (rinv_step s lr lw _ lr (qremove t lw) t p); try done; try apply I.
  - intros u. rewrite rpc_goto. done.
  - intros u. by apply same_cpus_dom.
  - eapply queue_frame; [apply I|exact F|]. intros u Hu. by eapply queues_disjoint.
  - cbn. intros W O. destruct (Wa W O) as [A [B|B]]; split; auto. right. unfold busy. cbn -[rpc].
    destruct Hm as [[-> _]|(-> & -> & _)]; [done|]. by rewrite rpc_here.
  - auto.
  - intros size ws ->. destruct Hm as [[_ ?]|(_ & E & W & N)]; [done|]. injection E as -> ->.
    split_and!; [done..|]. left. split; [done|set_solver].
  - intros Hp. cbn. destruct Hm as [[_ ?]|(-> & _)]; [congruence|auto].
  - intros u Nu. rewrite <- (ri_local _ _ _ I u). f_equal. unfold local_of. rewrite W0, W1. cbn.
    f_equal; [| |by apply same_cpus_again].
    + apply bool_decide_ext. rewrite elem_of_qremove. tauto.
    + apply bool_decide_ext. rewrite Mu. destruct Hm as [[-> _]|(-> & _)]; split; congruence.
  - rewrite <- Lt. f_equal. unfold local_of. rewrite W1. cbn. f_equal.
    + apply bool_decide_eq_false_2. rewrite elem_of_qremove. tauto.
    + by apply same_cpus_again.
  - intros De. destruct (ri_destroyed _ _ _ I De) as [A B]. cbn. split_and!; [|done|by right].
    destruct (owner_zero _ _ _ I A) as [W R]. unfold base in Ev. rewrite W, R in Ev. cbn in Ev.
    destruct (Z.odd v) eqn:O; [|done]. destruct (Wa W eq_refl). congruence.
Qed.

Lemma unlocked_state s v : rw_mutex s = None -> v = owner s -> forall r w h,
  with_queues r w h s = with_mutex None (with_owner v (with_queues r w h s)).
Proof. intros M -> r w h. destruct s. cbn in *. by subst. Qed.

Lemma rinv_wlock_unqueue s lr lw t s' :
  rinv s lr lw -> rpc s t = WTimeoutLock -> rw_unlocked s = true -> wlock_unqueue t s = Some s' ->
  exists lw', rinv s' lr lw'.
Proof.
  intros I P U E. apply rw_unlocked_none in U as Mu.
  assert (Ht : is_Some (rw_cpus s !! t)) by (apply (ri_alive _ _ _ I); by rewrite P).
  pose proof (ri_ids _ _ _ I t Ht) as Hid. pose proof (ri_local _ _ _ I t) as L. rewrite P in L.
  unfold wlock_unqueue in E.
  destruct (unqueue_spec true (rw_cpus s) (wq s) lw t (ri_wq _ _ _ I)) as (f & h & Eu & Q & Sc & F); [lia|].
  rewrite Eu in E. cbn [mbind option_bind] in E. injection E as <-. exists (qremove t lw).
  rewrite (head_nil _ _ _ Q), (head_nil _ _ _ (ri_rq _ _ _ I)).
  pose proof (ri_owner _ _ _ I) as Eo.
  assert (Wa : forall n : Prop, (lr = [] -> qremove t lw = [] -> n) -> (lr <> [] -> qremove t lw = [] -> owner s < 0 -> n) ->
    writer s = None -> Z.odd (owner s) = true -> readers s <> [] /\ (qremove t lw <> [] \/ n)).
  { intros n H1 H2 W O. destruct (ri_wait _ _ _ I W O) as [A _]. split; [done|].
    destruct (decide (qremove t lw = [])) as [En|]; [|auto]. right. destruct (decide (lr = [])); [auto|].
    apply H2; try done. unfold base in Eo. rewrite W, O in Eo. destruct (readers s); [done|].
    cbn [length Z.b2z] in Eo. lia. }
  assert (Bi : lr <> [] \/ qremove t lw <> [] -> Z.odd (owner s) = true).
  { intros H. apply (ri_bit _ _ _ I). destruct H as [H|H]; [by left|]. right. by intros ->. }
  assert (Wk : wk (local_of s lr lw t) = false).
  { cbn. rewrite idle_unlocked by done. by apply bool_decide_eq_false_2, not_elem_of_nil. }
  destruct (decide (t ∈ lw)) as [Hw|Hw].
  2: { cbn [Z.eqb]. rewrite (unlocked_state s (owner s) Mu eq_refl). apply rinv_leave_wq; try done; [by left|..].
    - rewrite qremove_notin by done. intros W O. destruct (ri_wait _ _ _ I W O) as [A [B|B]]; [auto|].
      unfold busy in B. by rewrite Mu in B.
    - assert (R : in_w (local_of s lr lw t) = false) by (cbn; by apply bool_decide_eq_false_2).
      local_done (local_of s lr lw t). }
  destruct (Z.eqb_spec t 0); [lia|].
  assert (R : in_w (local_of s lr lw t) = true) by (cbn; by apply bool_decide_eq_true_2).
  destruct (negb (bool_decide (lr = [])) && bool_decide (qremove t lw = []) && (owner s <? 0)) eqn:C1.
  - rewrite !andb_true_iff, negb_true_iff, bool_decide_eq_false, bool_decide_eq_true, Z.ltb_lt in C1.
    destruct C1 as [[C1 C2] C3].
    assert (W : writer s = None).
    { destruct (writer s) as [w|] eqn:W; [|done]. destruct (ri_excl _ _ _ I w W) as [_ ?]. unfold base in Eo.
      rewrite W in Eo. destruct (Z.odd (owner s)); cbn in Eo; lia. }
    replace (with_queues (rq s) f h s) with (with_owner (owner s) (with_queues (rq s) f h s)) by (by destruct s).
    apply rinv_leave_wq; try done; [by right|by intros _; auto|apply Wa; auto|].
    rewrite (bool_decide_eq_true_2 (Some t = Some t)) by done. local_done (local_of s lr lw t).
  - destruct (bool_decide (lr = []) && bool_decide (qremove t lw = [])) eqn:C2.
    + rewrite andb_true_iff, !bool_decide_eq_true in C2. destruct C2 as [C2 C3].
      assert (Ev : Z.land (owner s) (-2) = base s) by (rewrite land_m2; lia).
      rewrite (unlocked_state s (owner s) Mu eq_refl).
      change (with_owner (Z.land (owner s) (-2)) (with_mutex None (with_owner (owner s) (with_queues (rq s) f h s))))
        with (with_mutex None (with_owner (Z.land (owner s) (-2)) (with_queues (rq s) f h s))).
      apply rinv_leave_wq; try done; rewrite ?Ev, ?base_even; try done; [by left|cbn; lia|by intros [|]|].
      local_done (local_of s lr lw t).
    + rewrite (unlocked_state s (owner s) Mu eq_refl). apply rinv_leave_wq; try done; [by left| |].
      * apply Wa.
        -- intros -> E2. by rewrite E2, !bool_decide_eq_true_2 in C2 by done.
        -- intros N E2 Hn. rewrite E2, (bool_decide_eq_true_2 ([] = [])) in C1 by done.
           rewrite bool_decide_eq_false_2 in C1 by done. cbn in C1. apply Z.ltb_ge in C1. lia.
      * local_done (local_of s lr lw t).
Qed.

(** Case analysis on the booleans of the context, pruned as it goes. *)
Ltac bools :=
  cbn in *; try done;
  repeat match goal with x : bool |- _ => destruct x; cbn in *; try done end.

Lemma rwaking_here s lr t size ws :
  rw_mutex s = Some t -> rpc s t = WTimeoutWake size ws -> rwaking s lr = filter (fun u => u ∉ lr) ws.
Proof. intros M P. unfold rwaking. by rewrite M, P. Qed.

(** A queued reader sleeps, unless it was stopped. *)
Lemma queued_reader s lr lw u :
  rinv s lr lw -> u ∈ lr -> is_again (rw_cpus s) u = false ->
  forall v, in_r v = false -> in_w v = false -> lk v = false -> ag v = false ->
    (wk v = true /\ sig v = false) \/ (wk v = false /\ sig v = true /\ rd v = true) ->
    point_ok u (rpc s u) v = true.
Proof.
  intros I Hu Ha v H1 H2 H3 H4 H5. pose proof (ri_local _ _ _ I u) as L.
  assert (R : in_r (local_of s lr lw u) = true) by (cbn; by apply bool_decide_eq_true_2).
  assert (A : ag (local_of s lr lw u) = false) by done.
  destruct (local_of s lr lw u) as [? ? ? ? ? ? ? ?], v as [? ? ? ? ? ? ? ?]. cbn in R, A, H1, H2, H3, H4, H5. subst.
  destruct H5 as [[-> ->]|(-> & -> & ->)]; destruct (rpc s u); bools.
Qed.

(** A reader that was taken out of the queue is signalled with a read lock. *)
Lemma waking_reader s lr lw u :
  rinv s lr lw -> u ∈ rwaking s lr ->
  forall v, in_r v = false -> in_w v = false -> lk v = false -> ag v = false -> wk v = false -> sig v = true ->
    rd v = true -> point_ok u (rpc s u) v = true.
Proof.
  intros I Hu v H1 H2 H3 H4 H5 H6 H7. pose proof (ri_local _ _ _ I u) as L.
  assert (R : wk (local_of s lr lw u) = true) by (cbn; by apply bool_decide_eq_true_2).
  destruct (local_of s lr lw u) as [? ? ? ? ? ? ? ?], v as [? ? ? ? ? ? ? ?]. cbn in R, H1, H2, H3, H4, H5, H6, H7. subst.
  destruct (rpc s u); bools.
Qed.

Lemma wk_view t p v :
  point_ok t p v = true -> wk v = true -> in_r v = false /\ in_w v = false /\ lk v = false /\ ag v = false.
Proof. intros H Hw. destruct v as [[] [] [] [] [] [] [] []], p; cbn in *; by split_and! || congruence || done. Qed.

Lemma waking_view s lr lw u :
  rinv s lr lw -> u ∈ rwaking s lr -> in_r (local_of s lr lw u) = false /\ in_w (local_of s lr lw u) = false /\
    lk (local_of s lr lw u) = false /\ ag (local_of s lr lw u) = false.
Proof. intros I Hu. apply (wk_view u (rpc s u)); [apply I|]. cbn. by apply bool_decide_eq_true_2. Qed.

Lemma rinv_wake_end s lw t size ws :
  rinv s [] lw -> rpc s t = WTimeoutWake size ws -> Z.of_nat (length (ws ++ readers s)) < 2 ^ 60 ->
  rinv (goto t (WReturned CELL_ETIMEDOUT)
         (with_mutex None
           (with_signal (rw_signal s ∪ list_to_set ws)
             (with_owner (Z.land (s64 (owner s - 2 * size)) (-2)) (with_holders (ws ++ readers s) (writer s) s))))) [] lw.
Proof.
  intros I P Fe. assert (Mu : rw_mutex s = Some t) by (apply (rmutex _ _ _ _ I); by rewrite P).
  assert (Ht : is_Some (rw_cpus s !! t)) by (apply (ri_alive _ _ _ I); by rewrite P).
  assert (O : Z.odd (owner s) = true) by (apply (ri_held _ _ _ I t); by rewrite P).
  destruct (ri_wake _ _ _ I _ _ _ P) as (W & Lw & [(Sz & _)|[? _]]); [|done].
  pose proof (ri_owner _ _ _ I) as Eo. unfold base in Eo. rewrite W, O in Eo. cbn [Z.b2z] in Eo.
  rewrite length_app in Fe.
  assert (Ev : Z.land (s64 (owner s - 2 * size)) (-2) = -2 * Z.of_nat (length (ws ++ readers s))).
  { rewrite sint_small by (try lia; split; lia). rewrite land_m2, length_app.
    assert (Z.odd (owner s - 2 * size) = true) as ->
      by (by rewrite Z.odd_sub, O, Z.odd_mul). cbn [Z.b2z]. lia. }
  rewrite Ev. assert (Wk : forall u, u ∈ rwaking s [] <-> u ∈ ws).
  { intros u. rewrite (rwaking_here _ _ _ _ _ Mu P), list_elem_of_filter. set_solver. }
  eapply (rinv_step s [] lw _ [] lw t (WReturned CELL_ETIMEDOUT)); try done; try apply I.
  - intros u. rewrite rpc_goto. done.
  - cbn -[Z.odd Z.mul]. unfold base. cbn -[Z.mul Z.odd]. rewrite W. cbn -[Z.mul Z.odd].
    rewrite odd_double. cbn [Z.b2z]. lia.
  - intros w. cbn. congruence.
  - rewrite Lw. intros [|]; done.
  - intros _. cbn -[Z.odd Z.mul]. by rewrite odd_double.
  - auto.
  - cbn. rewrite length_app. lia.
  - intros u Nu. destruct (decide (u ∈ ws)) as [Hu|Hu].
    + apply (waking_reader s [] lw u I); [by apply Wk|..]; destruct (waking_view s [] lw u I) as (A & B & C & D); try (by apply Wk);
        cbn in *; try done; apply bool_decide_eq_true_2; set_solver.
    + rewrite <- (ri_local _ _ _ I u). f_equal. unfold local_of. cbn -[rpc rwaking]. f_equal.
      * apply bool_decide_ext. set_solver.
      * apply bool_decide_ext. set_solver.
      * apply bool_decide_ext. rewrite Wk. unfold rwaking. cbn. set_solver.
      * apply bool_decide_ext. rewrite Mu. split; congruence.
  - pose proof (ri_local _ _ _ I t) as L. rewrite P in L.
    assert (A : in_w (local_of s [] lw t) = false /\ ag (local_of s [] lw t) = false)
      by (local_done (local_of s [] lw t)).
    destruct A as [A B].
    local_is (Local false false (bool_decide (t ∈ rw_signal s ∪ list_to_set ws)) (bool_decide (t ∈ ws ++ readers s))
      (bool_decide (writer s = Some t)) false false false) by first [exact A | exact B].
    done.
  - intros De. destruct (ri_destroyed _ _ _ I De) as [A _]. by rewrite A in O.
Qed.


Lemma rinv_wlock_wake s lr lw t size ws s' :
  rinv s lr lw -> rpc s t = WTimeoutWake size ws -> wlock_wake t size ws s = Some s' ->
  Z.of_nat (length (readers s')) < 2 ^ 60 -> exists lr', rinv s' lr' lw.
Proof.
  intros I P E Fe. assert (Mu : rw_mutex s = Some t) by (apply (rmutex _ _ _ _ I); by rewrite P).
  assert (Ht : is_Some (rw_cpus s !! t)) by (apply (ri_alive _ _ _ I); by rewrite P).
  assert (O : Z.odd (owner s) = true) by (apply (ri_held _ _ _ I t); by rewrite P).
  destruct (ri_wake _ _ _ I _ _ _ P) as (W & Lw & Wk). unfold wlock_wake in E.
  destruct (schedule_spec SYS_SYNC_FIFO true (rw_cpus s) (rq s) lr (ri_rq _ _ _ I)) as (f & h & Es & Sc & F & Q).
  rewrite Es in E. cbn [mbind option_bind] in E. set (r := pick SYS_SYNC_FIFO (rw_cpus s) lr) in *.
  destruct (decide (lr = [])) as [->|Hne].
  { cbn in r. subst r. injection E as <-. cbn in Fe. exists []. by apply rinv_wake_end. }
  assert (Hr : r ∈ lr) by (by apply pick_in).
  destruct (queue_in _ _ _ r (ri_rq _ _ _ I) Hr) as [Hr0 _].
  destruct (Z.eqb_spec r 0); [done|]. injection E as <-.
  pose proof (ri_local _ _ _ I t) as L. rewrite P in L.
  assert (Ntr : t <> r).
  { intros ->. assert (A : in_r (local_of s lr lw r) = true) by (cbn; by apply bool_decide_eq_true_2).
    local_done (local_of s lr lw r). }
  set (lr' := if is_again (rw_cpus s) r then lr else qremove r lr). exists lr'.
  assert (Q' : queue h f lr') by (unfold lr'; destruct (is_again (rw_cpus s) r); [destruct Q as [-> ->]; apply I|done]).
  assert (Wk' : forall u, u ∈ rwaking (goto t (WTimeoutWake (size + 1) (r :: ws)) (with_queues f (wq s) h s)) lr' <->
                 u ∈ rwaking s lr \/ (u = r /\ is_again (rw_cpus s) r = false)).
  { intros u. rewrite (rwaking_here _ _ _ _ _ Mu P). unfold rwaking. cbn -[rpc]. rewrite Mu, rpc_here.
    rewrite !list_elem_of_filter. unfold lr'. destruct (is_again (rw_cpus s) r) eqn:Ea.
    - rewrite elem_of_cons. split; [intros [A [->|B]]; [done|auto]|intros [[A B]|[_ ?]]; [auto|done]].
    - rewrite elem_of_cons, elem_of_qremove. destruct Wk as [[_ Wk]|[_ Wk]]; [|fold r in Wk; congruence].
      split; [intros [A [->|B]]; auto|intros [[A B]|[-> _]]; split; auto; tauto]. }
  eapply (rinv_step s lr lw _ lr' lw t (WTimeoutWake (size + 1) (r :: ws))); try done; try apply I.
  - intros u. rewrite rpc_goto. done.
  - intros u. by apply same_cpus_dom.
  - eapply queue_frame; [apply I|exact F|]. intros u Hu. rewrite Lw in Hu. set_solver.
  - intros _ _. destruct (ri_wait _ _ _ I W O) as [A B]. split; [done|]. right. unfold busy. cbn -[rpc]. by rewrite Mu, rpc_here.
  - auto.
  - intros size' ws' [= <- <-]. split_and!; [done..|]. unfold lr'. destruct (is_again (rw_cpus s) r) eqn:Ea.
    + right. split; [exact Hne|]. cbn. destruct Q as [_ ->]. exact Ea.
    + left. destruct Wk as [[Wk1 Wk2]|[_ Wk]]; [|fold r in Wk; congruence]. cbn [length]. split; [lia|].
      intros u [->|Hu]%elem_of_cons; rewrite elem_of_qremove; [tauto|]. intros [A _]. by eapply Wk2.
  - intros u Nu. destruct (decide (u = r)) as [->|Nr]; [destruct (is_again (rw_cpus s) r) eqn:Ea|].
    + assert (El : lr' = lr) by (unfold lr'; rewrite ?Ea; done).
      rewrite <- (ri_local _ _ _ I r). f_equal. unfold local_of. cbn -[rpc rwaking]. f_equal.
      * apply bool_decide_ext. rewrite Wk'. split; [intros [?|[_ ?]]; [done|done]|auto].
      * by apply same_cpus_again.
    + pose proof (queued_reader s lr lw r I Hr Ea) as K. apply K; cbn -[rwaking].
      * apply bool_decide_eq_false_2. unfold lr'. rewrite elem_of_qremove. tauto.
      * apply bool_decide_eq_false_2. by eapply queues_disjoint.
      * apply bool_decide_eq_false_2. congruence.
      * by rewrite (same_cpus_again _ _ _ Sc).
      * left. split; [apply bool_decide_eq_true_2, Wk'; auto|]. apply bool_decide_eq_false_2. intros Hs.
        pose proof (ri_local _ _ _ I r) as Lr.
        assert (A : in_r (local_of s lr lw r) = true) by (cbn; by apply bool_decide_eq_true_2).
        assert (B : sig (local_of s lr lw r) = true) by (cbn; by apply bool_decide_eq_true_2).
        assert (C : ag (local_of s lr lw r) = false) by done.
        destruct (local_of s lr lw r) as [? ? ? ? ? ? ? ?]. cbn in A, B, C. subst. destruct (rpc s r); bools.
    + rewrite <- (ri_local _ _ _ I u). f_equal. unfold local_of. cbn -[rpc rwaking]. f_equal.
      * apply bool_decide_ext. unfold lr'. destruct (is_again (rw_cpus s) r); [done|]. rewrite elem_of_qremove. tauto.
      * apply bool_decide_ext. rewrite Wk'. tauto.
      * by apply same_cpus_again.
  - assert (Nr : bool_decide (t ∈ lr') = false).
    { apply bool_decide_eq_false_2. unfold lr'.
      assert (A : t ∉ lr) by (apply (in_r_spec s lr lw); local_done (local_of s lr lw t)).
      destruct (is_again (rw_cpus s) r); [done|]. rewrite elem_of_qremove. tauto. }
    local_is (let l := local_of s lr lw t in Local false (in_w l) (sig l) (rd l) (wr l) (wk l) (lk l) (ag l))
      by first [exact Nr | by apply same_cpus_again | apply bool_decide_ext; rewrite Wk'; tauto].
    clear Wk' Q Q' F Sc Es. local_done (local_of s lr lw t).
  - intros De. destruct (ri_destroyed _ _ _ I De) as [A _]. by rewrite A in O.
Qed.

(** A queued writer sleeps, unless it was stopped. *)
Lemma queued_writer s lr lw u :
  rinv s lr lw -> u ∈ lw -> is_again (rw_cpus s) u = false ->
  forall v, in_r v = false -> in_w v = false -> lk v = false -> ag v = false -> wk v = false -> sig v = true ->
    wr v = true -> point_ok u (rpc s u) v = true.
Proof.
  intros I Hu Ha v H1 H2 H3 H4 H5 H6 H7. pose proof (ri_local _ _ _ I u) as L.
  assert (R : in_w (local_of s lr lw u) = true) by (cbn; by apply bool_decide_eq_true_2).
  assert (A : ag (local_of s lr lw u) = false) by done.
  destruct (local_of s lr lw u) as [? ? ? ? ? ? ? ?], v as [? ? ? ? ? ? ? ?].
  cbn in R, A, H1, H2, H3, H4, H5, H6, H7. subst. destruct (rpc s u); bools.
Qed.

Lemma queued_not_reader s lr lw u : rinv s lr lw -> u ∈ lw -> u ∉ lr.
Proof. intros I Hw Hr. by eapply queues_disjoint. Qed.

Lemma id2_spec s lr lw u : rinv s lr lw -> is_Some (rw_cpus s !! u) -> id2 u = 2 * u.
Proof.
  intros I Hs. pose proof (ri_ids _ _ _ I u Hs). unfold id2. rewrite Z.shiftl_mul_pow2 by lia.
  rewrite uint_small by (split; lia). lia.
Qed.

Lemma handed_owner c f r :
  exists b, Z.lor (Z.lor (2 * c) (nonempty f)) (nonempty r) = 2 * c + Z.b2z b /\
    b = negb (f =? 0) || negb (r =? 0).
Proof.
  assert (E : Z.lor (2 * c) 1 = 2 * c + 1) by (rewrite lor_1, Z.odd_mul; cbn; lia).
  assert (O : Z.odd (2 * c + 1) = true) by (by rewrite Z.odd_add, Z.odd_mul).
  eexists. split; [|done]. unfold nonempty. destruct (f =? 0), (r =? 0); cbn [negb orb Z.b2z].
  - rewrite !Z.lor_0_r. lia.
  - rewrite Z.lor_0_r. exact E.
  - rewrite Z.lor_0_r. exact E.
  - rewrite E, lor_1, O. cbn. lia.
Qed.

(** The lock passes from its holder to the next writer. *)
Lemma rinv_hand_over s lr lw t rs cpu f h :
  rinv s lr lw -> rw_unlocked s = true -> cpu ∈ lw -> is_again (rw_cpus s) cpu = false ->
  queue h f (qremove cpu lw) -> same_cpus (rw_cpus s) h -> (forall u, u ∉ lw -> h !! u = rw_cpus s !! u) ->
  (rpc s t = RuLock /\ readers s = [t] \/ rpc s t = WuLock /\ writer s = Some t) -> rs = [] ->
  rinv (hand_over t cpu f h rs s) lr (qremove cpu lw).
Proof.
  intros I U Hc Ha Q Sc F Hp ->. apply rw_unlocked_none in U as Mu.
  assert (Ht : is_Some (rw_cpus s !! t)) by (apply (ri_alive _ _ _ I); by destruct Hp as [[-> _]|[-> _]]).
  destruct (queue_in _ _ _ cpu (ri_wq _ _ _ I) Hc) as [Hc0 Hcs].
  pose proof (ri_local _ _ _ I t) as L.
  assert (Hidle : idle (local_of s lr lw t) = true).
  { destruct Hp as [[P _]|[P _]]; rewrite P in L; cbn -[local_of] in L; by apply andb_true_iff in L as [? _]. }
  assert (Ntc : cpu <> t).
  { intros ->. assert (A : in_w (local_of s lr lw t) = true) by (cbn; by apply bool_decide_eq_true_2).
    unfold idle, calm in Hidle. local_done (local_of s lr lw t). }
  assert (Wo : forall u, u <> t -> writer s <> Some u).
  { intros u Nu W. destruct Hp as [[_ R]|[_ W']]; [|congruence]. destruct (ri_excl _ _ _ I u W). congruence. }
  assert (Ro : forall u, u <> t -> u ∉ readers s).
  { intros u Nu. destruct Hp as [[_ R]|[_ W']]; [rewrite R; set_solver|].
    destruct (ri_excl _ _ _ I t W') as [-> _]. set_solver. }
  destruct (handed_owner cpu f (rq s)) as (b & Ev & Eb).
  rewrite (head_nil _ _ _ Q), (head_nil _ _ _ (ri_rq _ _ _ I)) in Eb.
  assert (O : Z.odd (2 * cpu + Z.b2z b) = b) by (rewrite Z.odd_add, Z.odd_mul; by destruct b).
  unfold hand_over. rewrite (id2_spec _ _ _ _ I Hcs), Ev.
  assert (W0 : rwaking s lr = []) by (by apply idle_unlocked).
  match goal with |- rinv (goto _ _ ?x) _ _ => set (s' := x) end.
  assert (W1 : rwaking (goto t (Returned CELL_OK) s') lr = []) by (unfold rwaking; cbn; by rewrite Mu).
  eapply (rinv_step s lr lw _ lr (qremove cpu lw) t (Returned CELL_OK)); try done; try apply I.
  - intros u. rewrite rpc_goto. done.
  - intros u. by apply same_cpus_dom.
  - eapply queue_frame; [apply I|exact F|]. intros u Hu. by eapply queues_disjoint.
  - cbn -[Z.odd Z.mul]. rewrite O. done.
  - intros w [= <-]. split; [done|]. by apply (ri_ids _ _ _ I).
  - cbn -[Z.odd Z.mul]. rewrite O, Eb. intros [H|H].
    + rewrite (bool_decide_eq_false_2 (lr = [])) by done. apply orb_true_r.
    + by rewrite (bool_decide_eq_false_2 (qremove cpu lw = [])) by done.
  - auto.
  - intros u Nu. destruct (decide (u = cpu)) as [->|Nc].
    + apply (queued_writer s lr lw cpu I Hc Ha); cbn -[rwaking]; rewrite ?W1.
      * apply bool_decide_eq_false_2. by eapply queued_not_reader.
      * apply bool_decide_eq_false_2. rewrite elem_of_qremove. tauto.
      * apply bool_decide_eq_false_2. congruence.
      * by rewrite (same_cpus_again _ _ _ Sc).
      * by apply bool_decide_eq_false_2, not_elem_of_nil.
      * apply bool_decide_eq_true_2. set_solver.
      * by apply bool_decide_eq_true_2.
    + rewrite <- (ri_local _ _ _ I u). f_equal. unfold local_of. rewrite W0, W1. cbn -[rpc]. f_equal.
      * apply bool_decide_ext. rewrite elem_of_qremove. tauto.
      * apply bool_decide_ext. set_solver.
      * apply bool_decide_ext. specialize (Ro u Nu). set_solver.
      * apply bool_decide_ext. specialize (Wo u Nu). split; [congruence|done].
      * by apply same_cpus_again.
  - local_is (let l := local_of s lr lw t in
      Local (in_r l) (in_w l) (sig l) (bool_decide (t ∈ @nil Z)) (bool_decide (Some cpu = Some t)) false (lk l) (ag l))
      by first [by apply same_cpus_again | rewrite W1; apply bool_decide_eq_false_2, not_elem_of_nil
               | apply bool_decide_ext; rewrite elem_of_qremove; set_solver].
    unfold idle, calm in Hidle. local_done (local_of s lr lw t).
  - intros De. destruct (ri_destroyed _ _ _ I De) as [A _]. destruct (owner_zero _ _ _ I A) as [B C].
    destruct Hp as [[_ R]|[_ W']]; congruence.
Qed.

Lemma rinv_wake_readers s lr t ws h :
  rinv s lr [] -> rw_unlocked s = true -> rpc s t = WuLock ->
  (forall u, u ∈ lr -> is_again (rw_cpus s) u = false) ->
  (forall u, u ∈ ws <-> u ∈ lr) -> same_cpus (rw_cpus s) h -> (forall u, u ∉ lr -> h !! u = rw_cpus s !! u) ->
  Z.of_nat (length (ws ++ readers s)) < 2 ^ 60 ->
  rinv (goto t (Returned CELL_OK)
         (with_signal (rw_signal s ∪ list_to_set ws)
           (with_holders (ws ++ readers s) None
             (with_owner (s64 (-2 * Z.of_nat (length ws))) (with_queues 0 (wq s) h s))))) [] [].
Proof.
  intros I U P Ag Ws Sc F Fe. apply rw_unlocked_none in U as Mu.
  assert (Ht : is_Some (rw_cpus s !! t)) by (apply (ri_alive _ _ _ I); by rewrite P).
  pose proof (ri_local _ _ _ I t) as L. rewrite P in L.
  assert (W : writer s = Some t) by (cbn -[local_of] in L; apply andb_true_iff in L as [_ L]; by apply bool_decide_eq_true in L).
  destruct (ri_excl _ _ _ I t W) as [R _].
  rewrite length_app, R in Fe. cbn [length] in Fe. rewrite Nat.add_0_r in Fe.
  assert (Ev : s64 (-2 * Z.of_nat (length ws)) = -2 * Z.of_nat (length ws)) by (apply sint_small; [lia|split; lia]).
  rewrite Ev, R, app_nil_r.
  assert (Nt : t ∉ lr) by (apply (in_r_spec s lr []); local_done (local_of s lr [] t)).
  match goal with |- rinv (goto _ _ ?x) _ _ => set (s' := x) end.
  assert (W0 : rwaking s lr = []) by (by apply idle_unlocked).
  assert (W1 : rwaking (goto t (Returned CELL_OK) s') [] = []) by (unfold rwaking; cbn; by rewrite Mu).
  eapply (rinv_step s lr [] _ [] [] t (Returned CELL_OK)); try done; try apply I.
  - intros u. rewrite rpc_goto. done.
  - intros u. by apply same_cpus_dom.
  - split; [done|constructor].
  - cbn -[Z.odd Z.mul]. unfold base. cbn -[Z.odd Z.mul]. rewrite odd_double. cbn. lia.
  - intros [|]; done.
  - intros _. cbn -[Z.odd Z.mul]. by rewrite odd_double.
  - auto.
  - intros u Nu. destruct (decide (u ∈ lr)) as [Hu|Hu].
    + apply (queued_reader s lr [] u I Hu (Ag u Hu)); cbn -[rwaking]; rewrite ?W1.
      * by apply bool_decide_eq_false_2, not_elem_of_nil.
      * by apply bool_decide_eq_false_2, not_elem_of_nil.
      * apply bool_decide_eq_false_2. congruence.
      * rewrite (same_cpus_again _ _ _ Sc). auto.
      * right. apply Ws in Hu. split_and!; [by apply bool_decide_eq_false_2, not_elem_of_nil|apply bool_decide_eq_true_2; set_solver..].
    + assert (Hw : u ∉ ws) by (by rewrite Ws).
      rewrite <- (ri_local _ _ _ I u). f_equal. unfold local_of. rewrite W0, W1. cbn -[rpc]. f_equal.
      * apply bool_decide_ext. set_solver.
      * apply bool_decide_ext. set_solver.
      * apply bool_decide_ext. rewrite R. set_solver.
      * apply bool_decide_ext. rewrite W. split; congruence.
      * by apply same_cpus_again.
  - local_is (let l := local_of s lr [] t in
      Local false false (bool_decide (t ∈ rw_signal s ∪ list_to_set ws)) (bool_decide (t ∈ ws)) false false (lk l) (ag l))
      by first [by apply same_cpus_again | rewrite W1; apply bool_decide_eq_false_2, not_elem_of_nil].
    local_done (local_of s lr [] t).
  - intros De. destruct (ri_destroyed _ _ _ I De) as [A _]. destruct (owner_zero _ _ _ I A) as [B C]. congruence.
Qed.

Lemma rinv_runlock_lock s lr lw t s' :
  rinv s lr lw -> rpc s t = RuLock -> rw_unlocked s = true -> runlock_lock t s = Some s' ->
  exists lw', rinv s' lr lw'.
Proof.
  intros I P U E. apply rw_unlocked_none in U as Mu.
  assert (Ht : is_Some (rw_cpus s !! t)) by (apply (ri_alive _ _ _ I); by rewrite P).
  pose proof (ri_local _ _ _ I t) as L. rewrite P in L. cbn -[local_of] in L. apply andb_true_iff in L as [Hi Hr].
  assert (Hrd : t ∈ readers s) by (by apply bool_decide_eq_true in Hr).
  assert (W : writer s = None).
  { destruct (writer s) as [w|] eqn:W; [|done]. destruct (ri_excl _ _ _ I w W) as [R _]. rewrite R in Hrd. set_solver. }
  pose proof (ri_owner _ _ _ I) as Eo. unfold base in Eo. rewrite W in Eo.
  pose proof (remove_one_length _ _ Hrd) as Len. pose proof (ri_few _ _ _ I) as Few.
  unfold runlock_lock in E. cbv zeta in E.
  destruct (Z.geb_spec (owner s) 0) as [G|G]; [destruct (Z.odd (owner s)); cbn [Z.b2z] in Eo; lia|].
  destruct (Z.eqb_spec (owner s) (-1)) as [E1|E1].
  - assert (O : Z.odd (owner s) = true) by (by rewrite E1). rewrite O in Eo. cbn [Z.b2z] in Eo.
    destruct (ri_wait _ _ _ I W O) as [_ [Hw|Hb]]; [|unfold busy in Hb; by rewrite Mu in Hb].
    assert (Rs : readers s = [t]).
    { destruct (readers s) as [|x [|y l]]; cbn [length] in *; [lia| |lia]. f_equal. set_solver. }
    destruct (schedule_spec (rw_protocol s) true (rw_cpus s) (wq s) lw (ri_wq _ _ _ I)) as (f & h & Es & Sc & F & Q).
    rewrite Es in E. cbn [mbind option_bind] in E. set (r := pick (rw_protocol s) (rw_cpus s) lw) in *.
    assert (Hp : r ∈ lw) by (by apply pick_in).
    destruct (queue_in _ _ _ r (ri_wq _ _ _ I) Hp) as [Hr0 _]. destruct (Z.eqb_spec r 0); [done|].
    rewrite (same_cpus_again _ _ _ Sc) in E. destruct (is_again (rw_cpus s) r) eqn:Ea; injection E as <-.
    + exists lw. apply rinv_stop_caller; auto.
    + exists (qremove r lw). apply rinv_hand_over; auto.
      rewrite Rs. cbn. by rewrite Z.eqb_refl.
  - injection E as <-. exists lw. rewrite (proj2 (Z.ltb_lt (owner s) (-1))) by lia.
    rewrite sint_small by (try lia; destruct (Z.odd (owner s)); cbn [Z.b2z] in Eo; split; lia).
    apply rinv_release_read; auto. by rewrite P.
Qed.

Lemma rinv_wunlock_lock s lr lw t s' :
  rinv s lr lw -> rpc s t = WuLock -> rw_unlocked s = true -> wunlock_lock t s = Some s' ->
  Z.of_nat (length (readers s')) < 2 ^ 60 -> exists lr' lw', rinv s' lr' lw'.
Proof.
  intros I P U E Fe. apply rw_unlocked_none in U as Mu.
  assert (Ht : is_Some (rw_cpus s !! t)) by (apply (ri_alive _ _ _ I); by rewrite P).
  pose proof (ri_local _ _ _ I t) as L. rewrite P in L. cbn -[local_of] in L. apply andb_true_iff in L as [Hi Hr].
  assert (W : writer s = Some t) by (by apply bool_decide_eq_true in Hr).
  destruct (ri_excl _ _ _ I t W) as [R _].
  unfold wunlock_lock in E.
  destruct (schedule_spec (rw_protocol s) true (rw_cpus s) (wq s) lw (ri_wq _ _ _ I)) as (f & h & Es & Sc & F & Q).
  rewrite Es in E. cbn [mbind option_bind] in E. set (r := pick (rw_protocol s) (rw_cpus s) lw) in *.
  destruct (decide (lw = [])) as [->|Hne].
  - cbn in r. subst r. cbn [Z.eqb negb] in E.
    rewrite (head_nil _ _ _ (ri_rq _ _ _ I)) in E. case_bool_decide as Hl; cbn [negb] in E.
    + injection E as <-. exists lr, []. apply rinv_release_write; auto. by rewrite P.
    + rewrite (walk_spec _ _ _ (ri_rq _ _ _ I)) in E. cbn [mbind option_bind] in E.
      destruct (existsb (is_again (rw_cpus s)) lr) eqn:Ea.
      { injection E as <-. exists lr, []. apply rinv_stop_caller; auto. }
      pose proof (again_none _ _ Ea) as Ag.
      pose proof (queue_length _ _ _ (ri_rq _ _ _ I)) as Hlen.
      destruct (drain_fifo_spec (S (size (rw_cpus s))) (rw_cpus s) (rq s) lr [] (ri_rq _ _ _ I) Ag)
        as (ws & h' & Ed & Mw & Lw & Sc' & F'); [lia|].
      rewrite Ed in E. cbn [mbind option_bind] in E. injection E as <-. rewrite app_nil_r in *. exists [], [].
      cbn in Fe. by eapply rinv_wake_readers.
  - assert (Hp : r ∈ lw) by (by apply pick_in).
    destruct (queue_in _ _ _ r (ri_wq _ _ _ I) Hp) as [Hr0 _].
    destruct (Z.eqb_spec r 0); [done|]. cbn [negb] in E. injection E as <-.
    rewrite (same_cpus_again _ _ _ Sc). destruct (is_again (rw_cpus s) r) eqn:Ea.
    + exists lr, lw. apply rinv_stop_caller; auto.
    + exists lr, (qremove r lw). apply rinv_hand_over; auto.
Qed.


(** ** Every step keeps the invariant *)

Lemma in_idm_exists s lr lw t : rinv s lr lw -> rw_in_idm (rpc s t) = true -> rw_exists s = true.
Proof.
  intros I H. destruct (rw_exists s) eqn:E; [done|]. destruct (ri_destroyed _ _ _ I E) as [_ B].
  specialize (B t). congruence.
Qed.

Lemma rw_can_call_spec t s : rw_can_call t s = true -> rpc s t = RIdle /\ is_Some (rw_cpus s !! t).
Proof. unfold rw_can_call. destruct (rw_cpus s !! t); [|done]. destruct (rpc s t); done. Qed.

Lemma rinv_call s lr lw t p :
  rinv s lr lw -> rw_can_call t s = true -> rholds p = false -> (rw_in_idm p = true -> rw_exists s = true) ->
  (idle (local_of s lr lw t) = true -> point_ok t p (local_of s lr lw t) = true) -> rinv (goto t p s) lr lw.
Proof.
  intros I Cc Hp He Hl. destruct (rw_can_call_spec t s Cc) as [P Hs]. pose proof (ri_local _ _ _ I t) as L.
  rewrite P in L. apply rinv_pc; rewrite ?P; auto.
Qed.

Lemma idle_calm v : idle v = true -> calm v = true.
Proof. unfold idle. by intros [? _]%andb_true_iff. Qed.

Lemma rinv_rw_call s lr lw t p s' :
  rinv s lr lw -> rw_call t p s = Some s' -> rholds p = false ->
  (idle (local_of s lr lw t) = true -> point_ok t p (local_of s lr lw t) = true) -> rinv s' lr lw.
Proof.
  intros I E Hp Hl. unfold rw_call in E. destruct (rw_can_call t s) eqn:Cc; [|done]. injection E as <-.
  destruct (rw_exists s) eqn:Ex; [by apply rinv_call|]. apply rinv_call; try done. apply idle_calm.
Qed.

Lemma rinv_run s lr lw t s' :
  rinv s lr lw -> rw_run t s = Some s' -> Z.of_nat (length (readers s')) < 2 ^ 60 -> exists lr' lw', rinv s' lr' lw'.
Proof.
  intros I E Fe. unfold rw_run in E. pose proof (ri_local _ _ _ I t) as L. pose proof (in_idm_exists _ _ _ t I) as Ex.
  pose proof (ri_alive _ _ _ I t) as Al. pose proof (ri_ids _ _ _ I t) as Id.
  destruct (rpc s t) eqn:P; try done; specialize (Al ltac:(done)); specialize (Id Al);
    try (destruct (rw_unlocked s) eqn:U; [|done]).
  - (* rlock *) injection E as <-. exists lr, lw. unfold rlock_cas in *.
    destruct (readable v) eqn:Rv; cbn [andb] in *; [destruct (Z.eqb_spec (owner s) v) as [<-|]|].
    + apply rinv_grant_read; rewrite ?P; auto.
    + apply rinv_pc; rewrite ?P; auto.
    + apply rinv_pc; rewrite ?P; auto.
  - injection E as <-. exists lr, lw. unfold rlock_lock in *. destruct (readable (owner s)) eqn:Rv.
    + apply rinv_grant_read; rewrite ?P; auto.
    + apply rinv_set_bit; eauto.
  - injection E as <-. eexists _, _. by apply rinv_rlock_enq.
  - eexists _, _. eapply rinv_wake_up; eauto.
  - injection E as <-. exists lr, lw. unfold rlock_timeout.
    rewrite (head_nil _ _ _ (ri_rq _ _ _ I)). case_bool_decide as Hl.
    + apply rinv_pc; rewrite ?P; auto; try done.
      assert (R : in_r (local_of s lr lw t) = false) by (cbn; apply bool_decide_eq_false_2; rewrite Hl; set_solver).
      local_done (local_of s lr lw t).
    + apply rinv_pc; rewrite ?P; auto.
  - injection E as <-. exists lr, lw. apply rinv_pc; rewrite ?P; auto; try done.
    assert (K : wk (local_of s lr lw t) = false).
    { cbn. rewrite idle_unlocked by (by apply rw_unlocked_none). by apply bool_decide_eq_false_2, not_elem_of_nil. }
    local_done (local_of s lr lw t).
  - destruct (rinv_rlock_unqueue _ _ _ _ _ I P U E) as [lr' I']. eauto.
  - (* wlock *) injection E as <-. exists lr, lw. unfold wlock_cas in *.
    cbn -[local_of Z.shiftr] in L. apply andb_true_iff in L as [Hi Hw]. apply Bool.eqb_prop in Hw.
    destruct (Z.eqb_spec v 0) as [->|Nv]; cbn [andb negb] in *; [destruct (Z.eqb_spec (owner s) 0) as [Eo|]|].
    + apply rinv_grant_write; rewrite ?P; auto.
    + apply rinv_pc; rewrite ?P; auto. cbn -[local_of]. rewrite Hi, <- Hw. cbn.
      change (0 ≫ 1) with 0. destruct (Z.eqb_spec 0 t); [lia|done].
    + destruct (Z.shiftr v 1 =? t) eqn:Ed.
      * apply rinv_pc; rewrite ?P; auto; try done. cbn -[local_of]. by rewrite (idle_calm _ Hi).
      * apply rinv_pc; rewrite ?P; auto. cbn -[local_of]. by rewrite Hi, <- Hw.
  - injection E as <-. exists lr, lw. unfold wlock_lock in *.
    cbn -[local_of] in L. apply andb_true_iff in L as [Hi Hw]. apply negb_true_iff in Hw.
    destruct (Z.eqb_spec (owner s) 0) as [Eo|No].
    + apply rinv_grant_write; rewrite ?P; auto.
    + apply rinv_set_bit; eauto. right. eexists. split_and!; [done..|].
      cbn in Hw. by apply bool_decide_eq_false in Hw.
  - injection E as <-. eexists _, _. by apply rinv_wlock_enq.
  - eexists _, _. eapply rinv_wake_up; eauto.
  - destruct (rinv_wlock_unqueue _ _ _ _ _ I P U E) as [lw' I']. eauto.
  - destruct (rinv_wlock_wake _ _ _ _ _ _ _ I P E Fe) as [lr' I']. eauto.
  - (* runlock *) injection E as <-. exists lr, lw. unfold runlock_cas in *.
    cbn -[local_of] in L. apply andb_true_iff in L as [Hi Hr]. apply bool_decide_eq_true in Hr.
    destruct ((v <? 0) && negb (Z.odd v) && (owner s =? v)) eqn:C.
    + rewrite !andb_true_iff, Z.ltb_lt, negb_true_iff, Z.eqb_eq in C. destruct C as [[C1 C2] <-].
      pose proof (ri_owner _ _ _ I) as Eo. rewrite C2 in Eo. cbn [Z.b2z] in Eo. unfold base in Eo.
      pose proof (ri_few _ _ _ I). destruct (writer s) as [w|] eqn:W; [destruct (ri_excl _ _ _ I w W); lia|].
      rewrite sint_small by (try lia; split; lia). rewrite <- W. apply rinv_release_read; rewrite ?P; auto.
      left. by rewrite Z.odd_add, C2.
    + apply rinv_pc; rewrite ?P; auto; try done. cbn -[local_of]. rewrite Hi. cbn. by apply bool_decide_eq_true_2.
  - destruct (rinv_runlock_lock _ _ _ _ _ I P U E) as [lw' I']. eauto.
  - (* trywlock *) injection E as <-. exists lr, lw. unfold trywlock_cas in *.
    destruct (Z.eqb_spec (if v =? 0 then owner s else v) 0) as [Er|Er].
    + apply rinv_grant_write; rewrite ?P; auto. destruct (Z.eqb_spec v 0); [done|lia].
    + apply rinv_pc; rewrite ?P; auto; try done. destruct (_ =? t); cbn -[local_of]; by rewrite (idle_calm _ L).
  - (* wunlock *) injection E as <-. exists lr, lw. unfold wunlock_cas in *.
    cbn -[local_of Z.shiftr] in L. apply andb_true_iff in L as [Hi Hw]. apply Bool.eqb_prop in Hw.
    rewrite (id2_spec _ _ _ _ I Al) in *. pose proof (owner_is _ _ _ t I ltac:(lia)) as Ow.
    cbn in Hw. destruct (Z.eqb_spec v (2 * t)) as [->|Nv]; cbn [andb] in *.
    + assert (H2 : Z.shiftr (2 * t) 1 = t) by (rewrite Z.shiftr_div_pow2 by lia; change (2 ^ 1) with 2; zlia).
      rewrite H2, Z.eqb_refl in Hw. rewrite <- Hw in Ow. symmetry in Hw. apply bool_decide_eq_true in Hw.
      rewrite Ow. cbn [negb]. destruct (Z.eqb_spec (owner s) (2 * t)) as [Eo|No].
      * assert (O : Z.odd (owner s) = false) by (rewrite Eo, Z.odd_mul; done). rewrite O.
        apply rinv_release_write; rewrite ?P; auto.
      * pose proof (ri_owner _ _ _ I) as Eo. unfold base in Eo. rewrite Hw in Eo.
        destruct (Z.odd (owner s)); cbn [Z.b2z] in Eo; [|lia].
        apply rinv_pc; rewrite ?P; auto; try done. cbn -[local_of]. rewrite Hi. cbn. by apply bool_decide_eq_true_2.
    + destruct (Z.shiftr v 1 =? t) eqn:Ev; cbn [negb].
      * destruct (Z.odd v) eqn:Ov.
        -- apply rinv_pc; rewrite ?P; auto; try done. cbn -[local_of]. rewrite Hi. cbn. congruence.
        -- exfalso. apply Nv. apply Z.eqb_eq in Ev. rewrite <- Z.div2_spec in Ev.
           rewrite (Z.div2_odd v), Ev, Ov. cbn [Z.b2z]. lia.
      * apply rinv_pc; rewrite ?P; auto; try done. cbn -[local_of]. by rewrite (idle_calm _ Hi).
  - apply (rinv_wunlock_lock _ _ _ _ _ I P U E Fe).
Qed.

Lemma rinv_move a s lr lw s' : rinv s lr lw -> move a s = Some s' -> exists lr' lw', rinv s' lr' lw'.
Proof.
  intros I E. unfold move, rwlock_machine in E. destruct (rw_act a s) as [s1|] eqn:E1; cbn [mbind option_bind] in E; [|done].
  destruct (Z.ltb_spec (Z.of_nat (length (readers s1))) (2 ^ 60)) as [Fe|]; [|done].
  injection E as <-.
  assert (Ow : forall t, is_Some (rw_cpus s !! t) -> (Z.shiftr (owner s) 1 =? t) = wr (local_of s lr lw t)).
  { intros t Ht. apply (owner_is s lr lw t I). by apply (ri_ids _ _ _ I). }
  assert (Loaded : forall t p, rw_call t p s = Some s1 -> rholds p = false ->
    (idle (local_of s lr lw t) = true -> (Z.shiftr (owner s) 1 =? t) = wr (local_of s lr lw t) ->
       point_ok t p (local_of s lr lw t) = true) -> exists lr' lw', rinv s1 lr' lw').
  { intros t p Ec Hp Hl. exists lr, lw. eapply rinv_rw_call; [done|done|done|]. intros Hi. apply Hl; [done|].
    apply Ow. unfold rw_call in Ec. destruct (rw_can_call t s) eqn:Cc; [|done]. by apply rw_can_call_spec in Cc as [_ ?]. }
  destruct a as [t to|t|t|t to|t|t|t|t|t|t|t]; cbn [rw_act] in E1.
  - by eapply Loaded.
  - destruct (rw_can_call t s) eqn:Cc; [|done]. injection E1 as <-. destruct (rw_can_call_spec t s Cc) as [P Hs].
    pose proof (ri_local _ _ _ I t) as L. rewrite P in L. exists lr, lw. destruct (rw_exists s) eqn:Ex.
    + unfold tryrlock in *. destruct (readable (owner s)) eqn:R; [apply rinv_grant_read; rewrite ?P; auto|].
      apply rinv_call; try done. intros Hi. cbn -[local_of]. by rewrite (idle_calm _ Hi).
    + apply rinv_call; try done. apply idle_calm.
  - destruct (mem_list t (readers s)) eqn:M; [|done]. apply mem_list_spec in M. eapply Loaded; [done..|].
    intros Hi _. cbn -[local_of]. rewrite Hi. cbn. by apply bool_decide_eq_true_2.
  - eapply Loaded; [done..|]. intros Hi Hw. cbn -[local_of Z.shiftr]. rewrite Hi, Hw. by rewrite Bool.eqb_reflx.
  - by eapply Loaded.
  - eapply Loaded; [done..|]. intros Hi Hw. cbn -[local_of Z.shiftr]. rewrite Hi, Hw. by rewrite Bool.eqb_reflx.
  - destruct (rw_can_call t s) eqn:Cc; [|done]. cbn [andb] in E1. destruct (forallb _ _) eqn:F; [|done].
    injection E1 as <-. exists lr, lw. unfold rw_destroy. destruct (rw_exists s) eqn:Ex.
    + destruct (Z.eqb_spec (owner s) 0) as [Eo|]; [|apply rinv_call; try done; apply idle_calm].
      destruct (rw_can_call_spec t s Cc) as [P Hs]. pose proof (ri_local _ _ _ I t) as L. rewrite P in L.
      replace (with_exists false s) with (quiet_state (owner s) (readers s) (writer s) false s) by (by destruct s).
      destruct (owner_zero _ _ _ I Eo) as [W R].
      apply rinv_quiet; rewrite ?P; try done; rewrite ?W, ?R; try done; auto; try (by rewrite Eo).
      * by apply idle_calm.
      * intros _. split_and!; [done..|]. left. intros u _. rewrite forallb_forall in F.
        unfold rpc, at_point. destruct (rw_points s !! u) as [p|] eqn:Pu; [|done].
        specialize (F (u, p)). cbn in F. apply negb_true_iff, F, list_elem_of_In. by apply elem_of_map_to_list.
    + apply rinv_call; try done. apply idle_calm.
  - by eapply rinv_run.
  - destruct (rpc s t) as [| | | |[]| | | | | | | |[]| | | | | | | | | | | |] eqn:P; try done; injection E1 as <-;
      pose proof (ri_local _ _ _ I t) as L; rewrite P in L; exists lr, lw; (apply rinv_pc; rewrite ?P; try done);
      apply (ri_alive _ _ _ I); by rewrite P.
  - destruct (rpc s t) eqn:P; try done; (destruct (rw_unlocked s) eqn:U; [|done]); exists lr, lw;
      eapply rinv_stop; eauto.
  - destruct (rpc s t) eqn:P; try done; injection E1 as <-; exists lr, lw; apply rinv_return; eauto.
Qed.


Lemma rw_initial_inv s : rw_initial s -> rinv s [] [].
Proof.
  intros (Ow & Rq & Wq & Mu & Ex & Po & Si & Rd & Wr & Fa & Ag & Id).
  assert (Pc : forall t, rpc s t = RIdle) by (intros; unfold rpc, at_point; by rewrite Po).
  split; rewrite ?Ow, ?Rq, ?Wq, ?Wr, ?Rd; try done; try (intros t; rewrite ?Pc; done).
  - split; [done|constructor].
  - split; [done|constructor].
  - unfold base. by rewrite Wr, Rd.
  - intros [|]; done.
  - intros t. rewrite Pc. unfold local_of. rewrite Mu, Si, Rd, Wr. cbn -[rwaking]. unfold idle, calm.
    cbn -[rwaking]. unfold rwaking. rewrite Mu, Ag.
    rewrite (bool_decide_eq_false_2 (None = Some t)) by done. done.
  - by rewrite Ex.
Qed.

Lemma rw_reachable_inv s : reachable rw_initial s -> exists lr lw, rinv s lr lw.
Proof.
  apply (reachable_ind_inv rw_initial (fun s => exists lr lw, rinv s lr lw)).
  - intros s0 H. eexists _, _. by apply rw_initial_inv.
  - intros a s1 s2 (lr & lw & I) E. by eapply rinv_move.
Qed.

(** ** The claims *)

(** C6.  Mutual exclusion.  In every reachable state the word [owner] encodes
    the holders exactly (twice the writer's id, or minus twice the number of
    read locks, plus the wait bit), there is no reader while there is a
    writer, and the [ensure] of the unlock never fails.  A call of
    [sys_rwlock_rlock] or [tryrlock] that returns CELL_OK has a read lock, also
    when it was woken or timed out late; one of [sys_rwlock_wlock] or
    [trywlock] that returns CELL_OK is the writer. *)
Theorem rwlock_exclusion (s : rwlock) :
  reachable rw_initial s ->
  rw_failed s = false /\
  owner s = match writer s with Some t => 2 * t | None => -2 * Z.of_nat (length (readers s)) end
            + Z.b2z (Z.odd (owner s)) /\
  (forall t, writer s = Some t -> readers s = []) /\
  (forall t, rpc s t = RReturned CELL_OK -> t ∈ readers s /\ writer s = None) /\
  (forall t, rpc s t = WReturned CELL_OK -> writer s = Some t).
Proof.
  intros (lr & lw & I)%rw_reachable_inv. split_and!; try apply I.
  - intros t P. pose proof (ri_local _ _ _ I t) as L. rewrite P in L. cbn -[local_of] in L.
    apply andb_true_iff in L as [_ L]. cbn in L. apply bool_decide_eq_true in L. split; [done|].
    destruct (writer s) as [w|] eqn:W; [|done]. destruct (ri_excl _ _ _ I w W) as [R _]. rewrite R in L. set_solver.
  - intros t P. pose proof (ri_local _ _ _ I t) as L. rewrite P in L. cbn -[local_of] in L.
    apply andb_true_iff in L as [_ L]. cbn in L. by apply bool_decide_eq_true in L.
Qed.

(** C15.  No waiter is forgotten.  Whenever the host mutex is free, the two
    queues are proper disjoint lists; a thread asleep in [rlock] is in the
    readers' queue or has been signalled with its read lock, one asleep in
    [wlock] is in the writers' queue or has been signalled as the writer; when
    somebody waits the wait bit is set, so that the next unlock takes the slow
    path; and when the lock is free, nobody waits. *)
Theorem rwlock_no_lost_wakeup (s : rwlock) :
  reachable rw_initial s -> rw_mutex s = None ->
  exists lr lw, walk (rw_cpus s) (rq s) = Some lr /\ walk (rw_cpus s) (wq s) = Some lw /\
    (forall t, t ∈ lr -> t ∉ lw) /\
    (forall t to, rpc s t = RSleep to -> t ∈ lr \/ (t ∈ rw_signal s /\ t ∈ readers s)) /\
    (forall t to, rpc s t = WSleep to -> t ∈ lw \/ (t ∈ rw_signal s /\ writer s = Some t)) /\
    (lr <> [] \/ lw <> [] -> Z.odd (owner s) = true) /\
    (owner s = 0 -> lr = [] /\ lw = []) /\
    (rw_exists s = false -> lr = [] /\ lw = []).
Proof.
  intros (lr & lw & I)%rw_reachable_inv Mu. exists lr, lw.
  assert (Z0 : owner s = 0 -> lr = [] /\ lw = []).
  { intros E. pose proof (ri_bit _ _ _ I) as B. rewrite E in B. cbn in B.
    destruct lr, lw; try done; by (discriminate B; auto). }
  split_and!; try apply walk_spec; try apply I.
  - intros t. by eapply queues_disjoint.
  - intros t to P. pose proof (ri_local _ _ _ I t) as L. rewrite P in L. unfold local_of in L.
    rewrite (idle_unlocked s lr Mu) in L. cbn in L. rewrite !andb_true_iff, orb_true_iff, !andb_true_iff in L.
    destruct L as [_ [[L _]|[_ L]]]; [left; by apply bool_decide_eq_true in L|].
    rewrite orb_true_iff, !andb_true_iff in L. destruct L as [[L _]|[[_ A] B]]; [done|].
    apply bool_decide_eq_true in A, B. auto.
  - intros t to P. pose proof (ri_local _ _ _ I t) as L. rewrite P in L. cbn in L.
    rewrite !andb_true_iff, orb_true_iff, !andb_true_iff in L.
    destruct L as [_ [[L _]|[[_ A] B]]]; [left; by apply bool_decide_eq_true in L|].
    apply bool_decide_eq_true in A, B. auto.
  - done.
  - intros De. apply Z0. by destruct (ri_destroyed _ _ _ I De).
Qed.

(** A stopped reader at the end of the queue is scheduled again and again. *)
Lemma wake_loop_stuck t r n s size ws :
  schedule SYS_SYNC_FIFO true (rw_cpus s) (rq s) = Some (r, rq s, rw_cpus s) -> r <> 0 ->
  rw_mutex s = Some t -> rpc s t = WTimeoutWake size ws -> Z.of_nat (length (readers s)) < 2 ^ 60 ->
  exists s', moves (repeat (Run t) n) s = Some s' /\ rw_mutex s' = Some t.
Proof.
  revert s size ws. induction n as [|n IH]; intros s size ws Es Hr Mu P Fe; [by exists s|].
  assert (M : move (Run t) s = Some (goto t (WTimeoutWake (size + 1) (r :: ws)) (with_queues (rq s) (wq s) (rw_cpus s) s))).
  { unfold move, rwlock_machine. cbn [rw_act]. unfold rw_run. rewrite P. unfold wlock_wake. rewrite Es.
    cbn [mbind option_bind]. destruct (Z.eqb_spec r 0); [done|]. cbn [mbind option_bind readers goto with_queues].
    by rewrite (proj2 (Z.ltb_lt _ _) Fe). }
  cbn [repeat moves]. rewrite M. cbn [mbind option_bind].
  apply (IH _ (size + 1) (r :: ws)); try done. by rewrite rpc_here.
Qed.

(** A reader holds the lock, a writer waits with a timeout, a second reader
    queues behind it. *)
Definition rw0 : rwlock :=
  RwLock SYS_SYNC_PRIORITY true None 0 0 0 three_threads 0 ∅ ∅ [] None false.
Definition read_write_read : list raction :=
  [CallRlock 16 false; Run 16; Return 16;
   CallWlock 32 true; Run 32; Run 32; Run 32;
   CallRlock 48 false; Run 48; Run 48; Run 48].
Definition rw1 : rwlock := default rw0 (moves read_write_read rw0).
(** The emulator stops the second reader while the writer times out. *)
Definition rw2 : rwlock := default rw0 (moves [Timeout 32; Stop 48; Run 32] rw1).

Lemma rw0_initial : rw_initial rw0.
Proof.
  unfold rw_initial, rw0; cbn -[three_threads]. split_and!; try done; [apply three_threads_again|].
  intros t [c H%elem_of_list_to_map_2].
  repeat (apply elem_of_cons in H as [[= -> _]|H]; [lia|]). by apply elem_of_nil in H.
Qed.

Lemma rw1_reachable : reachable rw_initial rw1.
Proof.
  eapply (moves_reachable rw_initial read_write_read rw0).
  - by apply reach_init, rw0_initial.
  - vm_compute. reflexivity.
Qed.

Lemma rw2_reachable : reachable rw_initial rw2.
Proof. eapply (moves_reachable rw_initial [Timeout 32; Stop 48; Run 32] rw1 _ rw1_reachable). vm_compute. reflexivity. Qed.

(** C37.  A defect of the timeout of [sys_rwlock_wlock]: the loop that wakes the
    readers does not skip threads that were stopped for a savestate, as the
    one of [sys_rwlock_wunlock] does, and [schedule] returns such a thread
    without unlinking it.  There is a reachable state from which the thread
    that timed out runs forever, holding the host mutex. *)
Theorem rwlock_timeout_diverges :
  exists s t, reachable rw_initial s /\ rw_mutex s = Some t /\
    forall n, exists s', moves (repeat (Run t) n) s = Some s' /\ rw_mutex s' = Some t.
Proof.
  exists rw2, 32. split; [exact rw2_reachable|]. split; [vm_compute; reflexivity|]. intros n.
  apply (wake_loop_stuck 32 48 n rw2 0 []); [vm_compute; reflexivity|lia|vm_compute; reflexivity..].
Qed.

Lemma rwlock_exclusion_witness :
  rw_failed rw1 = false /\
  owner rw1 = match writer rw1 with Some t => 2 * t | None => -2 * Z.of_nat (length (readers rw1)) end
            + Z.b2z (Z.odd (owner rw1)) /\
  (forall t, writer rw1 = Some t -> readers rw1 = []) /\
  (forall t, rpc rw1 t = RReturned CELL_OK -> t ∈ readers rw1 /\ writer rw1 = None) /\
  (forall t, rpc rw1 t = WReturned CELL_OK -> writer rw1 = Some t).
Proof. apply (rwlock_exclusion rw1), rw1_reachable. Defined.

Lemma rwlock_no_lost_wakeup_witness :
  exists lr lw, walk (rw_cpus rw1) (rq rw1) = Some lr /\ walk (rw_cpus rw1) (wq rw1) = Some lw /\
    (forall t, t ∈ lr -> t ∉ lw) /\
    (forall t to, rpc rw1 t = RSleep to -> t ∈ lr \/ (t ∈ rw_signal rw1 /\ t ∈ readers rw1)) /\
    (forall t to, rpc rw1 t = WSleep to -> t ∈ lw \/ (t ∈ rw_signal rw1 /\ writer rw1 = Some t)) /\
    (lr <> [] \/ lw <> [] -> Z.odd (owner rw1) = true) /\
    (owner rw1 = 0 -> lr = [] /\ lw = []) /\
    (rw_exists rw1 = false -> lr = [] /\ lw = []).
Proof.
  apply (rwlock_no_lost_wakeup rw1); [exact rw1_reachable|]. vm_compute. reflexivity.
Defined.
