(* ===== verification/Lv2EventFlag.v ===== *)
(** The LV2 event flag (src/rpcs3/Emu/Cell/lv2/sys_event_flag.cpp, sys_event_flag.h).

    An event flag is a 64-bit pattern.  [sys_event_flag_wait] waits until all
    (AND) or some (OR) of its bits are set and may clear them; [set] adds bits
    and wakes the waiters they satisfy, in the order of the protocol, each of
    which may take bits away from those that come after it.  The pattern is
    changed by lock-free operations too, so [set] computes the outcome for a
    snapshot of the pattern and commits it with one atomic operation, which
    fails when a bit the outcome depends on has changed.  The theorems show
    that no waiter whose condition holds is left asleep, that a commit has the
    effect of serving the waiters one after the other, and a case in which a
    repeated attempt wakes a thread it should not. *)
From Stdlib Require Import ZArith Lia Bool List.
From stdpp Require Import base option list numbers gmap.
From S2P Require Import Prelude Machine Lv2Queue Lv2Sync.
Local Open Scope Z_scope.
#[local] Set Warnings "-clear-no-such-hyp".

(** ** Patterns *)

Definition SYS_SYNC_WAITER_SINGLE : Z := 0x10000.
Definition SYS_SYNC_WAITER_MULTIPLE : Z := 0x20000.
Definition SYS_EVENT_FLAG_WAIT_AND : Z := 0x01.
Definition SYS_EVENT_FLAG_WAIT_OR : Z := 0x02.
Definition SYS_EVENT_FLAG_WAIT_CLEAR : Z := 0x10.
Definition SYS_EVENT_FLAG_WAIT_CLEAR_ALL : Z := 0x20.

Definition check_mode (mode : Z) : bool :=
  let low := Z.land mode 0xf in
  let high := Z.land mode (bnot 32 0xf) in
  ((low =? SYS_EVENT_FLAG_WAIT_AND) || (low =? SYS_EVENT_FLAG_WAIT_OR)) &&
  ((high =? 0) || (high =? SYS_EVENT_FLAG_WAIT_CLEAR) || (high =? SYS_EVENT_FLAG_WAIT_CLEAR_ALL)).

(** Whether the condition holds, and the pattern after it. *)
Definition check_pattern (pattern bitptn mode : Z) : bool * Z :=
  if ((Z.land mode 0xf =? SYS_EVENT_FLAG_WAIT_AND) && negb (Z.land pattern bitptn =? bitptn)) ||
     ((Z.land mode 0xf =? SYS_EVENT_FLAG_WAIT_OR) && (Z.land pattern bitptn =? 0))
  then (false, pattern)
  else if Z.land mode (bnot 64 0xf) =? SYS_EVENT_FLAG_WAIT_CLEAR
  then (true, Z.land pattern (bnot 64 bitptn))
  else if Z.land mode (bnot 64 0xf) =? SYS_EVENT_FLAG_WAIT_CLEAR_ALL then (true, 0)
  else (true, pattern).

(** ** The machine *)

(** The registers of a thread that the calls of other threads access: the
    result, the bits and the mode it waits for, the pattern it is given, and
    the mark of the loop in [set]. *)
Record regs := Regs { gpr3 : Z; gpr4 : Z; gpr5 : Z; gpr6 : Z; gpr7 : Z }.

Definition set3 (v : Z) (r : regs) : regs := Regs v (gpr4 r) (gpr5 r) (gpr6 r) (gpr7 r).
Definition set6 (v : Z) (r : regs) : regs := Regs (gpr3 r) (gpr4 r) (gpr5 r) v (gpr7 r).
Definition set7 (v : Z) (r : regs) : regs := Regs (gpr3 r) (gpr4 r) (gpr5 r) (gpr6 r) v.

(** Where a thread is in a call: [Fw] in [wait], [Fs] in [set], [Fc] in
    [cancel]. *)
Inductive fpoint : Set :=
  | FIdle
  | FwTry (bitptn mode : Z) (timeout : bool)       (* before the first [fetch_op] *)
  | FwLock (bitptn mode : Z) (timeout : bool)      (* takes the mutex for the second *)
  | FwEnq (timeout : bool)                         (* holds the mutex, before [emplace] *)
  | FwSleep (timeout : bool)                       (* in the loop on [ppu.state] *)
  | FwTimeout                                      (* timed out, looks at [sq] *)
  | FwTimeoutSync                                  (* [lock_unlock] *)
  | FwTimeoutLock                                  (* takes the mutex to unqueue itself *)
  | FwReturned (code val : Z)                      (* [val] goes to [*result] *)
  | FsLoad (bitptn : Z)
  | FsLock (bitptn : Z)
  | FsTry (bitptn pattern to_write dependant_mask count : Z)  (* holds the mutex, before [fetch_op] *)
  | FsRemove                                       (* holds the mutex, before the removal *)
  | FcLock
  | FReturned (code val : Z)
  | FwStopped                                      (* marked [again] in the queue *)
  | FStopped.                                      (* marked [again] outside of it *)

Record eflag := EFlag {
  ef_protocol : Z; ef_type : Z; ef_exists : bool; ef_mutex : option Z;
  ef_pattern : Z; ef_sq : Z; ef_cpus : threads; ef_regs : gmap Z regs;
  ef_tag : Z; ef_points : gmap Z fpoint; ef_signal : gset Z
}.

Definition fpc (s : eflag) (t : Z) : fpoint := at_point FIdle (ef_points s) t.
Definition reg (rg : gmap Z regs) (t : Z) : regs := at_point (Regs 0 0 0 0 0) rg t.
Definition upd (f : regs -> regs) (t : Z) (rg : gmap Z regs) : gmap Z regs := <[t := f (reg rg t)]> rg.

Definition fgo (t : Z) (p : fpoint) (s : eflag) : eflag :=
  EFlag (ef_protocol s) (ef_type s) (ef_exists s) (ef_mutex s) (ef_pattern s) (ef_sq s) (ef_cpus s)
    (ef_regs s) (ef_tag s) (<[t := p]> (ef_points s)) (ef_signal s).
Definition f_exists (b : bool) (s : eflag) : eflag :=
  EFlag (ef_protocol s) (ef_type s) b (ef_mutex s) (ef_pattern s) (ef_sq s) (ef_cpus s)
    (ef_regs s) (ef_tag s) (ef_points s) (ef_signal s).
Definition f_mutex (m : option Z) (s : eflag) : eflag :=
  EFlag (ef_protocol s) (ef_type s) (ef_exists s) m (ef_pattern s) (ef_sq s) (ef_cpus s)
    (ef_regs s) (ef_tag s) (ef_points s) (ef_signal s).
Definition f_pattern (v : Z) (s : eflag) : eflag :=
  EFlag (ef_protocol s) (ef_type s) (ef_exists s) (ef_mutex s) v (ef_sq s) (ef_cpus s)
    (ef_regs s) (ef_tag s) (ef_points s) (ef_signal s).
Definition f_queue (first : Z) (h : threads) (s : eflag) : eflag :=
  EFlag (ef_protocol s) (ef_type s) (ef_exists s) (ef_mutex s) (ef_pattern s) first h
    (ef_regs s) (ef_tag s) (ef_points s) (ef_signal s).
Definition f_regs (rg : gmap Z regs) (s : eflag) : eflag :=
  EFlag (ef_protocol s) (ef_type s) (ef_exists s) (ef_mutex s) (ef_pattern s) (ef_sq s) (ef_cpus s)
    rg (ef_tag s) (ef_points s) (ef_signal s).
Definition f_tag (x : Z) (s : eflag) : eflag :=
  EFlag (ef_protocol s) (ef_type s) (ef_exists s) (ef_mutex s) (ef_pattern s) (ef_sq s) (ef_cpus s)
    (ef_regs s) x (ef_points s) (ef_signal s).
Definition f_signal (x : gset Z) (s : eflag) : eflag :=
  EFlag (ef_protocol s) (ef_type s) (ef_exists s) (ef_mutex s) (ef_pattern s) (ef_sq s) (ef_cpus s)
    (ef_regs s) (ef_tag s) (ef_points s) x.
Definition f_stop (t : Z) (s : eflag) : eflag := f_queue (ef_sq s) (alter set_again t (ef_cpus s)) s.

(** *** sys_event_flag_wait *)
Definition fw_call (t bitptn mode : Z) (timeout : bool) (s : eflag) : eflag :=
  let s' := f_regs (upd (fun r => Regs (u64 (-1)) bitptn mode 0 (gpr7 r)) t (ef_regs s)) s in
  if negb (check_mode mode) then fgo t (FwReturned CELL_EINVAL 0) s'
  else if ef_exists s then fgo t (FwTry bitptn mode timeout) s'
  else fgo t (FwReturned CELL_ESRCH 0) s'.

(** The [fetch_op] of the fast path and the one under the mutex. *)
Definition fw_fetch (t bitptn mode : Z) (s : eflag) : bool * eflag :=
  let '(ok, pat) := check_pattern (ef_pattern s) bitptn mode in
  (ok, f_pattern pat (f_regs (upd (set6 (ef_pattern s)) t (ef_regs s)) s)).

Definition fw_try (t bitptn mode : Z) (timeout : bool) (s : eflag) : eflag :=
  let '(ok, s') := fw_fetch t bitptn mode s in
  if ok then fgo t (FwReturned CELL_OK (gpr6 (reg (ef_regs s') t))) s'
  else fgo t (FwLock bitptn mode timeout) s'.

Definition fw_lock (t bitptn mode : Z) (timeout : bool) (s : eflag) : eflag :=
  let '(ok, s') := fw_fetch t bitptn mode s in
  if ok then fgo t (FwReturned CELL_OK (gpr6 (reg (ef_regs s') t))) s'
  else if (ef_type s =? SYS_SYNC_WAITER_SINGLE) && negb (ef_sq s =? 0)
  then fgo t (FwReturned CELL_EPERM 0) s'
  else fgo t (FwEnq timeout) (f_mutex (Some t) s').

Definition fw_enq (t : Z) (timeout : bool) (s : eflag) : eflag :=
  let '(tag', first, h) := emplace (ef_tag s) (ef_cpus s) (ef_sq s) t in
  fgo t (FwSleep timeout) (f_mutex None (f_tag tag' (f_queue first h s))).

(** [store.val = ppu.gpr[6]; return not_an_error(ppu.gpr[3])]. *)
Definition fw_end (t : Z) (s : eflag) : eflag :=
  let r := reg (ef_regs s) t in fgo t (FwReturned (gpr3 r) (gpr6 r)) s.

Definition fw_signal (t : Z) (s : eflag) : option eflag :=
  if bool_decide (t ∈ ef_signal s) then Some (fw_end t (f_signal (ef_signal s ∖ {[t]}) s)) else None.

Definition fw_stop (t : Z) (s : eflag) : option eflag :=
  l ← walk (ef_cpus s) (ef_sq s);
  Some (if mem_list t l then fgo t FwStopped (f_stop t s) else fw_end t s).

Definition fw_timeout (t : Z) (s : eflag) : eflag :=
  if ef_sq s =? 0 then fgo t FwTimeoutSync s else fgo t FwTimeoutLock s.

Definition fw_unqueue (t : Z) (s : eflag) : option eflag :=
  '(r, first, h) ← unqueue true (ef_cpus s) (ef_sq s) t;
  let s' := f_queue first h s in
  Some
    (if r =? 0 then fw_end t s'
     else fw_end t (f_regs (upd (fun r => set6 (ef_pattern s) (set3 CELL_ETIMEDOUT r)) t (ef_regs s)) s')).

(** *** sys_event_flag_trywait *)
Definition ft_call (t bitptn mode : Z) (s : eflag) : eflag :=
  if negb (check_mode mode) then fgo t (FReturned CELL_EINVAL 0) s
  else if ef_exists s then
    let '(ok, pat) := check_pattern (ef_pattern s) bitptn mode in
    if ok then fgo t (FReturned CELL_OK (ef_pattern s)) (f_pattern pat s)
    else fgo t (FReturned CELL_EBUSY 0) s
  else fgo t (FReturned CELL_ESRCH 0) s.

(** *** sys_event_flag_set *)

(** [get_next] over the waiters [l]: the next one that is not marked, 0 for none. *)
Definition get_next (protocol : Z) (h : threads) (rg : gmap Z regs) (l : list Z) : Z :=
  snd (fold_left (fun '(best, it) ppu =>
    if (gpr7 (reg rg ppu) =? 0) &&
       (negb (protocol =? SYS_SYNC_PRIORITY) || (prio (prio_of h ppu) <=? best))
    then (prio (prio_of h ppu), ppu) else (best, it)) l (2 ^ 31 - 1, 0)).

(** The loop [while (auto it = get_next())] from [to_write], [dependant_mask]
    and [count]. *)
Fixpoint serve_loop (fuel : nat) (protocol : Z) (h : threads) (l : list Z) (bitptn : Z)
    (rg : gmap Z regs) (to_write dependant_mask count : Z) : option (gmap Z regs * Z * Z * Z) :=
  match fuel with
  | O => None
  | S n =>
      let it := get_next protocol h rg l in
      if it =? 0 then Some (rg, to_write, dependant_mask, count)
      else
        let rg1 := upd (set7 1) it rg in
        let pattern := gpr4 (reg rg1 it) in
        let mode := gpr5 (reg rg1 it) in
        let dependant_mask_or :=
          if (Z.land mode 0xf =? SYS_EVENT_FLAG_WAIT_OR) ||
             (Z.land (Z.land bitptn pattern) to_write =? pattern) then 0 else pattern in
        let rg2 := upd (set6 to_write) it rg1 in
        let '(ok, to_write') := check_pattern to_write pattern mode in
        if ok then
          let rg3 := upd (set3 CELL_OK) it rg2 in
          let mask := Z.lor dependant_mask dependant_mask_or in
          if to_write' =? 0 then Some (rg3, to_write', mask, count + 1)
          else serve_loop n protocol h l bitptn rg3 to_write' mask (count + 1)
        else serve_loop n protocol h l bitptn (upd (set3 (u64 (-1))) it rg2) to_write' dependant_mask count
  end.

(** One turn of the outer loop up to the [fetch_op], from the value [pattern]. *)
Definition fs_attempt (t bitptn pattern : Z) (s : eflag) : option eflag :=
  l ← walk (ef_cpus s) (ef_sq s);
  let rg := fold_left (fun rg ppu => upd (set7 0) ppu rg) l (ef_regs s) in
  '(rg', to_write, dependant_mask, count) ←
    serve_loop (S (length l)) (ef_protocol s) (ef_cpus s) l bitptn rg (Z.lor pattern bitptn) 0 0;
  Some (fgo t (FsTry bitptn pattern to_write (Z.land dependant_mask (bnot 64 bitptn)) count)
          (f_mutex (Some t) (f_regs rg' s))).

Definition fs_call (t bitptn : Z) (s : eflag) : eflag :=
  if ef_exists s then fgo t (FsLoad bitptn) s else fgo t (FReturned CELL_ESRCH 0) s.

Definition fs_load (t bitptn : Z) (s : eflag) : eflag :=
  if Z.land (ef_pattern s) bitptn =? bitptn then fgo t (FReturned CELL_OK 0) s
  else fgo t (FsLock bitptn) s.

Definition fs_lock (t bitptn : Z) (s : eflag) : option eflag :=
  l ← walk (ef_cpus s) (ef_sq s);
  if existsb (is_again (ef_cpus s)) l then Some (fgo t FStopped (f_stop t s))
  else fs_attempt t bitptn (ef_pattern s) s.

Definition fs_commit (bitptn pattern to_write x : Z) : Z :=
  Z.land (Z.lor x bitptn) (bnot 64 (Z.land (Z.lor pattern bitptn) (bnot 64 to_write))).

Definition fs_try (t bitptn pattern to_write dependant_mask count : Z) (s : eflag) : option eflag :=
  let x := ef_pattern s in
  if negb (Z.land (Z.lxor x pattern) dependant_mask =? 0) then fs_attempt t bitptn x s
  else
    let s' := f_pattern (fs_commit bitptn pattern to_write x) s in
    Some (if count =? 0 then fgo t (FReturned CELL_OK 0) (f_mutex None s') else fgo t FsRemove s').

(** The loop that unlinks the waiters with result CELL_OK; [link] is
    [next_cpu], the place of the pointer to the waiter looked at. *)
Fixpoint remove_loop (fuel : nat) (h : threads) (rg : gmap Z regs) (link : option Z) (first : Z)
    (ws : list Z) : option (Z * threads * list Z) :=
  match fuel with
  | O => None
  | S n =>
      cur ← match link with None => Some first | Some it => next_cpu <$> h !! it end;
      if cur =? 0 then Some (first, h, ws)
      else
        c ← h !! cur;
        if gpr3 (reg rg cur) =? CELL_OK then
          let '(first', h') := store_link link (next_cpu c) first h in
          remove_loop n (clear_next true cur h') rg link first' (cur :: ws)
        else remove_loop n h rg (Some cur) first ws
  end.

Definition fs_remove (t : Z) (s : eflag) : option eflag :=
  '(first, h, ws) ← remove_loop (S (size (ef_cpus s))) (ef_cpus s) (ef_regs s) None (ef_sq s) [];
  Some (fgo t (FReturned CELL_OK 0)
          (f_mutex None (f_signal (ef_signal s ∪ list_to_set ws) (f_queue first h s)))).

(** *** sys_event_flag_clear, cancel, destroy and get *)
Definition f_clear (t bitptn : Z) (s : eflag) : eflag :=
  if ef_exists s then fgo t (FReturned CELL_OK 0) (f_pattern (Z.land (ef_pattern s) bitptn) s)
  else fgo t (FReturned CELL_ESRCH 0) s.

Definition fc_call (t : Z) (s : eflag) : eflag :=
  if ef_exists s then fgo t FcLock s else fgo t (FReturned CELL_ESRCH 0) s.

Definition fc_lock (t : Z) (s : eflag) : option eflag :=
  l ← walk (ef_cpus s) (ef_sq s);
  if existsb (is_again (ef_cpus s)) l then Some (fgo t FStopped (f_stop t s))
  else
    '(ws, first, h) ← drain_fifo (S (size (ef_cpus s))) (ef_cpus s) (ef_sq s) [];
    let rg := fold_left (fun rg u => upd (fun r => set6 (ef_pattern s) (set3 CELL_ECANCELED r)) u rg)
                ws (ef_regs s) in
    Some (fgo t (FReturned CELL_OK (Z.of_nat (length ws)))
            (f_signal (ef_signal s ∪ list_to_set ws) (f_regs rg (f_queue first h s)))).

Definition f_destroy (t : Z) (s : eflag) : eflag :=
  if ef_exists s then
    if negb (ef_sq s =? 0) then fgo t (FReturned CELL_EBUSY 0) s
    else fgo t (FReturned CELL_OK 0) (f_exists false s)
  else fgo t (FReturned CELL_ESRCH 0) s.

(** The code and the value written, [None] for a null pointer. *)
Definition f_get (flags : bool) (s : eflag) : Z * option Z :=
  if ef_exists s then if flags then (CELL_OK, Some (ef_pattern s)) else (CELL_EFAULT, None)
  else (CELL_ESRCH, if flags then Some 0 else None).

(** *** Steps *)
Definition f_unlocked (s : eflag) : bool := match ef_mutex s with None => true | Some _ => false end.

Definition f_run (t : Z) (s : eflag) : option eflag :=
  let locked (o : option eflag) := if f_unlocked s then o else None in
  match fpc s t with
  | FwTry b m to => Some (fw_try t b m to s)
  | FwLock b m to => locked (Some (fw_lock t b m to s))
  | FwEnq to => Some (fw_enq t to s)
  | FwSleep _ => fw_signal t s
  | FwTimeout => Some (fw_timeout t s)
  | FwTimeoutSync => locked (Some (fw_end t s))
  | FwTimeoutLock => locked (fw_unqueue t s)
  | FsLoad b => Some (fs_load t b s)
  | FsLock b => locked (fs_lock t b s)
  | FsTry b p w d c => fs_try t b p w d c s
  | FsRemove => fs_remove t s
  | FcLock => locked (fc_lock t s)
  | _ => None
  end.

Inductive faction : Set :=
  | FCallWait (t bitptn mode : Z) (timeout : bool)
  | FCallTrywait (t bitptn mode : Z)
  | FCallSet (t bitptn : Z)
  | FCallClear (t bitptn : Z)
  | FCallCancel (t : Z)
  | FCallDestroy (t : Z)
  | FRun (t : Z)
  | FTimeout (t : Z)        (* the time of a sleeping thread is up *)
  | FStop (t : Z)           (* the emulator stops a sleeping thread *)
  | FReturn (t : Z).        (* back in guest code *)

Definition f_can_call (t : Z) (s : eflag) : bool :=
  match ef_cpus s !! t, fpc s t with
  | Some c, FIdle => negb (again c) && negb (t =? 0)
  | _, _ => false
  end.

(** Inside the callback of [idm::get], which excludes [idm::withdraw]. *)
Definition f_in_idm (p : fpoint) : bool :=
  match p with FwTry _ _ _ | FwLock _ _ _ | FwEnq _ => true | _ => false end.

#[export] Instance eflag_machine : Machine eflag faction := fun a s =>
  let call t (b : bool) (s' : eflag) := if f_can_call t s && b then Some s' else None in
  match a with
  | FCallWait t bitptn mode to =>
      call t (bool_decide (in_uint 64 bitptn) && bool_decide (in_uint 32 mode)) (fw_call t bitptn mode to s)
  | FCallTrywait t bitptn mode =>
      call t (bool_decide (in_uint 64 bitptn) && bool_decide (in_uint 32 mode)) (ft_call t bitptn mode s)
  | FCallSet t bitptn => call t (bool_decide (in_uint 64 bitptn)) (fs_call t bitptn s)
  | FCallClear t bitptn => call t (bool_decide (in_uint 64 bitptn)) (f_clear t bitptn s)
  | FCallCancel t => call t true (fc_call t s)
  | FCallDestroy t =>
      call t (forallb (fun '(_, p) => negb (f_in_idm p)) (map_to_list (ef_points s))) (f_destroy t s)
  | FRun t => f_run t s
  | FTimeout t => match fpc s t with FwSleep true => Some (fgo t FwTimeout s) | _ => None end
  | FStop t => match fpc s t with FwSleep _ => if f_unlocked s then fw_stop t s else None | _ => None end
  | FReturn t =>
      match fpc s t with
      | FwReturned _ _ | FReturned _ _ => Some (fgo t FIdle (f_signal (ef_signal s ∖ {[t]}) s))
      | _ => None
      end
  end.

(** A new event flag, with threads that are in no call. *)
Definition f_initial (s : eflag) : Prop :=
  (ef_protocol s = SYS_SYNC_FIFO \/ ef_protocol s = SYS_SYNC_PRIORITY) /\
  ef_exists s = true /\ ef_mutex s = None /\ in_uint 64 (ef_pattern s) /\ ef_sq s = 0 /\
  ef_points s = ∅ /\ ef_signal s = ∅ /\ ef_cpus s !! 0 = None /\
  (forall t, is_again (ef_cpus s) t = false) /\
  (forall t, in_sint 13 (prio (prio_of (ef_cpus s) t))).

(** ** Bit patterns *)

(** The bits of [x] are among those of [y]. *)
Definition incl_bits (x y : Z) : Prop := Z.land x y = x.

Lemma incl_bits_spec x y :
  incl_bits x y <-> forall i, 0 <= i -> Z.testbit x i = true -> Z.testbit y i = true.
Proof.
  unfold incl_bits. split.
  - intros E i Hi B. rewrite <- E, Z.land_spec in B. by apply andb_true_iff in B as [_ B].
  - intros H. apply Z.bits_inj'. intros i Hi. rewrite Z.land_spec.
    destruct (Z.testbit x i) eqn:B; [by rewrite H|done].
Qed.

(** Decides an inclusion from inclusions, bit by bit. *)
Ltac bits :=
  rewrite ?incl_bits_spec in *; try (let i := fresh "i" in let Hi := fresh "Hi" in intros i Hi;
    repeat match goal with H : forall i, 0 <= i -> _ |- _ => specialize (H i Hi) end;
    repeat (rewrite Z.lor_spec in * || rewrite Z.land_spec in * || rewrite Z.lxor_spec in * || rewrite Z.bits_0 in *));
  repeat match goal with |- context [Z.testbit ?x ?i] => destruct (Z.testbit x i) | H : context [Z.testbit ?x ?i] |- _ => destruct (Z.testbit x i) end;
  cbn in *; intuition congruence.

Lemma incl_bits_refl x : incl_bits x x.
Proof. bits. Qed.
Lemma incl_bits_trans x y z : incl_bits x y -> incl_bits y z -> incl_bits x z.
Proof. intros A B. bits. Qed.
Lemma incl_bits_land x y : incl_bits (Z.land x y) x.
Proof. bits. Qed.
Lemma incl_bits_0 x : incl_bits 0 x.
Proof. done. Qed.
Lemma incl_bits_lor x y z : incl_bits x y -> incl_bits (Z.lor x z) (Z.lor y z).
Proof. intros A. bits. Qed.

(** The condition of a waiter. *)
Definition sat (pattern bitptn mode : Z) : bool := fst (check_pattern pattern bitptn mode).

Lemma sat_spec x b m :
  sat x b m = negb (((Z.land m 0xf =? SYS_EVENT_FLAG_WAIT_AND) && negb (Z.land x b =? b)) ||
                    ((Z.land m 0xf =? SYS_EVENT_FLAG_WAIT_OR) && (Z.land x b =? 0))).
Proof. unfold sat, check_pattern. destruct (_ || _); [done|]. by repeat case_match. Qed.

Lemma sat_mono x y b m : incl_bits x y -> sat x b m = true -> sat y b m = true.
Proof.
  intros I. rewrite !sat_spec, !negb_true_iff, !orb_false_iff, !andb_false_iff, !negb_false_iff, !Z.eqb_eq, !Z.eqb_neq.
  intros [A B]. split.
  - destruct A as [A|A]; [by left|right]. rewrite (Z.land_comm x b) in A. rewrite (Z.land_comm y b).
    change (incl_bits b x) in A. change (incl_bits b y). by eapply incl_bits_trans.
  - destruct B as [B|B]; [by left|right]. intros E. apply B. apply Z.bits_inj'. intros i Hi.
    apply (f_equal (fun z => Z.testbit z i)) in E. rewrite incl_bits_spec in I. specialize (I i Hi).
    rewrite Z.land_spec, Z.bits_0 in *. destruct (Z.testbit x i); [|done]. by rewrite I in E.
Qed.

(** The pattern a waiter that is served leaves. *)
Definition leave (pattern bitptn mode : Z) : Z := snd (check_pattern pattern bitptn mode).

Lemma leave_sat x b m : sat x b m = true ->
  leave x b m = if Z.land m (bnot 64 0xf) =? SYS_EVENT_FLAG_WAIT_CLEAR then Z.land x (bnot 64 b)
                else if Z.land m (bnot 64 0xf) =? SYS_EVENT_FLAG_WAIT_CLEAR_ALL then 0 else x.
Proof. rewrite sat_spec. unfold leave, check_pattern. destruct (_ || _); [done|]. by repeat case_match. Qed.

Lemma leave_unsat x b m : sat x b m = false -> leave x b m = x.
Proof. unfold sat, leave, check_pattern. destruct (_ || _); [done|]. by repeat case_match. Qed.

Lemma leave_incl x b m : incl_bits (leave x b m) x.
Proof.
  destruct (sat x b m) eqn:E; [|rewrite leave_unsat by done; apply incl_bits_refl].
  rewrite leave_sat by done. destruct (_ =? _); [apply incl_bits_land|]. destruct (_ =? _); [done|apply incl_bits_refl].
Qed.

Lemma leave_range x b m : in_uint 64 x -> in_uint 64 (leave x b m).
Proof.
  intros H. rewrite <- (leave_incl x b m), Z.land_comm. apply land_range; [lia|done|].
  unfold leave, check_pattern. destruct (_ || _); [apply H|]. destruct (_ =? _).
  - apply Z.land_nonneg. left. apply H.
  - destruct (_ =? _); [done|apply H].
Qed.

(** Serving a waiter commutes with restricting the pattern, when the
    restriction does not decide whether the waiter is served. *)
Lemma leave_land x z b m : sat x b m = sat (Z.land x z) b m -> leave (Z.land x z) b m = Z.land (leave x b m) z.
Proof.
  intros E. destruct (sat x b m) eqn:Ex; symmetry in E.
  - rewrite !leave_sat by done. destruct (_ =? _); [rewrite <- !Z.land_assoc; f_equal; apply Z.land_comm|].
    by destruct (_ =? _).
  - by rewrite !leave_unsat.
Qed.

Lemma check_pattern_eq x b m : check_pattern x b m = (sat x b m, leave x b m).
Proof. apply surjective_pairing. Qed.

(** ** The order in which waiters are served *)

(** The reference: the waiters [l] (newest first) in the order of the protocol. *)
Definition turn_order (protocol : Z) (h : threads) (l : list Z) : list Z :=
  wake_order protocol (fun t => prio (prio_of h t)) (rev l).

Lemma turn_order_cons protocol h x l :
  turn_order protocol h (x :: l) = arrive protocol (fun t => prio (prio_of h t)) x (turn_order protocol h l).
Proof. unfold turn_order, wake_order. by rewrite <- !fold_left_rev_right, !rev_involutive. Qed.

Lemma arrive_elem protocol p x y l : y ∈ arrive protocol p x l <-> y = x \/ y ∈ l.
Proof.
  unfold arrive. destruct (protocol =? SYS_SYNC_FIFO); [set_solver|].
  induction l as [|z l IH]; cbn; [set_solver|]. destruct (p z <=? p x); set_solver.
Qed.

Lemma turn_order_elem protocol h l t : t ∈ turn_order protocol h l <-> t ∈ l.
Proof.
  induction l as [|x l IH]; [done|]. rewrite turn_order_cons, arrive_elem, IH. set_solver.
Qed.

Lemma turn_order_nil protocol h l : turn_order protocol h l = [] -> l = [].
Proof.
  intros E. destruct l as [|x l]; [done|]. pose proof (proj2 (turn_order_elem protocol h (x :: l) x) ltac:(set_solver)) as H.
  rewrite E in H. set_solver.
Qed.

(** Removing the first of the order leaves the rest of it. *)
Lemma turn_order_next protocol h l u r :
  NoDup l -> turn_order protocol h l = u :: r -> turn_order protocol h (qremove u l) = r.
Proof.
  revert u r. induction l as [|x l IH]; intros u r N E; [done|].
  apply NoDup_cons in N as [Nx N]. rewrite turn_order_cons in E.
  assert (Hu : forall v q, turn_order protocol h l = v :: q -> v <> x).
  { intros v q Ev ->. apply Nx. apply (turn_order_elem protocol h). rewrite Ev. set_solver. }
  assert (Hx : u = x -> turn_order protocol h l = r -> turn_order protocol h (qremove u (x :: l)) = r).
  { intros -> <-. unfold qremove. rewrite filter_cons_False by tauto. fold (qremove x l). by rewrite qremove_notin. }
  unfold arrive in E. destruct (protocol =? SYS_SYNC_FIFO) eqn:P; destruct (turn_order protocol h l) as [|v q] eqn:Eo; cbn in E.
  - injection E as -> <-. by apply Hx.
  - injection E as -> <-. rewrite qremove_cons_ne by (apply not_eq_sym; eauto).
    rewrite turn_order_cons. unfold arrive. rewrite P. f_equal. by apply IH.
  - injection E as -> <-. by apply Hx.
  - destruct (Z.leb_spec (prio (prio_of h v)) (prio (prio_of h x))).
    + injection E as -> <-. rewrite qremove_cons_ne by (apply not_eq_sym; eauto).
      rewrite turn_order_cons. unfold arrive. rewrite P. f_equal. by apply IH.
    + injection E as -> <-. by apply Hx.
Qed.

Definition unmarked (rg : gmap Z regs) (l : list Z) : list Z := filter (fun t => gpr7 (reg rg t) = 0) l.

Lemma get_next_loop protocol h rg l q a :
  protocol = SYS_SYNC_FIFO \/ protocol = SYS_SYNC_PRIORITY ->
  fold_left (fun '(best, it) ppu =>
    if (gpr7 (reg rg ppu) =? 0) &&
       (negb (protocol =? SYS_SYNC_PRIORITY) || (prio (prio_of h ppu) <=? best))
    then (prio (prio_of h ppu), ppu) else (best, it)) l (q, a) =
  match turn_order protocol h (unmarked rg l) with
  | [] => (q, a)
  | u :: _ => if negb (protocol =? SYS_SYNC_PRIORITY) || (prio (prio_of h u) <=? q)
              then (prio (prio_of h u), u) else (q, a)
  end.
Proof.
  intros Hp. revert q a. induction l as [|x l IH]; intros q a; [done|]. cbn [fold_left unmarked].
  unfold unmarked in *. rewrite filter_cons. destruct (Z.eqb_spec (gpr7 (reg rg x)) 0) as [E|E];
    [rewrite decide_True by done|rewrite decide_False by done; apply IH].
  rewrite turn_order_cons. cbn [andb].
  set (o := turn_order protocol h (filter _ l)) in *.
  destruct Hp as [-> | ->]; cbn [Z.eqb Pos.eqb SYS_SYNC_FIFO SYS_SYNC_PRIORITY negb orb arrive] in *.
  - rewrite IH. by destruct o.
  - change (SYS_SYNC_PRIORITY =? SYS_SYNC_PRIORITY) with true in *. cbn [negb orb] in *. unfold arrive.
    change (SYS_SYNC_PRIORITY =? SYS_SYNC_FIFO) with false. cbn match.
    destruct (Z.leb_spec (prio (prio_of h x)) q); rewrite IH; destruct o as [|u o']; cbn [prio_insert].
    + destruct (Z.leb_spec (prio (prio_of h x)) q); [done|lia].
    + destruct (Z.leb_spec (prio (prio_of h u)) (prio (prio_of h x))).
      * destruct (Z.leb_spec (prio (prio_of h u)) q); [done|lia].
      * destruct (Z.leb_spec (prio (prio_of h x)) q); [done|lia].
    + destruct (Z.leb_spec (prio (prio_of h x)) q); [lia|done].
    + destruct (Z.leb_spec (prio (prio_of h u)) (prio (prio_of h x))); [done|].
      destruct (Z.leb_spec (prio (prio_of h u)) q); [lia|].
      destruct (Z.leb_spec (prio (prio_of h x)) q); [lia|done].
Qed.

Lemma get_next_spec protocol h rg l :
  protocol = SYS_SYNC_FIFO \/ protocol = SYS_SYNC_PRIORITY ->
  (forall t, prio (prio_of h t) <= 2 ^ 31 - 1) ->
  get_next protocol h rg l = match turn_order protocol h (unmarked rg l) with [] => 0 | u :: _ => u end.
Proof.
  intros Hp Hb. unfold get_next. rewrite get_next_loop by done.
  destruct (turn_order _ _ _) as [|u o]; [done|]. rewrite (proj2 (Z.leb_le _ _) (Hb u)). by rewrite orb_true_r.
Qed.

(** ** Serving the waiters one after the other *)

(** The reference: each waiter in turn looks at the pattern; [want] gives what
    it waits for.  The waiters served, and the pattern they leave. *)
Fixpoint deliver (want : Z -> Z * Z) (ord : list Z) (pattern : Z) : list Z * Z :=
  match ord with
  | [] => ([], pattern)
  | u :: ord' =>
      if sat pattern (fst (want u)) (snd (want u)) then
        let r := deliver want ord' (leave pattern (fst (want u)) (snd (want u))) in (u :: fst r, snd r)
      else deliver want ord' pattern
  end.

Definition wanted (rg : gmap Z regs) (u : Z) : Z * Z := (gpr4 (reg rg u), gpr5 (reg rg u)).

Lemma deliver_ext want want' ord pat :
  (forall u, u ∈ ord -> want' u = want u) -> deliver want' ord pat = deliver want ord pat.
Proof.
  revert pat. induction ord as [|u ord IH]; intros pat H; [done|]. cbn. rewrite H by set_solver.
  rewrite !IH by set_solver. done.
Qed.

Lemma deliver_sub want ord pat u : u ∈ fst (deliver want ord pat) -> u ∈ ord.
Proof.
  revert pat. induction ord as [|v ord IH]; intros pat; [done|]. cbn. destruct (sat _ _ _).
  - cbn. rewrite !elem_of_cons. intros [->|H]; [by left|right]. by eapply IH.
  - intros H. rewrite elem_of_cons. right. by eapply IH.
Qed.

Lemma deliver_incl want ord pat : incl_bits (snd (deliver want ord pat)) pat.
Proof.
  revert pat. induction ord as [|v ord IH]; intros pat; [apply incl_bits_refl|]. cbn. destruct (sat _ _ _); [|apply IH].
  cbn. eapply incl_bits_trans; [apply IH|apply leave_incl].
Qed.

(** A waiter that is not served does not want the pattern that remains. *)
Lemma deliver_unserved want ord pat u :
  u ∈ ord -> u ∉ fst (deliver want ord pat) ->
  sat (snd (deliver want ord pat)) (fst (want u)) (snd (want u)) = false.
Proof.
  revert pat. induction ord as [|v ord IH]; intros pat Hu Hn; [set_solver|]. cbn in *.
  destruct (sat pat (fst (want v)) (snd (want v))) eqn:Sv; cbn in *.
  - apply elem_of_cons in Hu as [->|Hu]; [set_solver|]. apply IH; set_solver.
  - destruct (decide (u ∈ ord)) as [Ho|Ho]; [by apply IH|]. apply elem_of_cons in Hu as [->|Hu]; [|done].
    apply not_true_iff_false. intros E. apply not_true_iff_false in Sv. apply Sv.
    eapply sat_mono; [apply (deliver_incl want ord)|done].
Qed.

Lemma deliver_app want o1 o2 pat :
  deliver want (o1 ++ o2) pat =
  (fst (deliver want o1 pat) ++ fst (deliver want o2 (snd (deliver want o1 pat))),
   snd (deliver want o2 (snd (deliver want o1 pat)))).
Proof.
  revert pat. induction o1 as [|u o1 IH]; intros pat; cbn; [apply surjective_pairing|].
  destruct (sat _ _ _); cbn; rewrite IH; done.
Qed.

(** Nobody is served when nobody is satisfied. *)
Lemma deliver_none want ord pat :
  (forall u, u ∈ ord -> sat pat (fst (want u)) (snd (want u)) = false) -> deliver want ord pat = ([], pat).
Proof.
  induction ord as [|u ord IH]; intros H; [done|]. cbn. rewrite H by set_solver. apply IH. set_solver.
Qed.

(** The outcome for a smaller pattern is the same, when each waiter that is
    served is served by the bits that remain. *)
Lemma deliver_land want ord pat z :
  (forall u, u ∈ fst (deliver want ord pat) -> forall y, incl_bits y pat ->
     sat y (fst (want u)) (snd (want u)) = true -> sat (Z.land y z) (fst (want u)) (snd (want u)) = true) ->
  deliver want ord (Z.land pat z) = (fst (deliver want ord pat), Z.land (snd (deliver want ord pat)) z).
Proof.
  revert pat. induction ord as [|u ord IH]; intros pat H; [done|]. cbn in *.
  destruct (sat pat (fst (want u)) (snd (want u))) eqn:Su; cbn in *.
  - assert (Sz : sat (Z.land pat z) (fst (want u)) (snd (want u)) = true).
    { apply H; [set_solver|apply incl_bits_refl|done]. }
    rewrite Sz, leave_land by congruence. rewrite IH; [done|].
    intros v Hv y Hy. apply H; [set_solver|]. eapply incl_bits_trans; [done|apply leave_incl].
  - assert (Sz : sat (Z.land pat z) (fst (want u)) (snd (want u)) = false).
    { apply not_true_iff_false. intros E. apply not_true_iff_false in Su. apply Su.
      eapply sat_mono; [apply incl_bits_land|done]. }
    rewrite Sz. by apply IH.
Qed.

(** What [dependant_mask] promises for a waiter that is served: its condition
    is on some of its bits, or all its bits are in the mask or are set. *)
Definition covered (bitptn mask : Z) (wm : Z * Z) : Prop :=
  Z.land (snd wm) 0xf = SYS_EVENT_FLAG_WAIT_OR \/ incl_bits (fst wm) (Z.lor mask bitptn).

Lemma covered_mono b d d' wm : incl_bits d d' -> covered b d wm -> covered b d' wm.
Proof. intros I [H|H]; [by left|right]. eapply incl_bits_trans; [done|by apply incl_bits_lor]. Qed.

Lemma sat_cases x b m :
  sat x b m = if Z.land m 0xf =? SYS_EVENT_FLAG_WAIT_AND then Z.land x b =? b
              else if Z.land m 0xf =? SYS_EVENT_FLAG_WAIT_OR then negb (Z.land x b =? 0) else true.
Proof.
  rewrite sat_spec. destruct (Z.eqb_spec (Z.land m 0xf) SYS_EVENT_FLAG_WAIT_AND) as [->|]; cbn [andb orb].
  - change (SYS_EVENT_FLAG_WAIT_AND =? SYS_EVENT_FLAG_WAIT_OR) with false. cbn [andb]. by rewrite orb_false_r, negb_involutive.
  - by destruct (_ =? SYS_EVENT_FLAG_WAIT_OR).
Qed.

Lemma covered_kept bu m b d x p y :
  covered b d (bu, m) -> incl_bits x p -> Z.land (Z.lxor x p) d = 0 -> incl_bits y (Z.lor p b) ->
  sat p bu m = false -> sat y bu m = true -> sat (Z.land y (Z.lor x b)) bu m = true.
Proof.
  unfold covered. cbn [fst snd]. intros C I D Iy. rewrite !sat_cases.
  assert (Db : forall i, 0 <= i -> Z.testbit (Z.land (Z.lxor x p) d) i = false) by (intros; rewrite D; apply Z.bits_0).
  destruct (Z.eqb_spec (Z.land m 0xf) SYS_EVENT_FLAG_WAIT_AND) as [E|E].
  - destruct C as [C|C]; [by rewrite E in C|]. intros _. rewrite !Z.eqb_eq, !(Z.land_comm _ bu). clear D E.
    intros A. change (incl_bits bu y) in A. change (incl_bits bu (Z.land y (Z.lor x b))). bits.
  - destruct (Z.eqb_spec (Z.land m 0xf) SYS_EVENT_FLAG_WAIT_OR) as [Eo|Eo]; [|done].
    rewrite negb_false_iff, !negb_true_iff, Z.eqb_eq, !Z.eqb_neq. intros P A F. apply A. apply Z.bits_inj'. intros i Hi.
    rewrite incl_bits_spec in I, Iy. specialize (I i Hi). specialize (Iy i Hi). specialize (Db i Hi).
    apply (f_equal (fun v => Z.testbit v i)) in P, F. rewrite ?Z.land_spec, ?Z.lor_spec, ?Z.lxor_spec, ?Z.bits_0 in *.
    destruct (Z.testbit y i), (Z.testbit bu i), (Z.testbit x i), (Z.testbit p i), (Z.testbit b i); cbn in *; intuition congruence.
Qed.

(** The commit: what the loop computed for the snapshot [p], with an early end
    when no bit is left, is the outcome for the value [x] at the commit. *)
Lemma commit_correct want ord rest b d x p :
  (forall u, u ∈ ord ++ rest -> sat p (fst (want u)) (snd (want u)) = false) ->
  incl_bits x p -> Z.land (Z.lxor x p) d = 0 ->
  (forall u, u ∈ fst (deliver want ord (Z.lor p b)) -> covered b d (want u)) ->
  rest = [] \/ snd (deliver want ord (Z.lor p b)) = 0 ->
  deliver want (ord ++ rest) (Z.lor x b) =
  (fst (deliver want ord (Z.lor p b)), Z.land (snd (deliver want ord (Z.lor p b))) (Z.lor x b)).
Proof.
  intros U I D C R.
  assert (E : deliver want ord (Z.lor x b) =
    (fst (deliver want ord (Z.lor p b)), Z.land (snd (deliver want ord (Z.lor p b))) (Z.lor x b))).
  { rewrite <- deliver_land.
    - f_equal. symmetry. rewrite Z.land_comm. apply incl_bits_lor, I.
    - intros u Hu y Hy Sy. specialize (C u Hu). destruct (want u) as [bu m] eqn:Ew. cbn in *.
      eapply covered_kept; [done..| |done].
      specialize (U u). rewrite Ew in U. apply U, elem_of_app. left. by eapply deliver_sub. }
  destruct R as [->|R]; [by rewrite app_nil_r|]. rewrite deliver_app, E. cbn [fst snd]. rewrite R, Z.land_0_l.
  rewrite (deliver_none want rest 0); cbn [fst snd]; [by rewrite app_nil_r|].
  intros u Hu. apply not_true_iff_false. intros Sx.
  pose proof (U u ltac:(set_solver)) as Up. apply not_true_iff_false in Up. apply Up.
  eapply sat_mono; [apply incl_bits_0|done].
Qed.

(** ** The loop of [set] *)

Lemma reg_upd f t rg u : reg (upd f t rg) u = if decide (u = t) then f (reg rg t) else reg rg u.
Proof. apply at_insert. Qed.
Lemma reg_upd_here f t rg : reg (upd f t rg) t = f (reg rg t).
Proof. rewrite reg_upd. by rewrite decide_True. Qed.
Lemma reg_upd_ne f t rg u : u <> t -> reg (upd f t rg) u = reg rg u.
Proof. intros. rewrite reg_upd. by rewrite decide_False. Qed.

Lemma unmarked_next rg rg' l u :
  (forall v, v <> u -> reg rg' v = reg rg v) -> gpr7 (reg rg' u) <> 0 ->
  unmarked rg' l = qremove u (unmarked rg l).
Proof.
  intros H N. unfold unmarked, qremove. rewrite list_filter_filter. apply list_filter_iff. intros v.
  destruct (decide (v = u)) as [->|Nv]; [tauto|]. rewrite H by done. tauto.
Qed.

(** What the loop has done when it ends: it served [done] in order, the rest of
    the order only when bits were left. *)
Record served (protocol : Z) (h : threads) (l : list Z) (bitptn : Z) (rg : gmap Z regs) (pattern : Z)
    (rg' : gmap Z regs) (to_write mask count : Z) (done rest : list Z) : Prop := {
  sv_order : turn_order protocol h (unmarked rg l) = done ++ rest;
  sv_write : to_write = snd (deliver (wanted rg) done pattern);
  sv_mask u : u ∈ fst (deliver (wanted rg) done pattern) -> covered bitptn mask (wanted rg u);
  sv_range : in_uint 64 mask;
  sv_count : count = Z.of_nat (length (fst (deliver (wanted rg) done pattern)));
  sv_done u : u ∈ done -> gpr7 (reg rg' u) = 1 /\
    gpr3 (reg rg' u) = if decide (u ∈ fst (deliver (wanted rg) done pattern)) then CELL_OK else u64 (-1);
  sv_seen u : u ∈ done -> gpr3 (reg rg' u) = CELL_OK ->
    sat (gpr6 (reg rg' u)) (gpr4 (reg rg u)) (gpr5 (reg rg u)) = true;
  sv_rest u : u ∉ done -> reg rg' u = reg rg u;
  sv_wanted u : wanted rg' u = wanted rg u
}.

(** One turn of the loop. *)
Lemma served_cons protocol h l bitptn rg rg1 tw rg' tw' mask count done rest u o :
  NoDup (unmarked rg l) -> turn_order protocol h (unmarked rg l) = u :: o ->
  (forall v, v <> u -> reg rg1 v = reg rg v) -> (forall v, wanted rg1 v = wanted rg v) ->
  gpr7 (reg rg1 u) = 1 -> gpr6 (reg rg1 u) = tw ->
  gpr3 (reg rg1 u) = (if sat tw (gpr4 (reg rg u)) (gpr5 (reg rg u)) then CELL_OK else u64 (-1)) ->
  (sat tw (gpr4 (reg rg u)) (gpr5 (reg rg u)) = true -> covered bitptn mask (wanted rg u)) ->
  served protocol h l bitptn rg1 (leave tw (gpr4 (reg rg u)) (gpr5 (reg rg u))) rg' tw' mask count done rest ->
  served protocol h l bitptn rg tw rg' tw' mask
    (Z.b2z (sat tw (gpr4 (reg rg u)) (gpr5 (reg rg u))) + count) (u :: done) rest.
Proof.
  intros N Eo Ho Hw H7 H6 H3 Hc S. destruct S as [So Sw Sm Sr Sn Sd Ss Sx Sq].
  rewrite (unmarked_next rg rg1 l u Ho) in So by lia. rewrite (turn_order_next _ _ _ _ _ N Eo) in So. subst o.
  assert (Ed : forall pat, deliver (wanted rg1) done pat = deliver (wanted rg) done pat).
  { intros. apply deliver_ext. intros. apply Hw. }
  rewrite Ed in *.
  assert (Nu : u ∉ done).
  { intros Hd. assert (Hq : u ∈ qremove u (unmarked rg l)).
    { apply (turn_order_elem protocol h). rewrite (turn_order_next _ _ _ _ _ N Eo). set_solver. }
    apply elem_of_qremove in Hq. tauto. }
  set (b := sat tw (gpr4 (reg rg u)) (gpr5 (reg rg u))) in *.
  assert (D : deliver (wanted rg) (u :: done) tw =
    let r := deliver (wanted rg) done (leave tw (gpr4 (reg rg u)) (gpr5 (reg rg u))) in
    (if b then u :: fst r else fst r, snd r)).
  { cbn [deliver]. unfold wanted at 1 2. cbn [fst snd]. fold b. destruct b eqn:Eb; [done|].
    rewrite leave_unsat by done. apply surjective_pairing. }
  set (r := deliver (wanted rg) done _) in *. cbv zeta in D.
  assert (Sub : forall v, v ∈ fst r -> v ∈ done) by (intros v; apply deliver_sub).
  split; rewrite ?D; cbn [fst snd]; try done.
  - intros v Hv. destruct b; [|rewrite <- Hw; auto]. apply elem_of_cons in Hv as [->|Hv]; [auto|rewrite <- Hw; auto].
  - rewrite Sn. destruct b; cbn [Z.b2z length]; lia.
  - intros v [->|Hv]%elem_of_cons.
    + rewrite Sx by done. split; [done|]. rewrite H3. destruct b; [by rewrite decide_True by set_solver|].
      by rewrite decide_False by (intros F%Sub; done).
    + destruct (Sd v Hv) as [A B]. split; [done|]. rewrite B. destruct b; [|done].
      destruct (decide (v ∈ fst r)) as [Hr|Hr]; [by rewrite decide_True by set_solver|].
      rewrite decide_False; [done|]. intros [->|F]%elem_of_cons; done.
  - intros v [->|Hv]%elem_of_cons.
    + rewrite Sx, H3, H6 by done. fold b. destruct b; [done|discriminate].
    + intros E. specialize (Ss v Hv E). pose proof (Hw v) as [=A B]. by rewrite A, B in Ss.
  - intros v Hv. rewrite Sx by set_solver. apply Ho. set_solver.
  - intros v. by rewrite Sq, Hw.
Qed.

Lemma serve_loop_spec fuel protocol h l bitptn rg to_write mask count :
  protocol = SYS_SYNC_FIFO \/ protocol = SYS_SYNC_PRIORITY ->
  (forall t, prio (prio_of h t) <= 2 ^ 31 - 1) -> NoDup l -> (0 ∉ l) ->
  (forall u, u ∈ l -> in_uint 64 (gpr4 (reg rg u))) -> in_uint 64 mask ->
  (length (unmarked rg l) < fuel)%nat ->
  exists rg' to_write' mask' count' done rest,
    serve_loop fuel protocol h l bitptn rg to_write mask count = Some (rg', to_write', mask', count + count') /\
    served protocol h l bitptn rg to_write rg' to_write' mask' count' done rest /\ incl_bits mask mask' /\
    (rest = [] \/ (to_write' = 0 /\ 0 < count')).
Proof.
  intros Hp Hb N N0. revert rg to_write mask count. induction fuel as [|n IH]; intros rg tw mask count Hw Hm Hf; [lia|].
  cbn [serve_loop]. rewrite get_next_spec by done.
  assert (Nu : NoDup (unmarked rg l)) by (by apply NoDup_filter).
  destruct (turn_order protocol h (unmarked rg l)) as [|u o] eqn:Eo.
  { change (0 =? 0) with true. cbn match. exists rg, tw, mask, 0, [], []. rewrite Z.add_0_r.
    split_and!; [done| |apply incl_bits_refl|by left]. split; try done; auto; set_solver. }
  assert (Hu : u ∈ unmarked rg l) by (apply (turn_order_elem protocol h); rewrite Eo; set_solver).
  apply list_elem_of_filter in Hu as Hu'. destruct Hu' as [H7 Hul].
  destruct (Z.eqb_spec u 0) as [->|Nz]; [done|]. cbv zeta. rewrite reg_upd_here. cbn [gpr4 gpr5 set7].
  rewrite check_pattern_eq. set (p := gpr4 (reg rg u)) in *. set (m := gpr5 (reg rg u)) in *.
  set (dm := if (_ || _) then 0 else p).
  assert (Hdm : in_uint 64 dm) by (unfold dm; destruct (_ || _); [by split|by apply Hw]).
  assert (Hcov : covered bitptn dm (wanted rg u)).
  { unfold dm, covered, wanted. cbn [fst snd]. destruct (Z.eqb_spec (Z.land m 15) SYS_EVENT_FLAG_WAIT_OR); [by left|right].
    cbn [orb]. destruct (Z.eqb_spec (Z.land (Z.land bitptn p) tw) p) as [E|E].
    - fold p. rewrite <- E. bits.
    - fold p. clear. bits. }
  set (rg2 := upd (set6 tw) u (upd (set7 1) u rg)).
  assert (Hr : forall f v, v <> u -> reg (upd f u rg2) v = reg rg v).
  { intros f v Nv. unfold rg2. by rewrite !reg_upd_ne. }
  assert (Hh : forall x, reg (upd (set3 x) u rg2) u = set3 x (set6 tw (set7 1 (reg rg u)))).
  { intros x. unfold rg2. by rewrite !reg_upd_here. }
  assert (Hwt : forall x v, wanted (upd (set3 x) u rg2) v = wanted rg v).
  { intros x v. unfold wanted. destruct (decide (v = u)) as [->|]; [by rewrite Hh|by rewrite Hr]. }
  assert (Hf' : forall x, (length (unmarked (upd (set3 x) u rg2) l) < n)%nat).
  { intros x. rewrite (unmarked_next rg _ l u (Hr _)) by (rewrite Hh; cbn; lia).
    rewrite (qremove_length u (unmarked rg l)) in Hf by done. lia. }
  assert (Hw' : forall x v, v ∈ l -> in_uint 64 (gpr4 (reg (upd (set3 x) u rg2) v))).
  { intros x v Hv. pose proof (f_equal fst (Hwt x v)) as E. cbn in E. rewrite E. auto. }
  destruct (sat tw p m) eqn:Sat.
  - set (tw1 := leave tw p m) in *.
    destruct (Z.eqb_spec tw1 0) as [Ez|Ez].
    + eexists _, 0, _, 1, [u], o. split; [by rewrite Ez|]. split_and!; [|bits|right; lia].
      replace 1 with (Z.b2z (sat tw p m) + 0) by (by rewrite Sat).
      apply (served_cons _ _ _ _ _ (upd (set3 CELL_OK) u rg2) _ _ _ _ _ _ _ _ o); try done; try apply Hr; try apply Hwt; try (fold p m; rewrite ?Sat; by rewrite Hh).
      * intros _. eapply covered_mono, Hcov. bits.
      * fold p m tw1. split; cbn; auto.
        -- by rewrite (unmarked_next rg _ l u (Hr _)), (turn_order_next _ _ _ _ _ Nu Eo) by (rewrite Hh; cbn; lia).
        -- set_solver.
        -- by apply lor_range.
        -- set_solver.
        -- set_solver.
    + destruct (IH (upd (set3 CELL_OK) u rg2) tw1 (Z.lor mask dm) (count + 1) (Hw' _) ltac:(by apply lor_range) (Hf' _))
        as (rg' & tw' & mask' & count' & don & rest & E & S & Im & En).
      eexists rg', tw', mask', (1 + count'), (u :: don), rest. rewrite E, Z.add_assoc. split; [done|].
      split_and!; [|eapply incl_bits_trans, Im; bits|destruct En; [by left|right; lia]].
      replace 1 with (Z.b2z (sat tw p m)) by (by rewrite Sat).
      apply (served_cons _ _ _ _ _ (upd (set3 CELL_OK) u rg2) _ _ _ _ _ _ _ _ o); try done; try apply Hr; try apply Hwt; try (fold p m; rewrite ?Sat; by rewrite Hh).
      * intros _. eapply covered_mono, Hcov. eapply incl_bits_trans, Im. bits.
  - rewrite leave_unsat by done.
    destruct (IH (upd (set3 (u64 (-1))) u rg2) tw mask count (Hw' _) Hm (Hf' _))
      as (rg' & tw' & mask' & count' & don & rest & E & S & Im & En).
    eexists rg', tw', mask', count', (u :: don), rest. rewrite E. split; [done|]. split_and!; [|done..].
    replace count' with (Z.b2z (sat tw p m) + count') by (by rewrite Sat).
    apply (served_cons _ _ _ _ _ (upd (set3 (u64 (-1))) u rg2) _ _ _ _ _ _ _ _ o); try done; try apply Hr; try apply Hwt; try (fold p m; rewrite ?Sat; by rewrite Hh).
    + fold p m. by rewrite Sat.
    + fold p m. by rewrite leave_unsat.
Qed.

(** ** The loop that removes the waiters *)

Lemma link_value h first pre l :
  queue h first (pre ++ l) ->
  match last pre with None => Some first | Some it => next_cpu <$> h !! it end = Some (hd 0 l).
Proof.
  intros [S _]. apply seg_app in S as (m & S1 & S2).
  assert (E : m = hd 0 l) by (destruct l; cbn in S2; [done|by destruct S2]). subst m.
  destruct pre as [|x pre _] using rev_ind; [cbn in *; by subst|].
  rewrite last_snoc. apply seg_app in S1 as (y & _ & S1). cbn in S1. destruct S1 as (-> & _ & c & Hc & <-).
  by rewrite Hc.
Qed.

Definition answered (rg : gmap Z regs) (u : Z) : Prop := gpr3 (reg rg u) = CELL_OK.
#[export] Instance answered_dec rg u : Decision (answered rg u).
Proof. unfold answered. apply _. Defined.

Lemma remove_loop_spec fuel h rg pre l first ws :
  queue h first (pre ++ l) -> (length l < fuel)%nat ->
  exists first' h', remove_loop fuel h rg (last pre) first ws =
      Some (first', h', rev (filter (answered rg) l) ++ ws) /\
    queue h' first' (pre ++ filter (fun u => ~ answered rg u) l) /\ same_cpus h h' /\
    (forall u, u ∉ pre ++ l -> h' !! u = h !! u).
Proof.
  revert h pre l first ws. induction fuel as [|n IH]; intros h pre l first ws Q Hf; [lia|].
  cbn [remove_loop]. rewrite (link_value _ _ _ _ Q). cbn [mbind option_bind].
  destruct l as [|x l]; cbn [hd].
  { exists first, h. split_and!; done. }
  destruct (queue_in _ _ _ x Q ltac:(set_solver)) as [Hx [c Hc]].
  destruct (Z.eqb_spec x 0); [done|]. rewrite Hc. cbn [mbind option_bind length] in *.
  destruct (Z.eqb_spec (gpr3 (reg rg x)) CELL_OK) as [E|E].
  - rewrite filter_cons_True, filter_cons_False by (unfold answered; tauto).
    destruct (store_link (last pre) (next_cpu c) first h) as [first1 h1] eqn:Es.
    destruct (unlink_queue _ _ _ _ _ _ _ _ Q Hc Es) as (Q1 & Sc1 & F1).
    assert (Nx : x ∉ pre ++ l).
    { destruct Q as [_ N]. apply NoDup_app in N as (_ & D & [Nl _]%NoDup_cons). intros [H|H]%elem_of_app; [|done].
      apply (D x H). set_solver. }
    destruct (IH (clear_next true x h1) pre l first1 (x :: ws)) as (f & h' & Er & Q' & Sc & F).
    { by apply clear_next_queue. }
    { lia. }
    exists f, h'. rewrite Er. cbn [rev]. rewrite <- app_assoc. split_and!; [done..| |].
    + eapply same_cpus_trans, Sc. eapply same_cpus_trans; [exact Sc1|apply clear_next_same].
    + intros u Hu. rewrite F by set_solver. rewrite clear_next_other by set_solver. apply F1. set_solver.
  - rewrite filter_cons_False, filter_cons_True by (unfold answered; tauto).
    destruct (IH h (pre ++ [x]) l first ws) as (f & h' & Er & Q' & Sc & F).
    { by rewrite <- app_assoc. }
    { lia. }
    rewrite last_snoc in Er. exists f, h'. rewrite Er. rewrite <- app_assoc in Q', F. done.
Qed.

(** ** The invariant *)

(** What a thread can tell of the state: whether it is in the queue, signalled,
    the holder of the mutex, marked [again]. *)
Record flocal := FLocal { f_q : bool; f_sg : bool; f_lk : bool; f_ag : bool }.

Definition flocal_of (s : eflag) (l : list Z) (t : Z) : flocal :=
  FLocal (bool_decide (t ∈ l)) (bool_decide (t ∈ ef_signal s)) (bool_decide (ef_mutex s = Some t))
    (is_again (ef_cpus s) t).

Definition fholds (p : fpoint) : bool :=
  match p with FwEnq _ | FsTry _ _ _ _ _ | FsRemove => true | _ => false end.
(** In the loop on [ppu.state] or behind it. *)
Definition fwaits (p : fpoint) : bool :=
  match p with FwSleep _ | FwTimeout | FwTimeoutSync | FwTimeoutLock => true | _ => false end.

Definition fpoint_ok (p : fpoint) (v : flocal) : bool :=
  match p with
  | FwSleep _ | FwTimeout | FwTimeoutLock => negb (f_lk v || f_ag v) && xorb (f_q v) (f_sg v)
  | FwTimeoutSync => negb (f_lk v || f_ag v || f_q v) && f_sg v
  | FwReturned _ _ | FReturned _ _ => negb (f_q v || f_lk v || f_ag v)
  | FwStopped => f_q v && f_ag v && negb (f_sg v || f_lk v)
  | FStopped => f_ag v && negb (f_q v || f_sg v || f_lk v)
  | FwEnq _ | FsTry _ _ _ _ _ | FsRemove => negb (f_q v || f_sg v || f_ag v) && f_lk v
  | _ => negb (f_q v || f_sg v || f_lk v || f_ag v)
  end.

(** The arguments kept at a point, and the registers of the thread there. *)
Definition fargs_ok (p : fpoint) (r : regs) : Prop :=
  match p with
  | FwTry b m _ | FwLock b m _ => gpr4 r = b /\ gpr5 r = m /\ in_uint 64 b /\ gpr3 r <> CELL_OK
  | FwEnq _ => in_uint 64 (gpr4 r) /\ gpr3 r <> CELL_OK
  | FwReturned code val =>
      code <> u64 (-1) /\ (code = CELL_OK -> sat val (gpr4 r) (gpr5 r) = true)
  | FsLoad b | FsLock b | FsTry b _ _ _ _ => in_uint 64 b
  | _ => True
  end.

(** The condition of a thread holds for a pattern. *)
Definition satisfied (rg : gmap Z regs) (pattern u : Z) : Prop :=
  sat pattern (gpr4 (reg rg u)) (gpr5 (reg rg u)) = true.

(** The state of an attempt of [set] before its [fetch_op]. *)
Record attempt (protocol : Z) (h : threads) (rg : gmap Z regs) (l : list Z)
    (bitptn pattern to_write mask count : Z) (done rest : list Z) : Prop := {
  at_order : turn_order protocol h l = done ++ rest;
  at_end : rest = [] \/ (to_write = 0 /\ 0 < count);
  at_write : to_write = snd (deliver (wanted rg) done (Z.lor pattern bitptn));
  at_mask u : u ∈ fst (deliver (wanted rg) done (Z.lor pattern bitptn)) -> covered bitptn mask (wanted rg u);
  at_count : count = Z.of_nat (length (fst (deliver (wanted rg) done (Z.lor pattern bitptn))));
  at_done u : u ∈ done -> gpr7 (reg rg u) = 1 /\
    gpr3 (reg rg u) = if decide (u ∈ fst (deliver (wanted rg) done (Z.lor pattern bitptn))) then CELL_OK else u64 (-1);
  at_rest u : u ∈ rest -> gpr7 (reg rg u) = 0;
  at_range : in_uint 64 pattern;
  at_unsat u : u ∈ l -> ~ satisfied rg pattern u
}.

(** Where the holder of the mutex is. *)
Definition phase (s : eflag) : fpoint :=
  match ef_mutex s with Some t => fpc s t | None => FIdle end.

Definition phase_ok (s : eflag) (l : list Z) : Prop :=
  match phase s with
  | FsTry b p w d c =>
      (forall u, u ∈ l -> is_again (ef_cpus s) u = false) /\ incl_bits (ef_pattern s) p /\
      exists done rest, attempt (ef_protocol s) (ef_cpus s) (ef_regs s) l b p w d c done rest
  | FsRemove => forall u, u ∈ l -> is_again (ef_cpus s) u = false /\
      (~ answered (ef_regs s) u -> ~ satisfied (ef_regs s) (ef_pattern s) u)
  | FwEnq _ =>
      (forall u, u ∈ l -> ~ answered (ef_regs s) u /\ ~ satisfied (ef_regs s) (ef_pattern s) u) /\
      (forall t, ef_mutex s = Some t -> ~ satisfied (ef_regs s) (ef_pattern s) t)
  | _ => forall u, u ∈ l -> ~ answered (ef_regs s) u /\ ~ satisfied (ef_regs s) (ef_pattern s) u
  end.

Record finv (s : eflag) (l : list Z) : Prop := {
  fi_proto : ef_protocol s = SYS_SYNC_FIFO \/ ef_protocol s = SYS_SYNC_PRIORITY;
  fi_queue : queue (ef_cpus s) (ef_sq s) l;
  fi_prio t : in_sint 13 (prio (prio_of (ef_cpus s) t));
  fi_pat : in_uint 64 (ef_pattern s);
  fi_zero : ef_cpus s !! 0 = None;
  fi_alive t : fpc s t <> FIdle -> is_Some (ef_cpus s !! t);
  fi_local t : fpoint_ok (fpc s t) (flocal_of s l t) = true;
  fi_args t : fargs_ok (fpc s t) (reg (ef_regs s) t);
  fi_want u : u ∈ l -> in_uint 64 (gpr4 (reg (ef_regs s) u));
  fi_seen u : (u ∈ l \/ fwaits (fpc s u) = true) -> answered (ef_regs s) u ->
    satisfied (ef_regs s) (gpr6 (reg (ef_regs s) u)) u;
  fi_result t : fwaits (fpc s t) = true -> t ∉ l ->
    gpr3 (reg (ef_regs s) t) = CELL_OK \/ gpr3 (reg (ef_regs s) t) = CELL_ECANCELED;
  fi_phase : phase_ok s l;
  fi_destroyed : ef_exists s = false -> l = [] /\ forall t, f_in_idm (fpc s t) = false
}.

(** ** Lemmas on the invariant *)

Lemma fpc_go t p s u : fpc (fgo t p s) u = if decide (u = t) then p else fpc s u.
Proof. apply at_insert. Qed.
Lemma fpc_here t p s : fpc (fgo t p s) t = p.
Proof. rewrite fpc_go. by rewrite decide_True. Qed.
Lemma fpc_elsewhere t p s u : u <> t -> fpc (fgo t p s) u = fpc s u.
Proof. intros. rewrite fpc_go. by rewrite decide_False. Qed.

Ltac flocal_done v := destruct v as [[] [] [] []]; cbn in *; congruence || done.

Lemma fholds_lk p v : fpoint_ok p v = true -> f_lk v = fholds p.
Proof. intros H. destruct v as [[] [] [] []], p; cbn in *; congruence || done. Qed.

Lemma fmutex s l t : finv s l -> ef_mutex s = Some t <-> fholds (fpc s t) = true.
Proof.
  intros I. pose proof (fholds_lk _ _ (fi_local _ _ I t)) as H. cbn in H.
  rewrite <- H, bool_decide_eq_true. done.
Qed.

Lemma phase_go s t p : ef_mutex s <> Some t -> phase (fgo t p s) = phase s.
Proof.
  intros N. unfold phase. cbn. destruct (ef_mutex s) as [u|]; [|done]. by rewrite fpc_elsewhere by congruence.
Qed.

Lemma deliver_wanted rg rg' ord pat :
  (forall u, u ∈ ord -> reg rg' u = reg rg u) -> deliver (wanted rg') ord pat = deliver (wanted rg) ord pat.
Proof. intros H. apply deliver_ext. intros u Hu. unfold wanted. by rewrite H. Qed.

Lemma turn_order_ext protocol h h' l :
  (forall t, prio_of h' t = prio_of h t) -> turn_order protocol h' l = turn_order protocol h l.
Proof. intros H. apply wake_order_ext. intros t. by rewrite H. Qed.

(** An attempt stays valid while its waiters' registers do not change. *)
Lemma attempt_ext protocol h h' rg rg' l b p w d c don rest :
  (forall t, prio_of h' t = prio_of h t) -> (forall u, u ∈ l -> reg rg' u = reg rg u) ->
  attempt protocol h rg l b p w d c don rest -> attempt protocol h' rg' l b p w d c don rest.
Proof.
  intros Hp Hr A. destruct A as [Ao Ae Aw Am Ac Ad Ax Ar Au].
  assert (Hin : forall u, u ∈ don \/ u ∈ rest -> reg rg' u = reg rg u).
  { intros u Hu. apply Hr. apply (turn_order_elem protocol h). rewrite Ao. set_solver. }
  assert (Hd : deliver (wanted rg') don (Z.lor p b) = deliver (wanted rg) don (Z.lor p b)) by (apply deliver_wanted; auto).
  split; rewrite ?Hd; try done.
  - by rewrite (turn_order_ext _ h).
  - intros u Hu. unfold wanted. rewrite Hin by (left; by eapply deliver_sub). by apply Am.
  - intros u Hu. rewrite Hin by auto. by apply Ad.
  - intros u Hu. rewrite Hin by auto. by apply Ax.
  - intros u Hu. unfold satisfied. rewrite Hr by done. by apply Au.
Qed.

Lemma satisfied_mono rg x y u : incl_bits x y -> satisfied rg x u -> satisfied rg y u.
Proof. apply sat_mono. Qed.

Lemma satisfied_ext rg rg' x u : reg rg' u = reg rg u -> satisfied rg' x u <-> satisfied rg x u.
Proof. unfold satisfied. by intros ->. Qed.
Lemma answered_ext rg rg' u : reg rg' u = reg rg u -> answered rg' u <-> answered rg u.
Proof. unfold answered. by intros ->. Qed.

Lemma phase_ok_mono s s' l :
  ef_mutex s' = ef_mutex s -> phase s' = phase s -> ef_protocol s' = ef_protocol s -> ef_cpus s' = ef_cpus s ->
  (forall u, u ∈ l \/ ef_mutex s = Some u -> reg (ef_regs s') u = reg (ef_regs s) u) ->
  incl_bits (ef_pattern s') (ef_pattern s) -> phase_ok s l -> phase_ok s' l.
Proof.
  intros Em Ep Eo Ec Er I. unfold phase_ok. rewrite Ep, Em, Eo, Ec.
  assert (Hs : forall u, u ∈ l \/ ef_mutex s = Some u ->
    satisfied (ef_regs s') (ef_pattern s') u -> satisfied (ef_regs s) (ef_pattern s) u).
  { intros u Hu. rewrite (satisfied_ext (ef_regs s)) by auto. by apply satisfied_mono. }
  assert (Ha : forall u, u ∈ l -> answered (ef_regs s') u <-> answered (ef_regs s) u).
  { intros u Hu. apply answered_ext. auto. }
  destruct (phase s);
    try (intros H u Hu; specialize (H u Hu); rewrite Ha by done; specialize (Hs u ltac:(auto)); tauto).
  - intros [H H']. split.
    + intros u Hu. specialize (H u Hu). rewrite Ha by done. specialize (Hs u ltac:(auto)). tauto.
    + intros t Ht S. apply (H' t Ht). apply Hs; auto.
  - intros (Ha' & A & don & rest & B). split_and!; [done|by eapply incl_bits_trans|]. exists don, rest.
    eapply attempt_ext, B; [done|]. intros u Hu. auto.
Qed.

(** A step that leaves the queue, the mutex and the other threads' registers
    alone and may clear bits of the pattern. *)
Lemma finv_own s l t p rg v sg e :
  finv s l -> fholds (fpc s t) = false -> fholds p = false -> is_Some (ef_cpus s !! t) ->
  (forall u, u <> t -> reg rg u = reg (ef_regs s) u) -> (t ∈ l -> reg rg t = reg (ef_regs s) t) ->
  in_uint 64 v -> incl_bits v (ef_pattern s) -> (forall u, u <> t -> u ∈ sg <-> u ∈ ef_signal s) ->
  fpoint_ok p (FLocal (bool_decide (t ∈ l)) (bool_decide (t ∈ sg)) false (is_again (ef_cpus s) t)) = true ->
  fargs_ok p (reg rg t) ->
  (fwaits p = true -> reg rg t = reg (ef_regs s) t /\ fwaits (fpc s t) = true) ->
  (f_in_idm p = true -> e = true) ->
  (e = false -> l = [] /\ forall u, u <> t -> f_in_idm (fpc s u) = false) ->
  finv (fgo t p (f_signal sg (f_regs rg (f_pattern v (f_exists e s))))) l.
Proof.
  intros I Hh Hp Ht Hr Hl Hv Iv Hs Lt At Wt Di De.
  assert (N : ef_mutex s <> Some t) by (rewrite (fmutex _ _ _ I); congruence).
  assert (Hm : forall u, u ∈ l \/ ef_mutex s = Some u -> reg rg u = reg (ef_regs s) u).
  { intros u Hu. destruct (decide (u = t)) as [->|]; [|auto]. destruct Hu; [auto|congruence]. }
  split; try apply I; try done; cbn [ef_cpus ef_regs ef_signal ef_pattern ef_mutex ef_exists ef_protocol ef_sq fgo f_signal f_regs f_pattern f_exists].
  - intros u. rewrite fpc_go. destruct (decide (u = t)) as [->|]; [done|apply (fi_alive _ _ I)].
  - intros u. rewrite fpc_go. destruct (decide (u = t)) as [->|Nu].
    + rewrite <- Lt. f_equal. unfold flocal_of. cbn. f_equal. by apply bool_decide_eq_false_2.
    + rewrite <- (fi_local _ _ I u). unfold flocal_of. cbn. f_equal. f_equal. apply bool_decide_ext. auto.
  - intros u. rewrite fpc_go. destruct (decide (u = t)) as [->|Nu]; [done|]. rewrite Hr by done. apply (fi_args _ _ I).
  - intros u Hu. rewrite Hm by auto. by apply (fi_want _ _ I).
  - intros u. rewrite fpc_go. destruct (decide (u = t)) as [->|Nu].
    + intros Hu. assert (E : reg rg t = reg (ef_regs s) t) by (destruct Hu as [Hu|Hu]; [auto|by apply Wt]).
      rewrite answered_ext, satisfied_ext, E by done. apply (fi_seen _ _ I).
      destruct Hu as [Hu|Hu]; [by left|right; by apply Wt].
    + rewrite answered_ext, satisfied_ext, Hr by auto. apply (fi_seen _ _ I).
  - intros u. rewrite fpc_go. destruct (decide (u = t)) as [->|Nu].
    + intros Hw. destruct (Wt Hw) as [-> Hw']. by apply (fi_result _ _ I).
    + rewrite Hr by done. apply (fi_result _ _ I).
  - eapply (phase_ok_mono s); try done; [|apply I]. exact (phase_go _ t p N).
  - intros E. destruct (De E) as [A B]. split; [done|]. intros u. rewrite fpc_go.
    destruct (decide (u = t)) as [->|Nu]; [|by apply B]. destruct (f_in_idm p); [|done]. rewrite Di in E; done.
Qed.

(** The thread changes its point only. *)
Lemma finv_pc s l t p :
  finv s l -> fholds (fpc s t) = false -> fholds p = false -> is_Some (ef_cpus s !! t) ->
  fpoint_ok p (flocal_of s l t) = true -> fargs_ok p (reg (ef_regs s) t) ->
  (fwaits p = true -> fwaits (fpc s t) = true) -> (f_in_idm p = true -> ef_exists s = true) ->
  finv (fgo t p s) l.
Proof.
  intros I Hh Hp Ht Lt At Wt Di.
  assert (N : ef_mutex s <> Some t) by (rewrite (fmutex _ _ _ I); congruence).
  refine (finv_own s l t p (ef_regs s) (ef_pattern s) (ef_signal s) (ef_exists s) I Hh Hp Ht _ _ _ _ _ _ _ _ Di _); try done.
  - apply I.
  - apply incl_bits_refl.
  - rewrite <- Lt. unfold flocal_of. f_equal. f_equal. symmetry. by apply bool_decide_eq_false_2.
  - auto.
  - intros E. destruct (fi_destroyed _ _ I E). auto.
Qed.

(** ** Steps outside the critical sections *)

Lemma f_can_call_spec t s : f_can_call t s = true -> fpc s t = FIdle /\ is_Some (ef_cpus s !! t) /\ t <> 0.
Proof.
  unfold f_can_call. destruct (ef_cpus s !! t); [|done]. destruct (fpc s t); try done.
  intros [_ H]%andb_true_iff. apply negb_true_iff, Z.eqb_neq in H. eauto.
Qed.

Lemma flocal_here s l t : finv s l -> fholds (fpc s t) = false ->
  flocal_of s l t = FLocal (bool_decide (t ∈ l)) (bool_decide (t ∈ ef_signal s)) false (is_again (ef_cpus s) t).
Proof.
  intros I H. unfold flocal_of. f_equal. apply bool_decide_eq_false_2. rewrite (fmutex _ _ _ I). congruence.
Qed.

(** A call that returns at once. *)
Lemma finv_return s l t c v w p :
  finv s l -> f_can_call t s = true -> in_uint 64 w -> incl_bits w (ef_pattern s) ->
  p = FReturned c v \/ (p = FsLoad c /\ in_uint 64 c) \/ p = FcLock ->
  finv (fgo t p (f_pattern w s)) l.
Proof.
  intros I C Hw Iw Hp. destruct (f_can_call_spec t s C) as (P & Ht & _). pose proof (fi_local _ _ I t) as L.
  assert (Hh : fholds (fpc s t) = false) by (by rewrite P). rewrite flocal_here, P in L by done.
  refine (finv_own s l t p (ef_regs s) w (ef_signal s) (ef_exists s) I Hh _ Ht _ _ Hw Iw _ _ _ _ _ _); try done.
  - destruct Hp as [->|[[-> _]| ->]]; done.
  - destruct Hp as [->|[[-> _]| ->]]; cbn in *; by destruct (bool_decide (t ∈ l)), (bool_decide (t ∈ ef_signal s)).
  - destruct Hp as [->|[[-> Hc]| ->]]; done.
  - destruct Hp as [->|[[-> _]| ->]]; done.
  - destruct Hp as [->|[[-> _]| ->]]; done.
  - intros E. destruct (fi_destroyed _ _ I E). auto.
Qed.

Lemma pattern_same s : f_pattern (ef_pattern s) s = s.
Proof. by destruct s. Qed.

Lemma finv_return_same s l t c v p :
  finv s l -> f_can_call t s = true -> p = FReturned c v \/ (p = FsLoad c /\ in_uint 64 c) \/ p = FcLock ->
  finv (fgo t p s) l.
Proof.
  intros I C Hp. rewrite <- (pattern_same s). eapply finv_return; [done..|apply I|apply incl_bits_refl|done].
Qed.

Lemma check_mode_sat m : check_mode m = true ->
  Z.land m 0xf = SYS_EVENT_FLAG_WAIT_AND \/ Z.land m 0xf = SYS_EVENT_FLAG_WAIT_OR.
Proof. unfold check_mode. rewrite andb_true_iff, orb_true_iff, !Z.eqb_eq. tauto. Qed.

Lemma finv_fw_call s l t b m to :
  finv s l -> f_can_call t s = true -> in_uint 64 b -> finv (fw_call t b m to s) l.
Proof.
  intros I C Hb. destruct (f_can_call_spec t s C) as (P & Ht & _). pose proof (fi_local _ _ I t) as L.
  assert (Hh : fholds (fpc s t) = false) by (by rewrite P). rewrite flocal_here, P in L by done.
  assert (Nl : t ∉ l) by (destruct (decide (t ∈ l)) as [H|H]; [by rewrite bool_decide_eq_true_2 in L|done]).
  unfold fw_call. set (rg := upd _ t _).
  assert (Hr : forall p, p = FwReturned CELL_EINVAL 0 \/ p = FwReturned CELL_ESRCH 0 \/
      (p = FwTry b m to /\ ef_exists s = true) -> finv (fgo t p (f_regs rg s)) l).
  { intros p Hp.
    refine (finv_own s l t p rg (ef_pattern s) (ef_signal s) (ef_exists s) I Hh _ Ht _ _ (fi_pat _ _ I) (incl_bits_refl _) _ _ _ _ _ _).
    - destruct Hp as [->|[->|[-> _]]]; done.
    - intros u Nu. unfold rg. by rewrite reg_upd_ne.
    - done.
    - done.
    - cbn in L. destruct Hp as [->|[->|[-> _]]]; cbn;
        by destruct (bool_decide (t ∈ l)), (bool_decide (t ∈ ef_signal s)), (is_again (ef_cpus s) t).
    - unfold rg. rewrite reg_upd_here. destruct Hp as [->|[->|[-> _]]]; done.
    - destruct Hp as [->|[->|[-> _]]]; done.
    - destruct Hp as [->|[->|[-> He]]]; done.
    - intros E. destruct (fi_destroyed _ _ I E). auto. }
  destruct (check_mode m); cbn [negb]; [|by apply Hr; auto].
  destruct (ef_exists s) eqn:Ex; apply Hr; auto.
Qed.

(** The [fetch_op] of [wait]. *)
Lemma finv_fetch s l t b m to p :
  finv s l -> fpc s t = FwTry b m to \/ fpc s t = FwLock b m to ->
  p = FwReturned CELL_OK (ef_pattern s) /\ sat (ef_pattern s) b m = true \/
  sat (ef_pattern s) b m = false /\ (p = FwLock b m to \/ p = FwReturned CELL_EPERM 0) ->
  finv (fgo t p (snd (fw_fetch t b m s))) l.
Proof.
  intros I P Hp. unfold fw_fetch. rewrite check_pattern_eq. cbn [snd].
  assert (Hh : fholds (fpc s t) = false) by (by destruct P as [-> | ->]).
  assert (Ht : is_Some (ef_cpus s !! t)) by (apply (fi_alive _ _ I); by destruct P as [-> | ->]).
  pose proof (fi_local _ _ I t) as L. rewrite flocal_here in L by done. pose proof (fi_args _ _ I t) as A.
  assert (A' : gpr4 (reg (ef_regs s) t) = b /\ gpr5 (reg (ef_regs s) t) = m /\ in_uint 64 b /\ gpr3 (reg (ef_regs s) t) <> CELL_OK)
    by (by destruct P as [P|P]; rewrite P in A). destruct A' as (A4 & A5 & Ab & A3).
  assert (L' : bool_decide (t ∈ l) = false /\ bool_decide (t ∈ ef_signal s) = false /\ is_again (ef_cpus s) t = false).
  { destruct P as [P|P]; rewrite P in L; cbn in L;
      by destruct (bool_decide (t ∈ l)), (bool_decide (t ∈ ef_signal s)), (is_again (ef_cpus s) t). }
  destruct L' as (L1 & L2 & L3).
  refine (finv_own s l t p (upd (set6 (ef_pattern s)) t (ef_regs s)) (leave (ef_pattern s) b m) (ef_signal s)
            (ef_exists s) I Hh _ Ht _ _ _ (leave_incl _ _ _) _ _ _ _ _ _).
  - destruct Hp as [[-> _]|[_ [-> | ->]]]; done.
  - intros u Nu. by rewrite reg_upd_ne.
  - intros F. by rewrite bool_decide_eq_true_2 in L1.
  - apply leave_range, I.
  - done.
  - rewrite L1, L2, L3. destruct Hp as [[-> _]|[_ [-> | ->]]]; done.
  - rewrite reg_upd_here. destruct Hp as [[-> Hs]|[_ [-> | ->]]]; cbn; rewrite ?A4, ?A5; done.
  - destruct Hp as [[-> _]|[_ [-> | ->]]]; done.
  - intros _. destruct (ef_exists s) eqn:Ex; [done|]. destruct (fi_destroyed _ _ I Ex) as [_ B]. specialize (B t).
    by destruct P as [P|P]; rewrite P in B.
  - intros E. destruct (fi_destroyed _ _ I E). auto.
Qed.

(** The end of a wait. *)
Lemma finv_end s l t sg :
  finv s l -> fwaits (fpc s t) = true -> (t ∉ l) -> (forall u, u <> t -> u ∈ sg <-> u ∈ ef_signal s) ->
  finv (fw_end t (f_signal sg s)) l.
Proof.
  intros I W Nl Hs. assert (Hh : fholds (fpc s t) = false) by (by destruct (fpc s t)).
  assert (Ht : is_Some (ef_cpus s !! t)) by (apply (fi_alive _ _ I); by destruct (fpc s t)).
  pose proof (fi_local _ _ I t) as L. rewrite flocal_here in L by done.
  unfold fw_end. cbv zeta.
  refine (finv_own s l t _ (ef_regs s) (ef_pattern s) sg (ef_exists s) I Hh _ Ht _ _ (fi_pat _ _ I) (incl_bits_refl _) Hs _ _ _ _ _); try done.
  - rewrite (bool_decide_eq_false_2 (t ∈ l)) in * by done. destruct (is_again (ef_cpus s) t); [|done].
    destruct (fpc s t); try done; cbn in L; by destruct (bool_decide (t ∈ ef_signal s)).
  - cbn. split; [|intros E; by apply (fi_seen _ _ I); [right|]].
    destruct (fi_result _ _ I t W Nl) as [-> | ->]; done.
  - intros E. destruct (fi_destroyed _ _ I E). auto.
Qed.

(** ** Critical sections *)

(** A thread of the queue sleeps, or was stopped. *)
Lemma queued_point s l u : finv s l -> u ∈ l ->
  (fwaits (fpc s u) = true \/ fpc s u = FwStopped) /\ (forall r, fargs_ok (fpc s u) r) /\ f_in_idm (fpc s u) = false.
Proof.
  intros I Hu. pose proof (fi_local _ _ I u) as L. unfold flocal_of in L. rewrite bool_decide_eq_true_2 in L by done.
  destruct (fpc s u); cbn in *; try done; rewrite ?orb_true_r, ?andb_false_r in L; try discriminate L; split_and!; auto.
Qed.

Lemma free_phase s l : finv s l -> ef_mutex s = None ->
  forall u, u ∈ l -> ~ answered (ef_regs s) u /\ ~ satisfied (ef_regs s) (ef_pattern s) u.
Proof. intros I M. pose proof (fi_phase _ _ I) as H. unfold phase_ok, phase in H. by rewrite M in H. Qed.

Lemma f_unlocked_none s : f_unlocked s = true -> ef_mutex s = None.
Proof. unfold f_unlocked. by destruct (ef_mutex s). Qed.

(** The thread takes or keeps the mutex; the registers of the waiters may
    change, but not what they wait for. *)
Lemma finv_hold s l t p rg v :
  finv s l -> ef_mutex s = None \/ ef_mutex s = Some t -> fholds p = true -> is_Some (ef_cpus s !! t) ->
  (t ∉ l) -> (t ∉ ef_signal s) -> is_again (ef_cpus s) t = false ->
  (forall u, u ∉ l -> u <> t -> reg rg u = reg (ef_regs s) u) -> (forall u, u ∈ l -> wanted rg u = wanted (ef_regs s) u) ->
  (forall u, u ∈ l -> answered rg u -> satisfied rg (gpr6 (reg rg u)) u) ->
  in_uint 64 v -> fargs_ok p (reg rg t) -> (f_in_idm p = true -> ef_exists s = true) ->
  phase_ok (fgo t p (f_mutex (Some t) (f_pattern v (f_regs rg s)))) l ->
  finv (fgo t p (f_mutex (Some t) (f_pattern v (f_regs rg s)))) l.
Proof.
  intros I M Hp Ht Nl Ns Na Hr Hw Hs Hv At Di Ph.
  assert (Oth : forall u, u <> t -> ef_mutex s <> Some u) by (intros u Nu E; destruct M; congruence).
  split; try apply I; try done; cbn [ef_cpus ef_regs ef_signal ef_pattern ef_mutex ef_exists ef_protocol ef_sq fgo f_mutex f_regs f_pattern].
  - intros u. rewrite fpc_go. destruct (decide (u = t)) as [->|]; [done|apply (fi_alive _ _ I)].
  - intros u. rewrite fpc_go. destruct (decide (u = t)) as [->|Nu].
    + unfold flocal_of. cbn. rewrite Na, (bool_decide_eq_false_2 (t ∈ l)), (bool_decide_eq_false_2 (t ∈ ef_signal s)),
        (bool_decide_eq_true_2 (Some t = Some t)) by done. by destruct p.
    + rewrite <- (fi_local _ _ I u). unfold flocal_of. cbn. f_equal. f_equal. apply bool_decide_ext.
      split; intros E; [congruence|by apply Oth in E].
  - intros u. rewrite fpc_go. destruct (decide (u = t)) as [->|Nu]; [done|]. destruct (decide (u ∈ l)) as [Hu|Hu].
    + by apply (queued_point s l u I Hu).
    + rewrite Hr by done. apply (fi_args _ _ I).
  - intros u Hu. pose proof (f_equal fst (Hw u Hu)) as E. cbn in E. rewrite E. by apply (fi_want _ _ I).
  - intros u. rewrite fpc_go. destruct (decide (u = t)) as [->|Nu].
    { intros [Hu|Hu]; [done|]. by destruct p. }
    destruct (decide (u ∈ l)) as [Hu|Hu]; [auto|]. rewrite answered_ext, satisfied_ext, Hr by auto. apply (fi_seen _ _ I).
  - intros u. rewrite fpc_go. destruct (decide (u = t)) as [->|Nu]; [by destruct p|].
    intros W Hu. rewrite Hr by done. by apply (fi_result _ _ I).
  - intros E. destruct (fi_destroyed _ _ I E) as [A B]. split; [done|]. intros u. rewrite fpc_go.
    destruct (decide (u = t)) as [->|Nu]; [|by apply B]. destruct (f_in_idm p); [|done]. rewrite Di in E; done.
Qed.

Lemma finv_fw_lock s l t b m to :
  finv s l -> fpc s t = FwLock b m to -> f_unlocked s = true -> finv (fw_lock t b m to s) l.
Proof.
  intros I P M%f_unlocked_none. unfold fw_lock.
  pose proof (finv_fetch s l t b m to) as F. unfold fw_fetch in *. rewrite check_pattern_eq in *. cbn [snd] in F.
  destruct (sat (ef_pattern s) b m) eqn:S.
  { cbn [ef_regs f_pattern f_regs]. rewrite reg_upd_here. apply F; auto. }
  destruct ((_ =? _) && _) eqn:T; [apply F; auto|]. clear F T.
  rewrite leave_unsat by done. pose proof (fi_local _ _ I t) as L. rewrite flocal_here, P in L by (done || by rewrite P).
  pose proof (fi_args _ _ I t) as A. rewrite P in A. destruct A as (A4 & A5 & Ab & A3).
  cbn in L. destruct (decide (t ∈ l)) as [Hl|Hl]; [by rewrite bool_decide_eq_true_2 in L|].
  destruct (decide (t ∈ ef_signal s)) as [Hs|Hs]; [by rewrite (bool_decide_eq_true_2 (t ∈ ef_signal s)), !orb_true_r in L|].
  assert (Ex : ef_exists s = true).
  { destruct (ef_exists s) eqn:Ex; [done|]. destruct (fi_destroyed _ _ I Ex) as [_ B]. specialize (B t). by rewrite P in B. }
  assert (Hu : forall u, u ∈ l -> u <> t) by (intros u Hu ->; done).
  apply (finv_hold s l t (FwEnq to) (upd (set6 (ef_pattern s)) t (ef_regs s)) (ef_pattern s)); auto; try done.
  - apply (fi_alive _ _ I). by rewrite P.
  - by destruct (is_again (ef_cpus s) t); rewrite ?orb_true_r in L.
  - intros u _ Nu. by rewrite reg_upd_ne.
  - intros u Hul. unfold wanted. by rewrite reg_upd_ne by auto.
  - intros u Hul Ha. rewrite answered_ext in Ha by (by apply reg_upd_ne; auto).
    by destruct (free_phase s l I M u Hul).
  - apply I.
  - rewrite reg_upd_here. cbn. by rewrite A4.
  - unfold phase_ok, phase. cbn [ef_mutex fgo f_mutex]. rewrite fpc_here. split.
    + intros u Hul. cbn [ef_regs ef_pattern fgo f_mutex f_pattern f_regs].
      rewrite answered_ext, satisfied_ext by (by apply reg_upd_ne; auto). by apply (free_phase s l).
    + intros u [= <-]. unfold satisfied. cbn [ef_regs ef_pattern fgo f_mutex f_pattern f_regs].
      rewrite reg_upd_here. cbn. rewrite A4, A5, S. done.
Qed.

(** The end of a critical section: the queue may lose the threads [ws], which
    are signalled, and gain or lose the thread that ends it. *)
Lemma finv_free s (l : list Z) s' (l' : list Z) t p (ws : list Z) :
  finv s l -> ef_mutex s = None \/ ef_mutex s = Some t -> ef_mutex s' = None ->
  ef_protocol s' = ef_protocol s -> ef_exists s' = ef_exists s ->
  (forall u, fpc s' u = if decide (u = t) then p else fpc s u) -> fholds p = false -> f_in_idm p = false ->
  is_Some (ef_cpus s !! t) -> (forall u, is_Some (ef_cpus s' !! u) <-> is_Some (ef_cpus s !! u)) ->
  (forall u, prio (prio_of (ef_cpus s') u) = prio (prio_of (ef_cpus s) u)) ->
  (forall u, u <> t -> is_again (ef_cpus s') u = is_again (ef_cpus s) u) ->
  queue (ef_cpus s') (ef_sq s') l' -> in_uint 64 (ef_pattern s') ->
  (forall u, u ∈ ws -> u ∈ l /\ u <> t /\ is_again (ef_cpus s) u = false) ->
  (forall u, u <> t -> u ∈ l' <-> u ∈ l /\ u ∉ ws) -> (forall u, u <> t -> u ∈ ef_signal s' <-> u ∈ ef_signal s \/ u ∈ ws) ->
  (forall u, u ∉ l -> u <> t -> reg (ef_regs s') u = reg (ef_regs s) u) ->
  (forall u, u ∈ l -> wanted (ef_regs s') u = wanted (ef_regs s) u) ->
  (forall u, u ∈ ws -> gpr3 (reg (ef_regs s') u) = CELL_ECANCELED \/
     (answered (ef_regs s') u /\ satisfied (ef_regs s') (gpr6 (reg (ef_regs s') u)) u)) ->
  (forall u, u ∈ l' -> ~ answered (ef_regs s') u /\ ~ satisfied (ef_regs s') (ef_pattern s') u) ->
  fpoint_ok p (flocal_of s' l' t) = true -> fargs_ok p (reg (ef_regs s') t) ->
  (fwaits p = true -> t ∈ l') -> (t ∈ l' -> in_uint 64 (gpr4 (reg (ef_regs s') t))) ->
  (ef_exists s = false -> t ∉ l') ->
  finv s' l'.
Proof.
  intros I M M' Ep Ee Pc Hp Di Ht Dm Pr Ag Q Pa Ws Ql Sg Rn Rw Rs Un Lt At Wt Wl De.
  assert (Lk : forall u, u <> t -> ef_mutex s <> Some u) by (intros u Nu E; destruct M; congruence).
  assert (Hin : forall u, u <> t -> fpoint_ok (fpc s u) (flocal_of s' l' u) = true).
  { intros u Nu. pose proof (fi_local _ _ I u) as L. unfold flocal_of in *. rewrite (Ag u Nu), M'.
    rewrite (bool_decide_eq_false_2 (ef_mutex s = Some u)) in L by auto. rewrite (bool_decide_eq_false_2 (None = Some u)) by done.
    destruct (decide (u ∈ ws)) as [Hw|Hw].
    - destruct (Ws u Hw) as (Hl & _ & Ha). rewrite Ha in *. destruct (queued_point _ _ _ I Hl) as [P _].
      rewrite (bool_decide_eq_true_2 (u ∈ l)) in L by done. rewrite (bool_decide_eq_false_2 (u ∈ l')) by (rewrite Ql by done; tauto).
      rewrite (bool_decide_eq_true_2 (u ∈ ef_signal s')) by (apply Sg; auto). by destruct (fpc s u); destruct P.
    - rewrite <- L. f_equal. f_equal; apply bool_decide_ext; [rewrite Ql by done|rewrite Sg by done]; tauto. }
  split; try done.
  - by rewrite Ep; apply I.
  - intros u. rewrite Pr. apply I.
  - apply eq_None_not_Some. rewrite Dm. rewrite (fi_zero _ _ I). by intros [? [=]].
  - intros u. rewrite Pc, Dm. destruct (decide (u = t)) as [->|]; [done|apply (fi_alive _ _ I)].
  - intros u. rewrite Pc. destruct (decide (u = t)) as [->|Nu]; [done|auto].
  - intros u. rewrite Pc. destruct (decide (u = t)) as [->|Nu]; [done|]. destruct (decide (u ∈ l)) as [Hu|Hu].
    + by apply (queued_point s l u I Hu).
    + rewrite Rn by done. apply (fi_args _ _ I).
  - intros u Hu. destruct (decide (u = t)) as [->|Nu]; [auto|]. apply Ql in Hu as [Hu _]; [|done].
    pose proof (f_equal fst (Rw u Hu)) as E. cbn in E. rewrite E. by apply (fi_want _ _ I).
  - intros u Hu Ha. destruct (decide (u ∈ l')) as [Hl|Hl]; [by destruct (Un u Hl)|].
    destruct Hu as [Hu|Hu]; [done|]. rewrite Pc in Hu. destruct (decide (u = t)) as [->|Nu]; [by apply Wt in Hu|].
    destruct (decide (u ∈ l)) as [Hul|Hul].
    + assert (Hw : u ∈ ws) by (destruct (decide (u ∈ ws)); [done|]; destruct Hl; by apply Ql).
      destruct (Rs u Hw) as [E|[_ ?]]; [|done]. unfold answered in Ha. by rewrite Ha in E.
    + rewrite satisfied_ext, Rn by auto. apply (fi_seen _ _ I); [by right|]. by rewrite answered_ext in Ha by (by apply Rn).
  - intros u. rewrite Pc. destruct (decide (u = t)) as [->|Nu]; [by intros W%Wt ?|]. intros W Hl.
    destruct (decide (u ∈ l)) as [Hul|Hul].
    + assert (Hw : u ∈ ws) by (destruct (decide (u ∈ ws)); [done|]; destruct Hl; by apply Ql).
      destruct (Rs u Hw) as [E|[? _]]; auto.
    + rewrite Rn by done. by apply (fi_result _ _ I).
  - unfold phase_ok, phase. by rewrite M'.
  - rewrite Ee. intros E. destruct (fi_destroyed _ _ I E) as [A B]. split.
    + apply elem_of_nil_inv. intros u Hu. destruct (decide (u = t)) as [->|Nu]; [by apply De in Hu|].
      apply Ql in Hu as [Hu _]; [|done]. rewrite A in Hu. set_solver.
    + intros u. rewrite Pc. destruct (decide (u = t)); [done|apply B].
Qed.

Lemma holder s l t : finv s l -> fholds (fpc s t) = true ->
  ef_mutex s = Some t /\ (t ∉ l) /\ (t ∉ ef_signal s) /\ is_again (ef_cpus s) t = false /\ is_Some (ef_cpus s !! t) /\ phase s = fpc s t.
Proof.
  intros I H. pose proof (proj2 (fmutex _ _ t I) H) as M. pose proof (fi_local _ _ I t) as L.
  assert (Ht : is_Some (ef_cpus s !! t)) by (apply (fi_alive _ _ I); by destruct (fpc s t)).
  unfold phase. rewrite M. unfold flocal_of in L.
  destruct (decide (t ∈ l)); [rewrite (bool_decide_eq_true_2 (t ∈ l)) in L by done; by destruct (fpc s t)|].
  destruct (decide (t ∈ ef_signal s)).
  { rewrite (bool_decide_eq_true_2 (t ∈ ef_signal s)) in L by done. destruct (fpc s t); try done; cbn in L; by rewrite orb_true_r in L. }
  split_and!; try done. destruct (is_again _ _); [|done]. destruct (fpc s t); try done; cbn in L; by rewrite !orb_true_r in L.
Qed.

Lemma prio_of_alter_again h t u : prio_of (alter set_again t h) u = prio_of h u.
Proof.
  unfold prio_of. destruct (decide (u = t)) as [->|]; [|by rewrite lookup_alter_ne].
  rewrite lookup_alter_eq. by destruct (h !! t).
Qed.

Lemma finv_fw_enq s l t to : finv s l -> fpc s t = FwEnq to -> finv (fw_enq t to s) (t :: l).
Proof.
  intros I P. destruct (holder s l t I) as (M & Nl & Ns & Na & [c Hc] & Ph); [by rewrite P|].
  assert (Nz : t <> 0) by (intros ->; by rewrite (fi_zero _ _ I) in Hc).
  destruct (emplace_spec (ef_tag s) (ef_cpus s) (ef_sq s) l t c (fi_queue _ _ I) Nl Nz Hc) as (h & E & Q & Ht & Ho).
  pose proof (fi_phase _ _ I) as F. unfold phase_ok in F. rewrite Ph, P in F. destruct F as [F1 F2].
  pose proof (fi_args _ _ I t) as A. rewrite P in A. destruct A as [A4 A3].
  unfold fw_enq. destruct (emplace _ _ _ _) as [[tg fi] h0]. injection E as -> -> ->.
  assert (Hp : forall u, prio (prio_of h u) = prio (prio_of (ef_cpus s) u) /\ is_again h u = is_again (ef_cpus s) u /\
                         (is_Some (h !! u) <-> is_Some (ef_cpus s !! u))).
  { intros u. unfold prio_of, is_again. destruct (decide (u = t)) as [->|]; [|by rewrite Ho].
    rewrite Ht, Hc. cbn. split_and!; [by unfold enqueue_prio; destruct (preserve_bit _)|done|]. by split; eauto. }
  apply (finv_free s l _ _ t (FwSleep to) []); cbn; try done; try apply Hp; auto; try apply I.
  - intros u. by rewrite fpc_go.
  - intros u _. apply Hp.
  - set_solver.
  - set_solver.
  - set_solver.
  - set_solver.
  - intros u [->|Hu]%elem_of_cons; [|by apply F1]. split; [done|by apply F2].
  - rewrite (proj1 (proj2 (Hp t))), Na, (bool_decide_eq_false_2 (None = Some t)) by done. rewrite (bool_decide_eq_true_2 (t ∈ t :: l)) by set_solver.
    by rewrite (bool_decide_eq_false_2 (t ∈ ef_signal s)).
  - set_solver.
  - intros Ex. destruct (fi_destroyed _ _ I Ex) as [_ B]. specialize (B t). by rewrite P in B.
Qed.

Lemma finv_stop s l t :
  finv s l -> ef_mutex s = None -> t ∈ l -> is_again (ef_cpus s) t = false -> finv (fgo t FwStopped (f_stop t s)) l.
Proof.
  intros I M Hl Na. destruct (queue_in _ _ _ t (fi_queue _ _ I) Hl) as [_ Ht].
  destruct (queued_point _ _ _ I Hl) as [P _]. pose proof (fi_local _ _ I t) as L.
  apply (finv_free s l _ l t FwStopped []); cbn; try done; auto; try apply I.
  - intros u. by rewrite fpc_go.
  - intros u. apply set_again_dom.
  - intros u. by rewrite prio_of_alter_again.
  - intros u Nu. rewrite set_again_is. by rewrite decide_False.
  - apply set_again_queue, I.
  - set_solver.
  - set_solver.
  - set_solver.
  - set_solver.
  - by apply (free_phase s l).
  - unfold flocal_of in *. cbn. rewrite M in *. rewrite (bool_decide_eq_true_2 (t ∈ l)) in * by done. rewrite set_again_is, decide_True by done.
    rewrite (bool_decide_eq_true_2 (is_Some (ef_cpus s !! t))) by done. cbn.
    destruct P as [P|P]; destruct (fpc s t); try done; cbn in L; rewrite Na in L; by destruct (bool_decide (t ∈ ef_signal s)).
  - intros Ex. destruct (fi_destroyed _ _ I Ex) as [-> _]. set_solver.
Qed.

(** A caller stops because a waiter was stopped. *)
Lemma finv_stop_caller s l t :
  finv s l -> ef_mutex s = None -> fpoint_ok (FsLoad 0) (flocal_of s l t) = true -> is_Some (ef_cpus s !! t) ->
  finv (fgo t FStopped (f_stop t s)) l.
Proof.
  intros I M L Ht. unfold flocal_of in L. cbn in L.
  destruct (decide (t ∈ l)) as [|Nl]; [by rewrite bool_decide_eq_true_2 in L|].
  apply (finv_free s l _ l t FStopped []); cbn; try done; auto; try apply I.
  - intros u. by rewrite fpc_go.
  - intros u. apply set_again_dom.
  - intros u. by rewrite prio_of_alter_again.
  - intros u Nu. rewrite set_again_is. by rewrite decide_False.
  - apply set_again_queue, I.
  - set_solver.
  - set_solver.
  - set_solver.
  - set_solver.
  - by apply (free_phase s l).
  - unfold flocal_of in *. cbn. rewrite M in *. rewrite set_again_is, decide_True by done.
    rewrite (bool_decide_eq_true_2 (is_Some (ef_cpus s !! t))) by done. cbn.
    by destruct (bool_decide (t ∈ l)), (bool_decide (t ∈ ef_signal s)).
Qed.

Lemma end_same s t : fw_end t s = fw_end t (f_signal (ef_signal s) s).
Proof. by destruct s. Qed.

Lemma finv_fw_unqueue s l t s' :
  finv s l -> fpc s t = FwTimeoutLock -> f_unlocked s = true -> fw_unqueue t s = Some s' ->
  exists l', finv s' l'.
Proof.
  intros I P M%f_unlocked_none E.
  assert (Ht : is_Some (ef_cpus s !! t)) by (apply (fi_alive _ _ I); by rewrite P).
  assert (Nz : t <> 0) by (intros ->; rewrite (fi_zero _ _ I) in Ht; by destruct Ht).
  destruct (unqueue_spec true _ _ _ t (fi_queue _ _ I) Nz) as (f & h & Eu & Q & Sc & F).
  pose proof (fi_local _ _ I t) as L. rewrite flocal_here, P in L by (done || by rewrite P). cbn in L.
  unfold fw_unqueue in E. rewrite Eu in E. cbn [mbind option_bind] in E. injection E as <-.
  destruct (decide (t ∈ l)) as [Hl|Hl].
  - destruct (Z.eqb_spec t 0); [done|]. exists (qremove t l). unfold fw_end. cbv zeta.
    rewrite (bool_decide_eq_true_2 (t ∈ l)) in L by done.
    set (rg := upd _ t (ef_regs s)).
    assert (Hr : forall u, u <> t -> reg rg u = reg (ef_regs s) u) by (intros; by apply reg_upd_ne).
    assert (Nq : t ∉ qremove t l) by (rewrite elem_of_qremove; tauto).
    assert (Hq : forall u, u ∈ qremove t l -> u <> t /\ u ∈ l) by (intros u; rewrite elem_of_qremove; tauto).
    match goal with |- finv (fgo t ?p ?x) _ => apply (finv_free s l (fgo t p x) (qremove t l) t p []) end;
      cbn [ef_cpus ef_regs ef_signal ef_pattern ef_mutex ef_exists ef_protocol ef_sq fgo f_mutex f_regs f_pattern f_queue];
      try done; auto; try apply I.
    + intros u. by rewrite fpc_go.
    + intros u. by apply same_cpus_dom.
    + intros u. by rewrite (same_cpus_prio _ _ _ Sc).
    + intros u _. by apply same_cpus_again.
    + set_solver.
    + intros u Nu. rewrite elem_of_qremove. set_solver.
    + set_solver.
    + intros u Hu. unfold wanted. destruct (decide (u = t)) as [->|]; [unfold rg; by rewrite reg_upd_here|by rewrite Hr].
    + set_solver.
    + intros u [Nu Hu]%Hq. rewrite answered_ext, satisfied_ext by (by apply Hr). by apply (free_phase s l).
    + unfold flocal_of. cbn. rewrite (same_cpus_again _ _ _ Sc), M, (bool_decide_eq_false_2 (t ∈ qremove t l)) by done.
      rewrite (bool_decide_eq_false_2 (None = Some t)) by done. destruct (is_again _ _); [done|done].
    + unfold rg. rewrite reg_upd_here. done.
  - rewrite qremove_notin in Q by done. exists l. change (0 =? 0) with true. cbv iota. unfold fw_end. cbv zeta.
    match goal with |- finv (fgo t ?p ?x) _ => apply (finv_free s l (fgo t p x) l t p []) end;
      cbn [ef_cpus ef_regs ef_signal ef_pattern ef_mutex ef_exists ef_protocol ef_sq fgo f_mutex f_regs f_pattern f_queue];
      try done; auto; try apply I.
    + intros u. by rewrite fpc_go.
    + intros u. by apply same_cpus_dom.
    + intros u. by rewrite (same_cpus_prio _ _ _ Sc).
    + intros u _. by apply same_cpus_again.
    + set_solver.
    + set_solver.
    + set_solver.
    + set_solver.
    + by apply (free_phase s l).
    + unfold flocal_of. cbn. rewrite (same_cpus_again _ _ _ Sc), M, (bool_decide_eq_false_2 (t ∈ l)) in * by done.
      rewrite (bool_decide_eq_false_2 (None = Some t)) by done. by destruct (is_again _ _).
    + cbn. split; [|intros Ea; apply (fi_seen _ _ I); [right; by rewrite P|done]].
      destruct (fi_result _ _ I t) as [-> | ->]; [by rewrite P|done..].
Qed.

(** *** The attempts of [set] *)

Lemma reg_fold f l rg u : (forall r, f (f r) = f r) ->
  reg (fold_left (fun rg x => upd f x rg) l rg) u = if decide (u ∈ l) then f (reg rg u) else reg rg u.
Proof.
  intros Hf. revert rg. induction l as [|x l IH]; intros rg; [done|]. cbn. rewrite IH.
  destruct (decide (u = x)) as [->|].
  - rewrite reg_upd_here, Hf, (decide_True (P := x ∈ x :: l)) by set_solver. by destruct (decide (x ∈ l)).
  - rewrite reg_upd_ne by done. by destruct (decide (u ∈ l)), (decide (u ∈ x :: l)); set_solver.
Qed.

Lemma arrive_NoDup protocol p x l : x ∉ l -> NoDup l -> NoDup (arrive protocol p x l).
Proof.
  intros Nx N. unfold arrive. destruct (protocol =? SYS_SYNC_FIFO).
  - apply NoDup_app. split_and!; [done|set_solver|apply NoDup_singleton].
  - induction l as [|y l IH]; cbn; [apply NoDup_singleton|]. apply NoDup_cons in N as [Ny N].
    destruct (p y <=? p x); apply NoDup_cons; split; try (by apply NoDup_cons); try done; [|apply IH; set_solver].
    assert (A : y ∉ arrive SYS_SYNC_PRIORITY p x l) by (rewrite arrive_elem; set_solver). exact A.
Qed.

Lemma turn_order_NoDup protocol h l : NoDup l -> NoDup (turn_order protocol h l).
Proof.
  induction l as [|x l IH]; [done|]. intros [Nx N]%NoDup_cons. rewrite turn_order_cons.
  apply arrive_NoDup; [by rewrite turn_order_elem|auto].
Qed.

Lemma covered_strip b d wm : in_uint 64 d -> covered b d wm -> covered b (Z.land d (bnot 64 b)) wm.
Proof.
  intros Hd [H|H]; [by left|right]. rewrite incl_bits_spec in *. intros i Hi Hb. specialize (H i Hi Hb).
  rewrite !Z.lor_spec, Z.land_spec in *. unfold bnot. rewrite testbit_uint, Z.lnot_spec by lia.
  destruct (Z.testbit b i); [by rewrite orb_true_r|]. rewrite orb_false_r in H. rewrite H, orb_false_r. cbn.
  destruct (Z.ltb_spec i 64); [done|]. by rewrite (testbit_high 64 d i) in H by (done || lia).
Qed.

(** A mark left by an earlier attempt, on a waiter this one did not reach. *)
Definition fresh (rg : gmap Z regs) (l : list Z) : Prop :=
  forall u, u ∈ l -> gpr7 (reg rg u) = 0 -> ~ answered rg u.

Lemma served_attempt protocol h l b rg p rg' w d c don rest :
  NoDup l -> (forall u, u ∈ l -> gpr7 (reg rg u) = 0) -> in_uint 64 p -> (forall u, u ∈ l -> ~ satisfied rg p u) ->
  served protocol h l b rg (Z.lor p b) rg' w d c don rest -> rest = [] \/ (w = 0 /\ 0 < c) ->
  attempt protocol h rg' l b p w (Z.land d (bnot 64 b)) c don rest.
Proof.
  intros N H7 Hp Un S Se. destruct S as [So Sw Sm Sr Sc Sd Ss Sx Sq].
  assert (Hm : unmarked rg l = l).
  { unfold unmarked. clear -H7. induction l as [|x l IH]; [done|]. rewrite filter_cons_True by (apply H7; set_solver).
    f_equal. apply IH. set_solver. }
  rewrite Hm in So. assert (Ed : deliver (wanted rg') don (Z.lor p b) = deliver (wanted rg) don (Z.lor p b)).
  { apply deliver_ext. auto. }
  split; rewrite ?Ed; try done.
  - intros u Hu. rewrite Sq. by apply covered_strip, Sm.
  - intros u Hu. assert (Hl : u ∈ l) by (apply (turn_order_elem protocol h); rewrite So; set_solver).
    rewrite Sx; [by apply H7|]. intros Hd. pose proof (turn_order_NoDup protocol h l N) as D. rewrite So in D.
    apply NoDup_app in D as (_ & D & _). by apply (D u).
  - intros u Hu. pose proof (Sq u) as [=A B]. unfold satisfied. rewrite A, B. by apply Un.
Qed.

Lemma attempt_step s l t b :
  finv s l -> ef_mutex s = None \/ ef_mutex s = Some t -> (t ∉ l) -> (t ∉ ef_signal s) ->
  is_again (ef_cpus s) t = false -> is_Some (ef_cpus s !! t) -> in_uint 64 b ->
  (forall u, u ∈ l -> ~ satisfied (ef_regs s) (ef_pattern s) u) ->
  (forall u, u ∈ l -> is_again (ef_cpus s) u = false) ->
  exists s', fs_attempt t b (ef_pattern s) s = Some s' /\ finv s' l /\
    ((forall u, u ∈ l -> ~ answered (ef_regs s) u) -> fresh (ef_regs s') l) /\
    exists w d c, fpc s' t = FsTry b (ef_pattern s) w d c.
Proof.
  intros I M Nl Ns Na Ht Hb Un Nag. unfold fs_attempt. rewrite (walk_spec _ _ _ (fi_queue _ _ I)). cbn [mbind option_bind].
  destruct (fi_queue _ _ I) as [Sg N].
  set (rg := fold_left _ l (ef_regs s)).
  assert (Hr : forall u, reg rg u = if decide (u ∈ l) then set7 0 (reg (ef_regs s) u) else reg (ef_regs s) u)
    by (intros; by apply reg_fold).
  assert (H7 : forall u, u ∈ l -> gpr7 (reg rg u) = 0) by (intros u Hu; by rewrite Hr, decide_True).
  assert (Hw : forall u, wanted rg u = wanted (ef_regs s) u) by (intros u; unfold wanted; rewrite Hr; by destruct (decide _)).
  destruct (serve_loop_spec (S (length l)) (ef_protocol s) (ef_cpus s) l b rg (Z.lor (ef_pattern s) b) 0 0)
    as (rg' & w & d & c & don & rest & E & S & _ & En); try done.
  { apply I. }
  { intros u. pose proof (fi_prio _ _ I u) as [_ H]. change (2 ^ (13 - 1)) with 4096 in H. lia. }
  { intros H0. by destruct (seg_in _ _ _ _ _ Sg H0). }
  { intros u Hu. pose proof (f_equal fst (Hw u)) as A. cbn in A. rewrite A. by apply (fi_want _ _ I). }
  { pose proof (length_filter (fun t => gpr7 (reg rg t) = 0) l). unfold unmarked. lia. }
  rewrite E. cbn [mbind option_bind]. rewrite Z.add_0_l. eexists. split; [done|].
  assert (Ho : forall u, u ∉ l -> reg rg' u = reg (ef_regs s) u).
  { intros u Hu. rewrite (sv_rest _ _ _ _ _ _ _ _ _ _ _ _ S), Hr, decide_False; [done..|].
    intros Hd. apply Hu. assert (Hum : u ∈ unmarked rg l).
    { apply (turn_order_elem (ef_protocol s) (ef_cpus s)). rewrite (sv_order _ _ _ _ _ _ _ _ _ _ _ _ S). set_solver. }
    by apply list_elem_of_filter in Hum as [_ ?]. }
  assert (Hw' : forall u, wanted rg' u = wanted (ef_regs s) u).
  { intros u. by rewrite (sv_wanted _ _ _ _ _ _ _ _ _ _ _ _ S), Hw. }
  assert (Un' : forall u, u ∈ l -> ~ satisfied rg (ef_pattern s) u).
  { intros u Hu. pose proof (Hw u) as [=A B]. unfold satisfied. rewrite A, B. by apply Un. }
  assert (Un3 : forall u, u ∈ l -> u ∉ don -> gpr3 (reg rg' u) = gpr3 (reg (ef_regs s) u) /\ gpr6 (reg rg' u) = gpr6 (reg (ef_regs s) u)).
  { intros u Hu Hd. rewrite (sv_rest _ _ _ _ _ _ _ _ _ _ _ _ S), Hr, decide_True by done. done. }
  split_and!.
  - rewrite <- (pattern_same (f_regs rg' s)) at 1. cbn [ef_pattern f_regs].
    apply (finv_hold s l t _ rg' (ef_pattern s)); auto; try done.
    + intros u Hu Ha. destruct (decide (u ∈ don)) as [Hd|Hd].
      * pose proof (sv_seen _ _ _ _ _ _ _ _ _ _ _ _ S u Hd Ha) as Hs. pose proof (Hw u) as [=A B]. pose proof (Hw' u) as [=A' B'].
        unfold satisfied. rewrite A', B', <- A, <- B. done.
      * destruct (Un3 u Hu Hd) as [E3 E6]. unfold answered in Ha. rewrite E3 in Ha.
        pose proof (Hw' u) as [=A' B']. unfold satisfied. rewrite A', B', E6. by apply (fi_seen _ _ I); [left|].
    + apply I.
    + unfold phase_ok, phase. cbn [ef_mutex fgo f_mutex]. rewrite fpc_here. split_and!; [done|apply incl_bits_refl|].
      exists don, rest. cbn. apply (served_attempt _ _ _ _ rg); try done. apply I.
  - intros Hn u Hu H0 Ha. destruct (decide (u ∈ don)) as [Hd|Hd].
    + destruct (sv_done _ _ _ _ _ _ _ _ _ _ _ _ S u Hd) as [E7 _]. cbn in H0. lia.
    + destruct (Un3 u Hu Hd) as [E3 _]. apply (Hn u Hu). unfold answered in *. cbn in Ha. by rewrite <- E3.
  - do 3 eexists. by rewrite fpc_here.
Qed.

(** *** The commit and the removal *)

Lemma commit_value b p w x :
  in_uint 64 b -> in_uint 64 p -> incl_bits x p -> incl_bits w (Z.lor p b) ->
  fs_commit b p w x = Z.land w (Z.lor x b).
Proof.
  intros Hb Hp Hx Hw. unfold fs_commit, bnot. apply Z.bits_inj'. intros i Hi.
  rewrite incl_bits_spec in Hx, Hw. specialize (Hx i Hi). specialize (Hw i Hi).
  rewrite !Z.land_spec, !testbit_uint, !Z.lnot_spec, !Z.land_spec, !testbit_uint, !Z.lnot_spec, !Z.lor_spec in * by lia.
  destruct (Z.ltb_spec i 64) as [H|H]; cbn [andb].
  - by destruct (Z.testbit x i), (Z.testbit b i), (Z.testbit p i), (Z.testbit w i); cbn in *; intuition congruence.
  - rewrite (testbit_high 64 b i), (testbit_high 64 p i) in * by (done || lia).
    by destruct (Z.testbit x i), (Z.testbit w i); cbn in *; intuition congruence.
Qed.

(** What the attempt computed is the outcome at the value found by the commit. *)
Lemma attempt_commit s l t b p w d c :
  finv s l -> fpc s t = FsTry b p w d c -> Z.land (Z.lxor (ef_pattern s) p) d = 0 ->
  exists don rest, attempt (ef_protocol s) (ef_cpus s) (ef_regs s) l b p w d c don rest /\
    deliver (wanted (ef_regs s)) (turn_order (ef_protocol s) (ef_cpus s) l) (Z.lor (ef_pattern s) b) =
    (fst (deliver (wanted (ef_regs s)) don (Z.lor p b)), fs_commit b p w (ef_pattern s)).
Proof.
  intros I P D. destruct (holder s l t I) as (M & _ & _ & _ & _ & Ph); [by rewrite P|].
  pose proof (fi_phase _ _ I) as F. unfold phase_ok in F. rewrite Ph, P in F. destruct F as (_ & Ix & don & rest & A).
  pose proof (fi_args _ _ I t) as Hb. rewrite P in Hb. cbn in Hb.
  exists don, rest. split; [done|]. destruct A as [Ao Ae Aw Am Ac Ad Ax Ar Au].
  rewrite commit_value; [|done..|rewrite Aw; apply deliver_incl]. rewrite Ao, Aw. apply commit_correct with (d := d); try done.
  - intros u Hu. apply not_true_iff_false. apply Au. apply (turn_order_elem (ef_protocol s) (ef_cpus s)). by rewrite Ao.
  - rewrite <- Aw. destruct Ae as [|[? _]]; auto.
Qed.

Lemma commit_range b p w x : in_uint 64 x -> in_uint 64 b -> in_uint 64 (fs_commit b p w x).
Proof. intros. unfold fs_commit. apply land_range; [lia|by apply lor_range|apply bnot_range; lia]. Qed.

(** After the commit only waiters that get a result can be satisfied. *)
Lemma commit_unsat s l t b p w d c u :
  finv s l -> fpc s t = FsTry b p w d c -> Z.land (Z.lxor (ef_pattern s) p) d = 0 -> u ∈ l ->
  ~ answered (ef_regs s) u -> ~ satisfied (ef_regs s) (fs_commit b p w (ef_pattern s)) u.
Proof.
  intros I P D Hu Ha. destruct (attempt_commit s l t b p w d c I P D) as (don & rest & A & E).
  pose proof (deliver_unserved (wanted (ef_regs s)) (turn_order (ef_protocol s) (ef_cpus s) l) (Z.lor (ef_pattern s) b) u) as H.
  rewrite E, turn_order_elem in H. cbn [fst snd] in H. apply not_true_iff_false, H; [done|].
  intros Hs. apply Ha. assert (Hd : u ∈ don) by (by eapply deliver_sub).
  destruct (at_done _ _ _ _ _ _ _ _ _ _ _ A u Hd) as [_ H3]. by rewrite decide_True in H3.
Qed.

Lemma finv_commit s l t b p w d c :
  finv s l -> fpc s t = FsTry b p w d c -> Z.land (Z.lxor (ef_pattern s) p) d = 0 ->
  finv (if c =? 0 then fgo t (FReturned CELL_OK 0) (f_mutex None (f_pattern (fs_commit b p w (ef_pattern s)) s))
        else fgo t FsRemove (f_pattern (fs_commit b p w (ef_pattern s)) s)) l.
Proof.
  intros I P D. destruct (holder s l t I) as (M & Nl & Ns & Na & Ht & Ph); [by rewrite P|].
  pose proof (fi_args _ _ I t) as Hb. rewrite P in Hb. cbn in Hb.
  pose proof (commit_range b p w (ef_pattern s) (fi_pat _ _ I) Hb) as Hr.
  pose proof (fun u => commit_unsat s l t b p w d c u I P D) as Un.
  destruct (Z.eqb_spec c 0) as [->|Nc].
  - destruct (attempt_commit s l t b p w d 0 I P D) as (don & rest & A & E).
    assert (Hn : forall u, u ∈ l -> ~ answered (ef_regs s) u).
    { intros u Hu Ha. pose proof (at_count _ _ _ _ _ _ _ _ _ _ _ A) as Ac.
      destruct (at_end _ _ _ _ _ _ _ _ _ _ _ A) as [->|[_ ?]]; [|lia].
      assert (Hd : u ∈ don). { rewrite <- (app_nil_r don), <- (at_order _ _ _ _ _ _ _ _ _ _ _ A). by apply turn_order_elem. }
      destruct (at_done _ _ _ _ _ _ _ _ _ _ _ A u Hd) as [_ H3].
      destruct (fst (deliver (wanted (ef_regs s)) don (Z.lor p b))); [|cbn [length] in Ac; lia].
      unfold answered in Ha. rewrite H3 in Ha. discriminate Ha. }
    apply (finv_free s l _ l t (FReturned CELL_OK 0) []); cbn; try done; auto; try apply I.
    + intros u. by rewrite fpc_go.
    + set_solver.
    + set_solver.
    + set_solver.
    + set_solver.
    + unfold flocal_of. cbn. rewrite Na, (bool_decide_eq_false_2 (t ∈ l)), (bool_decide_eq_false_2 (None = Some t)) by done. done.
  - assert (E : fgo t FsRemove (f_pattern (fs_commit b p w (ef_pattern s)) s) =
      fgo t FsRemove (f_mutex (Some t) (f_pattern (fs_commit b p w (ef_pattern s)) (f_regs (ef_regs s) s)))).
    { unfold fgo, f_mutex, f_pattern, f_regs. cbn. by rewrite M. }
    rewrite E. apply (finv_hold s l t FsRemove); auto; try done.
    + intros u Hu Ha. apply (fi_seen _ _ I); auto.
    + unfold phase_ok, phase. cbn [ef_mutex fgo f_mutex]. rewrite fpc_here. intros u Hu. split; [|by apply Un].
      pose proof (fi_phase _ _ I) as F. unfold phase_ok in F. rewrite Ph, P in F. by apply F.
Qed.

Lemma finv_fs_remove s l t :
  finv s l -> fpc s t = FsRemove ->
  exists s', fs_remove t s = Some s' /\ finv s' (filter (fun u => ~ answered (ef_regs s) u) l) /\
    ef_signal s' = ef_signal s ∪ list_to_set (rev (filter (answered (ef_regs s)) l)) /\
    ef_pattern s' = ef_pattern s /\ fpc s' t = FReturned CELL_OK 0.
Proof.
  intros I P. destruct (holder s l t I) as (M & Nl & Ns & Na & Ht & Ph); [by rewrite P|].
  pose proof (fi_phase _ _ I) as F. unfold phase_ok in F. rewrite Ph, P in F.
  pose proof (queue_length _ _ _ (fi_queue _ _ I)) as Len.
  destruct (remove_loop_spec (S (size (ef_cpus s))) (ef_cpus s) (ef_regs s) [] l (ef_sq s) [] (fi_queue _ _ I)) as (f & h & E & Q & Sc & Fr); [lia|].
  change (last []) with (@None Z) in E. unfold fs_remove. rewrite E. cbn [mbind option_bind app] in *. rewrite app_nil_r.
  eexists. split; [done|]. set (ws := rev (filter (answered (ef_regs s)) l)).
  assert (Hw : forall u, u ∈ ws <-> answered (ef_regs s) u /\ u ∈ l).
  { intros u. unfold ws. rewrite list_elem_of_In, <- in_rev, <- list_elem_of_In. apply list_elem_of_filter. }
  split_and!; [|done|done|by rewrite fpc_here].
  apply (finv_free s l _ _ t (FReturned CELL_OK 0) ws); cbn; try done; auto; try apply I.
  - intros u. by rewrite fpc_go.
  - intros u. by apply same_cpus_dom.
  - intros u. by rewrite (same_cpus_prio _ _ _ Sc).
  - intros u _. by apply same_cpus_again.
  - intros u [Ha Hu]%Hw. split_and!; [done| |by apply F]. intros ->. done.
  - intros u Nu. rewrite list_elem_of_filter, Hw. tauto.
  - intros u Nu. rewrite elem_of_union, elem_of_list_to_set. done.
  - intros u [Ha Hu]%Hw. right. split; [done|]. apply (fi_seen _ _ I); auto.
  - intros u [Ha Hu]%list_elem_of_filter. split; [done|]. by apply F.
  - unfold flocal_of. cbn. rewrite (same_cpus_again _ _ _ Sc), Na, (bool_decide_eq_false_2 (None = Some t)) by done.
    rewrite (bool_decide_eq_false_2 (t ∈ filter _ l)); [done|]. rewrite list_elem_of_filter. tauto.
  - rewrite list_elem_of_filter. tauto.
  - intros _. rewrite list_elem_of_filter. tauto.
Qed.

(** *** cancel *)
Lemma finv_fc_lock s l t s' :
  finv s l -> fpc s t = FcLock -> f_unlocked s = true -> fc_lock t s = Some s' -> exists l', finv s' l'.
Proof.
  intros I P M%f_unlocked_none E. unfold fc_lock in E. rewrite (walk_spec _ _ _ (fi_queue _ _ I)) in E.
  cbn [mbind option_bind] in E. pose proof (fi_local _ _ I t) as L. rewrite P in L.
  assert (Ht : is_Some (ef_cpus s !! t)) by (apply (fi_alive _ _ I); by rewrite P).
  destruct (existsb _ l) eqn:Ea.
  { injection E as <-. exists l. by apply finv_stop_caller. }
  pose proof (again_none _ _ Ea) as Ag.
  destruct (drain_fifo_spec (S (size (ef_cpus s))) _ _ l [] (fi_queue _ _ I) Ag) as (ws & h & Ed & Hw & _ & Sc & Fr).
  { pose proof (queue_length _ _ _ (fi_queue _ _ I)). lia. }
  rewrite Ed in E. cbn [mbind option_bind] in E. injection E as <-. rewrite app_nil_r. exists [].
  unfold flocal_of in L. cbn in L. destruct (decide (t ∈ l)) as [|Nl]; [by rewrite bool_decide_eq_true_2 in L|].
  assert (Q : queue h 0 []) by (split; [done|constructor]).
  assert (Hr : forall u, reg (fold_left (fun rg u => upd (fun r => set6 (ef_pattern s) (set3 CELL_ECANCELED r)) u rg) ws (ef_regs s)) u =
    if decide (u ∈ l) then set6 (ef_pattern s) (set3 CELL_ECANCELED (reg (ef_regs s) u)) else reg (ef_regs s) u).
  { intros u. rewrite reg_fold by done. by destruct (decide (u ∈ ws)), (decide (u ∈ l)); set_solver. }
  apply (finv_free s l _ _ t (FReturned CELL_OK (Z.of_nat (length ws))) ws); cbn; try done; auto; try apply I.
  - intros u. by rewrite fpc_go.
  - intros u. by apply same_cpus_dom.
  - intros u. by rewrite (same_cpus_prio _ _ _ Sc).
  - intros u _. by apply same_cpus_again.
  - intros u Hu%Hw. split_and!; [done| |by apply Ag]. intros ->. done.
  - intros u Nu. rewrite Hw. set_solver.
  - intros u Nu. rewrite elem_of_union, elem_of_list_to_set. done.
  - intros u Hu Nu. by rewrite Hr, decide_False.
  - intros u Hu. unfold wanted. by rewrite Hr, decide_True.
  - intros u Hu%Hw. left. by rewrite Hr, decide_True.
  - set_solver.
  - unfold flocal_of. cbn. rewrite (same_cpus_again _ _ _ Sc), M. rewrite (bool_decide_eq_false_2 (None = Some t)) by done.
    destruct (is_again _ _); [|done]. by rewrite !orb_true_r in L.
  - set_solver.
  - set_solver.
Qed.

(** ** Every step keeps the invariant *)

Lemma calm_here s l t : finv s l -> fpoint_ok (FsLoad 0) (flocal_of s l t) = true ->
  (t ∉ l) /\ (t ∉ ef_signal s) /\ is_again (ef_cpus s) t = false.
Proof.
  intros I L. unfold flocal_of in L. cbn in L.
  destruct (decide (t ∈ l)); [by rewrite bool_decide_eq_true_2 in L|].
  destruct (decide (t ∈ ef_signal s)); [by rewrite (bool_decide_eq_true_2 (t ∈ ef_signal s)), orb_true_r in L|].
  destruct (is_again _ _); [by rewrite !orb_true_r in L|done].
Qed.

(** The first attempt of [set] starts without marks. *)
Lemma finv_fs_lock s l t b s' :
  finv s l -> fpc s t = FsLock b -> f_unlocked s = true -> fs_lock t b s = Some s' ->
  finv s' l /\ ((exists p w d c, fpc s' t = FsTry b p w d c) -> fresh (ef_regs s') l).
Proof.
  intros I P M%f_unlocked_none E. unfold fs_lock in E. rewrite (walk_spec _ _ _ (fi_queue _ _ I)) in E.
  cbn [mbind option_bind] in E. pose proof (fi_local _ _ I t) as L. rewrite P in L.
  assert (Ht : is_Some (ef_cpus s !! t)) by (apply (fi_alive _ _ I); by rewrite P).
  pose proof (fi_args _ _ I t) as A. rewrite P in A.
  destruct (existsb _ l) eqn:Ea.
  { injection E as <-. split; [by apply finv_stop_caller|]. intros (? & ? & ? & ? & F). by rewrite fpc_here in F. }
  destruct (calm_here s l t I L) as (Nl & Ns & Na). pose proof (free_phase s l I M) as F.
  destruct (attempt_step s l t b) as (s1 & E1 & I1 & Fr & _); auto.
  { intros u Hu. by apply F. }
  { by apply again_none. }
  rewrite E in E1. injection E1 as ->. split; [done|]. intros _. apply Fr. intros u Hu. by apply F.
Qed.

Lemma finv_fs_try s l t b p w d c :
  finv s l -> fpc s t = FsTry b p w d c -> exists s', fs_try t b p w d c s = Some s' /\ finv s' l.
Proof.
  intros I P. unfold fs_try. destruct (Z.eqb_spec (Z.land (Z.lxor (ef_pattern s) p) d) 0) as [D|D]; cbn [negb].
  - eexists. split; [done|]. by eapply finv_commit.
  - destruct (holder s l t I) as (M & Nl & Ns & Na & Ht & Ph); [by rewrite P|].
    pose proof (fi_phase _ _ I) as F. unfold phase_ok in F. rewrite Ph, P in F. destruct F as (Ag & Ix & don & rest & A).
    pose proof (fi_args _ _ I t) as Ab. rewrite P in Ab.
    destruct (attempt_step s l t b) as (s1 & E1 & I1 & _ & _); eauto.
    intros u Hu Sx. apply (at_unsat _ _ _ _ _ _ _ _ _ _ _ A u Hu). by eapply satisfied_mono.
Qed.

Lemma finv_run s l t s' : finv s l -> f_run t s = Some s' -> exists l', finv s' l'.
Proof.
  intros I E. unfold f_run in E. pose proof (fi_local _ _ I t) as L. pose proof (fi_args _ _ I t) as A.
  assert (Al : fpc s t <> FIdle -> is_Some (ef_cpus s !! t)) by apply (fi_alive _ _ I).
  destruct (fpc s t) eqn:P; try done; try (destruct (f_unlocked s) eqn:U; [|done]); try specialize (Al ltac:(done)).
  - injection E as <-. exists l. unfold fw_try. pose proof (finv_fetch s l t bitptn mode timeout) as F.
    unfold fw_fetch in *. rewrite check_pattern_eq in *. cbn [snd] in F. destruct (sat _ _ _) eqn:S.
    + cbn [ef_regs f_pattern f_regs]. rewrite reg_upd_here. apply F; auto.
    + apply F; auto.
  - injection E as <-. exists l. by apply finv_fw_lock.
  - injection E as <-. eexists. by apply finv_fw_enq.
  - unfold fw_signal in E. case_bool_decide as Hs; [|done]. injection E as <-. exists l.
    apply finv_end; [done|by rewrite P| |set_solver]. intros Hl. unfold flocal_of in L.
    rewrite !bool_decide_eq_true_2 in L by done. cbn in L. by rewrite andb_false_r in L.
  - injection E as <-. exists l. unfold fw_timeout. rewrite (head_nil _ _ _ (fi_queue _ _ I)). case_bool_decide as Hl.
    + apply finv_pc; rewrite ?P; try done. rewrite Hl in L. unfold flocal_of in *.
      rewrite (bool_decide_eq_false_2 (t ∈ [])) in L by set_solver.
      rewrite Hl, (bool_decide_eq_false_2 (t ∈ [])) by set_solver. cbn in *. by rewrite orb_false_r.
    + apply finv_pc; rewrite ?P; done.
  - injection E as <-. exists l. rewrite end_same. apply finv_end; [done|by rewrite P| |done].
    intros Hl. unfold flocal_of in L. rewrite (bool_decide_eq_true_2 (t ∈ l)) in L by done. cbn in L. by rewrite orb_true_r in L.
  - by eapply finv_fw_unqueue.
  - injection E as <-. exists l. unfold fs_load. destruct (_ =? _); apply finv_pc; rewrite ?P; try done.
    destruct (calm_here s l t I L) as (Nl & Ns & Na). unfold flocal_of in *. cbn in *. rewrite Na, (bool_decide_eq_false_2 (t ∈ l)) in * by done.
    by destruct (bool_decide _), (bool_decide _).
  - exists l. by destruct (finv_fs_lock _ _ _ _ _ I P U E).
  - destruct (finv_fs_try s l t _ _ _ _ _ I P) as (s1 & E1 & I1). rewrite E in E1. injection E1 as ->. eauto.
  - destruct (finv_fs_remove s l t I P) as (s1 & E1 & I1 & _). rewrite E in E1. injection E1 as ->. eauto.
  - by eapply finv_fc_lock.
Qed.

Lemma finv_call_return s l t : finv s l -> f_can_call t s = true ->
  (forall c v, finv (fgo t (FReturned c v) s) l).
Proof. intros I C c v. eapply finv_return_same; eauto. Qed.

Lemma finv_move a s l s' : finv s l -> move a s = Some s' -> exists l', finv s' l'.
Proof.
  intros I E. destruct a; cbn [move eflag_machine] in E;
    try (destruct (f_can_call t s) eqn:C; cbn [andb] in E; [|done]).
  - case_bool_decide as Hb; [|done]. case_bool_decide; [|done]. injection E as <-. exists l. by apply finv_fw_call.
  - case_bool_decide as Hb; [|done]. case_bool_decide; [|done]. injection E as <-. exists l. unfold ft_call.
    destruct (check_mode mode); cbn [negb]; [|by apply finv_call_return].
    destruct (ef_exists s); [|by apply finv_call_return]. rewrite check_pattern_eq.
    destruct (sat _ _ _); [|by apply finv_call_return].
    eapply finv_return; [done..|apply leave_range, I|apply leave_incl|by left].
  - case_bool_decide as Hb; [|done]. injection E as <-. exists l. unfold fs_call.
    destruct (ef_exists s); [|by apply finv_call_return]. eapply (finv_return_same _ _ _ _ 0); eauto.
  - case_bool_decide as Hb; [|done]. injection E as <-. exists l. unfold f_clear.
    destruct (ef_exists s); [|by apply finv_call_return].
    eapply finv_return; [done..| |apply incl_bits_land|by left]. apply land_range; [lia|apply I|apply Hb].
  - injection E as <-. exists l. unfold fc_call. destruct (ef_exists s); [|by apply finv_call_return].
    eapply (finv_return_same _ _ _ 0 0); eauto.
  - destruct (forallb _ _) eqn:F; [|done]. injection E as <-. exists l. unfold f_destroy.
    destruct (ef_exists s) eqn:Ex; [|by apply finv_call_return].
    rewrite (head_nil _ _ _ (fi_queue _ _ I)). case_bool_decide as Hl; cbn [negb]; [|by apply finv_call_return].
    destruct (f_can_call_spec t s C) as (P & Ht & _). pose proof (fi_local _ _ I t) as L.
    assert (Hh : fholds (fpc s t) = false) by (by rewrite P). rewrite flocal_here, P in L by done.
    refine (finv_own s l t (FReturned CELL_OK 0) (ef_regs s) (ef_pattern s) (ef_signal s) false I Hh _ Ht _ _ (fi_pat _ _ I) (incl_bits_refl _) _ _ _ _ _ _); try done.
    + cbn in *. by destruct (bool_decide (t ∈ l)), (bool_decide (t ∈ ef_signal s)).
    + intros _. split; [done|]. intros u _. rewrite forallb_forall in F. unfold fpc, at_point.
      destruct (ef_points s !! u) as [p|] eqn:Pu; [|done].
      specialize (F (u, p)). cbn in F. apply negb_true_iff, F, list_elem_of_In. by apply elem_of_map_to_list.
  - by eapply finv_run.
  - destruct (fpc s t) as [| | | |[]| | | | | | | | | | | |] eqn:P; try done; injection E as <-. exists l.
    pose proof (fi_local _ _ I t) as L. rewrite P in L.
    apply finv_pc; rewrite ?P; try done. apply (fi_alive _ _ I). by rewrite P.
  - destruct (fpc s t) eqn:P; try done. destruct (f_unlocked s) eqn:U; [|done]. apply f_unlocked_none in U as M.
    unfold fw_stop in E. rewrite (walk_spec _ _ _ (fi_queue _ _ I)) in E. cbn [mbind option_bind] in E. injection E as <-.
    exists l. pose proof (fi_local _ _ I t) as L. rewrite P in L. destruct (mem_list t l) eqn:Hm.
    + apply mem_list_spec in Hm. apply finv_stop; try done. unfold flocal_of in L. cbn in L.
      destruct (is_again _ _); [by rewrite orb_true_r in L|done].
    + rewrite end_same. apply finv_end; [done|by rewrite P| |done]. intros Hl%mem_list_spec. congruence.
  - assert (R : forall p, fpoint_ok p = fpoint_ok (FReturned 0 0) -> fpc s t = p -> fholds p = false -> p <> FIdle ->
      finv (fgo t FIdle (f_signal (ef_signal s ∖ {[t]}) s)) l).
    { intros p Hp P Hh' Np. assert (Hh : fholds (fpc s t) = false) by (by rewrite P).
      pose proof (fi_local _ _ I t) as L. rewrite flocal_here, P, Hp in L by done.
      assert (Ht : is_Some (ef_cpus s !! t)) by (apply (fi_alive _ _ I); by rewrite P).
      refine (finv_own s l t FIdle (ef_regs s) (ef_pattern s) (ef_signal s ∖ {[t]}) (ef_exists s) I Hh _ Ht _ _ (fi_pat _ _ I) (incl_bits_refl _) _ _ _ _ _ _); try done.
      + set_solver.
      + rewrite (bool_decide_eq_false_2 (t ∈ ef_signal s ∖ {[t]})) by set_solver. cbn in *. by destruct (bool_decide (t ∈ l)), (is_again _ _).
      + intros Ex. destruct (fi_destroyed _ _ I Ex). auto. }
    exists l. destruct (fpc s t) eqn:P; try done; injection E as <-; (eapply R; [|reflexivity|..]; done).
Qed.

Lemma f_initial_inv s : f_initial s -> finv s [].
Proof.
  intros (Pr & Ex & Mu & Pa & Sq & Po & Si & Ze & Ag & Pi).
  assert (Pc : forall t, fpc s t = FIdle) by (intros; unfold fpc, at_point; by rewrite Po).
  split; rewrite ?Sq, ?Ex; try done; try (intros t; rewrite ?Pc; done); try (by intros u ?%not_elem_of_nil).
  - split; [done|constructor].
  - intros t. rewrite Pc. unfold flocal_of. rewrite Mu, Si, Ag.
    by rewrite (bool_decide_eq_false_2 (t ∈ [])), (bool_decide_eq_false_2 (t ∈ ∅)), (bool_decide_eq_false_2 (None = Some t)) by set_solver.
  - intros u [Hu|Hu]; [set_solver|by rewrite Pc in Hu].
  - unfold phase_ok, phase. rewrite Mu. set_solver.
Qed.

Lemma f_reachable_inv s : reachable f_initial s -> exists l, finv s l.
Proof.
  apply (reachable_ind_inv f_initial (fun s => exists l, finv s l)).
  - intros s0 H. eexists. by apply f_initial_inv.
  - intros a s1 s2 (l & I) E. by eapply finv_move.
Qed.

(** ** The claims *)

(** C16.  No waiter is left asleep although its condition holds.  Whenever the
    host mutex is free, the queue is a proper list, the condition of every
    thread in it is false for the current pattern, and a sleeping thread that
    is not in the queue has been signalled with a result.  A destroyed flag has
    no waiters. *)
Theorem eflag_no_lost_wakeup (s : eflag) :
  reachable f_initial s -> ef_mutex s = None ->
  exists l, walk (ef_cpus s) (ef_sq s) = Some l /\
    (forall u, u ∈ l ->
       fst (check_pattern (ef_pattern s) (gpr4 (reg (ef_regs s) u)) (gpr5 (reg (ef_regs s) u))) = false) /\
    (forall t to, fpc s t = FwSleep to ->
       t ∈ l \/ (t ∈ ef_signal s /\ (gpr3 (reg (ef_regs s) t) = CELL_OK \/ gpr3 (reg (ef_regs s) t) = CELL_ECANCELED))) /\
    (ef_exists s = false -> l = []).
Proof.
  intros (l & I)%f_reachable_inv M. exists l. split_and!.
  - apply walk_spec, I.
  - intros u Hu. apply not_true_iff_false. by apply (free_phase s l I M u Hu).
  - intros t to P. destruct (decide (t ∈ l)) as [|Nl]; [by left|right].
    pose proof (fi_local _ _ I t) as L. rewrite P in L. unfold flocal_of in L. cbn in L.
    rewrite (bool_decide_eq_false_2 (t ∈ l)), andb_true_iff in L by done. destruct L as [_ L].
    apply bool_decide_eq_true in L. split; [done|]. apply (fi_result _ _ I); [by rewrite P|done].
  - intros E. by destruct (fi_destroyed _ _ I E).
Qed.

(** C24.  What a wait returns.  [sys_event_flag_wait] never returns the -1 it
    starts with, and when it returns CELL_OK, by itself or woken by [set], the
    pattern it reports satisfies the condition it waited for. *)
Theorem eflag_wait_result (s : eflag) (t code val : Z) :
  reachable f_initial s -> fpc s t = FwReturned code val ->
  code <> u64 (-1) /\
  (code = CELL_OK -> fst (check_pattern val (gpr4 (reg (ef_regs s) t)) (gpr5 (reg (ef_regs s) t))) = true).
Proof. intros (l & I)%f_reachable_inv P. pose proof (fi_args _ _ I t) as A. by rewrite P in A. Qed.

(** The first attempt of a call of [set] starts without marks of an earlier one. *)
Lemma first_attempt_fresh s t b s' p w d c l :
  reachable f_initial s -> fpc s t = FsLock b -> move (FRun t) s = Some s' -> fpc s' t = FsTry b p w d c ->
  walk (ef_cpus s') (ef_sq s') = Some l -> fresh (ef_regs s') l.
Proof.
  intros (l0 & I)%f_reachable_inv P E P' W. cbn [move eflag_machine] in E. unfold f_run in E. rewrite P in E.
  destruct (f_unlocked s) eqn:U; [|done]. destruct (finv_fs_lock s l0 t b s' I P U E) as [I' F].
  rewrite (walk_spec _ _ _ (fi_queue _ _ I')) in W. injection W as <-. apply F. eauto.
Qed.


(** Three waiters, in the order of their calls: the first wants the bits 0 and
    1 and clears them, the second wants bit 0 and clears all, the third wants
    bit 2.  Bit 1 is set. *)
Definition five_threads : threads :=
  list_to_map [(16, Cpu 0 (Prio 7 0 false) false); (32, Cpu 0 (Prio 7 0 false) false);
               (48, Cpu 0 (Prio 7 0 false) false); (64, Cpu 0 (Prio 7 0 false) false);
               (80, Cpu 0 (Prio 7 0 false) false)].
Definition flag0 : eflag :=
  EFlag SYS_SYNC_FIFO SYS_SYNC_WAITER_MULTIPLE true None 2 0 five_threads ∅ 0 ∅ ∅.
Definition three_waits : list faction :=
  [FCallWait 16 3 0x11 false; FRun 16; FRun 16; FRun 16; FCallWait 32 1 0x21 false; FRun 32; FRun 32; FRun 32;
   FCallWait 48 4 0x01 false; FRun 48; FRun 48; FRun 48].
Definition flag1 : eflag := default flag0 (moves three_waits flag0).
(** Another thread sets the bits 0 and 2. *)
Definition flag2 : eflag := default flag0 (moves [FCallSet 64 5; FRun 64; FRun 64] flag1).
(** Meanwhile bit 1 is cleared, and the attempt has to be repeated. *)
Definition flag3 : eflag := default flag0 (moves [FCallClear 80 (2 ^ 64 - 3); FRun 64] flag2).

Lemma flag0_initial : f_initial flag0.
Proof.
  assert (H : forall t c, five_threads !! t = Some c -> t <> 0 /\ again c = false /\ prio (cprio c) = 7).
  { intros t c H%elem_of_list_to_map_2. repeat (apply elem_of_cons in H as [[= -> ->]|H]; [done|]). by apply elem_of_nil in H. }
  unfold f_initial, flag0; cbn -[five_threads]. split_and!; try done; auto.
  - intros t. unfold is_again. destruct (five_threads !! t) as [c|] eqn:E; [|done]. by apply H in E as (_ & ? & _).
  - intros t. unfold prio_of. destruct (five_threads !! t) as [c|] eqn:E; [|done]. apply H in E as (_ & _ & ->). done.
Qed.

Lemma flag1_reachable : reachable f_initial flag1.
Proof.
  eapply (moves_reachable f_initial three_waits flag0); [by apply reach_init, flag0_initial|].
  vm_compute. reflexivity.
Qed.
Lemma flag2_reachable : reachable f_initial flag2.
Proof.
  eapply (moves_reachable f_initial [FCallSet 64 5; FRun 64; FRun 64] flag1 _ flag1_reachable).
  vm_compute. reflexivity.
Qed.
Lemma flag3_reachable : reachable f_initial flag3.
Proof.
  eapply (moves_reachable f_initial [FCallClear 80 (2 ^ 64 - 3); FRun 64] flag2 _ flag2_reachable).
  vm_compute. reflexivity.
Qed.

(** C38.  A defect of [sys_event_flag_set]: when an attempt has to be repeated,
    the loop may end early, as soon as no bit is left, before it has reset the
    result a previous attempt gave to a later waiter.  There is a reachable
    state in which the commit of the repeated attempt wakes a thread with
    CELL_OK that is not served at the pattern of the commit: an earlier waiter
    has taken all bits. *)
Theorem eflag_retry_defect :
  exists s s' t u b p w d c l,
    reachable f_initial s /\ fpc s t = FsTry b p w d c /\ walk (ef_cpus s) (ef_sq s) = Some l /\
    moves [FRun t; FRun t] s = Some s' /\ fpc s' t = FReturned CELL_OK 0 /\
    (u ∉ ef_signal s) /\ u ∈ ef_signal s' /\ gpr3 (reg (ef_regs s') u) = CELL_OK /\
    u ∉ fst (deliver (wanted (ef_regs s)) (turn_order (ef_protocol s) (ef_cpus s) l) (Z.lor (ef_pattern s) b)).
Proof.
  exists flag3, (default flag0 (moves [FRun 64; FRun 64] flag3)), 64, 48, 5, 0, 0, 0, 1, [48; 32; 16].
  split; [exact flag3_reachable|].
  split_and!; try (vm_compute; reflexivity); apply (bool_decide_unpack _); vm_compute; exact I.
Qed.

Lemma eflag_no_lost_wakeup_witness :
  exists l, walk (ef_cpus flag1) (ef_sq flag1) = Some l /\
    (forall u, u ∈ l ->
       fst (check_pattern (ef_pattern flag1) (gpr4 (reg (ef_regs flag1) u)) (gpr5 (reg (ef_regs flag1) u))) = false) /\
    (forall t to, fpc flag1 t = FwSleep to ->
       t ∈ l \/ (t ∈ ef_signal flag1 /\ (gpr3 (reg (ef_regs flag1) t) = CELL_OK \/ gpr3 (reg (ef_regs flag1) t) = CELL_ECANCELED))) /\
    (ef_exists flag1 = false -> l = []).
Proof. apply (eflag_no_lost_wakeup flag1); [exact flag1_reachable|]. vm_compute. reflexivity. Defined.

(** The first wait of a thread whose bit is set. *)
Lemma eflag_wait_result_witness :
  exists s, moves [FCallWait 16 2 0x01 false; FRun 16] flag0 = Some s /\
    CELL_OK <> u64 (-1) /\
    (CELL_OK = CELL_OK -> fst (check_pattern 2 (gpr4 (reg (ef_regs s) 16)) (gpr5 (reg (ef_regs s) 16))) = true).
Proof.
  exists (default flag0 (moves [FCallWait 16 2 0x01 false; FRun 16] flag0)). split; [vm_compute; reflexivity|].
  apply (eflag_wait_result _ 16 CELL_OK 2); [|vm_compute; reflexivity].
  eapply (moves_reachable f_initial [FCallWait 16 2 0x01 false; FRun 16] flag0); [by apply reach_init, flag0_initial|].
  vm_compute. reflexivity.
Defined.

