(* ===== verification/Lv2EventQueue.v ===== *)
(** LV2 event queues and ports (src/rpcs3/Emu/Cell/lv2/sys_event.cpp, sys_event.h).

    A queue buffers events until a thread receives them; a thread that finds it
    empty waits, and the next event goes to the registers of a waiter instead
    of the buffer.  Guest threads send through ports that are connected to the
    queue, host threads (timers, the graphics) directly.  The machine has one
    local queue of type SYS_PPU_QUEUE, its ports, and any number of threads.
    The theorems: every event that was accepted is received exactly once, in the
    order of the sends, or discarded by [drain]; no thread sleeps while there are
    events, and the buffers are never overrun; a port in use stays connected as
    long as the queue exists; and a run that uses a port after it was freed. *)
From Stdlib Require Import ZArith Lia Bool List.
From stdpp Require Import base option list numbers gmap.
From S2P Require Import Prelude Machine Lv2Queue Lv2Sync.
Local Open Scope Z_scope.
#[local] Set Warnings "-clear-no-such-hyp".

(** ** The machine *)

(** [lv2_event]: source, data1, data2, data3. *)
Definition lv2_event : Type := Z * Z * Z * Z.

Definition SYS_EVENT_QUEUE_DESTROY_FORCE : Z := 1.
Definition SYS_EVENT_PORT_LOCAL : Z := 1.
Definition SYS_EVENT_PORT_IPC : Z := 3.

(** A port; [p_queue] says whether [queue] points to the queue.  A destroyed
    port stays in the table with [p_alive] false: its name is not used again. *)
Record lv2_event_port := Port { p_type : Z; p_name : Z; is_busy : Z; p_queue : bool; p_alive : bool }.

(** The registers another thread writes: the result, and the event in
    [gpr[4]] to [gpr[7]]. *)
Record eregs := ERegs { e_gpr3 : Z; e_event : lv2_event }.

(** Where a thread is in a call: [Qr] in [receive], [Qt] in [tryreceive], [Qd]
    in [destroy], [Qn] in [send] through a port or by a host thread. *)
Inductive qpoint : Set :=
  | QIdle
  | QrLock (timeout : bool)                                       (* takes the mutex *)
  | QrSleep (timeout : bool)                                      (* in the loop on [ppu.state] *)
  | QrTimeout                                                     (* timed out, looks at [pq] *)
  | QrTimeoutSync                                                 (* [lock_unlock] *)
  | QrTimeoutLock                                                 (* takes the mutex to unqueue itself *)
  | QrReturned (code : Z) (event : Z * Z * Z * Z)
  | QtLock (size : Z)
  | QtReturned (code : Z) (events : list (Z * Z * Z * Z))
  | QDrain
  | QdWake                                                        (* holds the mutex, before the loop that wakes *)
  | QnSend (port : option Z) (event : Z * Z * Z * Z)              (* takes the mutex *)
  | QnStore (port : option Z) (event : Z * Z * Z * Z) (cpu : Z)   (* holds it, [cpu] is unlinked *)
  | QnWait (port : Z)                                             (* before [port->is_busy--] *)
  | QReturned (code : Z)
  | QrStopped                                                     (* marked [again] in the queue *)
  | QStopped.                                                     (* marked [again] outside of it *)

(** The last four fields only record the run: the events accepted, the events
    taken from the queue with the thread that got them ([None]: discarded), the
    events each thread returned with, and whether a freed port was accessed. *)
Record equeue := EQueue {
  eq_protocol : Z; eq_size : Z; eq_exists : bool; eq_mutex : option Z; eq_events : list lv2_event;
  eq_pq : Z; eq_cpus : threads; eq_regs : gmap Z eregs; eq_tag : Z; eq_ports : gmap Z lv2_event_port;
  eq_points : gmap Z qpoint; eq_signal : gset Z;
  eq_sent : list lv2_event; eq_taken : list (option Z * lv2_event); eq_got : gmap Z (list lv2_event); eq_freed_use : bool
}.

Definition qpc (s : equeue) (t : Z) : qpoint := at_point QIdle (eq_points s) t.
Definition ereg (rg : gmap Z eregs) (t : Z) : eregs := at_point (ERegs 0 (0, 0, 0, 0)) rg t.
Definition got (s : equeue) (t : Z) : list lv2_event := at_point [] (eq_got s) t.

Definition qgo (t : Z) (p : qpoint) (s : equeue) : equeue :=
  EQueue (eq_protocol s) (eq_size s) (eq_exists s) (eq_mutex s) (eq_events s) (eq_pq s) (eq_cpus s) (eq_regs s) (eq_tag s)
    (eq_ports s) (<[t := p]> (eq_points s)) (eq_signal s) (eq_sent s) (eq_taken s) (eq_got s) (eq_freed_use s).
Definition e_exists (b : bool) (s : equeue) : equeue :=
  EQueue (eq_protocol s) (eq_size s) b (eq_mutex s) (eq_events s) (eq_pq s) (eq_cpus s) (eq_regs s) (eq_tag s)
    (eq_ports s) (eq_points s) (eq_signal s) (eq_sent s) (eq_taken s) (eq_got s) (eq_freed_use s).
Definition e_mutex (m : option Z) (s : equeue) : equeue :=
  EQueue (eq_protocol s) (eq_size s) (eq_exists s) m (eq_events s) (eq_pq s) (eq_cpus s) (eq_regs s) (eq_tag s)
    (eq_ports s) (eq_points s) (eq_signal s) (eq_sent s) (eq_taken s) (eq_got s) (eq_freed_use s).
Definition e_queue (first : Z) (h : threads) (s : equeue) : equeue :=
  EQueue (eq_protocol s) (eq_size s) (eq_exists s) (eq_mutex s) (eq_events s) first h (eq_regs s) (eq_tag s)
    (eq_ports s) (eq_points s) (eq_signal s) (eq_sent s) (eq_taken s) (eq_got s) (eq_freed_use s).
Definition e_regs (rg : gmap Z eregs) (s : equeue) : equeue :=
  EQueue (eq_protocol s) (eq_size s) (eq_exists s) (eq_mutex s) (eq_events s) (eq_pq s) (eq_cpus s) rg (eq_tag s)
    (eq_ports s) (eq_points s) (eq_signal s) (eq_sent s) (eq_taken s) (eq_got s) (eq_freed_use s).
Definition e_tag (x : Z) (s : equeue) : equeue :=
  EQueue (eq_protocol s) (eq_size s) (eq_exists s) (eq_mutex s) (eq_events s) (eq_pq s) (eq_cpus s) (eq_regs s) x
    (eq_ports s) (eq_points s) (eq_signal s) (eq_sent s) (eq_taken s) (eq_got s) (eq_freed_use s).
Definition e_ports (m : gmap Z lv2_event_port) (s : equeue) : equeue :=
  EQueue (eq_protocol s) (eq_size s) (eq_exists s) (eq_mutex s) (eq_events s) (eq_pq s) (eq_cpus s) (eq_regs s) (eq_tag s)
    m (eq_points s) (eq_signal s) (eq_sent s) (eq_taken s) (eq_got s) (eq_freed_use s).
Definition e_signal (x : gset Z) (s : equeue) : equeue :=
  EQueue (eq_protocol s) (eq_size s) (eq_exists s) (eq_mutex s) (eq_events s) (eq_pq s) (eq_cpus s) (eq_regs s) (eq_tag s)
    (eq_ports s) (eq_points s) x (eq_sent s) (eq_taken s) (eq_got s) (eq_freed_use s).
Definition e_sent (ev : lv2_event) (s : equeue) : equeue :=
  EQueue (eq_protocol s) (eq_size s) (eq_exists s) (eq_mutex s) (eq_events s) (eq_pq s) (eq_cpus s) (eq_regs s) (eq_tag s)
    (eq_ports s) (eq_points s) (eq_signal s) (eq_sent s ++ [ev]) (eq_taken s) (eq_got s) (eq_freed_use s).
(** An event appended at the back and events taken from the front. *)
Definition e_push (ev : lv2_event) (s : equeue) : equeue :=
  e_sent ev (EQueue (eq_protocol s) (eq_size s) (eq_exists s) (eq_mutex s) (eq_events s ++ [ev]) (eq_pq s) (eq_cpus s) (eq_regs s) (eq_tag s)
    (eq_ports s) (eq_points s) (eq_signal s) (eq_sent s) (eq_taken s) (eq_got s) (eq_freed_use s)).
Definition e_take (who : option Z) (evs rest : list lv2_event) (s : equeue) : equeue :=
  EQueue (eq_protocol s) (eq_size s) (eq_exists s) (eq_mutex s) rest (eq_pq s) (eq_cpus s) (eq_regs s) (eq_tag s)
    (eq_ports s) (eq_points s) (eq_signal s) (eq_sent s) (eq_taken s ++ map (fun ev => (who, ev)) evs) (eq_got s) (eq_freed_use s).
Definition e_got (t : Z) (evs : list lv2_event) (s : equeue) : equeue :=
  EQueue (eq_protocol s) (eq_size s) (eq_exists s) (eq_mutex s) (eq_events s) (eq_pq s) (eq_cpus s) (eq_regs s) (eq_tag s)
    (eq_ports s) (eq_points s) (eq_signal s) (eq_sent s) (eq_taken s) (<[t := got s t ++ evs]> (eq_got s)) (eq_freed_use s).
Definition e_freed_use (s : equeue) : equeue :=
  EQueue (eq_protocol s) (eq_size s) (eq_exists s) (eq_mutex s) (eq_events s) (eq_pq s) (eq_cpus s) (eq_regs s) (eq_tag s)
    (eq_ports s) (eq_points s) (eq_signal s) (eq_sent s) (eq_taken s) (eq_got s) true.
Definition e_stop (t : Z) (s : equeue) : equeue := e_queue (eq_pq s) (alter set_again t (eq_cpus s)) s.

Definition qret (t code : Z) (s : equeue) : equeue := qgo t (QReturned code) s.

(** *** sys_event_queue_create

    The code, [CELL_OK] when a queue is made. *)
Definition SYS_PPU_QUEUE : Z := 1.
Definition SYS_SPU_QUEUE : Z := 2.
Definition queue_create (protocol type size : Z) : Z :=
  if (size <=? 0) || (size >? 127) then CELL_EINVAL
  else if negb (protocol =? SYS_SYNC_FIFO) && negb (protocol =? SYS_SYNC_PRIORITY) then CELL_EINVAL
  else if negb (type =? SYS_PPU_QUEUE) && negb (type =? SYS_SPU_QUEUE) then CELL_EINVAL
  else CELL_OK.

(** *** sys_event_queue_receive *)
Definition qr_call (t : Z) (timeout : bool) (s : equeue) : equeue :=
  let s' := e_regs (<[t := ERegs CELL_OK (e_event (ereg (eq_regs s) t))]> (eq_regs s)) s in
  if eq_exists s then qgo t (QrLock timeout) s' else qret t CELL_ESRCH s'.

(** [return not_an_error(ppu.gpr[3])], with the event in the registers. *)
Definition qr_end (t : Z) (s : equeue) : equeue :=
  let r := ereg (eq_regs s) t in
  qgo t (QrReturned (e_gpr3 r) (e_event r)) (if e_gpr3 r =? CELL_OK then e_got t [e_event r] s else s).

Definition qr_lock (t : Z) (timeout : bool) (s : equeue) : equeue :=
  match eq_events s with
  | [] =>
      let '(tag', first, h) := emplace (eq_tag s) (eq_cpus s) (eq_pq s) t in
      qgo t (QrSleep timeout) (e_tag tag' (e_queue first h s))
  | ev :: events =>
      let s' := e_take (Some t) [ev] events s in
      qr_end t (e_regs (<[t := ERegs (e_gpr3 (ereg (eq_regs s) t)) ev]> (eq_regs s)) s')
  end.

Definition qr_signal (t : Z) (s : equeue) : option equeue :=
  if bool_decide (t ∈ eq_signal s) then Some (qr_end t (e_signal (eq_signal s ∖ {[t]}) s)) else None.

Definition qr_stop (t : Z) (s : equeue) : option equeue :=
  l ← walk (eq_cpus s) (eq_pq s);
  Some (if mem_list t l then qgo t QrStopped (e_stop t s) else qr_end t s).

Definition qr_timeout (t : Z) (s : equeue) : equeue :=
  if eq_pq s =? 0 then qgo t QrTimeoutSync s else qgo t QrTimeoutLock s.

Definition qr_unqueue (t : Z) (s : equeue) : option equeue :=
  '(r, first, h) ← unqueue true (eq_cpus s) (eq_pq s) t;
  let s' := e_queue first h s in
  Some
    (if r =? 0 then qr_end t s'
     else qr_end t (e_regs (<[t := ERegs CELL_ETIMEDOUT (e_event (ereg (eq_regs s) t))]> (eq_regs s)) s')).

(** *** sys_event_queue_tryreceive *)
Definition qt_call (t size : Z) (s : equeue) : equeue :=
  if eq_exists s then qgo t (QtLock size) s else qgo t (QtReturned CELL_ESRCH []) s.

(** The loop over the queue; [None] is a store outside of [events], an array of
    127 elements. *)
Fixpoint take_events (size count : Z) (events dest : list lv2_event) : option (list lv2_event * list lv2_event) :=
  match events with
  | [] => Some (dest, [])
  | ev :: events' =>
      if count <? size then
        if count <? 127 then take_events size (count + 1) events' (dest ++ [ev]) else None
      else Some (dest, events)
  end.

Definition qt_lock (t size : Z) (s : equeue) : option equeue :=
  if eq_exists s then
    '(dest, events) ← take_events size 0 (eq_events s) [];
    Some (qgo t (QtReturned CELL_OK dest) (e_got t dest (e_take (Some t) dest events s)))
  else Some (qgo t (QtReturned CELL_ESRCH []) s).

(** *** sys_event_queue_drain *)
Definition q_drain_call (t : Z) (s : equeue) : equeue :=
  if eq_exists s then qgo t QDrain s else qret t CELL_ESRCH s.
Definition q_drain (t : Z) (s : equeue) : equeue := qret t CELL_OK (e_take None (eq_events s) [] s).

(** *** sys_event_queue_destroy *)
Definition qd_call (t mode : Z) (s : equeue) : option equeue :=
  if negb (mode =? 0) && negb (mode =? SYS_EVENT_QUEUE_DESTROY_FORCE) then Some (qret t CELL_EINVAL s)
  else if eq_exists s then
    if (mode =? 0) && negb (eq_pq s =? 0) then Some (qret t CELL_EBUSY s)
    else
      l ← walk (eq_cpus s) (eq_pq s);
      if existsb (is_again (eq_cpus s)) l then Some (qgo t QStopped (e_stop t s))
      else
        let s' := e_exists false s in
        Some (if eq_pq s =? 0 then qret t CELL_OK s' else qgo t QdWake (e_mutex (Some t) s'))
  else Some (qret t CELL_ESRCH s).

Definition qd_wake (t : Z) (s : equeue) : option equeue :=
  l ← walk (eq_cpus s) (eq_pq s);
  let rg := fold_left (fun rg u => <[u := ERegs CELL_ECANCELED (e_event (ereg rg u))]> rg) l (eq_regs s) in
  Some (qret t CELL_OK
          (e_mutex None (e_signal (eq_signal s ∪ list_to_set l) (e_regs rg (e_queue 0 (eq_cpus s) s))))).

(** *** lv2_event_queue::send *)
Definition qn_send (t : Z) (port : option Z) (ev : lv2_event) (s : equeue) : option equeue :=
  if negb (eq_exists s) then Some (qret t CELL_ENOTCONN s)
  else if eq_pq s =? 0 then
    Some (if Z.of_nat (length (eq_events s)) <? eq_size s then qret t CELL_OK (e_push ev s) else qret t CELL_EBUSY s)
  else
    '(cpu, first, h) ← schedule (eq_protocol s) true (eq_cpus s) (eq_pq s);
    let s' := e_queue first h s in
    Some
      (if is_again h cpu then
         match port with Some _ => qgo t QStopped (e_stop t s') | None => qret t CELL_EAGAIN s' end
       else qgo t (QnStore port ev cpu) (e_mutex (Some t) s')).

Definition port_busy (d : Z) (p : Z) (m : gmap Z lv2_event_port) : gmap Z lv2_event_port :=
  alter (fun x => Port (p_type x) (p_name x) (u64 (is_busy x + d)) (p_queue x) (p_alive x)) p m.

(** The event goes to the registers of [cpu], which is woken; the sender waits
    to be scheduled again when [cpu] has the better priority. *)
Definition qn_store (t : Z) (port : option Z) (ev : lv2_event) (cpu : Z) (s : equeue) : equeue :=
  let s' := e_take (Some cpu) [ev] (eq_events s) (e_mutex None s) in
  let s' := e_regs (<[cpu := ERegs (e_gpr3 (ereg (eq_regs s) cpu)) ev]> (eq_regs s)) s' in
  let s' := e_signal (eq_signal s ∪ {[cpu]}) s' in
  let s' := e_sent ev s' in
  match port with
  | Some p =>
      if prio (prio_of (eq_cpus s) cpu) <? prio (prio_of (eq_cpus s) t)
      then qgo t (QnWait p) (e_ports (port_busy 1 p (eq_ports s)) s')
      else qret t CELL_OK s'
  | None => qret t CELL_OK s'
  end.

(** *** Ports *)
Definition process_getpid : Z := 1.

(** [idm::check], [idm::check_unlocked]: the port of an ID. *)
Definition port_of (s : equeue) (p : Z) : option lv2_event_port :=
  match eq_ports s !! p with Some x => if p_alive x then Some x else None | None => None end.
(** [lv2_obj::check(port->queue)]. *)
Definition check_queue (s : equeue) (x : lv2_event_port) : bool := p_queue x && eq_exists s.

Definition port_create (t p type name : Z) (s : equeue) : equeue :=
  if negb (type =? SYS_EVENT_PORT_LOCAL) && negb (type =? SYS_EVENT_PORT_IPC) then qret t CELL_EINVAL s
  else qret t CELL_OK (e_ports (<[p := Port type name 0 false true]> (eq_ports s)) s).

Definition port_destroy (t p : Z) (s : equeue) : equeue :=
  match port_of s p with
  | None => qret t CELL_ESRCH s
  | Some x =>
      if check_queue s x then qret t CELL_EISCONN s
      else qret t CELL_OK (e_ports (<[p := Port (p_type x) (p_name x) (is_busy x) (p_queue x) false]> (eq_ports s)) s)
  end.

Definition port_connect_local (t p : Z) (s : equeue) : equeue :=
  match port_of s p with
  | None => qret t CELL_ESRCH s
  | Some x =>
      if negb (eq_exists s) then qret t CELL_ESRCH s
      else if negb (p_type x =? SYS_EVENT_PORT_LOCAL) then qret t CELL_EINVAL s
      else if check_queue s x then qret t CELL_EISCONN s
      else qret t CELL_OK (e_ports (<[p := Port (p_type x) (p_name x) (is_busy x) true true]> (eq_ports s)) s)
  end.

Definition port_disconnect (t p : Z) (s : equeue) : equeue :=
  match port_of s p with
  | None => qret t CELL_ESRCH s
  | Some x =>
      if negb (check_queue s x) then qret t CELL_ENOTCONN s
      else if negb (is_busy x =? 0) then qret t CELL_EBUSY s
      else qret t CELL_OK (e_ports (<[p := Port (p_type x) (p_name x) (is_busy x) false true]> (eq_ports s)) s)
  end.

Definition port_send (t p data1 data2 data3 : Z) (s : equeue) : equeue :=
  match port_of s p with
  | None => qret t CELL_ESRCH s
  | Some x =>
      if check_queue s x then
        let source := if p_name x =? 0 then Z.lor (Z.shiftl process_getpid 32) p else p_name x in
        qgo t (QnSend (Some p) (source, data1, data2, data3)) s
      else qret t CELL_ENOTCONN s
  end.

(** [port->is_busy--], through the pointer the callback of [idm::check] left. *)
Definition port_requeued (t p : Z) (s : equeue) : equeue :=
  qret t CELL_OK
    (match port_of s p with Some _ => e_ports (port_busy (-1) p (eq_ports s)) s | None => e_freed_use s end).

(** *** Steps *)
Definition q_unlocked (s : equeue) : bool := match eq_mutex s with None => true | Some _ => false end.

Definition q_run (t : Z) (s : equeue) : option equeue :=
  let locked (o : option equeue) := if q_unlocked s then o else None in
  match qpc s t with
  | QrLock to => locked (Some (qr_lock t to s))
  | QrSleep _ => qr_signal t s
  | QrTimeout => Some (qr_timeout t s)
  | QrTimeoutSync => locked (Some (qr_end t s))
  | QrTimeoutLock => locked (qr_unqueue t s)
  | QtLock size => locked (qt_lock t size s)
  | QDrain => locked (Some (q_drain t s))
  | QdWake => qd_wake t s
  | QnSend port ev => locked (qn_send t port ev s)
  | QnStore port ev cpu => Some (qn_store t port ev cpu s)
  | QnWait p => Some (port_requeued t p s)
  | _ => None
  end.

Inductive qaction : Set :=
  | QCallReceive (t : Z) (timeout : bool)
  | QCallTryreceive (t size : Z)
  | QCallDrain (t : Z)
  | QCallDestroy (t mode : Z)
  | QCallPortCreate (t p type name : Z)
  | QCallPortDestroy (t p : Z)
  | QCallPortConnect (t p : Z)
  | QCallPortDisconnect (t p : Z)
  | QCallPortSend (t p data1 data2 data3 : Z)
  | QHostSend (t : Z) (event : Z * Z * Z * Z)   (* a host thread *)
  | QRun (t : Z)
  | QTimeoutUp (t : Z)                          (* the time of a sleeping thread is up *)
  | QStop (t : Z)                               (* the emulator stops a sleeping thread *)
  | QReturn (t : Z).                            (* back in guest code *)

Definition q_can_call (t : Z) (s : equeue) : bool :=
  match eq_cpus s !! t, qpc s t with
  | Some c, QIdle => negb (again c) && negb (t =? 0)
  | _, _ => false
  end.

(** Inside a callback of the ID manager, which holds its lock for reading. *)
Definition q_in_idm (p : qpoint) : bool :=
  match p with QrLock _ | QDrain | QnSend (Some _) _ | QnStore (Some _) _ _ => true | _ => false end.
Definition idm_free (s : equeue) : bool := forallb (fun '(_, p) => negb (q_in_idm p)) (map_to_list (eq_points s)).

#[export] Instance equeue_machine : Machine equeue qaction := fun a s =>
  let call t (b : bool) (s' : option equeue) := if q_can_call t s && b then s' else None in
  match a with
  | QCallReceive t to => call t true (Some (qr_call t to s))
  | QCallTryreceive t size => call t true (Some (qt_call t size s))
  | QCallDrain t => call t true (Some (q_drain_call t s))
  | QCallDestroy t mode => call t (idm_free s && q_unlocked s) (qd_call t mode s)
  | QCallPortCreate t p type name =>
      call t (idm_free s && bool_decide (eq_ports s !! p = None)) (Some (port_create t p type name s))
  | QCallPortDestroy t p => call t (idm_free s) (Some (port_destroy t p s))
  | QCallPortConnect t p => call t (idm_free s) (Some (port_connect_local t p s))
  | QCallPortDisconnect t p => call t (idm_free s) (Some (port_disconnect t p s))
  | QCallPortSend t p d1 d2 d3 => call t true (Some (port_send t p d1 d2 d3 s))
  | QHostSend t ev =>
      match eq_cpus s !! t, qpc s t with
      | None, QIdle => if t =? 0 then None else Some (qgo t (QnSend None ev) s)
      | _, _ => None
      end
  | QRun t => q_run t s
  | QTimeoutUp t => match qpc s t with QrSleep true => Some (qgo t QrTimeout s) | _ => None end
  | QStop t => match qpc s t with QrSleep _ => if q_unlocked s then qr_stop t s else None | _ => None end
  | QReturn t =>
      match qpc s t with
      | QrReturned _ _ | QtReturned _ _ | QReturned _ => Some (qgo t QIdle (e_signal (eq_signal s ∖ {[t]}) s))
      | _ => None
      end
  end.

(** A new queue, with threads that are in no call. *)
Definition q_initial (s : equeue) : Prop :=
  queue_create (eq_protocol s) SYS_PPU_QUEUE (eq_size s) = CELL_OK /\ eq_exists s = true /\ eq_mutex s = None /\ eq_events s = [] /\ eq_pq s = 0 /\
  eq_ports s = ∅ /\ eq_points s = ∅ /\ eq_signal s = ∅ /\ eq_cpus s !! 0 = None /\
  (forall t, is_again (eq_cpus s) t = false) /\ Z.of_nat (size (eq_cpus s)) < 2 ^ 64 /\
  eq_sent s = [] /\ eq_taken s = [] /\ eq_got s = ∅ /\ eq_freed_use s = false.

(** ** The invariant *)

(** The waiter that a sender has unlinked and not woken yet. *)
Definition qtarget (s : equeue) : option Z :=
  match eq_mutex s with
  | Some d => match qpc s d with QnStore _ _ cpu => Some cpu | _ => None end
  | None => None
  end.

Definition assigned (t : Z) (tk : list (option Z * lv2_event)) : list lv2_event :=
  map snd (filter (fun x => fst x = Some t) tk).

(** What the invariant says of one thread depends on this: its point, whether it
    is in the queue, signalled, the target of a sender, holds the mutex, is
    stopped, is a guest thread; its registers, and the events taken for it and
    returned by it. *)
Record qview := QView {
  v_pc : qpoint; v_q : bool; v_sg : bool; v_tg : bool; v_lk : bool; v_ag : bool; v_cpu : bool;
  v_reg : eregs; v_as : list lv2_event; v_got : list lv2_event
}.

Definition view (s : equeue) (l : list Z) (t : Z) : qview :=
  QView (qpc s t) (bool_decide (t ∈ l)) (bool_decide (t ∈ eq_signal s)) (bool_decide (qtarget s = Some t))
    (bool_decide (eq_mutex s = Some t)) (is_again (eq_cpus s) t) (bool_decide (is_Some (eq_cpus s !! t)))
    (ereg (eq_regs s) t) (assigned t (eq_taken s)) (got s t).

Definition asleep (p : qpoint) : bool :=
  match p with QrSleep _ | QrTimeout | QrTimeoutSync | QrTimeoutLock => true | _ => false end.
Definition qholds (p : qpoint) : bool := match p with QdWake | QnStore _ _ _ => true | _ => false end.
Definition guest_point (p : qpoint) : bool :=
  match p with
  | QrLock _ | QrSleep _ | QrTimeout | QrTimeoutSync | QrTimeoutLock | QrStopped | QnSend (Some _) _ | QnStore (Some _) _ _ | QnWait _ => true
  | _ => false
  end.

Definition one_of (a b c : bool) : bool :=
  match a, b, c with true, false, false | false, true, false | false, false, true => true | _, _, _ => false end.

Definition bits_ok (v : qview) : bool :=
  implb (guest_point (v_pc v)) (v_cpu v) && eqb (v_lk v) (qholds (v_pc v)) &&
  match v_pc v with
  | QrSleep _ | QrTimeout | QrTimeoutLock => one_of (v_q v) (v_sg v) (v_tg v)
  | QrTimeoutSync => one_of false (v_sg v) (v_tg v) && negb (v_q v)
  | QrStopped => one_of (v_q v) (v_sg v) (v_tg v) && v_q v && v_ag v
  | QrReturned _ _ => negb (v_q v) && negb (v_tg v)
  | _ => negb (v_q v) && negb (v_sg v) && negb (v_tg v)
  end.

(** The event a thread was given and has not returned with. *)
Definition pending (v : qview) : list lv2_event :=
  if asleep (v_pc v) && v_sg v && (e_gpr3 (v_reg v) =? CELL_OK) then [e_event (v_reg v)] else [].

Definition view_ok (v : qview) : Prop :=
  bits_ok v = true /\
  ((v_q v || v_tg v || match v_pc v with QrLock _ => true | _ => false end) = true -> e_gpr3 (v_reg v) = CELL_OK) /\
  v_as v = v_got v ++ pending v.

Definition waits_on (p : Z) (pt : qpoint) : bool := match pt with QnWait p' => p =? p' | _ => false end.
Definition in_port (pt : qpoint) : option Z :=
  match pt with QnSend (Some p) _ | QnStore (Some p) _ _ => Some p | _ => None end.

(** A port that is alive and connected. *)
Definition port_up (s : equeue) (p : Z) : Prop := exists x, port_of s p = Some x /\ p_queue x = true.

Record pinv (s : equeue) : Prop := {
  pi_busy : forall p x, eq_ports s !! p = Some x -> p_alive x = true -> is_busy x = u64 (count_at (waits_on p) (eq_points s));
  pi_in : forall t p, in_port (qpc s t) = Some p -> port_up s p;
  pi_wait : forall t p, waits_on p (qpc s t) = true -> eq_exists s = true -> port_up s p;
  pi_new : forall t p, waits_on p (qpc s t) = true -> is_Some (eq_ports s !! p);
  pi_freed : eq_freed_use s = true -> eq_exists s = false
}.

Record qinv (s : equeue) (l : list Z) : Prop := {
  qi_view : forall t, view_ok (view s l t);
  qi_queue : queue (eq_cpus s) (eq_pq s) l;
  qi_zero : eq_cpus s !! 0 = None;
  qi_size : Z.of_nat (size (eq_cpus s)) < 2 ^ 64;
  qi_room : 0 < eq_size s <= 127 /\ Z.of_nat (length (eq_events s)) <= eq_size s;
  qi_empty : l <> [] \/ qtarget s <> None -> eq_events s = [];
  qi_sent : map snd (eq_taken s) ++ eq_events s = eq_sent s;
  qi_gone : eq_exists s = false -> l = [] \/ exists d, eq_mutex s = Some d /\ qpc s d = QdWake;
  qi_wake : forall d, qpc s d = QdWake -> forall u, u ∈ l -> is_again (eq_cpus s) u = false;
  qi_idm : forall t to, qpc s t = QrLock to -> eq_exists s = true;
  qi_ports : pinv s
}.

(** ** Frames *)

Lemma qpc_points s t p m u : eq_points s = <[t := p]> m -> qpc s u = if decide (u = t) then p else at_point QIdle m u.
Proof. intros E. unfold qpc. rewrite E. apply at_insert. Qed.

Lemma qpc_points_ne s s' t p u : eq_points s' = <[t := p]> (eq_points s) -> u <> t -> qpc s' u = qpc s u.
Proof. intros E N. rewrite (qpc_points _ _ _ _ _ E). by rewrite decide_False. Qed.

Lemma qpc_points_here s s' t p : eq_points s' = <[t := p]> (eq_points s) -> qpc s' t = p.
Proof. intros E. rewrite (qpc_points _ _ _ _ _ E). by rewrite decide_True. Qed.

Lemma qtarget_none s : eq_mutex s = None -> qtarget s = None.
Proof. unfold qtarget. by intros ->. Qed.

Lemma qtarget_frame s s' t p :
  eq_points s' = <[t := p]> (eq_points s) -> eq_mutex s' = eq_mutex s -> eq_mutex s <> Some t -> qtarget s' = qtarget s.
Proof.
  intros E M N. unfold qtarget. rewrite M. destruct (eq_mutex s) as [d|]; [|done]. by rewrite (qpc_points_ne _ _ _ _ _ E) by congruence.
Qed.

Lemma assigned_app t a b : assigned t (a ++ b) = assigned t a ++ assigned t b.
Proof. unfold assigned. by rewrite filter_app, map_app. Qed.

Lemma assigned_map t w evs : assigned t (map (fun ev => (w, ev)) evs) = if decide (w = Some t) then evs else [].
Proof.
  unfold assigned. induction evs as [|ev evs IH]; [by destruct (decide _)|]. cbn [map]. rewrite filter_cons. cbn [fst].
  destruct (decide (w = Some t)); cbn [map snd]; by rewrite IH.
Qed.

Lemma ereg_insert rg t r u : ereg (<[t := r]> rg) u = if decide (u = t) then r else ereg rg u.
Proof. apply at_insert. Qed.

Lemma got_insert s t evs u : got (e_got t evs s) u = if decide (u = t) then got s t ++ evs else got s u.
Proof. unfold got at 1. cbn. apply at_insert. Qed.

(** The ports do not change, and the thread neither enters nor leaves a wait. *)
Lemma pinv_frame s s' t p :
  pinv s -> eq_points s' = <[t := p]> (eq_points s) -> eq_ports s' = eq_ports s -> eq_freed_use s' = eq_freed_use s ->
  (eq_exists s' = true -> eq_exists s = true) -> (eq_freed_use s = true -> eq_exists s' = false) ->
  (forall q, waits_on q p = false /\ waits_on q (qpc s t) = false) -> (forall q, in_port p = Some q -> port_up s q) -> pinv s'.
Proof.
  intros P E EP EF EX EXF W I. assert (U : forall q, port_up s' q <-> port_up s q) by (intros; unfold port_up, port_of; by rewrite EP).
  split.
  - intros q x L A. rewrite EP in L. rewrite (pi_busy _ P q x L A), E, (count_insert QIdle) by done. fold (qpc s t).
    destruct (W q) as [-> ->]. cbn. f_equal. lia.
  - intros u q H. apply U. destruct (decide (u = t)) as [->|N]; [rewrite (qpc_points_here _ _ _ _ E) in H; auto|].
    rewrite (qpc_points_ne _ _ _ _ _ E N) in H. by apply (pi_in _ P u).
  - intros u q H X. apply U. destruct (decide (u = t)) as [->|N]; [rewrite (qpc_points_here _ _ _ _ E), (proj1 (W q)) in H; done|].
    rewrite (qpc_points_ne _ _ _ _ _ E N) in H. apply (pi_wait _ P u q H). auto.
  - intros u q H. rewrite EP. destruct (decide (u = t)) as [->|N]; [rewrite (qpc_points_here _ _ _ _ E), (proj1 (W q)) in H; done|].
    rewrite (qpc_points_ne _ _ _ _ _ E N) in H. by apply (pi_new _ P u).
  - rewrite EF. done.
Qed.

Lemma view_frame s s' l t p u :
  u <> t -> eq_points s' = <[t := p]> (eq_points s) -> eq_mutex s' = eq_mutex s -> eq_mutex s <> Some t ->
  eq_cpus s' = eq_cpus s -> (u ∈ eq_signal s' <-> u ∈ eq_signal s) -> ereg (eq_regs s') u = ereg (eq_regs s) u ->
  assigned u (eq_taken s') = assigned u (eq_taken s) -> got s' u = got s u -> view s' l u = view s l u.
Proof.
  intros N E M NM C S R A G. unfold view. rewrite (qpc_points_ne _ _ _ _ _ E N), (qtarget_frame _ _ _ _ E M NM), M, C, R, A, G.
  f_equal. by apply bool_decide_ext.
Qed.

Lemma view_lock s l t : qinv s l -> eq_mutex s = Some t <-> qholds (qpc s t) = true.
Proof.
  intros I. destruct (qi_view _ _ I t) as [B _]. unfold bits_ok in B. cbn in B. apply andb_true_iff in B as [[_ B]%andb_true_iff _].
  apply eqb_prop in B. rewrite <- B. by rewrite bool_decide_eq_true.
Qed.

Lemma view_ok_lock s l t : view_ok (view s l t) -> qholds (qpc s t) = true -> eq_mutex s = Some t.
Proof.
  intros [B _] H. unfold bits_ok in B. cbn in B. apply andb_true_iff in B as [[_ B]%andb_true_iff _].
  rewrite H in B. apply eqb_prop in B. by apply bool_decide_eq_true in B.
Qed.

(** A step of a thread that leaves the queue, the thread table and the mutex as
    they are, and changes nothing of other threads. *)
Lemma qinv_own s l t p s' :
  qinv s l -> qholds (qpc s t) = false ->
  eq_points s' = <[t := p]> (eq_points s) -> eq_mutex s' = eq_mutex s -> eq_cpus s' = eq_cpus s -> eq_pq s' = eq_pq s -> eq_size s' = eq_size s ->
  (forall u, u <> t -> (u ∈ eq_signal s' <-> u ∈ eq_signal s) /\ ereg (eq_regs s') u = ereg (eq_regs s) u /\
     assigned u (eq_taken s') = assigned u (eq_taken s) /\ got s' u = got s u) ->
  view_ok (view s' l t) ->
  Z.of_nat (length (eq_events s')) <= eq_size s -> (l <> [] \/ qtarget s <> None -> eq_events s' = []) ->
  map snd (eq_taken s') ++ eq_events s' = eq_sent s' ->
  (eq_exists s' = false -> l = [] \/ eq_exists s = false) -> (forall u to, qpc s' u = QrLock to -> eq_exists s' = true) -> pinv s' -> qinv s' l.
Proof.
  intros I H E M C Q SZ F V R EM SE EX ID P.
  assert (NM : eq_mutex s <> Some t) by (rewrite (view_lock _ _ _ I); congruence).
  split; try done.
  - intros u. destruct (decide (u = t)) as [->|N]; [done|]. destruct (F u N) as (F1 & F2 & F3 & F4).
    rewrite (view_frame _ _ _ _ _ _ N E M NM C F1 F2 F3 F4). apply (qi_view _ _ I).
  - rewrite C, Q. apply (qi_queue _ _ I).
  - rewrite C. apply (qi_zero _ _ I).
  - rewrite C. apply (qi_size _ _ I).
  - rewrite SZ. split; [apply (qi_room _ _ I)|done].
  - by rewrite (qtarget_frame _ _ _ _ E M NM).
  - intros X. destruct (EX X) as [?|X']; [by left|]. destruct (qi_gone _ _ I X') as [?|(d & D & DW)]; [by left|right].
    exists d. rewrite M. split; [done|]. rewrite (qpc_points_ne _ _ _ _ _ E); [done|]. intros ->. by rewrite DW in H.
  - intros d D. rewrite C. apply (qi_wake _ _ I d). destruct (decide (d = t)) as [->|N]; [|by rewrite <- (qpc_points_ne _ _ _ _ _ E N)].
    exfalso. apply NM. rewrite <- M. apply (view_ok_lock _ _ _ V). by rewrite D.
Qed.

Lemma view_eq s s' l l' u :
  qpc s' u = qpc s u -> (u ∈ l' <-> u ∈ l) -> (u ∈ eq_signal s' <-> u ∈ eq_signal s) ->
  (qtarget s' = Some u <-> qtarget s = Some u) -> (eq_mutex s' = Some u <-> eq_mutex s = Some u) ->
  is_again (eq_cpus s') u = is_again (eq_cpus s) u -> (is_Some (eq_cpus s' !! u) <-> is_Some (eq_cpus s !! u)) ->
  ereg (eq_regs s') u = ereg (eq_regs s) u -> assigned u (eq_taken s') = assigned u (eq_taken s) -> got s' u = got s u ->
  view s' l' u = view s l u.
Proof.
  intros E Q S T M A C R AS G. unfold view. rewrite E, A, R, AS, G. f_equal; by apply bool_decide_ext.
Qed.

(** Points of a thread that is not asleep, not just back from [receive] and does
    not hold the mutex. *)
Definition calm (p : qpoint) : bool :=
  match p with
  | QIdle | QrLock _ | QtLock _ | QtReturned _ _ | QDrain | QnSend _ _ | QnWait _ | QReturned _ | QStopped => true
  | _ => false
  end.

Lemma calm_holds p : calm p = true -> qholds p = false.
Proof. by destruct p. Qed.

Lemma calm_asleep p : calm p = true -> asleep p = false.
Proof. by destruct p. Qed.

Lemma calm_view s l t : qinv s l -> calm (qpc s t) = true ->
  (t ∉ l) /\ (t ∉ eq_signal s) /\ qtarget s <> Some t /\ eq_mutex s <> Some t /\ assigned t (eq_taken s) = got s t.
Proof.
  intros I C. destruct (qi_view _ _ I t) as (B & _ & P). unfold bits_ok, pending in *. cbn in *.
  rewrite (calm_asleep _ C), app_nil_r in P. rewrite (calm_holds _ C) in B.
  assert (E : ((negb (bool_decide (t ∈ l)) && negb (bool_decide (t ∈ eq_signal s))) && negb (bool_decide (qtarget s = Some t)) &&
    negb (bool_decide (eq_mutex s = Some t))) = true).
  { apply andb_true_iff in B as [[_ L]%andb_true_iff B]. apply eqb_prop in L. rewrite L, andb_true_r. by destruct (qpc s t). }
  repeat rewrite andb_true_iff in E. rewrite !negb_true_iff, !bool_decide_eq_false in E. tauto.
Qed.

(** The view of a thread at a calm point. *)
Lemma view_calm s l t :
  calm (qpc s t) = true -> (guest_point (qpc s t) = true -> is_Some (eq_cpus s !! t)) ->
  (forall to, qpc s t = QrLock to -> e_gpr3 (ereg (eq_regs s) t) = CELL_OK) ->
  t ∉ l -> t ∉ eq_signal s -> qtarget s <> Some t -> eq_mutex s <> Some t -> assigned t (eq_taken s) = got s t -> view_ok (view s l t).
Proof.
  intros C G R Q S T M A. split_and!.
  - unfold bits_ok. cbn. rewrite (calm_holds _ C), (bool_decide_eq_false_2 (t ∈ l)), (bool_decide_eq_false_2 (t ∈ eq_signal s)),
      (bool_decide_eq_false_2 (qtarget s = Some t)), (bool_decide_eq_false_2 (eq_mutex s = Some t)) by done. apply andb_true_iff. split.
    + apply andb_true_iff. split; [|done]. destruct (guest_point (qpc s t)); [|done]. by rewrite bool_decide_eq_true_2 by auto.
    + by destruct (qpc s t).
  - cbn. rewrite !bool_decide_eq_false_2 by done. cbn. destruct (qpc s t) eqn:E; try done. intros _. by eapply R.
  - unfold pending. cbn. by rewrite (calm_asleep _ C), app_nil_r.
Qed.

Lemma qholds_mutex s l t : qinv s l -> qholds (qpc s t) = false -> eq_mutex s <> Some t.
Proof. intros I H. rewrite (view_lock _ _ _ I). congruence. Qed.

(** From a calm point to another one. *)
Lemma qinv_pc s l t p :
  qinv s l -> calm (qpc s t) = true -> calm p = true -> (guest_point p = true -> is_Some (eq_cpus s !! t)) ->
  (forall to, p <> QrLock to) -> pinv (qgo t p s) -> qinv (qgo t p s) l.
Proof.
  intros I C Cp G NR P. destruct (calm_view _ _ _ I C) as (Q & S & T & M & A).
  assert (EP : eq_points (qgo t p s) = <[t := p]> (eq_points s)) by done.
  pose proof (qpc_points_here s _ t p EP) as Here.
  apply (qinv_own s l t p); try done.
  - by apply calm_holds.
  - apply view_calm; rewrite ?Here; try done; [by intros to H%NR|]. by rewrite (qtarget_frame s _ _ _ EP).
  - apply (qi_room _ _ I).
  - apply (qi_empty _ _ I).
  - apply (qi_sent _ _ I).
  - auto.
  - intros u to H. destruct (decide (u = t)) as [->|N]; [rewrite Here in H; by apply NR in H|].
    rewrite (qpc_points_ne s _ _ _ _ EP N) in H. by apply (qi_idm _ _ I u to).
Qed.

Lemma pinv_go s t p : pinv s -> (forall q, waits_on q (qpc s t) = false) -> (forall q, waits_on q p = false) ->
  (forall q, in_port p = Some q -> port_up s q) -> pinv (qgo t p s).
Proof. intros P W W' I. eapply (pinv_frame s _ t p); try done. by apply (pi_freed _ P). Qed.

(** A call returns at once, or its last step changes nothing. *)
Lemma qinv_ret s l t p :
  qinv s l -> calm (qpc s t) = true -> (forall q, waits_on q (qpc s t) = false) ->
  calm p = true -> guest_point p = false -> qinv (qgo t p s) l.
Proof.
  intros I C W Cp G. apply qinv_pc; try done; [by rewrite G|by intros to ->|]. apply pinv_go; try done.
  - apply (qi_ports _ _ I).
  - by destruct p.
  - destruct p as [| | | | | | | | | | |[] ?|[] ? ?| | | |]; done.
Qed.

Lemma q_can_call_spec t s : q_can_call t s = true -> qpc s t = QIdle /\ is_Some (eq_cpus s !! t) /\ t <> 0.
Proof.
  unfold q_can_call. destruct (eq_cpus s !! t) as [c|] eqn:E; [|done]. destruct (qpc s t); try done.
  intros [_ H]%andb_true_iff. apply negb_true_iff, Z.eqb_neq in H. eauto.
Qed.

(** [receive] enters the queue. *)
Lemma qinv_qr_call s l t to : qinv s l -> qpc s t = QIdle -> is_Some (eq_cpus s !! t) -> qinv (qr_call t to s) l.
Proof.
  intros I E C. destruct (calm_view s l t I) as (Q & S & T & M & A); [by rewrite E|]. unfold qr_call.
  set (rg := <[t := _]> (eq_regs s)). set (p := if eq_exists s then QrLock to else QReturned CELL_ESRCH).
  assert (EE : (if eq_exists s then qgo t (QrLock to) (e_regs rg s) else qret t CELL_ESRCH (e_regs rg s)) = qgo t p (e_regs rg s))
    by (unfold p, qret; by destruct (eq_exists s)).
  rewrite EE. clear EE. set (s' := qgo t p (e_regs rg s)).
  assert (EP : eq_points s' = <[t := p]> (eq_points s)) by done. pose proof (qpc_points_here s s' t p EP) as Here.
  apply (qinv_own s l t p); try done.
  - by rewrite E.
  - intros u N. split; [done|]. split; [|done]. cbn. unfold rg. by rewrite ereg_insert, decide_False.
  - apply view_calm; rewrite ?Here; try done.
    + by destruct (eq_exists s).
    + intros. cbn. unfold rg. by rewrite ereg_insert, decide_True.
    + by rewrite (qtarget_frame s s' _ _ EP).
  - apply (qi_room _ _ I).
  - apply (qi_empty _ _ I).
  - apply (qi_sent _ _ I).
  - auto.
  - intros u to' H. destruct (decide (u = t)) as [->|N].
    + rewrite Here in H. unfold p in H. change (eq_exists s' = true) with (eq_exists s = true). by destruct (eq_exists s).
    + rewrite (qpc_points_ne s s' _ _ _ EP N) in H. by apply (qi_idm _ _ I u to').
  - eapply (pinv_frame s s' t p); try done; [apply (qi_ports _ _ I)|apply (pi_freed _ (qi_ports _ _ I))| |].
    + intros q. rewrite E. unfold p. by destruct (eq_exists s).
    + intros q. unfold p. by destruct (eq_exists s).
Qed.

(** [receive] ends for a thread that was woken. *)
Lemma qinv_end s l t sg :
  qinv s l -> asleep (qpc s t) = true -> t ∉ l -> qtarget s <> Some t -> sg = eq_signal s \/ sg = eq_signal s ∖ {[t]} ->
  qinv (qr_end t (e_signal sg s)) l.
Proof.
  intros I AS Q T HS. destruct (qi_view _ _ I t) as (B & _ & P).
  assert (SG : t ∈ eq_signal s).
  { unfold bits_ok in B. cbn in B. rewrite (bool_decide_eq_false_2 (t ∈ l)), (bool_decide_eq_false_2 (qtarget s = Some t)) in B by done.
    apply andb_true_iff in B as [_ B]. case_bool_decide; [done|]. by destruct (qpc s t). }
  assert (NH : qholds (qpc s t) = false) by (by destruct (qpc s t)). pose proof (qholds_mutex _ _ _ I NH) as NM.
  unfold qr_end. set (r := ereg _ t). set (p := QrReturned (e_gpr3 r) (e_event r)). set (s1 := if e_gpr3 r =? CELL_OK then _ else _).
  change (ereg (eq_regs (e_signal sg s)) t) with (ereg (eq_regs s) t) in r.
  assert (F : eq_points s1 = eq_points s /\ eq_mutex s1 = eq_mutex s /\ eq_cpus s1 = eq_cpus s /\ eq_pq s1 = eq_pq s /\ eq_size s1 = eq_size s /\
    eq_signal s1 = sg /\ eq_regs s1 = eq_regs s /\ eq_taken s1 = eq_taken s /\ eq_events s1 = eq_events s /\ eq_sent s1 = eq_sent s /\
    eq_exists s1 = eq_exists s /\ eq_ports s1 = eq_ports s /\ eq_freed_use s1 = eq_freed_use s /\
    forall u, got s1 u = if decide (u = t) then got s t ++ (if e_gpr3 r =? CELL_OK then [e_event r] else []) else got s u).
  { unfold s1. destruct (_ =? _); split_and!; try done; intros u.
    - rewrite got_insert. done.
    - change (got (e_signal sg s) u) with (got s u). case_decide; [subst; by rewrite app_nil_r|done]. }
  destruct F as (F1 & F2 & F3 & F4 & F5 & F6 & F7 & F8 & F9 & F10 & F11 & F12 & F13 & F14). clearbody s1.
  assert (EP : eq_points (qgo t p s1) = <[t := p]> (eq_points s)) by (cbn; by rewrite F1). pose proof (qpc_points_here s _ t p EP) as Here.
  apply (qinv_own s l t p); try done; cbn [qgo eq_mutex eq_cpus eq_pq eq_size eq_signal eq_regs eq_taken eq_events eq_sent eq_exists]; rewrite ?F2, ?F3, ?F4, ?F5, ?F6, ?F7, ?F8, ?F9, ?F10, ?F11; try done.
  - intros u N. split; [|split; [done|split; [done|]]]; [destruct HS as [-> | ->]; set_solver|].
    change (got (qgo t p s1) u) with (got s1 u). by rewrite F14, decide_False.
  - split_and!.
    + unfold bits_ok. cbn. rewrite Here, F2, F3. cbn. rewrite (bool_decide_eq_false_2 (t ∈ l)) by done.
      rewrite (qtarget_frame s _ _ _ EP), (bool_decide_eq_false_2 (qtarget s = Some t)), (bool_decide_eq_false_2 (eq_mutex s = Some t)) by done. done.
    + cbn. rewrite Here. rewrite (bool_decide_eq_false_2 (t ∈ l)), (qtarget_frame s _ _ _ EP), (bool_decide_eq_false_2 (qtarget s = Some t)) by done. done.
    + unfold pending in *. cbn [v_pc v_sg v_reg v_as v_got view asleep andb qgo eq_taken] in *. rewrite Here. cbn [asleep andb]. rewrite F8, P, AS, (bool_decide_eq_true_2 (t ∈ eq_signal s)) by done.
      change (got (qgo t p s1) t) with (got s1 t). rewrite F14, decide_True by done. cbn [andb]. by rewrite app_nil_r.
  - apply (qi_room _ _ I).
  - apply (qi_empty _ _ I).
  - apply (qi_sent _ _ I).
  - auto.
  - intros u to H. destruct (decide (u = t)) as [->|N]; [by rewrite Here in H|]. rewrite (qpc_points_ne s _ _ _ _ EP N) in H. by apply (qi_idm _ _ I u to).
  - eapply (pinv_frame s _ t p); try done; cbn [qgo eq_exists eq_ports eq_freed_use]; rewrite ?F11, ?F12, ?F13; try done; [apply (qi_ports _ _ I)|apply (pi_freed _ (qi_ports _ _ I))|].
    intros q. split; [done|]. by destruct (qpc s t).
Qed.

(** A step under the mutex that leaves the ports as they are. *)
Lemma qinv_free s (l : list Z) s' (l' : list Z) t p :
  qinv s l -> eq_mutex s = None -> eq_mutex s' = None -> eq_points s' = <[t := p]> (eq_points s) ->
  queue (eq_cpus s') (eq_pq s') l' -> (forall u, is_Some (eq_cpus s' !! u) <-> is_Some (eq_cpus s !! u)) ->
  (forall u, u <> t -> is_again (eq_cpus s') u = is_again (eq_cpus s) u) ->
  eq_size s' = eq_size s -> eq_exists s' = eq_exists s -> eq_ports s' = eq_ports s -> eq_freed_use s' = eq_freed_use s ->
  (forall u, u <> t -> (u ∈ l' <-> u ∈ l) /\ (u ∈ eq_signal s' <-> u ∈ eq_signal s) /\ ereg (eq_regs s') u = ereg (eq_regs s) u /\
     assigned u (eq_taken s') = assigned u (eq_taken s) /\ got s' u = got s u) ->
  view_ok (view s' l' t) ->
  Z.of_nat (length (eq_events s')) <= eq_size s -> (l' <> [] -> eq_events s' = []) ->
  map snd (eq_taken s') ++ eq_events s' = eq_sent s' -> (eq_exists s = false -> l' = []) ->
  (forall to, p <> QrLock to) -> in_port p = None -> (forall q, waits_on q p = false /\ waits_on q (qpc s t) = false) -> qinv s' l'.
Proof.
  intros I M M' E Q D AG SZ EX PO FR F V R EM SE GO NR IP W. split; try done.
  - intros u. destruct (decide (u = t)) as [->|N]; [done|]. destruct (F u N) as (F1 & F2 & F3 & F4 & F5).
    rewrite (view_eq s s' l l' u); try done; [apply (qi_view _ _ I)|by rewrite (qpc_points_ne _ _ _ _ _ E N)| | |by apply AG].
    + by rewrite !qtarget_none.
    + by rewrite M, M'.
  - apply eq_None_not_Some. rewrite D. rewrite (qi_zero _ _ I). by intros [].
  - assert (SE' : size (eq_cpus s') = size (eq_cpus s)) by (rewrite <- !size_dom; f_equal; apply set_eq; intros u; rewrite !elem_of_dom; apply D).
    rewrite SE'. apply (qi_size _ _ I).
  - rewrite SZ. split; [apply (qi_room _ _ I)|done].
  - rewrite qtarget_none by done. intros [H|H]; [auto|done].
  - rewrite EX. auto.
  - intros d DW. exfalso. destruct (decide (d = t)) as [->|N].
    + pose proof (view_ok_lock _ _ _ V) as X. rewrite DW in X. specialize (X eq_refl). congruence.
    + rewrite (qpc_points_ne _ _ _ _ _ E N) in DW. pose proof (proj2 (view_lock _ _ d I)) as X. rewrite DW in X. specialize (X eq_refl). congruence.
  - intros u to H. rewrite EX. destruct (decide (u = t)) as [->|N]; [rewrite (qpc_points_here _ _ _ _ E) in H; by apply NR in H|].
    rewrite (qpc_points_ne _ _ _ _ _ E N) in H. by apply (qi_idm _ _ I u to).
  - eapply (pinv_frame s s' t p); try done; [apply (qi_ports _ _ I)|by rewrite EX|rewrite EX; apply (pi_freed _ (qi_ports _ _ I))|by rewrite IP].
Qed.

Lemma gone_free s l : qinv s l -> eq_mutex s = None -> eq_exists s = false -> l = [].
Proof. intros I M X. destruct (qi_gone _ _ I X) as [?|(d & D & _)]; [done|congruence]. Qed.

Lemma q_unlocked_none s : q_unlocked s = true -> eq_mutex s = None.
Proof. unfold q_unlocked. by destruct (eq_mutex s). Qed.

(** What an asleep thread that is in the queue looks like. *)
Lemma view_asleep s l t :
  (match qpc s t with QrSleep _ | QrTimeout | QrTimeoutLock => true | _ => false end) = true ->
  is_Some (eq_cpus s !! t) ->
  t ∈ l -> t ∉ eq_signal s -> qtarget s <> Some t -> eq_mutex s <> Some t -> e_gpr3 (ereg (eq_regs s) t) = CELL_OK ->
  assigned t (eq_taken s) = got s t -> view_ok (view s l t).
Proof.
  intros P C Q S T M R A. split_and!.
  - unfold bits_ok. cbn. rewrite (bool_decide_eq_true_2 (t ∈ l)), (bool_decide_eq_false_2 (t ∈ eq_signal s)),
      (bool_decide_eq_false_2 (qtarget s = Some t)), (bool_decide_eq_false_2 (eq_mutex s = Some t)), (bool_decide_eq_true_2 (is_Some _)) by done.
    by destruct (qpc s t).
  - done.
  - unfold pending. cbn [v_pc v_sg v_reg v_as v_got view]. by rewrite (bool_decide_eq_false_2 (t ∈ eq_signal s)), andb_false_r, app_nil_r.
Qed.

Lemma queued_view s l t : qinv s l -> t ∈ l ->
  (t ∉ eq_signal s) /\ qtarget s <> Some t /\ eq_mutex s <> Some t /\ e_gpr3 (ereg (eq_regs s) t) = CELL_OK /\
  assigned t (eq_taken s) = got s t /\
  (match qpc s t with QrSleep _ | QrTimeout | QrTimeoutLock | QrStopped => true | _ => false end) = true.
Proof.
  intros I Q. destruct (qi_view _ _ I t) as (B & R & P). unfold bits_ok, pending in *. cbn [v_pc v_q v_sg v_tg v_lk v_ag v_cpu v_reg v_as v_got view] in *.
  rewrite (bool_decide_eq_true_2 (t ∈ l)) in B, R by done. apply andb_true_iff in B as [[_ L]%andb_true_iff B]. apply eqb_prop in L.
  assert (E : bool_decide (t ∈ eq_signal s) = false /\ bool_decide (qtarget s = Some t) = false /\ qholds (qpc s t) = false /\
    (match qpc s t with QrSleep _ | QrTimeout | QrTimeoutLock | QrStopped => true | _ => false end) = true).
  { destruct (qpc s t); try done; destruct (bool_decide (t ∈ eq_signal s)), (bool_decide (qtarget s = Some t)); done. }
  destruct E as (E1 & E2 & E3 & E4). rewrite E3 in L. rewrite E1, andb_false_r, app_nil_r in P.
  rewrite bool_decide_eq_false in E1, E2, L. split_and!; auto.
Qed.

Lemma emplace_same tag h first t tag' first' h' : emplace tag h first t = (tag', first', h') ->
  (forall u, is_Some (h' !! u) <-> is_Some (h !! u)) /\ (forall u, is_again h' u = is_again h u).
Proof.
  unfold emplace. intros [= _ _ <-]. split; intros u; unfold is_again; (destruct (decide (u = t)) as [->|N];
    [rewrite lookup_alter_eq|by rewrite lookup_alter_ne]); [apply fmap_is_Some|by destruct (h !! t)].
Qed.

Lemma qinv_qr_lock s l t to : qinv s l -> eq_mutex s = None -> qpc s t = QrLock to -> exists l', qinv (qr_lock t to s) l'.
Proof.
  intros I M E. destruct (calm_view s l t I) as (Q & S & T & NM & A); [by rewrite E|].
  destruct (qi_view _ _ I t) as (B & R & _). assert (R3 : e_gpr3 (ereg (eq_regs s) t) = CELL_OK) by (apply R; cbn; rewrite E; apply orb_true_r).
  assert (C : is_Some (eq_cpus s !! t)).
  { unfold bits_ok in B. cbn in B. rewrite E in B. apply andb_true_iff in B as [[B _]%andb_true_iff _]. cbn in B. by case_bool_decide. }
  assert (X : eq_exists s = true) by (by apply (qi_idm _ _ I t to)).
  unfold qr_lock. destruct (eq_events s) as [|ev events] eqn:EV.
  - destruct (emplace _ _ _ _) as [[tag' first] h] eqn:EM. exists (t :: l). destruct (emplace_same _ _ _ _ _ _ _ EM) as [D AG].
    destruct C as [c C]. assert (T0 : t <> 0) by (intros ->; rewrite (qi_zero _ _ I) in C; done).
    destruct (emplace_spec (eq_tag s) (eq_cpus s) (eq_pq s) l t c) as (h0 & EM' & Q' & _); try done; [apply (qi_queue _ _ I)|].
    rewrite EM in EM'. injection EM' as -> -> ->. set (s' := qgo _ _ _). assert (EP : eq_points s' = <[t := QrSleep to]> (eq_points s)) by done.
    pose proof (qpc_points_here s s' t _ EP) as Here.
    apply (qinv_free s l s' (t :: l) t (QrSleep to)); try done.
    + intros u N. split; [set_solver|done].
    + apply view_asleep; rewrite ?Here; try done; [by apply D; rewrite C|set_solver|]. by rewrite qtarget_none.
    + apply (qi_room _ _ I).
    + exact (qi_sent _ _ I).
    + congruence.
    + intros q. by rewrite E.
  - exists l. assert (L : l = []).
    { destruct l as [|x l]; [done|]. rewrite (qi_empty _ _ I) in EV; [done|by left]. }
    set (rg := <[t := _]> (eq_regs s)). unfold qr_end. cbn [e_regs eq_regs]. unfold rg at 1 2 3 4. rewrite !ereg_insert, !decide_True by done.
    cbn [e_gpr3 e_event]. rewrite R3. cbn [CELL_OK Z.eqb]. set (s' := qgo _ _ _).
    assert (EP : eq_points s' = <[t := QrReturned CELL_OK ev]> (eq_points s)) by done. pose proof (qpc_points_here s s' t _ EP) as Here.
    apply (qinv_free s l s' l t (QrReturned CELL_OK ev)); try done.
    + apply (qi_queue _ _ I).
    + intros u N. split_and!; try done.
      * cbn. unfold rg. by rewrite ereg_insert, decide_False.
      * cbn [s' qgo e_got e_regs e_take eq_taken]. rewrite assigned_app, assigned_map, decide_False by congruence. by rewrite app_nil_r.
      * change (got s' u) with (got (e_got t [ev] (e_regs rg (e_take (Some t) [ev] events s))) u). by rewrite got_insert, decide_False.
    + split_and!.
      * unfold bits_ok. cbn [v_pc v_q v_sg v_tg v_lk v_ag v_cpu view]. rewrite Here. cbn. rewrite (bool_decide_eq_false_2 (t ∈ l)), M by done. by rewrite qtarget_none.
      * cbn [v_pc v_q v_tg v_reg view]. rewrite Here, (bool_decide_eq_false_2 (t ∈ l)), qtarget_none by done. done.
      * unfold pending. cbn [v_pc v_as v_got view]. rewrite Here. cbn [asleep andb]. rewrite app_nil_r.
        change (got s' t) with (got (e_got t [ev] (e_regs rg (e_take (Some t) [ev] events s))) t). rewrite got_insert, decide_True by done.
        cbn [s' qgo e_got e_regs e_take eq_taken]. rewrite assigned_app, assigned_map, decide_True by done. by rewrite A.
    + cbn [s' qgo e_got e_regs e_take eq_events]. pose proof (qi_room _ _ I) as [_ RM]. rewrite EV in RM. cbn [length] in RM. lia.
    + cbn [s' qgo e_got e_regs e_take eq_events eq_taken eq_sent]. rewrite <- (qi_sent _ _ I), EV, map_app, <- app_assoc. done.
    + intros q. by rewrite E.
Qed.

Lemma q_end_same s t : qr_end t s = qr_end t (e_signal (eq_signal s) s).
Proof. by destruct s. Qed.

Lemma qinv_stop s l t to s' : qinv s l -> eq_mutex s = None -> qpc s t = QrSleep to -> qr_stop t s = Some s' -> exists l', qinv s' l'.
Proof.
  intros I M E. unfold qr_stop. rewrite (walk_spec _ _ _ (qi_queue _ _ I)). cbn [mbind option_bind]. intros [= <-]. exists l.
  destruct (mem_list t l) eqn:ML.
  - apply mem_list_spec in ML. destruct (queued_view _ _ _ I ML) as (S & T & NM & R & A & _). set (s' := qgo _ _ _).
    assert (EP : eq_points s' = <[t := QrStopped]> (eq_points s)) by done. pose proof (qpc_points_here s s' t _ EP) as Here.
    assert (C : is_Some (eq_cpus s !! t)) by (by apply (queue_in _ _ _ _ (qi_queue _ _ I))).
    assert (AG : is_again (eq_cpus s') t = true) by (cbn [s' qgo e_stop e_queue eq_cpus]; rewrite set_again_is, decide_True by done; by apply bool_decide_eq_true_2).
    assert (CP : bool_decide (is_Some (eq_cpus s' !! t)) = true) by (apply bool_decide_eq_true_2, set_again_dom; done).
    apply (qinv_free s l s' l t QrStopped); try done.
    + apply set_again_queue, (qi_queue _ _ I).
    + intros u. apply set_again_dom.
    + intros u N. cbn. by rewrite set_again_is, decide_False.
    + split_and!.
      * unfold bits_ok. cbn [v_pc v_q v_sg v_tg v_lk v_ag v_cpu view]. rewrite Here, qtarget_none by done.
        change (eq_signal s') with (eq_signal s). change (eq_mutex s') with (eq_mutex s).
        rewrite (bool_decide_eq_true_2 (t ∈ l)), (bool_decide_eq_false_2 (t ∈ eq_signal s)), (bool_decide_eq_false_2 (eq_mutex s = Some t)) by done.
        by rewrite AG, CP.
      * done.
      * unfold pending. cbn [v_pc v_sg v_reg v_as v_got view]. rewrite Here. cbn [asleep andb]. by rewrite app_nil_r.
    + apply (qi_room _ _ I).
    + intros H. apply (qi_empty _ _ I). by left.
    + apply (qi_sent _ _ I).
    + by apply gone_free.
    + intros q. by rewrite E.
  - rewrite q_end_same. apply qinv_end; try done; [by rewrite E| |by rewrite qtarget_none|by left].
    intros H%mem_list_spec. congruence.
Qed.

(** The point of an asleep thread changes. *)
Lemma qinv_asleep s l t p :
  qinv s l -> asleep (qpc s t) = true ->
  (match p with QrTimeout | QrTimeoutLock => true | QrTimeoutSync => bool_decide (t ∉ l) | _ => false end) = true -> qinv (qgo t p s) l.
Proof.
  intros I A P. assert (EP : eq_points (qgo t p s) = <[t := p]> (eq_points s)) by done. pose proof (qpc_points_here s _ t p EP) as Here.
  assert (NH : qholds (qpc s t) = false) by (by destruct (qpc s t)). pose proof (qholds_mutex _ _ _ I NH) as NM.
  assert (Ap : asleep p = true) by (by destruct p).
  apply (qinv_own s l t p); try done.
  - destruct (qi_view _ _ I t) as (B & R & Pe). unfold bits_ok, pending in *.
    cbn [v_pc v_q v_sg v_tg v_lk v_ag v_cpu v_reg v_as v_got view] in *. split_and!; unfold bits_ok, pending;
      cbn [v_pc v_q v_sg v_tg v_lk v_ag v_cpu v_reg v_as v_got view]; rewrite Here, ?(qtarget_frame s _ _ _ EP) by done;
      change (eq_signal (qgo t p s)) with (eq_signal s); change (eq_mutex (qgo t p s)) with (eq_mutex s).
    + rewrite (bool_decide_eq_false_2 (eq_mutex s = Some t)) in * by done. apply andb_true_iff in B as [[CP _]%andb_true_iff B].
      assert (CP' : bool_decide (is_Some (eq_cpus s !! t)) = true) by (by destruct (qpc s t)). change (eq_cpus (qgo t p s)) with (eq_cpus s). rewrite CP'.
      assert (PQ : p = QrTimeoutSync -> bool_decide (t ∈ l) = false) by (intros ->; apply bool_decide_eq_true in P; by apply bool_decide_eq_false_2).
      clear -A P B PQ. destruct (bool_decide (t ∈ l)), (bool_decide (t ∈ eq_signal s)), (bool_decide (qtarget s = Some t)), (qpc s t), p; try done;
        by specialize (PQ eq_refl).
    + intros H. apply R. revert H. by destruct p, (qpc s t).
    + by rewrite Ap, A in *.
  - apply (qi_room _ _ I).
  - apply (qi_empty _ _ I).
  - apply (qi_sent _ _ I).
  - auto.
  - intros u to H. destruct (decide (u = t)) as [->|N]; [rewrite Here in H; by subst p|].
    rewrite (qpc_points_ne s _ _ _ _ EP N) in H. by apply (qi_idm _ _ I u to).
  - apply pinv_go; [apply (qi_ports _ _ I)|by destruct (qpc s t)|by destruct p|by destruct p].
Qed.

Lemma qinv_qr_timeout s l t : qinv s l -> qpc s t = QrTimeout -> qinv (qr_timeout t s) l.
Proof.
  intros I E. unfold qr_timeout. rewrite (head_nil _ _ _ (qi_queue _ _ I)). case_bool_decide as L; apply qinv_asleep; rewrite ?E; try done.
  subst l. apply bool_decide_eq_true_2. set_solver.
Qed.

Lemma guest_cpu s l t : qinv s l -> guest_point (qpc s t) = true -> is_Some (eq_cpus s !! t) /\ t <> 0.
Proof.
  intros I G. destruct (qi_view _ _ I t) as (B & _ & _). unfold bits_ok in B. cbn [v_pc v_cpu view] in B. rewrite G in B.
  apply andb_true_iff in B as [[B _]%andb_true_iff _]. cbn in B. apply bool_decide_eq_true in B. split; [done|]. intros ->.
  rewrite (qi_zero _ _ I) in B. by destruct B.
Qed.

Lemma qinv_relink s l f h : qinv s l -> same_cpus (eq_cpus s) h -> queue h f l -> qinv (e_queue f h s) l.
Proof.
  intros I Sc Q. split; try exact Q.
  - intros u. rewrite (view_eq s _ l l u); try done; [apply (qi_view _ _ I)|by apply same_cpus_again|by apply same_cpus_dom].
  - apply eq_None_not_Some. change (eq_cpus (e_queue f h s)) with h. rewrite (same_cpus_dom _ _ _ Sc), (qi_zero _ _ I). by intros [].
  - change (eq_cpus (e_queue f h s)) with h. rewrite (same_cpus_size _ _ Sc). apply (qi_size _ _ I).
  - apply (qi_room _ _ I).
  - apply (qi_empty _ _ I).
  - apply (qi_sent _ _ I).
  - apply (qi_gone _ _ I).
  - intros d D u U. change (is_again h u = false). rewrite (same_cpus_again _ _ _ Sc). by apply (qi_wake _ _ I d).
  - apply (qi_idm _ _ I).
  - destruct (qi_ports _ _ I) as [P1 P2 P3 P4 P5]. by split.
Qed.

Lemma qinv_qr_unqueue s l t s' : qinv s l -> eq_mutex s = None -> qpc s t = QrTimeoutLock -> qr_unqueue t s = Some s' -> exists l', qinv s' l'.
Proof.
  intros I M E. unfold qr_unqueue. destruct (guest_cpu s l t I) as [C T0]; [by rewrite E|].
  destruct (unqueue_spec true _ _ _ t (qi_queue _ _ I) T0) as (f & h & U & Q' & Sc & F). rewrite U. cbn [mbind option_bind]. intros [= <-].
  exists (qremove t l). destruct (decide (t ∈ l)) as [ML|ML].
  - rewrite (proj2 (Z.eqb_neq t 0) T0). destruct (queued_view _ _ _ I ML) as (S & T & NM & R & A & _).
    set (rg := <[t := _]> (eq_regs s)). unfold qr_end. cbn [e_regs eq_regs]. unfold rg at 1 2 3 4. rewrite !ereg_insert, !decide_True by done.
    cbn [e_gpr3 e_event]. change (CELL_ETIMEDOUT =? CELL_OK) with false. cbn match. set (p := QrReturned _ _). set (s' := qgo _ _ _).
    assert (EP : eq_points s' = <[t := p]> (eq_points s)) by done. pose proof (qpc_points_here s s' t _ EP) as Here.
    apply (qinv_free s l s' (qremove t l) t p); try done.
    + intros u. by apply same_cpus_dom.
    + intros u N. by apply same_cpus_again.
    + intros u N. split_and!; try done.
      * rewrite elem_of_qremove. tauto.
      * cbn. unfold rg. by rewrite ereg_insert, decide_False.
    + split_and!.
      * unfold bits_ok. cbn [v_pc v_q v_sg v_tg v_lk v_ag v_cpu view]. rewrite Here. unfold p. cbn [guest_point implb qholds].
        rewrite qtarget_none, (bool_decide_eq_false_2 (t ∈ qremove t l)) by (done || (rewrite elem_of_qremove; tauto)). cbn. by rewrite M.
      * cbn [v_pc v_q v_tg v_reg view]. rewrite Here, (bool_decide_eq_false_2 (t ∈ qremove t l)), qtarget_none by (done || (rewrite elem_of_qremove; tauto)). done.
      * unfold pending. cbn [v_pc v_as v_got view]. rewrite Here. cbn [p asleep andb]. by rewrite app_nil_r.
    + apply (qi_room _ _ I).
    + intros _. apply (qi_empty _ _ I). left. by intros ->; apply not_elem_of_nil in ML.
    + apply (qi_sent _ _ I).
    + intros X. by rewrite (gone_free _ _ I M X).
    + intros q. by rewrite E.
  - cbn [Z.eqb]. rewrite qremove_notin in * by done.
    pose proof (qinv_relink s l f h I Sc Q') as I'.
    rewrite q_end_same. apply qinv_end; try done; [change (asleep (qpc s t) = true); by rewrite E|by rewrite qtarget_none|by left].
Qed.

(** The loop of [tryreceive] stays within its array. *)
Lemma take_events_spec size count events dest : count + Z.of_nat (length events) <= 127 ->
  exists evs rest, take_events size count events dest = Some (dest ++ evs, rest) /\ events = evs ++ rest /\
    (0 <= count <= size -> count + Z.of_nat (length evs) <= size) /\ (rest <> [] -> size <= count + Z.of_nat (length evs)).
Proof.
  revert count dest. induction events as [|ev events IH]; intros count dest H; cbn [take_events].
  - exists [], []. rewrite app_nil_r. split_and!; try done. cbn. lia.
  - cbn [length] in H. destruct (Z.ltb_spec count size).
    + destruct (Z.ltb_spec count 127); [|lia]. destruct (IH (count + 1) (dest ++ [ev])) as (evs & rest & E & -> & B & F); [lia|].
      exists (ev :: evs), rest. rewrite E, <- app_assoc. cbn [length]. split_and!; try done; intros; [|specialize (F ltac:(done))]; lia.
    + exists [], (ev :: events). rewrite app_nil_r. cbn. split_and!; try done; lia.
Qed.

Lemma qinv_qt_lock s l t size : qinv s l -> eq_mutex s = None -> qpc s t = QtLock size ->
  exists s', qt_lock t size s = Some s' /\ qinv s' l.
Proof.
  intros I M E. destruct (calm_view s l t I) as (Q & S & T & NM & A); [by rewrite E|]. unfold qt_lock.
  destruct (eq_exists s) eqn:X; [|eexists; split; [done|]; apply qinv_ret; rewrite ?E; done].
  pose proof (qi_room _ _ I) as [RS RL]. destruct (take_events_spec size 0 (eq_events s) []) as (evs & rest & -> & EV & _); [lia|].
  cbn [mbind option_bind app]. eexists. split; [done|]. set (p := QtReturned CELL_OK evs). set (s' := qgo _ _ _).
  assert (EP : eq_points s' = <[t := p]> (eq_points s)) by done. pose proof (qpc_points_here s s' t _ EP) as Here.
  assert (G : forall u, got s' u = if decide (u = t) then got s t ++ evs else got s u).
  { intros u. change (got s' u) with (got (e_got t evs (e_take (Some t) evs rest s)) u). by rewrite got_insert. }
  assert (AS : forall u, assigned u (eq_taken s') = assigned u (eq_taken s) ++ if decide (u = t) then evs else []).
  { intros u. cbn [s' qgo e_got e_take eq_taken]. rewrite assigned_app, assigned_map. f_equal.
    destruct (decide (u = t)) as [->|]; [by rewrite decide_True|rewrite decide_False; congruence]. }
  apply (qinv_free s l s' l t p); try done.
  - apply (qi_queue _ _ I).
  - intros u N. split_and!; try done; [by rewrite AS, decide_False, app_nil_r|by rewrite G, decide_False].
  - apply view_calm; rewrite ?Here; try done; [by rewrite qtarget_none|]. rewrite AS, G, !decide_True by done. by rewrite A.
  - cbn [s' qgo e_got e_take eq_events]. rewrite EV, length_app in RL. lia.
  - intros L. assert (E0 : eq_events s = []) by (apply (qi_empty _ _ I); by left). rewrite E0 in EV. symmetry in EV. by apply app_eq_nil in EV as [_ ->].
  - cbn [s' qgo e_got e_take eq_events eq_taken eq_sent]. rewrite <- (qi_sent _ _ I), EV, map_app, <- app_assoc, map_map. cbn [snd]. by rewrite map_id.
  - congruence.
  - intros q. by rewrite E.
Qed.

Lemma qinv_q_drain s l t : qinv s l -> eq_mutex s = None -> qpc s t = QDrain -> qinv (q_drain t s) l.
Proof.
  intros I M E. destruct (calm_view s l t I) as (Q & S & T & NM & A); [by rewrite E|]. unfold q_drain, qret.
  set (p := QReturned CELL_OK). set (s' := qgo _ _ _).
  assert (EP : eq_points s' = <[t := p]> (eq_points s)) by done. pose proof (qpc_points_here s s' t _ EP) as Here.
  assert (AS : forall u, assigned u (eq_taken s') = assigned u (eq_taken s)).
  { intros u. cbn [s' qgo e_take eq_taken]. rewrite assigned_app, assigned_map, decide_False by done. apply app_nil_r. }
  apply (qinv_free s l s' l t p); try done.
  - apply (qi_queue _ _ I).
  - apply view_calm; rewrite ?Here; try done; [by rewrite qtarget_none|]. by rewrite AS.
  - cbn. destruct (qi_room _ _ I). lia.
  - cbn [s' qgo e_take eq_events eq_taken eq_sent]. rewrite <- (qi_sent _ _ I), map_app, map_map, app_nil_r. cbn [snd]. by rewrite map_id.
  - by apply gone_free.
  - intros q. by rewrite E.
Qed.

(** An event goes to the buffer. *)
Lemma qinv_push s l t port ev : qinv s l -> eq_mutex s = None -> qpc s t = QnSend port ev -> eq_pq s = 0 ->
  Z.of_nat (length (eq_events s)) < eq_size s -> qinv (qret t CELL_OK (e_push ev s)) l.
Proof.
  intros I M E PQ R. destruct (calm_view s l t I) as (Q & S & T & NM & A); [by rewrite E|].
  assert (L : l = []) by (by apply (queue_nil _ _ _ (qi_queue _ _ I))). unfold qret. set (p := QReturned CELL_OK). set (s' := qgo _ _ _).
  assert (EP : eq_points s' = <[t := p]> (eq_points s)) by done. pose proof (qpc_points_here s s' t _ EP) as Here.
  apply (qinv_free s l s' l t p); try done.
  - apply (qi_queue _ _ I).
  - apply view_calm; rewrite ?Here; try done. by rewrite qtarget_none.
  - cbn [s' qgo e_push e_sent eq_events]. rewrite length_app. cbn [length]. lia.
  - cbn [s' qgo e_push e_sent eq_events eq_taken eq_sent]. rewrite <- (qi_sent _ _ I). apply app_assoc.
  - intros q. by rewrite E.
Qed.

Lemma queue_same_state s : e_queue (eq_pq s) (eq_cpus s) s = s.
Proof. by destruct s. Qed.

(** The caller is stopped outside of the queue. *)
Lemma qinv_stop_caller s l t : qinv s l -> eq_mutex s = None -> calm (qpc s t) = true -> (forall q, waits_on q (qpc s t) = false) ->
  qinv (qgo t QStopped (e_stop t s)) l.
Proof.
  intros I M C W. destruct (calm_view s l t I C) as (Q & S & T & NM & A). set (s' := qgo _ _ _).
  assert (EP : eq_points s' = <[t := QStopped]> (eq_points s)) by done. pose proof (qpc_points_here s s' t _ EP) as Here.
  apply (qinv_free s l s' l t QStopped); try done.
  - apply set_again_queue, (qi_queue _ _ I).
  - intros u. apply set_again_dom.
  - intros u N. cbn. by rewrite set_again_is, decide_False.
  - apply view_calm; rewrite ?Here; try done. by rewrite qtarget_none.
  - apply (qi_room _ _ I).
  - intros L. apply (qi_empty _ _ I). by left.
  - apply (qi_sent _ _ I).
  - by apply gone_free.
Qed.

(** A waiter that was unlinked. *)
Lemma view_target s l s' (l' : list Z) u :
  qinv s l -> u ∈ l -> is_again (eq_cpus s) u = false -> qpc s' u = qpc s u -> eq_signal s' = eq_signal s -> eq_regs s' = eq_regs s ->
  eq_taken s' = eq_taken s -> got s' u = got s u -> eq_mutex s' <> Some u -> qtarget s' = Some u -> u ∉ l' -> is_Some (eq_cpus s' !! u) ->
  view_ok (view s' l' u).
Proof.
  intros I UL UA E SG RG TK GO M TT NL C. destruct (queued_view _ _ _ I UL) as (VS & VT & VM & VR & VA & VP).
  assert (NS : qpc s u <> QrStopped).
  { intros ES. destruct (qi_view _ _ I u) as (B & _). unfold bits_ok in B. cbn [v_pc v_q v_sg v_tg v_lk v_ag v_cpu view] in B.
    rewrite ES, UA, andb_false_r in B. by rewrite andb_false_r in B. }
  split_and!; unfold bits_ok, pending; cbn [v_pc v_q v_sg v_tg v_lk v_ag v_cpu v_reg v_as v_got view];
    rewrite E, ?SG, ?RG, ?TK, ?GO, ?(bool_decide_eq_true_2 _ TT), ?(bool_decide_eq_false_2 (u ∈ eq_signal s)) by done; try done.
  - rewrite (bool_decide_eq_false_2 (u ∈ l')), (bool_decide_eq_false_2 (eq_mutex s' = Some u)), (bool_decide_eq_true_2 (is_Some _)) by done.
    clear -VP NS. by destruct (qpc s u).
  - by rewrite andb_false_r, app_nil_r.
Qed.

(** A step that takes the mutex and unlinks at most a target. *)
Lemma qinv_hold s (l : list Z) s' (l' : list Z) t p :
  qinv s l -> eq_mutex s = None -> calm (qpc s t) = true -> (forall q, waits_on q (qpc s t) = false) ->
  eq_mutex s' = Some t -> eq_points s' = <[t := p]> (eq_points s) -> qholds p = true -> (guest_point p = true -> is_Some (eq_cpus s !! t)) ->
  queue (eq_cpus s') (eq_pq s') l' -> same_cpus (eq_cpus s) (eq_cpus s') ->
  eq_size s' = eq_size s -> eq_ports s' = eq_ports s -> eq_freed_use s' = eq_freed_use s -> eq_signal s' = eq_signal s ->
  eq_regs s' = eq_regs s -> eq_taken s' = eq_taken s -> eq_got s' = eq_got s -> eq_sent s' = eq_sent s -> eq_events s' = eq_events s ->
  (match p with QnStore _ _ cpu => cpu ∈ l /\ is_again (eq_cpus s) cpu = false /\ l' = qremove cpu l | _ => l' = l end) ->
  l <> [] -> (eq_exists s' = true -> eq_exists s = true) -> (eq_exists s = true) ->
  (eq_exists s' = false -> p = QdWake /\ (forall u to, qpc s u <> QrLock to) /\ forall u, u ∈ l -> is_again (eq_cpus s) u = false) ->
  (p = QdWake -> eq_exists s' = false) -> (forall q, in_port p = Some q -> port_up s q) -> qinv s' l'.
Proof.
  intros I M C W M' E H G Q' Sc SZ PO FR SG RG TK GT SE EV L NL EX X XF XW IP.
  destruct (calm_view s l t I C) as (Q & S & T & NM & A). pose proof (qpc_points_here _ _ _ _ E) as Here.
  assert (TG : qtarget s' = match p with QnStore _ _ cpu => Some cpu | _ => None end) by (unfold qtarget; by rewrite M', Here).
  assert (EM : eq_events s = []) by (apply (qi_empty _ _ I); by left).
  assert (GO : forall u, got s' u = got s u) by (intros; unfold got; by rewrite GT).
  assert (LI : forall u, u ∈ l' -> u ∈ l) by (intros u U; destruct p; try done; [by rewrite L in U|destruct L as (_ & _ & ->); by apply elem_of_qremove in U as [U _]]).
  split; try done.
  - intros u. destruct (decide (u = t)) as [->|N].
    + split_and!; unfold bits_ok, pending; cbn [v_pc v_q v_sg v_tg v_lk v_ag v_cpu v_reg v_as v_got view];
        rewrite Here, ?TG, ?M', ?SG, ?TK, ?GO, ?(bool_decide_eq_false_2 (t ∈ l')), ?(bool_decide_eq_false_2 (t ∈ eq_signal s)), ?(bool_decide_eq_true_2 (Some t = Some t))
          by (done || (intros U; by apply Q, LI)).
      * destruct p as [| | | | | | | | | | | |po ev cpu| | | |]; try done. cbn [guest_point qholds eqb].
        rewrite (bool_decide_eq_false_2 (Some cpu = Some t)) by (intros [= ->]; by destruct L). rewrite !andb_true_r. destruct po; [|done].
        cbn. apply bool_decide_eq_true_2. rewrite (same_cpus_dom _ _ _ Sc). by apply G.
      * destruct p; try done. rewrite (bool_decide_eq_false_2 (Some cpu = Some t)) by (intros [= ->]; by destruct L). done.
      * destruct p; try done; cbn [asleep andb]; by rewrite A, app_nil_r.
    + assert (TU : qtarget s' = Some u -> exists po ev, p = QnStore po ev u) by (rewrite TG; destruct p; try done; intros [= ->]; eauto).
      destruct (decide (qtarget s' = Some u)) as [TT|NT].
      * destruct (TU TT) as (po & ev & ->). destruct L as (UL & UA & ->).
        apply (view_target s l); try done; [by rewrite (qpc_points_ne _ _ _ _ _ E N)|rewrite M'; congruence|rewrite elem_of_qremove; tauto|].
        rewrite (same_cpus_dom _ _ _ Sc). by apply (queue_in _ _ _ _ (qi_queue _ _ I)).
      * rewrite (view_eq s s' l l' u); try done; [apply (qi_view _ _ I)|by rewrite (qpc_points_ne _ _ _ _ _ E N)| |by rewrite SG|by rewrite (qtarget_none s M); split
          |rewrite M, M'; split; congruence|by apply same_cpus_again|by apply same_cpus_dom|by rewrite RG|by rewrite TK].
        destruct p; try done; [by rewrite L|]. destruct L as (_ & _ & ->). rewrite elem_of_qremove. rewrite TG in NT. split; [tauto|]. intros; split; [done|congruence].
  - apply eq_None_not_Some. rewrite (same_cpus_dom _ _ _ Sc), (qi_zero _ _ I). by intros [].
  - rewrite (same_cpus_size _ _ Sc). apply (qi_size _ _ I).
  - rewrite SZ, EV. apply (qi_room _ _ I).
  - by rewrite EV.
  - rewrite TK, EV, SE. apply (qi_sent _ _ I).
  - intros X'. right. exists t. split; [done|]. rewrite Here. by apply XF.
  - intros d DW u U. rewrite (same_cpus_again _ _ _ Sc). destruct (decide (d = t)) as [->|N].
    + rewrite Here in DW. destruct (XF (XW DW)) as (_ & _ & F). by apply F, LI.
    + rewrite (qpc_points_ne _ _ _ _ _ E N) in DW. apply (qi_wake _ _ I d DW). by apply LI.
  - intros u to HL. destruct (decide (u = t)) as [->|N]; [rewrite Here in HL; rewrite HL in H; discriminate H|]. rewrite (qpc_points_ne _ _ _ _ _ E N) in HL.
    destruct (eq_exists s') eqn:X'; [done|]. destruct (XF eq_refl) as (_ & F & _). by apply F in HL.
  - eapply (pinv_frame s s' t p); try done; [apply (qi_ports _ _ I)| |].
    + intros FU. rewrite (pi_freed _ (qi_ports _ _ I) FU) in X. done.
    + intros q. split; [by destruct p|done].
Qed.

Lemma qinv_qn_send s l t port ev s' : qinv s l -> eq_mutex s = None -> qpc s t = QnSend port ev -> qn_send t port ev s = Some s' ->
  exists l', qinv s' l'.
Proof.
  intros I M E. assert (C : calm (qpc s t) = true) by (by rewrite E). assert (W : forall q, waits_on q (qpc s t) = false) by (by rewrite E).
  unfold qn_send. destruct (eq_exists s) eqn:X; cbn [negb]; [|intros [= <-]; exists l; by apply qinv_ret].
  destruct (Z.eqb_spec (eq_pq s) 0) as [PQ|PQ].
  { destruct (Z.ltb_spec (Z.of_nat (length (eq_events s))) (eq_size s)); intros [= <-]; exists l; [by eapply qinv_push|by apply qinv_ret]. }
  destruct (schedule_spec (eq_protocol s) true _ _ _ (qi_queue _ _ I)) as (f & h & -> & Sc & F & Q'). cbn [mbind option_bind].
  assert (NL : l <> []) by (intros L; apply PQ; by apply (queue_nil _ _ _ (qi_queue _ _ I))).
  pose proof (pick_in (eq_protocol s) (eq_cpus s) l NL) as PI. set (cpu := pick _ _ _) in *. rewrite (same_cpus_again _ _ _ Sc). intros [= <-].
  destruct (is_again (eq_cpus s) cpu) eqn:AG.
  - destruct Q' as [-> ->]. rewrite queue_same_state. exists l. destruct port; [by apply qinv_stop_caller|by apply qinv_ret].
  - exists (qremove cpu l). eapply (qinv_hold s l _ _ t (QnStore port ev cpu)); try done.
    + intros G. apply (guest_cpu s l t I). rewrite E. by destruct port.
    + cbn. congruence.
    + intros q. cbn. destruct port; [|done]. intros [= <-]. apply (pi_in _ (qi_ports _ _ I) t). by rewrite E.
Qed.

Lemma q_idm_free_spec s t : idm_free s = true -> q_in_idm (qpc s t) = false.
Proof.
  unfold idm_free, qpc, at_point. rewrite forallb_forall. intros H. destruct (eq_points s !! t) as [p|] eqn:E; [|done]. cbn.
  specialize (H (t, p)). apply negb_true_iff, H. by apply list_elem_of_In, elem_of_map_to_list.
Qed.

Lemma qinv_qd_call s l t mode s' : qinv s l -> eq_mutex s = None -> idm_free s = true -> qpc s t = QIdle ->
  qd_call t mode s = Some s' -> exists l', qinv s' l'.
Proof.
  intros I M IF E. assert (C : calm (qpc s t) = true) by (by rewrite E). assert (W : forall q, waits_on q (qpc s t) = false) by (by rewrite E).
  assert (NR : forall u to, qpc s u <> QrLock to) by (intros u to H; pose proof (q_idm_free_spec s u IF) as N; by rewrite H in N).
  unfold qd_call. destruct (_ && _); [intros [= <-]; exists l; by apply qinv_ret|].
  destruct (eq_exists s) eqn:X; [|intros [= <-]; exists l; by apply qinv_ret].
  destruct (_ && _); [intros [= <-]; exists l; by apply qinv_ret|].
  rewrite (walk_spec _ _ _ (qi_queue _ _ I)). cbn [mbind option_bind].
  destruct (existsb _ l) eqn:AG; [intros [= <-]; exists l; by apply qinv_stop_caller|].
  rewrite (head_nil _ _ _ (qi_queue _ _ I)). case_bool_decide as L; intros [= <-]; exists l.
  - destruct (calm_view s l t I C) as (Q & S & T & NM & A). unfold qret. set (p := QReturned CELL_OK). set (s' := qgo _ _ _).
    assert (EP : eq_points s' = <[t := p]> (eq_points s)) by done. pose proof (qpc_points_here s s' t _ EP) as Here.
    apply (qinv_own s l t p); try done; [by rewrite E|..].
    + apply view_calm; rewrite ?Here; try done. by rewrite qtarget_none.
    + apply (qi_room _ _ I).
    + apply (qi_empty _ _ I).
    + apply (qi_sent _ _ I).
    + auto.
    + intros u to H. destruct (decide (u = t)) as [->|N]; [by rewrite Here in H|]. rewrite (qpc_points_ne s _ _ _ _ EP N) in H. by apply NR in H.
    + eapply (pinv_frame s s' t p); try done. apply (qi_ports _ _ I).
  - eapply (qinv_hold s l _ l t QdWake); try done; [apply (qi_queue _ _ I)|]. intros _. split; [done|]. split; [done|]. by apply again_none.
Qed.

Lemma qtarget_store s l t port ev cpu : qinv s l -> qpc s t = QnStore port ev cpu -> eq_mutex s = Some t /\ qtarget s = Some cpu.
Proof. intros I E. assert (M : eq_mutex s = Some t) by (apply (view_lock _ _ _ I); by rewrite E). split; [done|]. unfold qtarget. by rewrite M, E. Qed.

(** A target is asleep. *)
Lemma target_view s l u : qinv s l -> qtarget s = Some u ->
  (u ∉ l) /\ (u ∉ eq_signal s) /\ asleep (qpc s u) = true /\ e_gpr3 (ereg (eq_regs s) u) = CELL_OK /\ assigned u (eq_taken s) = got s u.
Proof.
  intros I T. destruct (qi_view _ _ I u) as (B & R & P). unfold bits_ok, pending in *. cbn [v_pc v_q v_sg v_tg v_lk v_ag v_cpu v_reg v_as v_got view] in *.
  rewrite (bool_decide_eq_true_2 _ T) in B, R. apply andb_true_iff in B as [_ B].
  assert (X : bool_decide (u ∈ l) = false /\ bool_decide (u ∈ eq_signal s) = false /\ asleep (qpc s u) = true).
  { destruct (bool_decide (u ∈ l)), (bool_decide (u ∈ eq_signal s)), (qpc s u); try done; cbn in B; rewrite ?andb_false_r in B; done. }
  destruct X as (X1 & X2 & X3). rewrite X2, andb_false_r, app_nil_r in P. rewrite bool_decide_eq_false in X1, X2. split_and!; try done.
  apply R. by rewrite orb_true_r.
Qed.

(** A waiter is woken with its result. *)
Lemma view_woken s' (l : list Z) u r :
  asleep (qpc s' u) = true -> u ∉ l -> u ∈ eq_signal s' -> qtarget s' = None -> eq_mutex s' <> Some u -> is_Some (eq_cpus s' !! u) ->
  ereg (eq_regs s') u = r -> assigned u (eq_taken s') = got s' u ++ (if e_gpr3 r =? CELL_OK then [e_event r] else []) -> view_ok (view s' l u).
Proof.
  intros A Q S T M C R AS. split_and!; unfold bits_ok, pending; cbn [v_pc v_q v_sg v_tg v_lk v_ag v_cpu v_reg v_as v_got view].
  - rewrite (bool_decide_eq_false_2 (u ∈ l)), (bool_decide_eq_true_2 (u ∈ eq_signal s')), T, (bool_decide_eq_false_2 (eq_mutex s' = Some u)),
      (bool_decide_eq_true_2 (is_Some _)) by done. by destruct (qpc s' u).
  - rewrite (bool_decide_eq_false_2 (u ∈ l)), T by done. by destruct (qpc s' u).
  - by rewrite A, (bool_decide_eq_true_2 (u ∈ eq_signal s')), R.
Qed.

(** A step that releases the mutex and wakes the threads [ws] with the results
    in their registers. *)
Lemma qinv_release s (l : list Z) s' (l' : list Z) t p (ws : list Z) :
  qinv s l -> eq_mutex s = Some t -> eq_mutex s' = None -> eq_points s' = <[t := p]> (eq_points s) -> calm p = true ->
  (forall to, p <> QrLock to) -> (guest_point p = true -> guest_point (qpc s t) = true) ->
  eq_cpus s' = eq_cpus s -> queue (eq_cpus s) (eq_pq s') l' -> eq_size s' = eq_size s -> eq_exists s' = eq_exists s ->
  eq_signal s' = eq_signal s ∪ list_to_set ws -> eq_got s' = eq_got s ->
  (forall u, u ∈ ws -> asleep (qpc s u) = true /\ (u ∉ l') /\ assigned u (eq_taken s) = got s u) ->
  (forall u, u ∉ ws -> (u ∈ l' <-> u ∈ l) /\ qtarget s <> Some u /\ ereg (eq_regs s') u = ereg (eq_regs s) u) ->
  (forall u, assigned u (eq_taken s') = assigned u (eq_taken s) ++
     if decide (u ∈ ws) then if e_gpr3 (ereg (eq_regs s') u) =? CELL_OK then [e_event (ereg (eq_regs s') u)] else [] else []) ->
  eq_events s' = eq_events s -> (l' <> [] -> eq_events s = []) -> map snd (eq_taken s') ++ eq_events s = eq_sent s' ->
  (eq_exists s = false -> l' = []) -> pinv s' -> qinv s' l'.
Proof.
  intros I M M' E C NR G CP Q' SZ EX SG GT WS NW AS EV EM SE GO P. pose proof (qpc_points_here _ _ _ _ E) as Here.
  assert (HT : qholds (qpc s t) = true) by (by apply (view_lock _ _ _ I)).
  assert (TW : t ∉ ws) by (intros H; destruct (WS t H) as (A & _); by destruct (qpc s t)).
  assert (GO' : forall u, got s' u = got s u) by (intros; unfold got; by rewrite GT).
  assert (TG : qtarget s' = None) by (by apply qtarget_none).
  assert (BT : (t ∉ l) /\ (t ∉ eq_signal s) /\ assigned t (eq_taken s) = got s t).
  { destruct (qi_view _ _ I t) as (B & _ & PE). unfold bits_ok, pending in *. cbn [v_pc v_q v_sg v_tg v_lk v_ag v_cpu v_reg v_as v_got view] in *.
    apply andb_true_iff in B as [_ B]. assert (NA : asleep (qpc s t) = false) by (by destruct (qpc s t)). rewrite NA, app_nil_r in PE.
    assert (X : (negb (bool_decide (t ∈ l)) && negb (bool_decide (t ∈ eq_signal s))) = true) by (destruct (qpc s t); try done; by apply andb_true_iff in B as [B _]).
    apply andb_true_iff in X as [X1 X2]. rewrite negb_true_iff, bool_decide_eq_false in X1, X2. done. }
  destruct BT as (BQ & BS & BA). split; try done.
  - intros u. destruct (decide (u = t)) as [->|N]; [|destruct (decide (u ∈ ws)) as [UW|UW]].
    + destruct (NW t TW) as (NW1 & _). apply view_calm; rewrite ?Here, ?TG, ?M', ?SG; try done.
      * intros Gp. rewrite CP. by apply (guest_cpu s l t I), G.
      * by intros to H%NR.
      * by rewrite NW1.
      * rewrite not_elem_of_union, not_elem_of_list_to_set. done.
      * by rewrite AS, decide_False, app_nil_r, GO'.
    + destruct (WS u UW) as (A & UL & UA). assert (CU : is_Some (eq_cpus s !! u)) by (apply (guest_cpu s l u I); by destruct (qpc s u)).
      apply (view_woken s' l' u (ereg (eq_regs s') u)); rewrite ?(qpc_points_ne _ _ _ _ _ E N), ?TG, ?M', ?CP; try done.
      * rewrite SG, elem_of_union, elem_of_list_to_set. by right.
      * by rewrite AS, decide_True, GO', UA.
    + destruct (NW u UW) as (NW1 & NW2 & NW3). rewrite (view_eq s s' l l' u); try done; rewrite ?CP, ?TG, ?M', ?M, ?SG; try done.
      * apply (qi_view _ _ I).
      * by rewrite (qpc_points_ne _ _ _ _ _ E N).
      * rewrite elem_of_union, elem_of_list_to_set. tauto.
      * split; congruence.
      * by rewrite AS, decide_False, app_nil_r.
  - by rewrite CP.
  - rewrite CP. apply (qi_zero _ _ I).
  - rewrite CP. apply (qi_size _ _ I).
  - rewrite SZ, EV. apply (qi_room _ _ I).
  - rewrite EV, TG. intros [H|H]; [auto|done].
  - by rewrite EV.
  - rewrite EX. auto.
  - intros d DW. exfalso. destruct (decide (d = t)) as [->|N]; [rewrite Here in DW; rewrite DW in C; discriminate C|].
    rewrite (qpc_points_ne _ _ _ _ _ E N) in DW. pose proof (proj2 (view_lock _ _ d I)) as X. rewrite DW in X. specialize (X eq_refl). congruence.
  - intros u to H. rewrite EX. destruct (decide (u = t)) as [->|N]; [rewrite Here in H; by apply NR in H|].
    rewrite (qpc_points_ne _ _ _ _ _ E N) in H. by apply (qi_idm _ _ I u to).
Qed.

Lemma ereg_fold l rg u :
  ereg (fold_left (fun rg u => <[u := ERegs CELL_ECANCELED (e_event (ereg rg u))]> rg) l rg) u =
  if decide (u ∈ l) then ERegs CELL_ECANCELED (e_event (ereg rg u)) else ereg rg u.
Proof.
  revert rg. induction l as [|x l IH]; intros rg; cbn [fold_left]; [by rewrite decide_False by set_solver|].
  rewrite IH, !ereg_insert. destruct (decide (u = x)) as [->|N]; [rewrite (decide_True (P := x ∈ x :: l)) by set_solver; by destruct (decide (x ∈ l))|].
  destruct (decide (u ∈ l)); [rewrite decide_True by set_solver|rewrite decide_False by set_solver]; done.
Qed.

Lemma qinv_qd_wake s l t : qinv s l -> qpc s t = QdWake -> exists s', qd_wake t s = Some s' /\ qinv s' [].
Proof.
  intros I E. assert (M : eq_mutex s = Some t) by (apply (view_lock _ _ _ I); by rewrite E).
  assert (T : qtarget s = None) by (unfold qtarget; by rewrite M, E).
  unfold qd_wake. rewrite (walk_spec _ _ _ (qi_queue _ _ I)). cbn [mbind option_bind]. eexists. split; [done|]. set (rg := fold_left _ _ _).
  assert (R : forall u, ereg rg u = if decide (u ∈ l) then ERegs CELL_ECANCELED (e_event (ereg (eq_regs s) u)) else ereg (eq_regs s) u) by (intros; apply ereg_fold).
  clearbody rg. unfold qret. apply (qinv_release s l _ [] t (QReturned CELL_OK) l); try done.
  - by split; [|constructor].
  - intros u U. destruct (queued_view _ _ _ I U) as (_ & _ & _ & _ & A & V). split; [|split; [set_solver|done]].
    destruct (qi_view _ _ I u) as (B & _). unfold bits_ok in B. cbn [v_pc v_ag view] in B. pose proof (qi_wake _ _ I t E u U) as AG.
    destruct (qpc s u); try done. cbn in B. rewrite AG, !andb_false_r in B. done.
  - intros u U. split; [set_solver|]. split; [by rewrite T|]. cbn [qgo e_mutex e_signal e_regs eq_regs]. by rewrite R, decide_False.
  - intros u. cbn [qgo e_mutex e_signal e_regs e_queue eq_regs eq_taken]. rewrite R. destruct (decide (u ∈ l)); [|by rewrite app_nil_r].
    cbn. by rewrite app_nil_r.
  - apply (qi_sent _ _ I).
  - eapply (pinv_frame s _ t (QReturned CELL_OK)); try done; [apply (qi_ports _ _ I)|apply (pi_freed _ (qi_ports _ _ I))|]. intros q. by rewrite E.
Qed.

(** *** Ports *)

Lemma port_busy_up s s' d p q : eq_ports s' = port_busy d p (eq_ports s) -> port_up s q -> port_up s' q.
Proof.
  intros E (x & P & U). unfold port_up, port_of, port_busy in *. rewrite E. destruct (decide (q = p)) as [->|N].
  - rewrite lookup_alter_eq. destruct (eq_ports s !! p) as [y|]; [|done]. cbn. destruct (p_alive y) eqn:A; [|done]. injection P as ->. eauto.
  - rewrite lookup_alter_ne by done. eauto.
Qed.

Lemma port_busy_lookup d p m q x : port_busy d p m !! q = Some x ->
  exists y, m !! q = Some y /\ p_alive x = p_alive y /\ is_busy x = if decide (q = p) then u64 (is_busy y + d) else is_busy y.
Proof.
  unfold port_busy. destruct (decide (q = p)) as [->|N].
  - rewrite lookup_alter_eq. destruct (m !! p) as [y|]; [|done]. intros [= <-]. by exists y.
  - rewrite lookup_alter_ne by done. intros L. by exists x.
Qed.

(** A sender starts and ends its wait. *)
Lemma pinv_enter s s' t p :
  pinv s -> eq_points s' = <[t := QnWait p]> (eq_points s) -> eq_ports s' = port_busy 1 p (eq_ports s) -> eq_freed_use s' = eq_freed_use s ->
  eq_exists s' = eq_exists s -> in_port (qpc s t) = Some p -> pinv s'.
Proof.
  intros P E EP EF EX IP. assert (PU : port_up s p) by (by apply (pi_in _ P t)).
  assert (NW : forall q, waits_on q (qpc s t) = false) by (intros q; by destruct (qpc s t)).
  split.
  - intros q x L A. rewrite EP in L. destruct (port_busy_lookup _ _ _ _ _ L) as (y & Ly & Ay & ->). rewrite Ay in A.
    rewrite (pi_busy _ P q y Ly A), E, (count_insert QIdle) by done. fold (qpc s t). rewrite NW. cbn [waits_on]. case_decide as D.
    + subst q. rewrite Z.eqb_refl, uint_add_l. cbn. f_equal. lia.
    + rewrite (proj2 (Z.eqb_neq q p) D). cbn. f_equal. lia.
  - intros u q H. apply (port_busy_up s s' 1 p q EP). destruct (decide (u = t)) as [->|N]; [by rewrite (qpc_points_here _ _ _ _ E) in H|].
    rewrite (qpc_points_ne _ _ _ _ _ E N) in H. by apply (pi_in _ P u).
  - intros u q H X. apply (port_busy_up s s' 1 p q EP). destruct (decide (u = t)) as [->|N].
    + rewrite (qpc_points_here _ _ _ _ E) in H. cbn in H. by apply Z.eqb_eq in H as ->.
    + rewrite (qpc_points_ne _ _ _ _ _ E N) in H. rewrite EX in X. by apply (pi_wait _ P u q).
  - intros u q H. rewrite EP. unfold port_busy. apply lookup_alter_is_Some. destruct (decide (u = t)) as [->|N].
    + rewrite (qpc_points_here _ _ _ _ E) in H. cbn in H. apply Z.eqb_eq in H as ->. destruct PU as (x & X & _). unfold port_of in X.
      destruct (eq_ports s !! p); [eauto|done].
    + rewrite (qpc_points_ne _ _ _ _ _ E N) in H. by apply (pi_new _ P u).
  - rewrite EF, EX. apply (pi_freed _ P).
Qed.

Lemma qinv_qn_store s l t port ev cpu : qinv s l -> qpc s t = QnStore port ev cpu -> qinv (qn_store t port ev cpu s) l.
Proof.
  intros I E. destruct (qtarget_store _ _ _ _ _ _ I E) as [M T]. destruct (target_view _ _ _ I T) as (TQ & TS & TA & TR & TE).
  assert (EV : eq_events s = []) by (apply (qi_empty _ _ I); right; by rewrite T).
  set (p := match port with Some p => if prio (prio_of (eq_cpus s) cpu) <? prio (prio_of (eq_cpus s) t) then QnWait p else QReturned CELL_OK | None => QReturned CELL_OK end).
  assert (R : forall u, ereg (<[cpu := ERegs (e_gpr3 (ereg (eq_regs s) cpu)) ev]> (eq_regs s)) u = if decide (u = cpu) then ERegs CELL_OK ev else ereg (eq_regs s) u).
  { intros u. rewrite ereg_insert. case_decide; [by rewrite TR|done]. }
  assert (AS : forall u, assigned u (eq_taken s ++ [(Some cpu, ev)]) = assigned u (eq_taken s) ++ if decide (u = cpu) then [ev] else []).
  { intros u. rewrite assigned_app. f_equal. change [(Some cpu, ev)] with (map (fun ev => (Some cpu, ev)) [ev]). rewrite assigned_map. by destruct (decide (u = cpu)) as [->|]; [rewrite decide_True|rewrite decide_False by congruence]. }
  assert (S : forall s', eq_mutex s' = None -> eq_points s' = <[t := p]> (eq_points s) -> eq_cpus s' = eq_cpus s -> eq_pq s' = eq_pq s ->
    eq_size s' = eq_size s -> eq_exists s' = eq_exists s -> eq_signal s' = eq_signal s ∪ {[cpu]} -> eq_got s' = eq_got s ->
    eq_regs s' = <[cpu := ERegs (e_gpr3 (ereg (eq_regs s) cpu)) ev]> (eq_regs s) -> eq_taken s' = eq_taken s ++ [(Some cpu, ev)] ->
    eq_events s' = eq_events s -> eq_sent s' = eq_sent s ++ [ev] -> pinv s' -> qinv s' l).
  { intros s' S1 S2 S3 S4 S5 S6 S7 S8 S9 S10 S11 S12 P. apply (qinv_release s l s' l t p [cpu]); try done.
    - unfold p. destruct port; [|done]. by destruct (_ <? _).
    - intros to. unfold p. destruct port; [|done]. by destruct (_ <? _).
    - rewrite E. unfold p. by destruct port.
    - rewrite S4. apply (qi_queue _ _ I).
    - rewrite S7. set_solver.
    - intros u ->%list_elem_of_singleton. done.
    - intros u U. rewrite list_elem_of_singleton in U. split; [done|]. rewrite T, S9, R, decide_False by done. split; [congruence|done].
    - intros u. rewrite S9, S10, AS, R. destruct (decide (u = cpu)) as [->|N]; [rewrite (decide_True (P := cpu ∈ [cpu])) by set_solver|rewrite decide_False by set_solver]; done.
    - rewrite S10, S12, EV, app_nil_r, map_app. f_equal. rewrite <- (qi_sent _ _ I), EV. by rewrite app_nil_r.
    - intros X. destruct (qi_gone _ _ I X) as [?|(d & D & DW)]; [done|]. assert (d = t) as -> by congruence. congruence. }
  unfold qn_store. destruct port as [q|].
  - destruct (_ <? _) eqn:PR; apply S; try done; try (unfold p; rewrite PR; done).
    + by eapply (pinv_enter s _ t q); try done; [apply (qi_ports _ _ I)|rewrite E].
    + eapply (pinv_frame s _ t (QReturned CELL_OK)); try done; [apply (qi_ports _ _ I)|apply (pi_freed _ (qi_ports _ _ I))|]. intros. by rewrite E.
  - apply S; try done. eapply (pinv_frame s _ t (QReturned CELL_OK)); try done; [apply (qi_ports _ _ I)|apply (pi_freed _ (qi_ports _ _ I))|]. intros. by rewrite E.
Qed.

(** A step that changes only the ports. *)
Lemma qinv_port s l t code m b :
  qinv s l -> calm (qpc s t) = true ->
  let s' := qret t code (e_ports m (if b : bool then e_freed_use s else s)) in pinv s' -> qinv s' l.
Proof.
  intros I C s' P. destruct (calm_view s l t I C) as (Q & S & T & NM & A). set (p := QReturned code).
  assert (F : eq_points s' = <[t := p]> (eq_points s) /\ eq_mutex s' = eq_mutex s /\ eq_cpus s' = eq_cpus s /\ eq_pq s' = eq_pq s /\ eq_size s' = eq_size s /\
    eq_signal s' = eq_signal s /\ eq_regs s' = eq_regs s /\ eq_taken s' = eq_taken s /\ eq_events s' = eq_events s /\ eq_sent s' = eq_sent s /\
    eq_exists s' = eq_exists s /\ eq_got s' = eq_got s) by (unfold s'; by destruct b).
  destruct F as (EP & F2 & F3 & F4 & F5 & F6 & F7 & F8 & F9 & F10 & F11 & F12). pose proof (qpc_points_here s s' t _ EP) as Here. clearbody s'.
  assert (G : forall u, got s' u = got s u) by (intros; unfold got; by rewrite F12).
  apply (qinv_own s l t p); try done; rewrite ?F6, ?F7, ?F8, ?F9, ?F10, ?F11; try done.
  - by apply calm_holds.
  - apply view_calm; rewrite ?Here, ?F2, ?F6, ?F8, ?G; try done. by rewrite (qtarget_frame s s' _ _ EP).
  - apply (qi_room _ _ I).
  - apply (qi_empty _ _ I).
  - apply (qi_sent _ _ I).
  - auto.
  - intros u to H. destruct (decide (u = t)) as [->|N]; [by rewrite Here in H|]. rewrite (qpc_points_ne s s' _ _ _ EP N) in H. by apply (qi_idm _ _ I u to).
Qed.

Lemma ports_same s m : eq_ports s = m -> e_ports m s = s.
Proof. intros <-. by destruct s. Qed.

(** The end of a wait. *)
Lemma qinv_requeued s l t p : qinv s l -> qpc s t = QnWait p -> qinv (port_requeued t p s) l.
Proof.
  intros I E. pose proof (qi_ports _ _ I) as P. unfold port_requeued.
  assert (NU : forall s' u q, eq_points s' = <[t := QReturned CELL_OK]> (eq_points s) -> in_port (qpc s' u) = Some q \/ waits_on q (qpc s' u) = true -> qpc s' u = qpc s u).
  { intros s' u q EP H. destruct (decide (u = t)) as [->|N]; [rewrite (qpc_points_here _ _ _ _ EP) in H; by destruct H|]. by apply (qpc_points_ne _ _ _ _ _ EP). }
  assert (CN : forall q, count_at (waits_on q) (<[t := QReturned CELL_OK]> (eq_points s)) = count_at (waits_on q) (eq_points s) - Z.b2z (q =? p)).
  { intros q. rewrite (count_insert QIdle) by done. fold (qpc s t). rewrite E. cbn [waits_on Z.b2z]. lia. }
  destruct (port_of s p) as [x|] eqn:PO.
  - change (e_ports (port_busy (-1) p (eq_ports s)) s) with (e_ports (port_busy (-1) p (eq_ports s)) (if false then e_freed_use s else s)).
    apply qinv_port; [done|by rewrite E|]. set (s' := qret _ _ _). assert (EP : eq_points s' = <[t := QReturned CELL_OK]> (eq_points s)) by done.
    assert (U : forall q, port_up s q -> port_up s' q) by (intros q; by apply (port_busy_up s s' (-1) p)).
    split.
    + intros q y L A. destruct (port_busy_lookup _ _ _ _ _ L) as (z & Lz & Az & ->). rewrite Az in A. rewrite (pi_busy _ P q z Lz A), EP, CN.
      case_decide as D; [subst q; rewrite Z.eqb_refl, uint_add_l; done|]. rewrite (proj2 (Z.eqb_neq q p) D). cbn. f_equal. lia.
    + intros u q H. rewrite (NU s' u q EP (or_introl H)) in H. by apply U, (pi_in _ P u).
    + intros u q H X. rewrite (NU s' u q EP (or_intror H)) in H. by apply U, (pi_wait _ P u).
    + intros u q H. rewrite (NU s' u q EP (or_intror H)) in H. apply lookup_alter_is_Some. by apply (pi_new _ P u).
    + apply (pi_freed _ P).
  - assert (X : eq_exists s = false).
    { destruct (eq_exists s) eqn:X; [|done]. destruct (pi_wait _ P t p) as (x & PU & _); [by rewrite E; cbn; apply Z.eqb_refl|done|]. congruence. }
    rewrite <- (ports_same (e_freed_use s) (eq_ports s) eq_refl). change (e_freed_use s) with (if true then e_freed_use s else s).
    apply qinv_port; [done|by rewrite E|]. set (s' := qret _ _ _). assert (EP : eq_points s' = <[t := QReturned CELL_OK]> (eq_points s)) by done.
    split.
    + intros q y L A. change (eq_ports s !! q = Some y) in L. rewrite EP, CN, (pi_busy _ P q y L A). destruct (Z.eqb_spec q p) as [->|]; [|cbn; f_equal; lia].
      unfold port_of in PO. by rewrite L, A in PO.
    + intros u q H. rewrite (NU s' u q EP (or_introl H)) in H. by apply (pi_in _ P u).
    + intros u q H X'. rewrite (NU s' u q EP (or_intror H)) in H. by apply (pi_wait _ P u).
    + intros u q H. rewrite (NU s' u q EP (or_intror H)) in H. by apply (pi_new _ P u).
    + done.
Qed.

(** One port changes while no thread is in a callback. *)
Lemma pinv_port s s' t code p x :
  pinv s -> qpc s t = QIdle -> eq_points s' = <[t := QReturned code]> (eq_points s) -> eq_ports s' = <[p := x]> (eq_ports s) ->
  eq_freed_use s' = eq_freed_use s -> eq_exists s' = eq_exists s -> (forall u, in_port (qpc s u) = None) ->
  (p_alive x = true -> is_busy x = u64 (count_at (waits_on p) (eq_points s))) ->
  (forall u, waits_on p (qpc s u) = true -> eq_exists s = true -> p_alive x = true /\ p_queue x = true) -> pinv s'.
Proof.
  intros P E EP PO EF EX IN B W.
  assert (NU : forall u q, in_port (qpc s' u) = Some q \/ waits_on q (qpc s' u) = true -> qpc s' u = qpc s u).
  { intros u q H. destruct (decide (u = t)) as [->|N]; [rewrite (qpc_points_here _ _ _ _ EP) in H; by destruct H|]. by apply (qpc_points_ne _ _ _ _ _ EP). }
  split.
  - intros q y L A. rewrite EP, (count_insert QIdle) by done. fold (qpc s t). rewrite E. cbn [waits_on Z.b2z]. rewrite Z.sub_0_r, Z.add_0_r.
    rewrite PO in L. destruct (decide (q = p)) as [->|N].
    + rewrite lookup_insert_eq in L. injection L as <-. auto.
    + rewrite lookup_insert_ne in L by done. by apply (pi_busy _ P).
  - intros u q H. rewrite (NU u q (or_introl H)), IN in H. done.
  - intros u q H X. rewrite (NU u q (or_intror H)) in H. rewrite EX in X. destruct (pi_wait _ P u q H X) as (y & Y & Yq).
    unfold port_up, port_of in *. rewrite PO. destruct (decide (q = p)) as [->|N].
    + rewrite lookup_insert_eq. destruct (W u H X) as [-> Q]. eauto.
    + rewrite lookup_insert_ne by done. eauto.
  - intros u q H. rewrite (NU u q (or_intror H)) in H. rewrite PO. destruct (decide (q = p)) as [->|N]; [rewrite lookup_insert_eq; eauto|].
    rewrite lookup_insert_ne by done. by apply (pi_new _ P u).
  - rewrite EF, EX. apply (pi_freed _ P).
Qed.

Lemma idm_free_port s u : idm_free s = true -> in_port (qpc s u) = None.
Proof. intros H. pose proof (q_idm_free_spec s u H) as N. by destruct (qpc s u) as [| | | | | | | | | | |[]|[]| | | |]. Qed.

Lemma port_of_some s p x : port_of s p = Some x -> eq_ports s !! p = Some x /\ p_alive x = true.
Proof. unfold port_of. destruct (eq_ports s !! p) as [y|]; [|done]. destruct (p_alive y) eqn:A; [|done]. by intros [= ->]. Qed.

(** The busy count is not zero while a sender waits. *)
Lemma busy_pos s l t p : qinv s l -> waits_on p (qpc s t) = true -> 0 < count_at (waits_on p) (eq_points s) < 2 ^ 64.
Proof.
  intros I W. split; [apply (count_pos QIdle); [done|]; by exists t|]. pose proof (qi_size _ _ I) as S. rewrite <- size_dom in S.
  eapply Z.le_lt_trans; [|exact S]. apply (count_in QIdle). intros u U. apply elem_of_dom. apply (guest_cpu s l u I).
  change (waits_on p (qpc s u) = true) in U. by destruct (qpc s u).
Qed.

Section port_calls.
Context (s : equeue) (l : list Z) (t p : Z).
Hypothesis I : qinv s l.
Hypothesis E : qpc s t = QIdle.
Hypothesis IF : idm_free s = true.

Lemma port_changed code x :
  (p_alive x = true -> is_busy x = u64 (count_at (waits_on p) (eq_points s))) ->
  (forall u, waits_on p (qpc s u) = true -> eq_exists s = true -> p_alive x = true /\ p_queue x = true) ->
  qinv (qret t code (e_ports (<[p := x]> (eq_ports s)) s)) l.
Proof.
  intros B W. apply (qinv_port s l t code _ false); [done|by rewrite E|].
  eapply (pinv_port s _ t code p x); try done; [apply (qi_ports _ _ I)|]. intros. by apply idm_free_port.
Qed.

Lemma port_unchanged code : qinv (qret t code s) l.
Proof. apply qinv_ret; rewrite ?E; done. Qed.

Lemma qinv_port_create type name : eq_ports s !! p = None -> qinv (port_create t p type name s) l.
Proof.
  intros N. unfold port_create. destruct (_ && _); [apply port_unchanged|]. apply port_changed.
  - intros _. cbn. symmetry. destruct (decide (0 < count_at (waits_on p) (eq_points s))) as [H|H].
    + apply (count_pos QIdle) in H as [u H]; [|done]. destruct (pi_new _ (qi_ports _ _ I) u p H). congruence.
    + pose proof (count_nonneg (waits_on p) (eq_points s)). by replace (count_at (waits_on p) (eq_points s)) with 0 by lia.
  - intros u H _. destruct (pi_new _ (qi_ports _ _ I) u p H). congruence.
Qed.

Lemma qinv_port_destroy : qinv (port_destroy t p s) l.
Proof.
  unfold port_destroy. destruct (port_of s p) as [x|] eqn:PO; [|apply port_unchanged]. destruct (check_queue s x) eqn:C; [apply port_unchanged|].
  apply port_changed; [done|]. intros u H X. destruct (pi_wait _ (qi_ports _ _ I) u p H X) as (y & Y & Yq). rewrite PO in Y. injection Y as ->.
  unfold check_queue in C. by rewrite Yq, X in C.
Qed.

Lemma qinv_port_connect : qinv (port_connect_local t p s) l.
Proof.
  unfold port_connect_local. destruct (port_of s p) as [x|] eqn:PO; [|apply port_unchanged]. destruct (negb _); [apply port_unchanged|].
  destruct (negb _); [apply port_unchanged|]. destruct (check_queue s x); [apply port_unchanged|]. apply port_of_some in PO as [PO A].
  apply port_changed; [|done]. intros _. exact (pi_busy _ (qi_ports _ _ I) p x PO A).
Qed.

Lemma qinv_port_disconnect : qinv (port_disconnect t p s) l.
Proof.
  unfold port_disconnect. destruct (port_of s p) as [x|] eqn:PO; [|apply port_unchanged]. destruct (negb _); [apply port_unchanged|].
  destruct (Z.eqb_spec (is_busy x) 0) as [B|B]; [|apply port_unchanged]. apply port_of_some in PO as [PO A].
  pose proof (pi_busy _ (qi_ports _ _ I) p x PO A) as BE. apply port_changed; [done|].
  intros u H _. pose proof (busy_pos s l u p I H) as BP. rewrite uint_small in BE by (unfold in_uint; lia). lia.
Qed.
End port_calls.

Lemma qinv_port_send s l t p d1 d2 d3 : qinv s l -> qpc s t = QIdle -> is_Some (eq_cpus s !! t) -> qinv (port_send t p d1 d2 d3 s) l.
Proof.
  intros I E C. unfold port_send. destruct (port_of s p) as [x|] eqn:PO; [|by apply qinv_ret; rewrite ?E].
  destruct (check_queue s x) eqn:CQ; [|by apply qinv_ret; rewrite ?E]. apply qinv_pc; rewrite ?E; try done.
  apply pinv_go; rewrite ?E; try done; [apply (qi_ports _ _ I)|]. intros q [= <-]. exists x. split; [done|].
  unfold check_queue in CQ. by apply andb_true_iff in CQ as [CQ _].
Qed.

Lemma qinv_return s l t : qinv s l -> (match qpc s t with QrReturned _ _ | QtReturned _ _ | QReturned _ => true | _ => false end) = true ->
  qinv (qgo t QIdle (e_signal (eq_signal s ∖ {[t]}) s)) l.
Proof.
  intros I R. set (s' := qgo _ _ _). assert (EP : eq_points s' = <[t := QIdle]> (eq_points s)) by done. pose proof (qpc_points_here s s' t _ EP) as Here.
  assert (NH : qholds (qpc s t) = false) by (by destruct (qpc s t)). pose proof (qholds_mutex _ _ _ I NH) as NM.
  destruct (qi_view _ _ I t) as (B & _ & P). unfold bits_ok, pending in *. cbn [v_pc v_q v_sg v_tg v_lk v_ag v_cpu v_reg v_as v_got view] in *.
  assert (NA : asleep (qpc s t) = false) by (by destruct (qpc s t)). rewrite NA, app_nil_r in P. apply andb_true_iff in B as [_ B].
  assert (X : (negb (bool_decide (t ∈ l)) && negb (bool_decide (qtarget s = Some t))) = true).
  { destruct (bool_decide (t ∈ l)), (bool_decide (qtarget s = Some t)), (qpc s t); try done; cbn in B; rewrite ?andb_false_r in B; done. }
  apply andb_true_iff in X as [X1 X2]. rewrite negb_true_iff, bool_decide_eq_false in X1, X2.
  apply (qinv_own s l t QIdle); try done.
  - intros u N. split; [set_solver|done].
  - apply view_calm; rewrite ?Here; try done; [set_solver|]. by rewrite (qtarget_frame s s' _ _ EP).
  - apply (qi_room _ _ I).
  - apply (qi_empty _ _ I).
  - apply (qi_sent _ _ I).
  - auto.
  - intros u to H. destruct (decide (u = t)) as [->|N]; [by rewrite Here in H|]. rewrite (qpc_points_ne s s' _ _ _ EP N) in H. by apply (qi_idm _ _ I u to).
  - eapply (pinv_frame s s' t QIdle); try done; [apply (qi_ports _ _ I)|apply (pi_freed _ (qi_ports _ _ I))|]. intros q. split; [done|]. by destruct (qpc s t).
Qed.

Lemma qinv_run s l t s' : qinv s l -> q_run t s = Some s' -> exists l', qinv s' l'.
Proof.
  intros I. unfold q_run. destruct (qpc s t) eqn:E; try done; try (destruct (q_unlocked s) eqn:U; [apply q_unlocked_none in U|done]).
  - intros [= <-]. by eapply qinv_qr_lock.
  - unfold qr_signal. case_bool_decide as S; [|done]. intros [= <-]. exists l.
    assert (X : (t ∉ l) /\ qtarget s <> Some t).
    { destruct (qi_view _ _ I t) as (B & _). unfold bits_ok in B. cbn [v_pc v_q v_sg v_tg v_lk v_ag v_cpu view] in B. rewrite E, (bool_decide_eq_true_2 _ S) in B.
      apply andb_true_iff in B as [_ B]. repeat case_bool_decide; done. }
    apply qinv_end; try apply X; [done|by rewrite E|by right].
  - intros [= <-]. exists l. by apply qinv_qr_timeout.
  - intros [= <-]. exists l. rewrite q_end_same. apply qinv_end; [done|by rewrite E| |by rewrite qtarget_none|by left].
    destruct (qi_view _ _ I t) as (B & _). unfold bits_ok in B. cbn [v_pc v_q v_sg v_tg v_lk v_ag v_cpu view] in B. rewrite E in B.
    apply andb_true_iff in B as [_ B]. apply andb_true_iff in B as [_ B]. by rewrite negb_true_iff, bool_decide_eq_false in B.
  - intros U'. by eapply qinv_qr_unqueue.
  - intros H. destruct (qinv_qt_lock s l t size I U E) as (s1 & E1 & I1). rewrite E1 in H. injection H as <-. eauto.
  - intros [= <-]. exists l. by apply qinv_q_drain.
  - intros H. destruct (qinv_qd_wake s l t I E) as (s1 & E1 & I1). rewrite E1 in H. injection H as <-. eauto.
  - intros H. by eapply qinv_qn_send.
  - intros [= <-]. exists l. by apply qinv_qn_store.
  - intros [= <-]. exists l. by apply qinv_requeued.
Qed.

Lemma qinv_move a s l s' : qinv s l -> move a s = Some s' -> exists l', qinv s' l'.
Proof.
  intros I. unfold move, equeue_machine. destruct a;
    try (destruct (q_can_call t s) eqn:CC; [apply q_can_call_spec in CC as (E & C & T0)|done]; cbn [andb]).
  - intros [= <-]. exists l. by apply qinv_qr_call.
  - intros [= <-]. exists l. unfold qt_call. destruct (eq_exists s); by apply qinv_ret; rewrite ?E.
  - intros [= <-]. exists l. unfold q_drain_call. destruct (eq_exists s); by apply qinv_ret; rewrite ?E.
  - destruct (_ && _) eqn:F; [|done]. apply andb_true_iff in F as [F U%q_unlocked_none]. intros H. by eapply qinv_qd_call.
  - destruct (_ && _) eqn:F; [|done]. apply andb_true_iff in F as [F N%bool_decide_eq_true]. intros [= <-]. exists l. by apply qinv_port_create.
  - destruct (idm_free s) eqn:F; [|done]. intros [= <-]. exists l. by apply qinv_port_destroy.
  - destruct (idm_free s) eqn:F; [|done]. intros [= <-]. exists l. by apply qinv_port_connect.
  - destruct (idm_free s) eqn:F; [|done]. intros [= <-]. exists l. by apply qinv_port_disconnect.
  - intros [= <-]. exists l. by apply qinv_port_send.
  - destruct (eq_cpus s !! t); [done|]. destruct (qpc s t) eqn:E; try done. destruct (_ =? _); [done|]. intros [= <-]. exists l.
    apply qinv_ret; rewrite ?E; done.
  - by apply (qinv_run s l).
  - destruct (qpc s t) as [| |[]| | | | | | | | | | | | | |] eqn:E; try done. intros [= <-]. exists l. apply qinv_asleep; rewrite ?E; done.
  - destruct (qpc s t) eqn:E; try done. destruct (q_unlocked s) eqn:U; [|done]. intros H. eapply qinv_stop; [done|by apply q_unlocked_none|done|done].
  - intros H. exists l. destruct (qpc s t) eqn:E; try done; injection H as <-; apply qinv_return; rewrite ?E; done.
Qed.

Lemma q_initial_inv s : q_initial s -> qinv s [].
Proof.
  intros (QC & X & M & EV & PQ & PO & PT & SG & Z0 & AG & SZ & SE & TK & GT & FR).
  assert (PC : forall t, qpc s t = QIdle) by (intros; unfold qpc, at_point; by rewrite PT, lookup_empty).
  assert (T : qtarget s = None) by (by apply qtarget_none).
  split; try done; rewrite ?EV, ?TK, ?SE, ?X; try done.
  - intros t. apply view_calm; rewrite ?PC, ?T, ?M, ?SG, ?TK; try done; try set_solver. unfold got, at_point. by rewrite GT, lookup_empty.
  - rewrite PQ. split; [done|constructor].
  - cbn. unfold queue_create in QC. destruct (Z.leb_spec (eq_size s) 0); [done|]. destruct (Z.gtb_spec (eq_size s) 127); [done|]. lia.
  - split; intros; rewrite ?PC, ?PO, ?lookup_empty in *; try done. congruence.
Qed.

Lemma q_reachable_inv s : reachable q_initial s -> exists l, qinv s l.
Proof.
  apply (reachable_ind_inv q_initial (fun s => exists l, qinv s l)); [intros s0 H; eexists; by apply q_initial_inv|].
  intros a s0 s1 [l I] H. by eapply qinv_move.
Qed.

(** ** What the calls report *)

(** The code and the events a call returns with are those recorded. *)
Definition told_at (p : qpoint) (g : list lv2_event) : Prop :=
  match p with
  | QrReturned code ev => code = CELL_OK -> exists g0, g = g0 ++ [ev]
  | QtReturned code evs => code = CELL_OK -> exists g0, g = g0 ++ evs
  | _ => True
  end.
Definition told (s : equeue) : Prop := forall t, told_at (qpc s t) (got s t).

Lemma told_step s s' t p : told s -> eq_points s' = <[t := p]> (eq_points s) -> (forall u, u <> t -> got s' u = got s u) ->
  told_at p (got s' t) -> told s'.
Proof.
  intros T E G H u. destruct (decide (u = t)) as [->|N]; [by rewrite (qpc_points_here _ _ _ _ E)|].
  rewrite (qpc_points_ne _ _ _ _ _ E N), G by done. apply T.
Qed.

Lemma told_same s s' t p : told s -> eq_points s' = <[t := p]> (eq_points s) -> eq_got s' = eq_got s ->
  match p with QrReturned code _ | QtReturned code _ => code <> CELL_OK | _ => True end -> told s'.
Proof.
  intros T E G H. apply (told_step s s' t p T E); [intros; unfold got; by rewrite G|]. destruct p; try done; by intros ?%H.
Qed.

Lemma told_end s s1 t : told s -> eq_points s1 = eq_points s -> eq_got s1 = eq_got s -> told (qr_end t s1).
Proof.
  intros T E G. unfold qr_end. set (r := ereg _ t).
  destruct (Z.eqb_spec (e_gpr3 r) CELL_OK) as [R|R].
  - eapply (told_step s _ t _ T); [cbn; by rewrite E|intros u N|intros _].
    + change (got (e_got t [e_event r] s1) u = got s u). rewrite got_insert, decide_False by done. unfold got. by rewrite G.
    + exists (got s1 t). change (got (e_got t [e_event r] s1) t = got s1 t ++ [e_event r]). by rewrite got_insert, decide_True.
  - eapply (told_same s _ t _ T); [cbn; by rewrite E|done|done].
Qed.

Lemma told_run t s s' : told s -> q_run t s = Some s' -> told s'.
Proof.
  intros T. unfold q_run. destruct (qpc s t) eqn:E; try done; try (destruct (q_unlocked s); [|done]).
  - intros [= <-]. unfold qr_lock. destruct (eq_events s); [destruct (emplace _ _ _ _) as [[] ?]; by eapply (told_same s)|by eapply told_end].
  - unfold qr_signal. case_bool_decide; [|done]. intros [= <-]. by eapply told_end.
  - intros [= <-]. unfold qr_timeout. destruct (_ =? _); by eapply (told_same s).
  - intros [= <-]. by eapply told_end.
  - unfold qr_unqueue. destruct (unqueue _ _ _ _) as [[[r f] h]|]; [|done]. cbn. intros [= <-]. destruct (_ =? _); by eapply told_end.
  - unfold qt_lock. destruct (eq_exists s); [|intros [= <-]; by eapply (told_same s)].
    destruct (take_events _ _ _ _) as [[dest rest]|]; [|done]. cbn [mbind option_bind]. intros [= <-].
    eapply (told_step s _ t _ T); [done|intros u N|intros _; exists (got s t)].
    + change (got (e_got t dest (e_take (Some t) dest rest s)) u = got s u). by rewrite got_insert, decide_False.
    + change (got (e_got t dest (e_take (Some t) dest rest s)) t = got s t ++ dest). by rewrite got_insert, decide_True.
  - intros [= <-]. by eapply (told_same s).
  - unfold qd_wake. destruct (walk _ _); [|done]. intros [= <-]. by eapply (told_same s).
  - unfold qn_send. destruct (negb _); [intros [= <-]; by eapply (told_same s)|].
    destruct (_ =? _); [intros [= <-]; destruct (_ <? _); by eapply (told_same s)|].
    destruct (schedule _ _ _ _) as [[[c f] h]|]; [|done]. cbn. intros [= <-]. destruct (is_again _ _); [destruct port|]; by eapply (told_same s).
  - intros [= <-]. unfold qn_store. destruct port; [destruct (_ <? _)|]; by eapply (told_same s).
  - intros [= <-]. unfold port_requeued. destruct (port_of _ _); by eapply (told_same s).
Qed.

Lemma told_move a s s' : told s -> move a s = Some s' -> told s'.
Proof.
  intros T. unfold move, equeue_machine. destruct a; try (destruct (q_can_call t s); [cbn [andb]|done]).
  - intros [= <-]. unfold qr_call. destruct (eq_exists s); by eapply (told_same s).
  - intros [= <-]. unfold qt_call. destruct (eq_exists s); by eapply (told_same s).
  - intros [= <-]. unfold q_drain_call. destruct (eq_exists s); by eapply (told_same s).
  - destruct (_ && _); [|done]. unfold qd_call. destruct (_ && _); [intros [= <-]; by eapply (told_same s)|].
    destruct (eq_exists s); [|intros [= <-]; by eapply (told_same s)]. destruct (_ && _); [intros [= <-]; by eapply (told_same s)|].
    destruct (walk _ _); [|done]. cbn. destruct (existsb _ _); [|destruct (_ =? _)]; intros [= <-]; by eapply (told_same s).
  - destruct (_ && _); [|done]. intros [= <-]. unfold port_create. destruct (_ && _); by eapply (told_same s).
  - destruct (idm_free s); [|done]. intros [= <-]. unfold port_destroy. repeat case_match; by eapply (told_same s).
  - destruct (idm_free s); [|done]. intros [= <-]. unfold port_connect_local. repeat case_match; by eapply (told_same s).
  - destruct (idm_free s); [|done]. intros [= <-]. unfold port_disconnect. repeat case_match; by eapply (told_same s).
  - intros [= <-]. unfold port_send. repeat case_match; by eapply (told_same s).
  - repeat case_match; try done. intros [= <-]. by eapply (told_same s).
  - by apply told_run.
  - repeat case_match; try done. intros [= <-]. by eapply (told_same s).
  - destruct (qpc s t); try done. destruct (q_unlocked s); [|done]. unfold qr_stop. destruct (walk _ _); [|done]. cbn. intros [= <-].
    destruct (mem_list _ _); [by eapply (told_same s)|by eapply told_end].
  - destruct (qpc s t); try done; intros [= <-]; by eapply (told_same s).
Qed.

Lemma q_reachable_told s : reachable q_initial s -> told s.
Proof.
  apply (reachable_ind_inv q_initial told); [|intros a s0 s1; apply told_move].
  intros s0 (_ & _ & _ & _ & _ & _ & PT & _) t. unfold qpc, at_point. by rewrite PT, lookup_empty.
Qed.

(** The event a woken thread has in its registers and has not returned with. *)
Definition undelivered (s : equeue) (t : Z) : list lv2_event :=
  if asleep (qpc s t) && bool_decide (t ∈ eq_signal s) && (e_gpr3 (ereg (eq_regs s) t) =? CELL_OK)
  then [e_event (ereg (eq_regs s) t)] else [].

(** C8. Events are delivered exactly once and in order.  In every reachable
    state, for any interleaving of sends through ports or by host threads,
    receives with and without a time-out, [tryreceive], [drain], the destruction
    of the queue and stops: the events accepted (in the order of the sends that
    returned CELL_OK or went to a waiter) are those taken from the queue followed
    by those in it; the events taken for a thread are, in order, those its calls
    returned with, and at most one more that is in its registers when it was
    woken; and a call that returned CELL_OK reported the last of them. *)
Theorem equeue_exactly_once (s : equeue) :
  reachable q_initial s ->
  map snd (eq_taken s) ++ eq_events s = eq_sent s /\
  (forall t, assigned t (eq_taken s) = got s t ++ undelivered s t) /\
  (forall t ev, qpc s t = QrReturned CELL_OK ev -> exists g, got s t = g ++ [ev]) /\
  (forall t evs, qpc s t = QtReturned CELL_OK evs -> exists g, got s t = g ++ evs).
Proof.
  intros R. pose proof (q_reachable_told s R) as T. destruct (q_reachable_inv s R) as [l I]. split; [apply (qi_sent _ _ I)|].
  split; [intros t; apply (qi_view _ _ I t)|]. split; intros t x E; specialize (T t); rewrite E in T; by apply T.
Qed.

(** C17. No wake-up is lost and no buffer is overrun.  In every reachable state:
    while threads wait the buffer is empty; it never holds more events than the
    size of the queue, and the array of [tryreceive] has room for all of them
    whatever number the guest asks for; while the mutex is free, a thread asleep
    in [receive] is in the queue or has been woken; and nobody waits on a queue
    that was destroyed. *)
Theorem equeue_no_lost_wakeup (s : equeue) :
  reachable q_initial s ->
  (eq_pq s <> 0 -> eq_events s = []) /\
  Z.of_nat (length (eq_events s)) <= eq_size s <= 127 /\
  (forall size, is_Some (take_events size 0 (eq_events s) [])) /\
  (eq_mutex s = None -> exists l, walk (eq_cpus s) (eq_pq s) = Some l /\
     (forall t, asleep (qpc s t) = true -> t ∈ l \/ t ∈ eq_signal s) /\
     (eq_exists s = false -> l = [])).
Proof.
  intros R. destruct (q_reachable_inv s R) as [l I]. pose proof (qi_room _ _ I) as [SZ LE]. split_and!; try lia.
  - intros N. apply (qi_empty _ _ I). left. intros L. apply N. by apply (queue_nil _ _ _ (qi_queue _ _ I)).
  - intros size. destruct (take_events_spec size 0 (eq_events s) []) as (evs & rest & -> & _); [lia|eauto].
  - intros M. exists l. split; [by apply walk_spec, (qi_queue _ _ I)|]. split; [|by apply (gone_free _ _ I)].
    intros t A. destruct (decide (t ∈ l)) as [|N]; [by left|right]. destruct (qi_view _ _ I t) as (B & _). unfold bits_ok in B.
    cbn [v_pc v_q v_sg v_tg v_lk v_ag v_cpu view] in B. rewrite (qtarget_none s M), (bool_decide_eq_false_2 _ N) in B.
    apply andb_true_iff in B as [_ B]. case_bool_decide; [done|]. by destruct (qpc s t).
Qed.

(** C18. A port in use is protected while the queue exists: a sender that waits to
    be scheduled again finds its port alive, connected and with a positive busy
    count (so that [sys_event_port_disconnect] refuses), and no freed port has been
    accessed. *)
Theorem equeue_port_in_use (s : equeue) :
  reachable q_initial s -> eq_exists s = true ->
  eq_freed_use s = false /\
  forall t p, qpc s t = QnWait p -> exists x, port_of s p = Some x /\ p_queue x = true /\ 0 < is_busy x.
Proof.
  intros R X. destruct (q_reachable_inv s R) as [l I]. pose proof (qi_ports _ _ I) as P. split.
  - apply not_true_iff_false. intros F%(pi_freed _ P). congruence.
  - intros t p E. assert (W : waits_on p (qpc s t) = true) by (rewrite E; apply Z.eqb_refl).
    destruct (pi_wait _ P t p W X) as (x & PO & Q). exists x. split_and!; try done. apply port_of_some in PO as [PO A].
    rewrite (pi_busy _ P p x PO A). pose proof (busy_pos s l t p I W). rewrite uint_small by (unfold in_uint; lia). lia.
Qed.

(** ** Runs *)

(** The thread 16 has the better priority. *)
Definition queue_threads : threads :=
  list_to_map [(16, Cpu 0 (Prio 3 0 false) false); (32, Cpu 0 (Prio 7 0 false) false); (48, Cpu 0 (Prio 7 0 false) false)].
Definition queue0 : equeue := EQueue SYS_SYNC_FIFO 2 true None [] 0 queue_threads ∅ 0 ∅ ∅ ∅ [] [] ∅ false.
(** A connected port, a receiver, and a send that wakes it. *)
Definition port_run : list qaction :=
  [QCallPortCreate 32 1 SYS_EVENT_PORT_LOCAL 0; QReturn 32; QCallPortConnect 32 1; QReturn 32;
   QCallReceive 16 false; QRun 16; QCallPortSend 32 1 5 6 7; QRun 32; QRun 32].
Definition queue1 : equeue := default queue0 (moves port_run queue0).
(** The queue and the port are destroyed, and the thread is back. *)
Definition destroy_run : list qaction := [QCallDestroy 48 0; QReturn 48; QCallPortDestroy 48 1; QReturn 48].
Definition queue2 : equeue := default queue0 (moves destroy_run queue1).

Lemma queue0_initial : q_initial queue0.
Proof.
  assert (H : forall t c, queue_threads !! t = Some c -> again c = false).
  { intros t c H%elem_of_list_to_map_2. repeat (apply elem_of_cons in H as [[= -> ->]|H]; [done|]). by apply elem_of_nil in H. }
  unfold q_initial, queue0; cbn -[queue_threads]. split_and!; try done.
  intros t. unfold is_again. destruct (queue_threads !! t) as [c|] eqn:E; [|done]. by apply H in E.
Qed.

Lemma queue1_reachable : reachable q_initial queue1.
Proof.
  eapply (moves_reachable q_initial port_run queue0); [by apply reach_init, queue0_initial|]. vm_compute. reflexivity.
Qed.

Lemma queue2_reachable : reachable q_initial queue2.
Proof. eapply (moves_reachable q_initial destroy_run queue1 _ queue1_reachable). vm_compute. reflexivity. Qed.

(** C39. A defect of the ports: the protection ends with the queue.
    [sys_event_port_send] keeps a plain pointer to the port while it waits to be
    scheduled again, and [sys_event_port_destroy] asks only whether the queue of
    the port exists.  There is a reachable state in which a sender waits, the
    queue has been destroyed (without force: nobody waits on it any more) and
    then the port, both calls have returned CELL_OK to the guest, and the next
    step of the sender decrements the counter of the freed port. *)
Theorem equeue_freed_port :
  exists s0 s1 s2 s3 t p u,
    reachable q_initial s0 /\ qpc s0 t = QnWait p /\
    moves [QCallDestroy u 0] s0 = Some s1 /\ qpc s1 u = QReturned CELL_OK /\
    moves [QReturn u; QCallPortDestroy u p] s1 = Some s2 /\ qpc s2 u = QReturned CELL_OK /\
    moves [QReturn u; QRun t] s2 = Some s3 /\ eq_freed_use s3 = true.
Proof.
  exists queue1, (default queue0 (moves [QCallDestroy 48 0] queue1)),
    (default queue0 (moves [QCallDestroy 48 0; QReturn 48; QCallPortDestroy 48 1] queue1)),
    (default queue0 (moves [QRun 32] queue2)), 32, 1, 48.
  split; [exact queue1_reachable|]. split_and!; vm_compute; reflexivity.
Qed.

Lemma equeue_exactly_once_witness :
  map snd (eq_taken queue1) ++ eq_events queue1 = [(Z.lor (Z.shiftl 1 32) 1, 5, 6, 7)] /\
  assigned 16 (eq_taken queue1) = got queue1 16 ++ undelivered queue1 16.
Proof.
  destruct (equeue_exactly_once queue1 queue1_reachable) as (S & A & _). split; [rewrite S; vm_compute; reflexivity|apply A].
Defined.

Lemma equeue_no_lost_wakeup_witness : exists l, walk (eq_cpus queue1) (eq_pq queue1) = Some l /\ (16 ∈ l \/ 16 ∈ eq_signal queue1).
Proof.
  destruct (equeue_no_lost_wakeup queue1 queue1_reachable) as (_ & _ & _ & W). destruct W as (l & E & A & _); [vm_compute; reflexivity|].
  exists l. split; [exact E|]. apply A. vm_compute. reflexivity.
Defined.

Lemma equeue_port_in_use_witness : exists x, port_of queue1 1 = Some x /\ p_queue x = true /\ 0 < is_busy x.
Proof.
  destruct (equeue_port_in_use queue1 queue1_reachable) as [_ W]; [vm_compute; reflexivity|]. apply (W 32). vm_compute. reflexivity.
Defined.
