(* ===== verification/Lv2Mutex.v ===== *)
(** The LV2 mutex and condition variables (src/rpcs3/Emu/Cell/lv2/sys_mutex.h,
    sys_mutex.cpp, sys_cond.cpp).

    The mutex keeps its owner and its queue of waiters in one 16-byte word,
    [control].  A thread takes a free mutex, joins the waiters and releases a
    mutex nobody waits for by compare-and-swap on the word, without the host
    mutex; a release with waiters, a time-out and everything a condition
    variable does run under the host mutex and still meet those operations.  A
    signalled waiter of a condition variable moves to the queue of the mutex.

    A step is one operation on [control], together with what only the thread
    itself or the holder of the host mutex can see: [lock_count] is accessed by
    the owner alone, links inside the queues and the head of a condition
    variable's queue are changed under the host mutex alone.  The functions
    passed to [fetch_op] and [atomic_op] change the links only on an attempt
    that succeeds or that needs no exchange, so that an attempt that fails has
    no effect but a new priority tag ([MTick]). *)
From Stdlib Require Import ZArith Lia Bool List.
From stdpp Require Import base option list numbers gmap.
From S2P Require Import Prelude Machine Lv2Queue Lv2Sync.
Local Open Scope Z_scope.

(** ** State *)

Definition SYS_SYNC_RECURSIVE : Z := 0x10.
Definition SYS_SYNC_NOT_RECURSIVE : Z := 0x20.

(** [sys_cond_signal], [sys_cond_signal_all], [sys_cond_signal_to]. *)
Inductive sigkind : Set := SigOne | SigAll | SigTo (u : Z).

(** The call that returned. *)
Inductive mcall : Set := KLock | KTrylock | KUnlock | KWait | KOther.

(** Where a thread is.  [n] counts the turns left of a spin loop, [to] tells
    whether the call has a time-out, [count] is the saved [lock_count], [r] is
    [ppu.gpr[3]]. *)
Inductive mpoint : Set :=
  | MIdle
  | MlTry (n : nat) (to : bool)              (* sys_mutex_lock: before try_lock *)
  | MlCas (n : nat) (q : Z) (to : bool)      (* the loaded owner was 0 *)
  | MlBusy (n : nat) (to : bool)             (* try_lock gave EBUSY *)
  | MlOwn (to : bool)                        (* before try_own *)
  | MlSleep (to : bool)                      (* in the loop on ppu.state *)
  | MlExpired                                (* timed out *)
  | MlWait                                   (* the queue was empty: before lock_unlock *)
  | MlLock                                   (* before the host mutex, to unqueue *)
  | MtCas (q : Z)                            (* sys_mutex_trylock: the loaded owner was 0 *)
  | MuCas                                    (* sys_mutex_unlock: the loaded queue was empty *)
  | MuLock                                   (* before the host mutex *)
  | CwLock (c : Z) (to : bool)               (* sys_cond_wait: before the host mutex *)
  | CwSleep (c : Z) (to : bool) (count r : Z)
  | CwExpired (c count r : Z)                (* timed out, before the host mutex *)
  | CwEnd (count r : Z)                      (* after the loop *)
  | CsLoad (k : sigkind) (c : Z)             (* sys_cond_signal*: start of the loop *)
  | CsLock (k : sigkind) (c : Z)             (* before the host mutex *)
  | CsWait (k : sigkind) (c : Z)             (* nobody waits: before lock_unlock *)
  | CaLoop (c f result : Z)                  (* signal_all: under the host mutex *)
  | MReturned (k : mcall) (r : Z)
  | MStopped.                                (* returned with cpu_flag::again *)

Record lmutex := LMutex {
  mx_protocol : Z; mx_recursive : Z; mx_exists : bool;
  mx_host : option Z;          (* the holder of the host mutex *)
  mx_cond_count : Z; mx_lock_count : Z;
  mx_owner : Z; mx_sq : Z;     (* control *)
  mx_conds : gset Z;           (* the condition variables that exist *)
  mx_csq : gmap Z Z;           (* their queues *)
  mx_cpus : threads; mx_tag : Z; mx_points : gmap Z mpoint;
  mx_signal : gset Z;          (* threads that [awake] was called for *)
  mx_depth : gmap Z Z;         (* ghost: the locks a thread took and did not give back *)
  mx_failed : bool             (* an [ensure] failed *)
}.

Definition mpc (s : lmutex) (t : Z) : mpoint := at_point MIdle (mx_points s) t.
Definition depth (s : lmutex) (t : Z) : Z := default 0 (mx_depth s !! t).
Definition csq (s : lmutex) (c : Z) : Z := default 0 (mx_csq s !! c).

Definition mgo (t : Z) (p : mpoint) (s : lmutex) : lmutex :=
  LMutex (mx_protocol s) (mx_recursive s) (mx_exists s) (mx_host s) (mx_cond_count s) (mx_lock_count s) (mx_owner s)
    (mx_sq s) (mx_conds s) (mx_csq s) (mx_cpus s) (mx_tag s) (<[t := p]> (mx_points s)) (mx_signal s) (mx_depth s) (mx_failed s).
Definition m_host (h : option Z) (s : lmutex) : lmutex :=
  LMutex (mx_protocol s) (mx_recursive s) (mx_exists s) h (mx_cond_count s) (mx_lock_count s) (mx_owner s)
    (mx_sq s) (mx_conds s) (mx_csq s) (mx_cpus s) (mx_tag s) (mx_points s) (mx_signal s) (mx_depth s) (mx_failed s).
Definition m_count (n : Z) (s : lmutex) : lmutex :=
  LMutex (mx_protocol s) (mx_recursive s) (mx_exists s) (mx_host s) (mx_cond_count s) n (mx_owner s)
    (mx_sq s) (mx_conds s) (mx_csq s) (mx_cpus s) (mx_tag s) (mx_points s) (mx_signal s) (mx_depth s) (mx_failed s).
Definition m_owner (o : Z) (s : lmutex) : lmutex :=
  LMutex (mx_protocol s) (mx_recursive s) (mx_exists s) (mx_host s) (mx_cond_count s) (mx_lock_count s) o
    (mx_sq s) (mx_conds s) (mx_csq s) (mx_cpus s) (mx_tag s) (mx_points s) (mx_signal s) (mx_depth s) (mx_failed s).
Definition m_queue (q : Z) (h : threads) (s : lmutex) : lmutex :=
  LMutex (mx_protocol s) (mx_recursive s) (mx_exists s) (mx_host s) (mx_cond_count s) (mx_lock_count s) (mx_owner s)
    q (mx_conds s) (mx_csq s) h (mx_tag s) (mx_points s) (mx_signal s) (mx_depth s) (mx_failed s).
Definition m_cqueue (c q : Z) (h : threads) (s : lmutex) : lmutex :=
  LMutex (mx_protocol s) (mx_recursive s) (mx_exists s) (mx_host s) (mx_cond_count s) (mx_lock_count s) (mx_owner s)
    (mx_sq s) (mx_conds s) (<[c := q]> (mx_csq s)) h (mx_tag s) (mx_points s) (mx_signal s) (mx_depth s) (mx_failed s).
Definition m_cpus (h : threads) (s : lmutex) : lmutex :=
  LMutex (mx_protocol s) (mx_recursive s) (mx_exists s) (mx_host s) (mx_cond_count s) (mx_lock_count s) (mx_owner s)
    (mx_sq s) (mx_conds s) (mx_csq s) h (mx_tag s) (mx_points s) (mx_signal s) (mx_depth s) (mx_failed s).
Definition m_tag (x : Z) (s : lmutex) : lmutex :=
  LMutex (mx_protocol s) (mx_recursive s) (mx_exists s) (mx_host s) (mx_cond_count s) (mx_lock_count s) (mx_owner s)
    (mx_sq s) (mx_conds s) (mx_csq s) (mx_cpus s) x (mx_points s) (mx_signal s) (mx_depth s) (mx_failed s).
Definition m_signal (x : gset Z) (s : lmutex) : lmutex :=
  LMutex (mx_protocol s) (mx_recursive s) (mx_exists s) (mx_host s) (mx_cond_count s) (mx_lock_count s) (mx_owner s)
    (mx_sq s) (mx_conds s) (mx_csq s) (mx_cpus s) (mx_tag s) (mx_points s) x (mx_depth s) (mx_failed s).
Definition m_depth (t d : Z) (s : lmutex) : lmutex :=
  LMutex (mx_protocol s) (mx_recursive s) (mx_exists s) (mx_host s) (mx_cond_count s) (mx_lock_count s) (mx_owner s)
    (mx_sq s) (mx_conds s) (mx_csq s) (mx_cpus s) (mx_tag s) (mx_points s) (mx_signal s) (<[t := depth s t + d]> (mx_depth s)) (mx_failed s).
Definition m_conds (e : bool) (n : Z) (x : gset Z) (s : lmutex) : lmutex :=
  LMutex (mx_protocol s) (mx_recursive s) e (mx_host s) n (mx_lock_count s) (mx_owner s)
    (mx_sq s) x (mx_csq s) (mx_cpus s) (mx_tag s) (mx_points s) (mx_signal s) (mx_depth s) (mx_failed s).
Definition m_ensure (b : bool) (s : lmutex) : lmutex :=
  if b then s else
  LMutex (mx_protocol s) (mx_recursive s) (mx_exists s) (mx_host s) (mx_cond_count s) (mx_lock_count s) (mx_owner s)
    (mx_sq s) (mx_conds s) (mx_csq s) (mx_cpus s) (mx_tag s) (mx_points s) (mx_signal s) (mx_depth s) true.

Definition mret (t : Z) (k : mcall) (r : Z) (s : lmutex) : lmutex := mgo t (MReturned k r) s.
(** The call returns CELL_OK with the mutex taken, or given back. *)
Definition mgot (t : Z) (k : mcall) (s : lmutex) : lmutex := mret t k CELL_OK (m_depth t 1 s).
Definition mgave (t : Z) (s : lmutex) : lmutex := mret t KUnlock CELL_OK (m_depth t (-1) s).
(** [ppu.state += cpu_flag::again; return {}]. *)
Definition mstop (t : Z) (s : lmutex) : lmutex := mgo t MStopped (m_cpus (alter set_again t (mx_cpus s)) s).
(** [awake(cpu)], nothing for null. *)
Definition m_awake (u : Z) (s : lmutex) : lmutex :=
  if u =? 0 then s else m_signal (mx_signal s ∪ {[u]}) s.

(** ** lv2_mutex *)

Inductive tried : Set := TCas | TDone (r : Z).

(** [try_lock] up to the exchange, which the caller makes for [TCas]. *)
Definition try_lock (t : Z) (s : lmutex) : tried * lmutex :=
  if mx_owner s =? 0 then (TCas, s)
  else if mx_owner s =? t then
    if mx_recursive s =? SYS_SYNC_RECURSIVE then
      if mx_lock_count s =? 0xffffffff then (TDone CELL_EKRESOURCE, s)
      else (TDone CELL_OK, m_count (u32 (mx_lock_count s + 1)) s)
    else (TDone CELL_EDEADLK, s)
  else (TDone CELL_EBUSY, s).

(** [prio.order = tag]. *)
Definition own_prio (tag : Z) (p : ppu_prio_t) : ppu_prio_t := Prio (prio p) (sint 50 tag) (preserve_bit p).

Definition try_own (u : Z) (s : lmutex) : bool * lmutex :=
  if mx_owner s =? 0 then (true, m_cpus (alter (set_next 0) u (mx_cpus s)) (m_owner u s))
  else
    let tag' := next_tag (mx_tag s) in
    (false, m_tag tag' (m_queue u
       (alter (fun c => set_next (mx_sq s) (set_prio (own_prio tag' (cprio c)) c)) u (mx_cpus s)) s)).

(** The thread the mutex goes to, 0 for none. *)
Definition reown (s : lmutex) : option (Z * lmutex) :=
  if mx_sq s =? 0 then Some (0, m_owner 0 s)
  else
    '(res, first, h) ← schedule (mx_protocol s) false (mx_cpus s) (mx_sq s);
    let s' := m_queue first h s in
    if first =? mx_sq s then
      if is_again (mx_cpus s) res then Some (res, s')
      else Some (res, m_cpus (alter (set_next 0) res h) (m_owner res s'))
    else Some (res, m_cpus (alter (set_next 0) res h) (m_owner res s')).

(** ** sys_mutex_lock *)
Definition ml_load (t : Z) (n : nat) (to : bool) (s : lmutex) : lmutex :=
  match try_lock t s with
  | (TCas, s') => mgo t (MlCas n (mx_sq s) to) s'
  | (TDone r, s') =>
      if r =? CELL_EBUSY then mgo t (MlBusy n to) s'
      else if r =? CELL_OK then mgot t KLock s' else mret t KLock r s'
  end.

Definition ml_call (t : Z) (n : nat) (to : bool) (s : lmutex) : lmutex :=
  if mx_exists s then ml_load t n to s else mret t KLock CELL_ESRCH s.

Definition ml_cas (t : Z) (n : nat) (q : Z) (to : bool) (s : lmutex) : lmutex :=
  if (mx_owner s =? 0) && (mx_sq s =? q) then mgot t KLock (m_owner t s) else mgo t (MlBusy n to) s.

Definition ml_busy (t : Z) (n : nat) (to : bool) (s : lmutex) : lmutex :=
  match n with
  | S n' => if mx_sq s =? 0 then mgo t (MlTry n' to) s else mgo t (MlOwn to) s
  | O => mgo t (MlOwn to) s
  end.

(** [sleep] is false when the thread was woken before it slept; it then returns
    like a woken one. *)
Definition ml_own (t : Z) (to : bool) (s : lmutex) : lmutex :=
  match try_own t s with (true, s') => mgot t KLock s' | (false, s') => mgo t (MlSleep to) s' end.

Definition ml_signal (t : Z) (s : lmutex) : option lmutex :=
  if bool_decide (t ∈ mx_signal s) then Some (mgot t KLock (m_signal (mx_signal s ∖ {[t]}) s)) else None.

Definition ml_stop (t : Z) (s : lmutex) : option lmutex :=
  l ← walk (mx_cpus s) (mx_sq s);
  Some (if mem_list t l then mstop t s else mgot t KLock s).

Definition ml_expired (t : Z) (s : lmutex) : lmutex :=
  mgo t (if mx_sq s =? 0 then MlWait else MlLock) s.

Definition ml_lock (t : Z) (s : lmutex) : option lmutex :=
  '(r, first, h) ← unqueue false (mx_cpus s) (mx_sq s) t;
  Some (if r =? 0 then mgot t KLock s
        else mret t KLock CELL_ETIMEDOUT (m_queue first (alter (set_next 0) t h) s)).

(** ** sys_mutex_trylock *)
Definition mt_call (t : Z) (s : lmutex) : lmutex :=
  if mx_exists s then
    match try_lock t s with
    | (TCas, s') => mgo t (MtCas (mx_sq s)) s'
    | (TDone r, s') => if r =? CELL_OK then mgot t KTrylock s' else mret t KTrylock r s'
    end
  else mret t KTrylock CELL_ESRCH s.

Definition mt_cas (t q : Z) (s : lmutex) : lmutex :=
  if (mx_owner s =? 0) && (mx_sq s =? q) then mgot t KTrylock (m_owner t s) else mret t KTrylock CELL_EBUSY s.

(** ** sys_mutex_unlock *)
Definition mu_call (t : Z) (s : lmutex) : lmutex :=
  if mx_exists s then
    if negb (mx_owner s =? t) then mret t KUnlock CELL_EPERM s
    else if negb (mx_lock_count s =? 0) then mgave t (m_count (u32 (mx_lock_count s - 1)) s)
    else mgo t (if mx_sq s =? 0 then MuCas else MuLock) s
  else mret t KUnlock CELL_ESRCH s.

Definition mu_cas (t : Z) (s : lmutex) : lmutex :=
  if (mx_owner s =? t) && (mx_sq s =? 0) then mgave t (m_owner 0 s) else mgo t MuLock s.

Definition mu_lock (t : Z) (s : lmutex) : option lmutex :=
  '(res, s') ← reown s;
  Some (if is_again (mx_cpus s') res then mstop t s' else mgave t (m_awake res s')).

(** ** sys_mutex_destroy *)
Definition m_destroy (t : Z) (s : lmutex) : lmutex :=
  if mx_exists s then
    if negb (mx_owner s =? 0) then mret t KOther CELL_EBUSY s
    else if negb (mx_cond_count s =? 0) then mret t KOther CELL_EPERM s
    else mret t KOther CELL_OK (m_conds false (mx_cond_count s) (mx_conds s) s)
  else mret t KOther CELL_ESRCH s.

(** ** sys_cond_create, sys_cond_destroy *)
Definition id_count : Z := 8192.

Definition on_id_create (c : Z) (s : lmutex) : option lmutex :=
  if mx_exists s
  then Some (m_cqueue c 0 (mx_cpus s) (m_conds true (u32 (mx_cond_count s + 1)) (mx_conds s ∪ {[c]}) s))
  else None.

(** [full]: no ID is free; there are [id_count] for all condition variables.
    The condition variable is private to the process. *)
Definition c_create (t c : Z) (full : bool) (s : lmutex) : lmutex :=
  if mx_exists s then
    if full || (id_count <=? Z.of_nat (size (mx_conds s))) then mret t KOther CELL_EAGAIN s
    else match on_id_create c s with
         | Some s' => mret t KOther CELL_OK s'
         | None => mret t KOther CELL_ESRCH s
         end
  else mret t KOther CELL_ESRCH s.

Definition c_destroy (t c : Z) (s : lmutex) : lmutex :=
  if bool_decide (c ∈ mx_conds s) then
    if negb (csq s c =? 0) then mret t KOther CELL_EBUSY s
    else mret t KOther CELL_OK (m_conds (mx_exists s) (u32 (mx_cond_count s - 1)) (mx_conds s ∖ {[c]}) s)
  else mret t KOther CELL_ESRCH s.

(** ** sys_cond_wait *)
Definition cw_call (t c : Z) (to : bool) (s : lmutex) : lmutex :=
  if bool_decide (c ∈ mx_conds s) then
    if negb (mx_owner s =? t) then mret t KOther CELL_EPERM s else mgo t (CwLock c to) s
  else mret t KOther CELL_ESRCH s.

Definition cw_lock (t c : Z) (to : bool) (s : lmutex) : option lmutex :=
  let '(tag', first, h) := emplace (mx_tag s) (mx_cpus s) (csq s c) t in
  let count := mx_lock_count s in
  '(res, s') ← reown (m_count 0 (m_tag tag' (m_cqueue c first h s)));
  if is_again (mx_cpus s') res then
    '(r, first', h') ← unqueue true (mx_cpus s') (csq s' c) t;
    Some (mstop t (m_ensure (negb (r =? 0)) (m_cqueue c first' h' s')))
  else Some (mgo t (CwSleep c to count CELL_OK) (m_awake res s')).

Definition cw_signal (t count r : Z) (s : lmutex) : option lmutex :=
  if bool_decide (t ∈ mx_signal s) then Some (mgo t (CwEnd count r) (m_signal (mx_signal s ∖ {[t]}) s)) else None.

Definition cw_stop (t c count r : Z) (s : lmutex) : option lmutex :=
  lc ← walk (mx_cpus s) (csq s c);
  lm ← walk (mx_cpus s) (mx_sq s);
  Some (if negb (mem_list t lc) && negb (mem_list t lm) then mgo t (CwEnd count r) s else mstop t s).

Definition cw_expired (t c count r : Z) (s : lmutex) : option lmutex :=
  '(x, first, h) ← unqueue true (mx_cpus s) (csq s c) t;
  Some (if negb (x =? 0) then
          match try_own t (m_cqueue c first h s) with
          | (true, s') => mgo t (CwEnd count CELL_ETIMEDOUT) s'
          | (false, s') => mgo t (CwSleep c false count CELL_ETIMEDOUT) s'
          end
        else if mx_owner s =? t then mgo t (CwEnd count r) s
        else mgo t (CwSleep c false count r) s).

Definition cw_end (t count r : Z) (s : lmutex) : lmutex :=
  mret t KWait r (m_count count (m_ensure (mx_owner s =? t) s)).

(** ** sys_cond_signal, sys_cond_signal_all, sys_cond_signal_to *)
Definition cs_load (t : Z) (k : sigkind) (c : Z) (s : lmutex) : lmutex :=
  if bool_decide (c ∈ mx_conds s) then
    if match k with SigTo u => bool_decide (is_Some (mx_cpus s !! u)) | _ => true end
    then mgo t (if csq s c =? 0 then CsWait k c else CsLock k c) s
    else mret t KOther CELL_ESRCH s
  else mret t KOther CELL_ESRCH s.

(** The result when there was nobody to wake. *)
Definition cs_none (k : sigkind) : Z := match k with SigTo _ => CELL_EPERM | _ => CELL_OK end.

(** [if (cond.mutex->try_own( *cpu)) cond.awake(cpu)]. *)
Definition cs_own (u : Z) (s : lmutex) : lmutex :=
  match try_own u s with (true, s') => m_awake u s' | (false, s') => s' end.

Definition cs_one (t c : Z) (s : lmutex) : option lmutex :=
  '(u, first, h) ← schedule (mx_protocol s) true (mx_cpus s) (csq s c);
  let s' := m_cqueue c first h s in
  Some (if u =? 0 then mret t KOther CELL_OK s'
        else if is_again (mx_cpus s) u then mstop t s'
        else mret t KOther CELL_OK (cs_own u s')).

Definition cs_all (t c : Z) (s : lmutex) : option lmutex :=
  l ← walk (mx_cpus s) (csq s c);
  Some (if existsb (is_again (mx_cpus s)) l then mstop t s
        else mgo t (CaLoop c (csq s c) 0) (m_host (Some t) (m_cqueue c 0 (mx_cpus s) s))).

Definition cs_to (t u c : Z) (s : lmutex) : option lmutex :=
  l ← walk (mx_cpus s) (csq s c);
  if mem_list u l then
    if is_again (mx_cpus s) u then Some (mstop t s)
    else
      '(x, first, h) ← unqueue true (mx_cpus s) (csq s c) u;
      Some (mret t KOther CELL_OK (cs_own u (m_ensure (negb (x =? 0)) (m_cqueue c first h s))))
  else Some (mret t KOther CELL_EPERM s).

Definition cs_lock (t : Z) (k : sigkind) (c : Z) (s : lmutex) : option lmutex :=
  match k with SigOne => cs_one t c s | SigAll => cs_all t c s | SigTo u => cs_to t u c s end.

(** One turn of the loop of [sys_cond_signal_all]. *)
Definition ca_loop (t c f result : Z) (s : lmutex) : option lmutex :=
  '(u, f', h) ← schedule SYS_SYNC_PRIORITY true (mx_cpus s) f;
  let s' := m_cpus h s in
  Some (if u =? 0 then mret t KOther CELL_OK (m_host None (m_awake result s'))
        else match try_own u s' with
             | (true, s'') => mgo t (CaLoop c f' u) (m_ensure (result =? 0) s'')
             | (false, s'') => mgo t (CaLoop c f' result) s''
             end).

(** ** Steps *)
Definition m_run (t : Z) (s : lmutex) : option lmutex :=
  let locked r := match mx_host s with None => r | Some _ => None end in
  match mpc s t with
  | MlTry n to => Some (ml_load t n to s)
  | MlCas n q to => Some (ml_cas t n q to s)
  | MlBusy n to => Some (ml_busy t n to s)
  | MlOwn to => Some (ml_own t to s)
  | MlSleep _ => ml_signal t s
  | MlExpired => Some (ml_expired t s)
  | MlWait => locked (Some (mgot t KLock s))
  | MlLock => locked (ml_lock t s)
  | MtCas q => Some (mt_cas t q s)
  | MuCas => Some (mu_cas t s)
  | MuLock => locked (mu_lock t s)
  | CwLock c to => locked (cw_lock t c to s)
  | CwSleep _ _ count r => cw_signal t count r s
  | CwExpired c count r => locked (cw_expired t c count r s)
  | CwEnd count r => Some (cw_end t count r s)
  | CsLoad k c => Some (cs_load t k c s)
  | CsLock k c => locked (cs_lock t k c s)
  | CsWait k _ => locked (Some (mret t KOther (cs_none k) s))
  | CaLoop c f result => ca_loop t c f result s
  | _ => None
  end.

(** Inside a callback of the ID manager, under its reader lock; creating and
    destroying objects takes the writer lock. *)
Definition m_idm (p : mpoint) : bool :=
  match p with
  | MlTry _ _ | MlCas _ _ _ | MlBusy _ _ | MlOwn _ | MtCas _ | MuCas | MuLock | CwLock _ _
  | CsLock _ _ | CsWait _ _ | CaLoop _ _ _ => true
  | _ => false
  end.

Definition idm_free (s : lmutex) : bool := forallb (fun '(_, p) => negb (m_idm p)) (map_to_list (mx_points s)).

Definition m_can_call (t : Z) (s : lmutex) : bool :=
  match mx_cpus s !! t, mpc s t with Some c, MIdle => negb (again c) && negb (t =? 0) | _, _ => false end.

Inductive maction : Set :=
  | MCallLock (t : Z) (n : nat) (to : bool) | MCallTrylock (t : Z) | MCallUnlock (t : Z) | MCallDestroy (t : Z)
  | CCallCreate (t c : Z) (full : bool) | CCallDestroy (t c : Z) | CCallWait (t c : Z) (to : bool) | CCallSignal (t : Z) (k : sigkind) (c : Z)
  | MRun (t : Z)
  | MGiveUp (t : Z)     (* the ID manager's lock is wanted: no more spinning *)
  | MTimeout (t : Z)    (* wait_timeout returned true *)
  | MStop (t : Z)       (* the emulator stops the thread *)
  | MSuspend (t : Z)    (* the signalling thread was suspended: try again *)
  | MReturn (t : Z)     (* back in guest code *)
  | MTick.              (* g_priority_order_tag advances elsewhere *)

#[export] Instance lmutex_machine : Machine lmutex maction := fun a s =>
  let call t r := if m_can_call t s then Some r else None in
  let alone t r := if m_can_call t s && idm_free s then Some r else None in
  let locked r := match mx_host s with None => r | Some _ => None end in
  match a with
  | MCallLock t n to => if bool_decide (n = 3%nat \/ n = 10%nat) then call t (ml_call t n to s) else None
  | MCallTrylock t => call t (mt_call t s)
  | MCallUnlock t => call t (mu_call t s)
  | MCallDestroy t => locked (alone t (m_destroy t s))
  | CCallCreate t c full => match mx_csq s !! c with None => alone t (c_create t c full s) | Some _ => None end
  | CCallDestroy t c => locked (alone t (c_destroy t c s))
  | CCallWait t c to => call t (cw_call t c to s)
  | CCallSignal t k c => call t (mgo t (CsLoad k c) s)
  | MRun t => m_run t s
  | MGiveUp t => match mpc s t with MlTry _ to => Some (mgo t (MlOwn to) s) | _ => None end
  | MTimeout t =>
      match mpc s t with
      | MlSleep true => Some (mgo t MlExpired s)
      | CwSleep c true count r => Some (mgo t (CwExpired c count r) s)
      | _ => None
      end
  | MStop t =>
      match mpc s t with
      | MlSleep _ => locked (ml_stop t s)
      | CwSleep c _ count r => locked (cw_stop t c count r s)
      | CsLoad _ _ => Some (mstop t s)
      | _ => None
      end
  | MSuspend t =>
      match mpc s t with
      | CsLock k c | CsWait k c => locked (Some (mgo t (CsLoad k c) s))
      | _ => None
      end
  | MReturn t =>
      match mpc s t with
      | MReturned _ _ => Some (mgo t MIdle (m_signal (mx_signal s ∖ {[t]}) s))
      | _ => None
      end
  | MTick => Some (m_tag (next_tag (mx_tag s)) s)
  end.

(** A new mutex without condition variables, with threads that are in no call. *)
Definition m_initial (s : lmutex) : Prop :=
  mx_exists s = true /\ mx_host s = None /\ mx_cond_count s = 0 /\ mx_lock_count s = 0 /\ mx_owner s = 0 /\ mx_sq s = 0 /\
  mx_conds s = ∅ /\ mx_csq s = ∅ /\ mx_points s = ∅ /\ mx_signal s = ∅ /\ mx_depth s = ∅ /\ mx_failed s = false /\
  mx_cpus s !! 0 = None /\ (forall t, is_again (mx_cpus s) t = false).
