(* ===== verification/Lv2MutexInv.v ===== *)
(** The invariant of the LV2 mutex and its condition variables ([Lv2Mutex]).

    Every thread is in at most one queue: that of the mutex, that of a
    condition variable, or the list a [sys_cond_signal_all] in progress has
    detached.  What a thread can rely on at its program point is [mlocal], a
    condition on its own view of the state; a step of one thread has to show
    that the views of the others still satisfy theirs. *)
From Stdlib Require Import ZArith Lia Bool List.
From stdpp Require Import base option list numbers gmap.
From S2P Require Import Prelude Machine Lv2Queue Lv2Sync Lv2Mutex.
Local Open Scope Z_scope.
#[local] Set Warnings "-clear-no-such-hyp".

(** ** Queues *)

Inductive place : Set := PNone | PMutex | PCond (c : Z) | PDet.
#[export] Instance place_eq_dec : EqDecision place.
Proof. solve_decision. Defined.

(** The update of a function at one argument. *)
Definition fupd {A B : Type} `{EqDecision A} (a : A) (b : B) (f : A -> B) : A -> B :=
  fun x => if decide (x = a) then b else f x.

Lemma fupd_eq {A B} `{EqDecision A} (a : A) (b : B) f : fupd a b f a = b.
Proof. unfold fupd. by rewrite decide_True. Qed.
Lemma fupd_ne {A B} `{EqDecision A} (a x : A) (b : B) f : x <> a -> fupd a b f x = f x.
Proof. intros. unfold fupd. by rewrite decide_False. Qed.

(** The heads [qh] lead to the lists [ql], and [pl] tells in which list a thread is. *)
Definition queues (h : threads) (qh : place -> Z) (ql : place -> list Z) (pl : Z -> place) : Prop :=
  forall p, p <> PNone -> queue h (qh p) (ql p) /\ forall t, t ∈ ql p <-> pl t = p.

Lemma queues_heads h qh qh' ql pl :
  queues h qh ql pl -> (forall p, p <> PNone -> qh' p = qh p) -> queues h qh' ql pl.
Proof. intros Q E p Hp. rewrite E by done. by apply Q. Qed.

Lemma queues_links h h' qh ql pl :
  queues h qh ql pl -> (forall t, pl t <> PNone -> next_cpu <$> h' !! t = next_cpu <$> h !! t) -> queues h' qh ql pl.
Proof.
  intros Q E p Hp. destruct (Q p Hp) as [Qp Ip]. split; [|done]. eapply queue_same, Qp. intros t Ht. apply E.
  apply Ip in Ht. congruence.
Qed.

Lemma queues_push h h' qh ql pl p t c :
  queues h qh ql pl -> p <> PNone -> pl t = PNone -> t <> 0 -> h' !! t = Some c -> next_cpu c = qh p ->
  (forall u, u <> t -> h' !! u = h !! u) ->
  queues h' (fupd p t qh) (fupd p (t :: ql p) ql) (fupd t p pl).
Proof.
  intros Q Hp Ht T0 Hc Hn F p' Hp'. destruct (Q p' Hp') as [Qp Ip]. unfold fupd at 1 2 3.
  assert (Nt : t ∉ ql p') by (rewrite Ip; congruence).
  assert (Q' : queue h' (qh p') (ql p')).
  { eapply queue_same, Qp. intros u Hu. rewrite F; [done|]. congruence. }
  destruct (decide (p' = p)) as [->|N].
  - split.
    + destruct Q' as [S D]. split; [|by constructor]. cbn. split_and!; [done..|]. exists c. split; [done|]. by rewrite Hn.
    + intros u. unfold fupd. rewrite elem_of_cons, Ip. destruct (decide (u = t)) as [->|]; naive_solver.
  - split; [done|]. intros u. unfold fupd. rewrite Ip. destruct (decide (u = t)) as [->|]; naive_solver.
Qed.

Lemma queues_remove h h' qh ql pl p x f :
  queues h qh ql pl -> p <> PNone -> pl x = p -> queue h' f (qremove x (ql p)) ->
  (forall u, u ∉ ql p -> h' !! u = h !! u) ->
  queues h' (fupd p f qh) (fupd p (qremove x (ql p)) ql) (fupd x PNone pl).
Proof.
  intros Q Hp Hx Q' F p' Hp'. destruct (Q p' Hp') as [Qp Ip]. unfold fupd at 1 2 3.
  destruct (decide (p' = p)) as [->|N].
  - split; [done|]. intros u. unfold fupd. rewrite elem_of_qremove, Ip. destruct (decide (u = x)) as [->|]; naive_solver.
  - split.
    + eapply queue_same, Qp. intros u Hu. rewrite F; [done|]. rewrite (proj2 (Q p Hp)). apply Ip in Hu. congruence.
    + intros u. unfold fupd. rewrite Ip. destruct (decide (u = x)) as [->|]; naive_solver.
Qed.

(** The whole queue [p] becomes the empty queue [q]. *)
Lemma queues_detach h qh ql pl p q :
  queues h qh ql pl -> p <> PNone -> q <> PNone -> p <> q -> ql q = [] ->
  queues h (fupd q (qh p) (fupd p 0 qh)) (fupd q (ql p) (fupd p [] ql))
    (fun t => if decide (pl t = p) then q else pl t).
Proof.
  intros Q Hp Hq N E p' Hp'. destruct (Q p' Hp') as [Qp Ip]. unfold fupd.
  destruct (decide (p' = q)) as [->|N1]; [|destruct (decide (p' = p)) as [->|N2]].
  - split; [by apply Q|]. intros t. rewrite (proj2 (Q p Hp)). destruct (decide (pl t = p)); [done|].
    rewrite <- Ip, E. split; [done|]. by intros ?%elem_of_nil.
  - split; [split; [done|constructor]|]. intros t. destruct (decide (pl t = p)); split; try done; by intros ?%elem_of_nil.
  - split; [done|]. intros t. rewrite Ip. destruct (decide (pl t = p)); naive_solver.
Qed.

(** ** Views *)

(** The thread a [sys_cond_signal_all] in progress has given the mutex to and
    not woken yet, and the list it has detached. *)
Definition pend_of (s : lmutex) : Z :=
  match mx_host s with Some u => match mpc s u with CaLoop _ _ r => r | _ => 0 end | None => 0 end.
Definition detached (s : lmutex) : Z :=
  match mx_host s with Some u => match mpc s u with CaLoop _ f _ => f | _ => 0 end | None => 0 end.

Definition qhead (s : lmutex) (p : place) : Z :=
  match p with PNone => 0 | PMutex => mx_sq s | PCond c => csq s c | PDet => detached s end.

Record mview := MView { v_conds : gset Z; v_place : place; v_own : bool; v_sig : bool; v_pend : bool; v_lk : Z; v_dep : Z }.

Definition mview_of (s : lmutex) (pl : Z -> place) (t : Z) : mview :=
  MView (mx_conds s) (pl t) (mx_owner s =? t) (bool_decide (t ∈ mx_signal s)) (pend_of s =? t)
    (if mx_owner s =? t then mx_lock_count s else 0) (depth s t).

Definition granted (v : mview) : Prop := v_place v = PNone /\ v_own v = true /\ v_lk v = 0.
Definition queued (v : mview) : Prop := v_own v = false /\ v_sig v = false /\ v_pend v = false.
(** The thread waits for nothing; its locks are counted. *)
Definition quiet (v : mview) : Prop :=
  v_place v = PNone /\ v_pend v = false /\ v_dep v = if v_own v then v_lk v + 1 else 0.

Definition wait_view (c count : Z) (v : mview) : Prop :=
  0 <= count < 2 ^ 32 /\ v_dep v = count + 1 /\
  ((v_place v = PCond c \/ v_place v = PMutex \/ v_place v = PDet) /\ queued v \/
   granted v /\ v_sig v = negb (v_pend v)).

Definition wait_result (r : Z) : Prop := r = CELL_OK \/ r = CELL_ETIMEDOUT.

Definition mlocal (p : mpoint) (v : mview) : Prop :=
  match p with
  | MIdle | CsLoad _ _ | CsLock _ _ | CsWait _ _ | CaLoop _ _ _ => quiet v /\ v_sig v = false
  | MReturned k r =>
      quiet v /\ (match k with KLock | KTrylock => r = CELL_OK | KWait => True | _ => False end -> v_own v = true) /\
      (k = KWait -> wait_result r)
  | MlTry _ _ | MlCas _ _ _ | MlBusy _ _ | MlOwn _ | MtCas _ => quiet v /\ v_sig v = false /\ v_own v = false
  | MlSleep _ | MlExpired | MlLock =>
      v_pend v = false /\ v_dep v = 0 /\ (v_place v = PMutex /\ queued v \/ granted v /\ v_sig v = true)
  | MlWait => v_pend v = false /\ v_dep v = 0 /\ granted v /\ v_sig v = true
  | MuCas | MuLock => quiet v /\ v_sig v = false /\ v_own v = true /\ v_lk v = 0
  | CwLock c _ => quiet v /\ v_sig v = false /\ v_own v = true /\ c ∈ v_conds v
  | CwSleep c _ count r => wait_view c count v /\ wait_result r
  | CwExpired c count r => wait_view c count v /\ wait_result r
  | CwEnd count r => v_pend v = false /\ granted v /\ 0 <= count < 2 ^ 32 /\ v_dep v = count + 1 /\ wait_result r
  | MStopped => v_pend v = false /\ v_sig v = false /\ v_place v <> PDet /\ (v_place v = PNone \/ v_own v = false)
  end.

Definition mstopped (p : mpoint) : bool := match p with MStopped => true | _ => false end.
Definition is_loop (p : mpoint) : bool := match p with CaLoop _ _ _ => true | _ => false end.

Record mglobal (s : lmutex) (ql : place -> list Z) : Prop := {
  mg_free : mx_owner s = 0 -> ql PMutex = [] /\ mx_lock_count s = 0;
  mg_count : in_uint 32 (mx_lock_count s);
  mg_conds : mx_cond_count s = Z.of_nat (size (mx_conds s)) /\ mx_cond_count s <= id_count;
  mg_cond c : c ∉ mx_conds s -> ql (PCond c) = [];
  mg_known c : c ∈ mx_conds s -> is_Some (mx_csq s !! c);
  mg_failed : mx_failed s = false;
  mg_null : mx_cpus s !! 0 = None
}.

Record minv (s : lmutex) (ql : place -> list Z) (pl : Z -> place) : Prop := {
  mi_queues : queues (mx_cpus s) (qhead s) ql pl;
  mi_global : mglobal s ql;
  mi_local t : t <> 0 -> mlocal (mpc s t) (mview_of s pl t);
  mi_host t : is_loop (mpc s t) = true <-> mx_host s = Some t;
  mi_alive t : mpc s t <> MIdle -> t <> 0 /\ is_Some (mx_cpus s !! t);
  mi_again t : is_again (mx_cpus s) t = mstopped (mpc s t);
  mi_destroyed : mx_exists s = false -> mx_owner s = 0 /\ mx_conds s = ∅ /\ forall t, m_idm (mpc s t) = false
}.

Lemma mpc_go t p s u : mpc (mgo t p s) u = if decide (u = t) then p else mpc s u.
Proof. apply at_insert. Qed.
Lemma mpc_here t p s : mpc (mgo t p s) t = p.
Proof. rewrite mpc_go. by rewrite decide_True. Qed.
Lemma mpc_there t p s u : u <> t -> mpc (mgo t p s) u = mpc s u.
Proof. intros. rewrite mpc_go. by rewrite decide_False. Qed.

(** ** Steps *)

(** A step of the thread [t]. *)
Lemma minv_step s ql pl t s' ql' pl' :
  minv s ql pl -> t <> 0 -> is_Some (mx_cpus s !! t) ->
  queues (mx_cpus s') (qhead s') ql' pl' -> mglobal s' ql' ->
  (forall u, u <> t -> mpc s' u = mpc s u) ->
  (forall u, u <> 0 -> u <> t -> mlocal (mpc s u) (mview_of s pl u) -> mlocal (mpc s u) (mview_of s' pl' u)) ->
  mlocal (mpc s' t) (mview_of s' pl' t) ->
  (mx_host s' = if is_loop (mpc s' t) then Some t else if is_loop (mpc s t) then None else mx_host s) ->
  (is_loop (mpc s' t) = true -> is_loop (mpc s t) = true \/ mx_host s = None) ->
  (forall u, is_Some (mx_cpus s' !! u) <-> is_Some (mx_cpus s !! u)) ->
  (forall u, is_again (mx_cpus s') u = if decide (u = t) then mstopped (mpc s' t) else is_again (mx_cpus s) u) ->
  (mx_exists s' = false -> mx_owner s' = 0 /\ mx_conds s' = ∅ /\ forall u, m_idm (mpc s' u) = false) ->
  minv s' ql' pl'.
Proof.
  intros I T0 Ta Q G Pc Lo Lt Ho Hl Al Ag De. split; try done.
  - intros u U0. destruct (decide (u = t)) as [->|N]; [done|]. rewrite Pc by done. apply Lo; [done..|]. by apply (mi_local _ _ _ I).
  - intros u. rewrite Ho. destruct (decide (u = t)) as [->|N].
    + destruct (is_loop (mpc s' t)) eqn:E; [done|]. split; [done|]. destruct (is_loop (mpc s t)) eqn:E'; [done|].
      intros H. apply (mi_host _ _ _ I) in H. congruence.
    + rewrite Pc by done. rewrite (mi_host _ _ _ I). destruct (is_loop (mpc s' t)) eqn:E.
      * destruct (Hl eq_refl) as [H|H]; [apply (mi_host _ _ _ I) in H|]; rewrite H; split; intros [=]; congruence.
      * destruct (is_loop (mpc s t)) eqn:E'; [|done]. apply (mi_host _ _ _ I) in E'. rewrite E'. split; [intros [=]; congruence|done].
  - intros u. destruct (decide (u = t)) as [->|N]; [by rewrite Al|]. rewrite Pc, Al by done. apply (mi_alive _ _ _ I).
  - intros u. rewrite Ag. destruct (decide (u = t)) as [->|N]; [done|]. rewrite Pc by done. apply (mi_again _ _ _ I).
Qed.

(** Two states that differ in what belongs to the owner and the caller. *)
Record msame (s s' : lmutex) : Prop := {
  ms_cpus : mx_cpus s' = mx_cpus s; ms_sq : mx_sq s' = mx_sq s; ms_csq : mx_csq s' = mx_csq s;
  ms_host : mx_host s' = mx_host s; ms_conds : mx_conds s' = mx_conds s; ms_cond_count : mx_cond_count s' = mx_cond_count s;
  ms_exists : mx_exists s' = mx_exists s; ms_failed : mx_failed s' = mx_failed s
}.

Lemma pend_same s s' :
  mx_host s' = mx_host s -> (forall u, mx_host s = Some u -> mpc s' u = mpc s u) ->
  pend_of s' = pend_of s /\ detached s' = detached s.
Proof. intros H P. unfold pend_of, detached. rewrite H. destruct (mx_host s) as [u|]; [|done]. by rewrite P. Qed.

(** Only the thread's own point, depth, signal and ownership change. *)
Lemma minv_own s ql pl t s' p :
  minv s ql pl -> t <> 0 -> is_Some (mx_cpus s !! t) -> msame s s' -> mx_points s' = <[t := p]> (mx_points s) ->
  is_loop (mpc s t) = false -> is_loop p = false -> mstopped (mpc s t) = false -> mstopped p = false ->
  (forall u, u <> t -> u ∈ mx_signal s' <-> u ∈ mx_signal s) -> (forall u, u <> t -> depth s' u = depth s u) ->
  (forall u, u <> 0 -> u <> t -> mx_owner s' = u <-> mx_owner s = u) ->
  (forall u, u <> 0 -> u <> t -> mx_owner s = u -> mx_lock_count s' = mx_lock_count s) ->
  (mx_owner s' = 0 -> ql PMutex = [] /\ mx_lock_count s' = 0) -> in_uint 32 (mx_lock_count s') ->
  (mx_exists s = false -> mx_owner s' = 0 /\ m_idm p = false) ->
  mlocal p (MView (mx_conds s) (pl t) (mx_owner s' =? t) (bool_decide (t ∈ mx_signal s')) (pend_of s =? t)
    (if mx_owner s' =? t then mx_lock_count s' else 0) (depth s' t)) ->
  minv s' ql pl.
Proof.
  intros I T0 Ta Sm Ep L0 L1 S0 S1 Sg De Ow Lk Fr In Ex Lo. destruct Sm as [M1 M2 M3 M4 M5 M6 M7 M8].
  assert (Pc : forall u, mpc s' u = if decide (u = t) then p else mpc s u) by (intros u; unfold mpc; rewrite Ep; apply at_insert).
  assert (Pt : mpc s' t = p) by (by rewrite Pc, decide_True).
  assert (Pu : forall u, u <> t -> mpc s' u = mpc s u) by (intros; by rewrite Pc, decide_False).
  assert (Nh : forall u, mx_host s = Some u -> mpc s' u = mpc s u).
  { intros u H. apply Pu. intros ->. apply (mi_host _ _ _ I) in H. congruence. }
  destruct (pend_same s s' M4 Nh) as [Pe Dt]. pose proof (mi_global _ _ _ I) as G.
  apply (minv_step s ql pl t); rewrite ?Pt; try done.
  - rewrite M1. eapply queues_heads; [apply I|]. intros [| |c|]; cbn; unfold csq; rewrite ?M2, ?M3, ?Dt; done.
  - split; rewrite ?M1, ?M3, ?M5, ?M6, ?M8; try apply G; try done.
  - intros u U0 U. unfold mview_of. rewrite Pe, M5, De by done.
    replace (mx_owner s' =? u) with (mx_owner s =? u).
    2: { specialize (Ow u U0 U). destruct (Z.eqb_spec (mx_owner s) u), (Z.eqb_spec (mx_owner s') u); tauto. }
    rewrite (bool_decide_ext (u ∈ mx_signal s') (u ∈ mx_signal s)) by (by apply Sg).
    destruct (Z.eqb_spec (mx_owner s) u) as [E|]; [|done]. by rewrite (Lk u).
  - unfold mview_of. by rewrite Pe, M5.
  - rewrite L1, L0. done.
  - by rewrite L1.
  - by rewrite M1.
  - intros u. rewrite M1, S1. destruct (decide (u = t)) as [->|]; [|done]. rewrite (mi_again _ _ _ I). done.
  - rewrite M7, M5. intros E. destruct (Ex E) as [A B]. destruct (mi_destroyed _ _ _ I E) as (_ & C & D). split_and!; try done.
    intros u. rewrite Pc. destruct (decide (u = t)); [done|apply D].
Qed.

Lemma depth_add t d s u : depth (m_depth t d s) u = if decide (u = t) then depth s t + d else depth s u.
Proof.
  unfold depth. cbn. destruct (decide (u = t)) as [->|]; [by rewrite lookup_insert_eq|by rewrite lookup_insert_ne].
Qed.
Lemma depth_here t d s : depth (m_depth t d s) t = depth s t + d.
Proof. by rewrite depth_add, decide_True. Qed.
Lemma depth_there t d s u : u <> t -> depth (m_depth t d s) u = depth s u.
Proof. intros. by rewrite depth_add, decide_False. Qed.

Section own.
Context (s : lmutex) (ql : place -> list Z) (pl : Z -> place) (t : Z).
Context (I : minv s ql pl) (T0 : t <> 0) (Ta : is_Some (mx_cpus s !! t)).
Context (L0 : is_loop (mpc s t) = false) (S0 : mstopped (mpc s t) = false).

(** The thread moves on. *)
Lemma minv_go p : is_loop p = false -> mstopped p = false -> (mx_exists s = false -> m_idm p = false) ->
  mlocal p (mview_of s pl t) -> minv (mgo t p s) ql pl.
Proof.
  intros L1 S1 E Lo. pose proof (mi_global _ _ _ I) as G. apply (minv_own s ql pl t _ p); try done; try apply G.
  intros H. split; [by apply (mi_destroyed _ _ _ I)|auto].
Qed.

(** It takes or gives back locks, or takes its signal. *)
Lemma minv_depth p d sg : is_loop p = false -> mstopped p = false -> (mx_exists s = false -> m_idm p = false) ->
  (forall u, u <> t -> u ∈ sg <-> u ∈ mx_signal s) ->
  mlocal p (MView (mx_conds s) (pl t) (mx_owner s =? t) (bool_decide (t ∈ sg)) (pend_of s =? t)
    (if mx_owner s =? t then mx_lock_count s else 0) (depth s t + d)) ->
  minv (mgo t p (m_depth t d (m_signal sg s))) ql pl.
Proof.
  intros L1 S1 E Sg Lo. pose proof (mi_global _ _ _ I) as G. apply (minv_own s ql pl t _ p); try done; try apply G.
  - intros u U. by apply (depth_there t d (m_signal sg s)).
  - intros H. split; [by apply (mi_destroyed _ _ _ I)|auto].
  - change (depth (mgo t p (m_depth t d (m_signal sg s))) t) with (depth (m_depth t d (m_signal sg s)) t). by rewrite depth_here.
Qed.

Lemma minv_sig p sg : is_loop p = false -> mstopped p = false -> (mx_exists s = false -> m_idm p = false) ->
  (forall u, u <> t -> u ∈ sg <-> u ∈ mx_signal s) ->
  mlocal p (MView (mx_conds s) (pl t) (mx_owner s =? t) (bool_decide (t ∈ sg)) (pend_of s =? t)
    (if mx_owner s =? t then mx_lock_count s else 0) (depth s t)) ->
  minv (mgo t p (m_signal sg s)) ql pl.
Proof.
  intros L1 S1 E Sg Lo. pose proof (mi_global _ _ _ I) as G. apply (minv_own s ql pl t _ p); try done; try apply G.
  intros H. split; [by apply (mi_destroyed _ _ _ I)|auto].
Qed.

Lemma minv_got p d : is_loop p = false -> mstopped p = false -> (mx_exists s = false -> m_idm p = false) ->
  mlocal p (MView (mx_conds s) (pl t) (mx_owner s =? t) (bool_decide (t ∈ mx_signal s)) (pend_of s =? t)
    (if mx_owner s =? t then mx_lock_count s else 0) (depth s t + d)) ->
  minv (mgo t p (m_depth t d s)) ql pl.
Proof.
  intros. replace (m_depth t d s) with (m_depth t d (m_signal (mx_signal s) s)) by (by destruct s). by apply minv_depth.
Qed.

(** The free mutex is taken; the owner counts; the owner leaves an empty queue. *)
Lemma minv_take p d : is_loop p = false -> mstopped p = false -> mx_exists s = true -> mx_owner s = 0 ->
  mlocal p (MView (mx_conds s) (pl t) true (bool_decide (t ∈ mx_signal s)) (pend_of s =? t) 0 (depth s t + d)) ->
  minv (mgo t p (m_depth t d (m_owner t s))) ql pl.
Proof.
  intros L1 S1 Ex O Lo. pose proof (mi_global _ _ _ I) as G. destruct (mg_free _ _ G O) as [_ Z0].
  apply (minv_own s ql pl t _ p); try done; try apply G; cbn [mx_owner mx_lock_count mx_signal mx_exists mgo m_depth m_owner].
  - intros u U. by apply (depth_there t d (m_owner t s)).
  - intros u U0 U. rewrite O. split; congruence.
  - congruence.
  - change (depth (mgo t p (m_depth t d (m_owner t s))) t) with (depth (m_depth t d (m_owner t s)) t).
    by rewrite Z.eqb_refl, Z0, depth_here.
Qed.

Lemma minv_count p d n : is_loop p = false -> mstopped p = false -> mx_owner s = t -> in_uint 32 n -> m_idm p = false ->
  mlocal p (MView (mx_conds s) (pl t) true (bool_decide (t ∈ mx_signal s)) (pend_of s =? t) n (depth s t + d)) ->
  minv (mgo t p (m_depth t d (m_count n s))) ql pl.
Proof.
  intros L1 S1 O N Id Lo. pose proof (mi_global _ _ _ I) as G.
  apply (minv_own s ql pl t _ p); try done; try apply G; cbn [mx_owner mx_lock_count mx_signal mx_exists mgo m_depth m_count].
  - intros u U. by apply (depth_there t d (m_count n s)).
  - intros u U0 U. congruence.
  - intros E. congruence.
  - intros H. split; [by apply (mi_destroyed _ _ _ I)|done].
  - change (depth (mgo t p (m_depth t d (m_count n s))) t) with (depth (m_depth t d (m_count n s)) t).
    by rewrite O, Z.eqb_refl, depth_here.
Qed.

Lemma minv_leave p d : is_loop p = false -> mstopped p = false -> mx_owner s = t -> mx_sq s = 0 -> mx_lock_count s = 0 -> m_idm p = false ->
  mlocal p (MView (mx_conds s) (pl t) false (bool_decide (t ∈ mx_signal s)) (pend_of s =? t) 0 (depth s t + d)) ->
  minv (mgo t p (m_depth t d (m_owner 0 s))) ql pl.
Proof.
  intros L1 S1 O Q C Id Lo. pose proof (mi_global _ _ _ I) as G. destruct (mi_queues _ _ _ I PMutex ltac:(done)) as [Qm _].
  apply (queue_nil _ _ _) in Qm. pose proof (proj1 Qm Q) as Nl.
  apply (minv_own s ql pl t _ p); try done; try apply G; cbn [mx_owner mx_lock_count mx_signal mx_exists mgo m_depth m_owner].
  - intros u U. by apply (depth_there t d (m_owner 0 s)).
  - intros u U0 U. split; congruence.
  - change (depth (mgo t p (m_depth t d (m_owner 0 s))) t) with (depth (m_depth t d (m_owner 0 s)) t).
    destruct (Z.eqb_spec 0 t); [congruence|]. by rewrite depth_here.
Qed.
End own.

(** The caller's view at its point. *)
Ltac mview I t T0 P L :=
  pose proof (mi_local _ _ _ I t T0) as L; rewrite P in L; cbn [mlocal] in L;
  unfold wait_view, quiet, queued, granted, mview_of in L; cbn [v_conds v_place v_own v_sig v_pend v_lk v_dep] in L.
(** A view that is spelled out. *)
Ltac mcheck :=
  cbn [mlocal]; unfold wait_view, quiet, queued, granted, mview_of; cbn [v_conds v_place v_own v_sig v_pend v_lk v_dep].

Section calls.
Context (s : lmutex) (ql : place -> list Z) (pl : Z -> place) (t : Z).
Context (I : minv s ql pl) (T0 : t <> 0) (Ta : is_Some (mx_cpus s !! t)).

Lemma quiet_view : mpc s t = MIdle \/ (exists n to, mpc s t = MlTry n to) ->
  is_loop (mpc s t) = false /\ mstopped (mpc s t) = false /\ quiet (mview_of s pl t) /\ (t ∉ mx_signal s).
Proof.
  intros P. pose proof (mi_local _ _ _ I t T0) as L. destruct P as [P|(n & to & P)]; rewrite P in *; cbn in *;
    (split_and!; try done; try apply L); intros H; destruct L as (_ & L); rewrite bool_decide_eq_true_2 in L by done; naive_solver.
Qed.

Lemma try_lock_inv : mpc s t = MIdle \/ (exists n to, mpc s t = MlTry n to) ->
  match try_lock t s with
  | (TCas, s') => s' = s /\ mx_owner s = 0
  | (TDone r, s') =>
      (r = CELL_OK /\ forall k, k = KLock \/ k = KTrylock -> minv (mgot t k s') ql pl) \/
      (s' = s /\ r <> CELL_OK /\ (r = CELL_EBUSY -> mx_owner s <> t))
  end.
Proof.
  intros P. destruct (quiet_view P) as (L0 & S0 & (Pl & Pe & De) & Ns). unfold try_lock. pose proof (mi_global _ _ _ I) as G.
  destruct (Z.eqb_spec (mx_owner s) 0); [done|]. destruct (Z.eqb_spec (mx_owner s) t) as [O|O]; [|by right].
  destruct (_ =? SYS_SYNC_RECURSIVE); [|by right]. destruct (Z.eqb_spec (mx_lock_count s) 0xffffffff); [by right|].
  left. split; [done|]. intros k Hk. pose proof (mg_count _ _ G) as [C1 C2].
  assert (E : u32 (mx_lock_count s + 1) = mx_lock_count s + 1) by (apply uint_small; split; lia).
  unfold mgot, mret. apply (minv_count s ql pl t I); try done.
  - rewrite E. split; lia.
  - mcheck. cbn in Pl, Pe, De. rewrite O, Z.eqb_refl in De. split_and!; try done; [lia|by destruct Hk as [->| ->]].
Qed.

Lemma ml_load_inv n to : mpc s t = MIdle \/ (exists n to, mpc s t = MlTry n to) -> mx_exists s = true ->
  minv (ml_load t n to s) ql pl.
Proof.
  intros P Ex. destruct (quiet_view P) as (L0 & S0 & (Pl & Pe & De) & Ns). pose proof (try_lock_inv P) as H. unfold ml_load.
  assert (Q : mx_owner s <> t -> quiet (mview_of s pl t) /\ v_sig (mview_of s pl t) = false /\ v_own (mview_of s pl t) = false).
  { intros O. mcheck. cbn in Pl, Pe, De. rewrite bool_decide_eq_false_2 by done. destruct (Z.eqb_spec (mx_owner s) t); done. }
  destruct (try_lock t s) as [[|r] s'].
  - destruct H as [-> O]. apply minv_go; try done; [congruence|]. apply Q. congruence.
  - destruct H as [[-> H]|(-> & Nr & O)].
    + apply H. auto.
    + destruct (Z.eqb_spec r CELL_EBUSY) as [E|E].
      * apply minv_go; try done; [congruence|]. by apply Q, O.
      * destruct (Z.eqb_spec r CELL_OK); [done|]. unfold mret. apply minv_go; try done; split_and!; try done.
Qed.

Lemma ml_call_inv n to : mpc s t = MIdle -> minv (ml_call t n to s) ql pl.
Proof.
  intros P. unfold ml_call. destruct (mx_exists s) eqn:Ex; [by apply ml_load_inv; auto|].
  destruct (quiet_view (or_introl P)) as (L0 & S0 & Q & Ns). by apply minv_go.
Qed.

Lemma mt_call_inv : mpc s t = MIdle -> minv (mt_call t s) ql pl.
Proof.
  intros P. destruct (quiet_view (or_introl P)) as (L0 & S0 & Q & Ns). unfold mt_call.
  destruct (mx_exists s) eqn:Ex; [|by apply minv_go]. pose proof (try_lock_inv (or_introl P)) as H.
  destruct (try_lock t s) as [[|r] s'].
  - destruct H as [-> O]. apply minv_go; try done; [congruence|]. split_and!; [done|..]; cbn; [by apply bool_decide_eq_false_2|].
    rewrite O. by apply Z.eqb_neq.
  - destruct H as [[-> H]|(-> & Nr & O)].
    + apply H. auto.
    + destruct (Z.eqb_spec r CELL_OK); [done|]. unfold mret. apply minv_go; try done. 
Qed.

Lemma taken_view : quiet (mview_of s pl t) -> mx_owner s = 0 ->
  pl t = PNone /\ (pend_of s =? t) = false /\ depth s t = 0.
Proof. intros (Pl & Pe & De) O. cbn in *. rewrite O in De. destruct (Z.eqb_spec 0 t); [congruence|]. done. Qed.

(** A call in progress keeps the mutex alive. *)
Lemma idm_exists : m_idm (mpc s t) = true -> mx_exists s = true.
Proof.
  intros P. destruct (mx_exists s) eqn:E; [done|]. destruct (mi_destroyed _ _ _ I E) as (_ & _ & D). specialize (D t). congruence.
Qed.

Lemma ml_cas_inv n q to : mpc s t = MlCas n q to -> minv (ml_cas t n q to s) ql pl.
Proof.
  intros P. mview I t T0 P L. destruct L as (Q & Sg & Ow). assert (Ex : mx_exists s = true) by (apply idm_exists; by rewrite P).
  unfold ml_cas. destruct (Z.eqb_spec (mx_owner s) 0) as [O|O]; cbn [andb].
  1: destruct (mx_sq s =? q); cbn [andb].
  - destruct (taken_view Q O) as (Pl & Pe & De). unfold mgot, mret.
    apply (minv_take s ql pl t I); rewrite ?P; try done. mcheck. by rewrite Pl, Pe, De.
  - apply minv_go; rewrite ?P; try done. congruence.
  - apply minv_go; rewrite ?P; try done. congruence.
Qed.

Lemma mt_cas_inv q : mpc s t = MtCas q -> minv (mt_cas t q s) ql pl.
Proof.
  intros P. mview I t T0 P L. destruct L as (Q & Sg & Ow). assert (Ex : mx_exists s = true) by (apply idm_exists; by rewrite P).
  unfold mt_cas. destruct (Z.eqb_spec (mx_owner s) 0) as [O|O]; cbn [andb].
  1: destruct (mx_sq s =? q); cbn [andb].
  - destruct (taken_view Q O) as (Pl & Pe & De). unfold mgot, mret.
    apply (minv_take s ql pl t I); rewrite ?P; try done. mcheck. by rewrite Pl, Pe, De.
  - apply minv_go; rewrite ?P; try done.
  - apply minv_go; rewrite ?P; try done.
Qed.

Lemma ml_busy_inv n to : mpc s t = MlBusy n to -> minv (ml_busy t n to s) ql pl.
Proof.
  intros P. mview I t T0 P L. assert (Ex : mx_exists s = true) by (apply idm_exists; by rewrite P).
  unfold ml_busy. destruct n; [|destruct (mx_sq s =? 0)]; apply minv_go; rewrite ?P; try done; congruence.
Qed.

Lemma ml_signal_inv to s' : mpc s t = MlSleep to -> ml_signal t s = Some s' -> minv s' ql pl.
Proof.
  intros P. mview I t T0 P L. unfold ml_signal. destruct (bool_decide_reflect (t ∈ mx_signal s)) as [H|]; [|done]. intros [= <-].
  destruct L as (Pe & De & [(_ & _ & [=] & _)|((Pl & Ow & Lk) & _)]). unfold mgot, mret.
  apply (minv_depth s ql pl t I); rewrite ?P; try done; [set_solver|].
  mcheck. rewrite Ow in *. rewrite Lk, De. done.
Qed.

Lemma ml_expired_inv : mpc s t = MlExpired -> minv (ml_expired t s) ql pl.
Proof.
  intros P. mview I t T0 P L. unfold ml_expired. destruct (mi_queues _ _ _ I PMutex ltac:(done)) as [Qm Im]. apply queue_nil in Qm. cbn in Qm.
  destruct (Z.eqb_spec (mx_sq s) 0) as [E|E]; apply minv_go; rewrite ?P; try done.
  mcheck. destruct L as (Pe & De & [(Pl & _)|L]); [|done]. apply Im in Pl. rewrite (proj1 Qm E) in Pl. by apply elem_of_nil in Pl.
Qed.

Lemma ml_wait_inv : mpc s t = MlWait -> minv (mgot t KLock s) ql pl.
Proof.
  intros P. mview I t T0 P L. destruct L as (Pe & De & (Pl & Ow & Lk) & Sg). unfold mgot, mret.
  apply (minv_got s ql pl t I); rewrite ?P; try done. mcheck. rewrite Ow in *. by rewrite Lk, De.
Qed.

Lemma mu_call_inv : mpc s t = MIdle -> minv (mu_call t s) ql pl.
Proof.
  intros P. destruct (quiet_view (or_introl P)) as (L0 & S0 & Q & Ns). unfold mu_call. pose proof (mi_global _ _ _ I) as G.
  destruct (mx_exists s) eqn:Ex; [|by apply minv_go]. destruct (Z.eqb_spec (mx_owner s) t) as [O|O]; cbn [negb]; [|by apply minv_go].
  pose proof Q as (Pl & Pe & De). cbn in Pl, Pe, De. rewrite O, Z.eqb_refl in De. pose proof (mg_count _ _ G) as [C1 C2].
  destruct (Z.eqb_spec (mx_lock_count s) 0) as [C|C]; cbn [negb].
  - assert (Lo : quiet (mview_of s pl t) /\ v_sig (mview_of s pl t) = false /\ v_own (mview_of s pl t) = true /\ v_lk (mview_of s pl t) = 0).
    { split; [done|]. cbn. rewrite O, Z.eqb_refl. split_and!; [by apply bool_decide_eq_false_2|done|done]. }
    destruct (mx_sq s =? 0); apply minv_go; try done; congruence.
  - assert (E : u32 (mx_lock_count s - 1) = mx_lock_count s - 1) by (apply uint_small; split; lia).
    unfold mgave, mret. apply (minv_count s ql pl t I); try done; [rewrite E; split; lia|].
    mcheck. rewrite E. split_and!; try done. lia.
Qed.

Lemma mu_cas_inv : mpc s t = MuCas -> minv (mu_cas t s) ql pl.
Proof.
  intros P. mview I t T0 P L. destruct L as ((Pl & Pe & De) & Sg & Ow & Lk). apply Z.eqb_eq in Ow as O.
  unfold mu_cas. rewrite Ow in *. cbn [andb]. destruct (Z.eqb_spec (mx_sq s) 0) as [E|E].
  - unfold mgave, mret. apply (minv_leave s ql pl t I); rewrite ?P; try done. mcheck. rewrite De, Lk. done.
  - apply minv_go; rewrite ?P; try done.
    + intros Ex. rewrite idm_exists in Ex; [done|]. by rewrite P.
    + mcheck. by rewrite Ow.
Qed.

Lemma cw_call_inv c to : mpc s t = MIdle -> minv (cw_call t c to s) ql pl.
Proof.
  intros P. destruct (quiet_view (or_introl P)) as (L0 & S0 & Q & Ns). unfold cw_call.
  destruct (bool_decide_reflect (c ∈ mx_conds s)) as [H|]; [|by apply minv_go].
  destruct (Z.eqb_spec (mx_owner s) t) as [O|O]; cbn [negb]; [|by apply minv_go].
  apply minv_go; try done.
  - intros Ex. destruct (mi_destroyed _ _ _ I Ex) as (_ & E & _). rewrite E in H. by apply not_elem_of_empty in H.
  - split; [done|]. cbn. rewrite O, Z.eqb_refl. split; [by apply bool_decide_eq_false_2|done].
Qed.

Lemma cw_signal_inv c to n r s' : mpc s t = CwSleep c to n r -> cw_signal t n r s = Some s' -> minv s' ql pl.
Proof.
  intros P. mview I t T0 P L. unfold cw_signal. destruct (bool_decide_reflect (t ∈ mx_signal s)) as [H|]; [|done]. intros [= <-].
  destruct L as ((Hn & De & [(_ & _ & [=] & _)|[(Pl & Ow & Lk) Pe]]) & Hr). apply (minv_sig s ql pl t I); rewrite ?P; try done; [set_solver|].
  mcheck. rewrite Ow in Lk |- *. split_and!; try done; try lia.
Qed.

Lemma cw_end_inv n r : mpc s t = CwEnd n r -> minv (cw_end t n r s) ql pl.
Proof.
  intros P. mview I t T0 P L. destruct L as (Pe & (Pl & Ow & Lk) & Hn & De & Hr). apply Z.eqb_eq in Ow as O. unfold cw_end, mret.
  rewrite Ow. cbn [m_ensure]. pose proof (mi_global _ _ _ I) as G.
  apply (minv_own s ql pl t _ (MReturned KWait r)); rewrite ?P; try done; try apply G; cbn [mx_owner mx_lock_count mx_signal mx_exists mgo m_count].
  - intros u U0 U. congruence.
  - congruence.
  - intros Ex. by destruct (mi_destroyed _ _ _ I Ex).
  - change (depth (mgo t (MReturned KWait r) (m_count n s)) t) with (depth s t). mcheck. rewrite Ow. done.
Qed.

Lemma cs_load_inv k c : mpc s t = CsLoad k c -> minv (cs_load t k c s) ql pl.
Proof.
  intros P. mview I t T0 P L. unfold cs_load, mret.
  assert (R : forall r, mlocal (MReturned KOther r) (mview_of s pl t)) by (intros; split; [apply L|done]).
  destruct (bool_decide_reflect (c ∈ mx_conds s)) as [Hc|]; [|by apply minv_go; rewrite ?P].
  assert (Ex : mx_exists s = true).
  { destruct (mx_exists s) eqn:E; [done|]. destruct (mi_destroyed _ _ _ I E) as (_ & E' & _). rewrite E' in Hc. by apply not_elem_of_empty in Hc. }
  destruct (match k with SigTo u => _ | _ => _ end); [|by apply minv_go; rewrite ?P].
  destruct (csq s c =? 0); apply minv_go; rewrite ?P; try done; congruence.
Qed.

Lemma cs_wait_inv k c r : mpc s t = CsWait k c -> minv (mret t KOther r s) ql pl.
Proof. intros P. mview I t T0 P L. apply minv_go; rewrite ?P; try done. split; [apply L|done]. Qed.

Lemma m_return_inv k r : mpc s t = MReturned k r -> minv (mgo t MIdle (m_signal (mx_signal s ∖ {[t]}) s)) ql pl.
Proof.
  intros P. mview I t T0 P L. apply (minv_sig s ql pl t I); rewrite ?P; try done; [set_solver|].
  mcheck. split; [apply L|]. apply bool_decide_eq_false_2. set_solver.
Qed.
End calls.

(** ** Inside a step

    In the middle of a step of [t]: nothing is known yet of the views of [t]
    and of the threads in [X], and the heads of the queues are [qh]. *)
Record mex (t : Z) (X : list Z) (s : lmutex) (qh : place -> Z) (ql : place -> list Z) (pl : Z -> place) : Prop := {
  me_queues : queues (mx_cpus s) qh ql pl;
  me_global : mglobal s ql;
  me_local u : u <> 0 -> u <> t -> u ∉ X -> mlocal (mpc s u) (mview_of s pl u);
  me_host u : is_loop (mpc s u) = true <-> mx_host s = Some u;
  me_alive u : mpc s u <> MIdle -> u <> 0 /\ is_Some (mx_cpus s !! u);
  me_again u : u <> t -> is_again (mx_cpus s) u = mstopped (mpc s u);
  me_destroyed : mx_exists s = false -> mx_owner s = 0 /\ mx_conds s = ∅ /\ forall u, m_idm (mpc s u) = false
}.

Lemma mex_open t s ql pl : minv s ql pl -> mex t [] s (qhead s) ql pl.
Proof. intros I. split; try apply I; intros; try by apply (mi_local _ _ _ I). by apply (mi_again _ _ _ I). Qed.

(** What an operation inside a step leaves alone. *)
Record mkeep (t : Z) (s s' : lmutex) : Prop := {
  mk_points : mx_points s' = mx_points s; mk_host : mx_host s' = mx_host s; mk_exists : mx_exists s' = mx_exists s;
  mk_conds : mx_conds s' = mx_conds s; mk_cond_count : mx_cond_count s' = mx_cond_count s; mk_failed : mx_failed s' = mx_failed s;
  mk_csq c : is_Some (mx_csq s !! c) -> is_Some (mx_csq s' !! c);
  mk_dom u : is_Some (mx_cpus s' !! u) <-> is_Some (mx_cpus s !! u);
  mk_again u : u <> t -> is_again (mx_cpus s') u = is_again (mx_cpus s) u
}.

Lemma mex_update t X s qh ql pl X' s' qh' ql' pl' :
  mex t X s qh ql pl -> mkeep t s s' -> X ⊆ X' -> queues (mx_cpus s') qh' ql' pl' ->
  (mx_owner s' = 0 -> ql' PMutex = [] /\ mx_lock_count s' = 0) -> in_uint 32 (mx_lock_count s') ->
  (forall c, ql (PCond c) = [] -> c ∉ mx_conds s -> ql' (PCond c) = []) ->
  (mx_exists s = false -> mx_owner s = 0 -> mx_owner s' = 0) ->
  (forall u, u <> 0 -> u <> t -> u ∉ X' -> mlocal (mpc s u) (mview_of s pl u) -> mlocal (mpc s u) (mview_of s' pl' u)) ->
  mex t X' s' qh' ql' pl'.
Proof.
  intros M [K1 K2 K3 K4 K5 K6 K7 K8 K9] Hx Q Fr In Co De Vi.
  assert (Pc : forall u, mpc s' u = mpc s u) by (intros u; unfold mpc; by rewrite K1).
  pose proof (me_global _ _ _ _ _ _ M) as G. split; try done.
  - split; rewrite ?K4, ?K5, ?K6; try apply G; try done.
    + intros c Hc. apply Co; [|done]. by apply (mg_cond _ _ G).
    + intros c Hc. apply K7. by apply (mg_known _ _ G).
    + apply eq_None_not_Some. rewrite K8, (mg_null _ _ G). by intros [? [=]].
  - intros u U0 U Nx. rewrite Pc. apply Vi; try done. apply (me_local _ _ _ _ _ _ M); try done. set_solver.
  - intros u. rewrite Pc, K2. apply (me_host _ _ _ _ _ _ M).
  - intros u. rewrite Pc, K8. apply (me_alive _ _ _ _ _ _ M).
  - intros u U. rewrite K9, Pc by done. by apply (me_again _ _ _ _ _ _ M).
  - rewrite K3, K4. intros E. destruct (me_destroyed _ _ _ _ _ _ M E) as (A & B & C). split_and!; auto.
    intros u. rewrite Pc. apply C.
Qed.

Lemma mex_change t X s qh ql pl X' s' qh' ql' pl' :
  mex t X s qh ql pl -> mkeep t s s' -> X ⊆ X' -> queues (mx_cpus s') qh' ql' pl' ->
  (mx_owner s' = 0 -> ql' PMutex = [] /\ mx_lock_count s' = 0) -> in_uint 32 (mx_lock_count s') ->
  (forall c, ql (PCond c) = [] -> c ∉ mx_conds s -> ql' (PCond c) = []) ->
  (mx_exists s = false -> mx_owner s = 0 -> mx_owner s' = 0) ->
  (forall u, u <> 0 -> u <> t -> u ∉ X' -> mview_of s' pl' u = mview_of s pl u) ->
  mex t X' s' qh' ql' pl'.
Proof.
  intros M K Hx Q Fr In Co De Vi. apply (mex_update t X s qh ql pl); try done. intros u U0 U Nx. by rewrite Vi.
Qed.

Lemma mex_restore t X x s qh ql pl :
  mex t (x :: X) s qh ql pl -> mlocal (mpc s x) (mview_of s pl x) -> mex t X s qh ql pl.
Proof.
  intros M L. split; try apply M. intros u U0 U Nx. destruct (decide (u = x)) as [->|]; [done|].
  apply (me_local _ _ _ _ _ _ M); try done. rewrite not_elem_of_cons. done.
Qed.

(** The end of the step. *)
Lemma mex_close t X s qh ql pl p h' :
  mex t X s qh ql pl -> t <> 0 -> is_Some (mx_cpus s !! t) -> is_again (mx_cpus s) t = mstopped p ->
  (forall p', p' <> PNone -> qhead (mgo t p (m_host h' s)) p' = qh p') ->
  h' = (if is_loop p then Some t else if is_loop (mpc s t) then None else mx_host s) ->
  (is_loop p = true -> is_loop (mpc s t) = true \/ mx_host s = None) ->
  (mx_exists s = false -> m_idm p = false) ->
  (forall u, u <> 0 -> u <> t -> (u ∉ X -> mlocal (mpc s u) (mview_of s pl u)) ->
    mlocal (mpc s u) (mview_of (mgo t p (m_host h' s)) pl u)) ->
  mlocal p (mview_of (mgo t p (m_host h' s)) pl t) ->
  minv (mgo t p (m_host h' s)) ql pl.
Proof.
  intros M T0 Ta Ag Qh Hh Hl Ex Lo Lt. set (s' := mgo t p (m_host h' s)).
  assert (Pt : mpc s' t = p) by apply mpc_here. assert (Pu : forall u, u <> t -> mpc s' u = mpc s u) by (intros; by apply (mpc_there t p (m_host h' s))).
  pose proof (me_global _ _ _ _ _ _ M) as G. split.
  - eapply queues_heads; [apply M|]. done.
  - split; apply G.
  - intros u U0. destruct (decide (u = t)) as [->|N]; [by rewrite Pt|]. rewrite Pu by done. apply Lo; try done.
    by apply (me_local _ _ _ _ _ _ M).
  - intros u. cbn [mx_host s' mgo m_host]. rewrite Hh. destruct (decide (u = t)) as [->|N].
    + rewrite Pt. destruct (is_loop p) eqn:E; [done|]. split; [done|]. destruct (is_loop (mpc s t)) eqn:E'; [done|].
      intros H. apply (me_host _ _ _ _ _ _ M) in H. congruence.
    + rewrite Pu by done. rewrite (me_host _ _ _ _ _ _ M). destruct (is_loop p) eqn:E.
      * destruct (Hl eq_refl) as [H|H]; [apply (me_host _ _ _ _ _ _ M) in H|]; rewrite H; split; intros [=]; congruence.
      * destruct (is_loop (mpc s t)) eqn:E'; [|done]. apply (me_host _ _ _ _ _ _ M) in E'. rewrite E'. split; [intros [=]; congruence|done].
  - intros u. destruct (decide (u = t)) as [->|N]; [done|]. rewrite Pu by done. apply (me_alive _ _ _ _ _ _ M).
  - intros u. destruct (decide (u = t)) as [->|N]; [by rewrite Pt|]. rewrite Pu by done. by apply (me_again _ _ _ _ _ _ M).
  - intros E. destruct (me_destroyed _ _ _ _ _ _ M E) as (A & B & C). split_and!; try done.
    intros u. destruct (decide (u = t)) as [->|N]; [rewrite Pt; auto|]. rewrite Pu by done. apply C.
Qed.

Lemma m_host_id s : m_host (mx_host s) s = s.
Proof. by destruct s. Qed.

Lemma mex_go t s qh ql pl p :
  mex t [] s qh ql pl -> t <> 0 -> is_Some (mx_cpus s !! t) -> is_again (mx_cpus s) t = mstopped p ->
  (forall p', p' <> PNone -> qhead s p' = qh p') -> is_loop p = false -> is_loop (mpc s t) = false ->
  (mx_exists s = false -> m_idm p = false) -> mlocal p (mview_of s pl t) -> minv (mgo t p s) ql pl.
Proof.
  intros M T0 Ta Ag Qh L1 L0 Ex Lo.
  assert (Nh : forall u, mx_host s = Some u -> mpc (mgo t p s) u = mpc s u).
  { intros u H. apply mpc_there. intros ->. apply (me_host _ _ _ _ _ _ M) in H. congruence. }
  destruct (pend_same s (mgo t p s) eq_refl Nh) as [Pe Dt].
  assert (Vi : forall u, mview_of (mgo t p s) pl u = mview_of s pl u) by (intros u; unfold mview_of; by rewrite Pe).
  rewrite <- (m_host_id s) at 1. apply (mex_close t [] s qh); rewrite ?m_host_id, ?L0, ?L1; try done.
  - intros p' Hp. rewrite <- Qh by done. by destruct p'.
  - intros u _ _ L. rewrite Vi. apply L. by apply not_elem_of_nil.
  - by rewrite Vi.
Qed.

(** *** Views of a thread that is taken out of a queue *)

Lemma mlocal_queued p v : mlocal p v -> v_place v <> PNone ->
  v_own v = false /\ v_sig v = false /\ v_pend v = false.
Proof.
  destruct v as [cs' q o g pe lk d]; destruct p; cbn; unfold wait_view, quiet, granted, queued; cbn; intros L N; try (naive_solver congruence).
Qed.

Lemma mlocal_grant p v cs : mlocal p v -> v_place v <> PNone -> mstopped p = false ->
  mlocal p (MView cs PNone true true false 0 (v_dep v)).
Proof.
  destruct v as [cs' q o g pe lk d]; destruct p; cbn; unfold wait_view, quiet, granted, queued; cbn; intros L N S; try done; try naive_solver.
Qed.

(** From a condition variable, or the list of a [sys_cond_signal_all]. *)
Lemma mlocal_move p v cs q : mlocal p v -> v_place v <> PNone -> v_place v <> PMutex -> mstopped p = false ->
  q = PMutex \/ q = PDet -> mlocal p (MView cs q false false false 0 (v_dep v)).
Proof.
  destruct v as [cs' q' o g pe lk d]; destruct p; cbn; unfold wait_view, quiet, granted, queued; cbn; intros L N N' S Hq; try done; try naive_solver.
Qed.

Lemma mlocal_pend p v cs : mlocal p v -> v_place v = PDet -> mlocal p (MView cs PNone true false true 0 (v_dep v)).
Proof.
  destruct v as [cs' q' o g pe lk d]; destruct p; cbn; unfold wait_view, quiet, granted, queued; cbn; intros L N; try naive_solver.
Qed.

(** *** Operations *)

Record mrest (s s' : lmutex) : Prop := {
  mr_owner : mx_owner s' = mx_owner s; mr_count : mx_lock_count s' = mx_lock_count s;
  mr_signal : mx_signal s' = mx_signal s; mr_depth : mx_depth s' = mx_depth s
}.

Lemma pend_keep t s s' : mkeep t s s' -> pend_of s' = pend_of s.
Proof.
  intros K. apply pend_same; [apply K|]. intros u _. unfold mpc. by rewrite (mk_points _ _ _ K).
Qed.

Lemma view_keep t s s' pl pl' u : mkeep t s s' -> mrest s s' -> pl' u = pl u -> mview_of s' pl' u = mview_of s pl u.
Proof.
  intros K [R1 R2 R3 R4] E. unfold mview_of, depth. by rewrite (pend_keep _ _ _ K), (mk_conds _ _ _ K), R1, R2, R3, R4, E.
Qed.

Lemma mex_remove t X s qh ql pl p x f h s' :
  mex t X s qh ql pl -> p <> PNone -> pl x = p -> queue h f (qremove x (ql p)) -> (forall u, u ∉ ql p -> h !! u = mx_cpus s !! u) ->
  mx_cpus s' = h -> mkeep t s s' -> mrest s s' ->
  mex t (x :: X) s' (fupd p f qh) (fupd p (qremove x (ql p)) ql) (fupd x PNone pl).
Proof.
  intros M Hp Hx Q F Eh K R. pose proof (me_global _ _ _ _ _ _ M) as G.
  apply (mex_change t X s qh ql pl); try done.
  - set_solver.
  - rewrite Eh. by eapply queues_remove; [apply M|..].
  - rewrite (mr_owner _ _ R), (mr_count _ _ R). intros O. destruct (mg_free _ _ G O) as [E C]. split; [|done].
    unfold fupd. destruct (decide (PMutex = p)) as [<-|]; [by rewrite E|done].
  - rewrite (mr_count _ _ R). apply G.
  - intros c E _. unfold fupd. destruct (decide (PCond c = p)) as [<-|]; [by rewrite E|done].
  - by rewrite (mr_owner _ _ R).
  - intros u U0 U Nx. eapply view_keep; [done..|]. apply fupd_ne. set_solver.
Qed.

Lemma same_cpus_keep t s s' : same_cpus (mx_cpus s) (mx_cpus s') ->
  (forall u, is_Some (mx_cpus s' !! u) <-> is_Some (mx_cpus s !! u)) /\
  (forall u, u <> t -> is_again (mx_cpus s') u = is_again (mx_cpus s) u).
Proof. intros S. split; intros; [by apply same_cpus_dom|by apply same_cpus_again]. Qed.

(** An entry of the thread table changes in its link and priority only. *)
Lemma alter_keep t (h : threads) x (f : cpu -> cpu) : (forall c, again (f c) = again c) ->
  (forall u, is_Some (alter f x h !! u) <-> is_Some (h !! u)) /\
  (forall u, u <> t -> is_again (alter f x h) u = is_again h u).
Proof.
  intros A. split; intros u.
  - destruct (decide (u = x)) as [->|]; [|by rewrite lookup_alter_ne]. rewrite lookup_alter_eq. apply fmap_is_Some.
  - intros _. unfold is_again. destruct (decide (u = x)) as [->|]; [|by rewrite lookup_alter_ne].
    rewrite lookup_alter_eq. destruct (h !! x) as [c|]; cbn; auto.
Qed.

(** [try_own] on a free mutex. *)
Lemma mex_take t X s qh ql pl x :
  mex t X s qh ql pl -> x = t \/ x ∈ X -> x <> 0 -> pl x = PNone -> mx_owner s = 0 -> mx_exists s = true ->
  exists s', try_own x s = (true, s') /\ mex t X s' qh ql pl /\ mkeep t s s' /\ mx_owner s' = x /\ mx_lock_count s' = 0 /\
    mx_depth s' = mx_depth s /\ mx_signal s' = mx_signal s /\ mx_sq s' = mx_sq s /\ mx_csq s' = mx_csq s /\
    (forall u, is_again (mx_cpus s') u = is_again (mx_cpus s) u) /\
    mview_of s' pl x = MView (mx_conds s) PNone true (v_sig (mview_of s pl x)) (v_pend (mview_of s pl x)) 0 (v_dep (mview_of s pl x)).
Proof.
  intros M Hx X0 Hp O Ex. pose proof (me_global _ _ _ _ _ _ M) as G. destruct (mg_free _ _ G O) as [Em Ec].
  unfold try_own. rewrite O. cbn [Z.eqb]. eexists. split; [done|].
  assert (Fo : forall u, u <> x -> alter (set_next 0) x (mx_cpus s) !! u = mx_cpus s !! u) by (intros; by rewrite lookup_alter_ne).
  set (s' := m_cpus _ _). assert (K : mkeep t s s').
  { destruct (alter_keep t (mx_cpus s) x (set_next 0)) as [A B]; [done|]. by split. }
  split_and!; try done.
  - apply (mex_change t X s qh ql pl); try done.
    + eapply queues_links; [apply M|]. intros u Hu. cbn. rewrite Fo; [done|]. congruence.
    + apply G.
    + congruence.
    + intros u U0 U Nx. unfold mview_of. rewrite (pend_keep _ _ _ K). cbn [mx_owner s' m_cpus m_owner mx_signal mx_lock_count].
      assert (u <> x) by (destruct Hx; congruence).
      destruct (Z.eqb_spec x u); [congruence|]. rewrite O. destruct (Z.eqb_spec 0 u); [congruence|]. done.
  - intros u. destruct (alter_keep 0 (mx_cpus s) x (set_next 0)) as [_ B]; [done|]. destruct (decide (u = 0)) as [->|]; [|by apply B].
    unfold s'. cbn. unfold is_again. by rewrite Fo.
  - unfold mview_of. rewrite (pend_keep _ _ _ K). cbn. by rewrite Z.eqb_refl, Ec, Hp.
Qed.

(** [try_own] on an owned mutex. *)
Lemma mex_push t X s qh ql pl x :
  mex t X s qh ql pl -> x = t \/ x ∈ X -> x <> 0 -> is_Some (mx_cpus s !! x) -> pl x = PNone -> mx_owner s <> 0 -> qh PMutex = mx_sq s ->
  exists s', try_own x s = (false, s') /\ mex t X s' (fupd PMutex x qh) (fupd PMutex (x :: ql PMutex) ql) (fupd x PMutex pl) /\
    mkeep t s s' /\ mrest s s' /\ mx_sq s' = x /\ mx_csq s' = mx_csq s /\
    (forall u, is_again (mx_cpus s') u = is_again (mx_cpus s) u) /\
    mview_of s' (fupd x PMutex pl) x =
      MView (mx_conds s) PMutex (v_own (mview_of s pl x)) (v_sig (mview_of s pl x)) (v_pend (mview_of s pl x)) (v_lk (mview_of s pl x)) (v_dep (mview_of s pl x)).
Proof.
  intros M Hx X0 [c Hc] Hp O Hq. pose proof (me_global _ _ _ _ _ _ M) as G.
  unfold try_own. destruct (Z.eqb_spec (mx_owner s) 0); [done|]. eexists. split; [done|].
  set (f := fun c : cpu => _). set (s' := m_tag _ _).
  assert (Fo : forall u, u <> x -> alter f x (mx_cpus s) !! u = mx_cpus s !! u) by (intros; by rewrite lookup_alter_ne).
  assert (K : mkeep t s s').
  { destruct (alter_keep t (mx_cpus s) x f) as [A B]; [done|]. by split. }
  assert (R : mrest s s') by done. split_and!; try done.
  - apply (mex_change t X s qh ql pl); try done.
    + eapply (queues_push (mx_cpus s)); [apply M|done..| | |done]; cbn; [by rewrite lookup_alter_eq, Hc|done].
    + apply G.
    + intros u U0 U Nx. apply (view_keep t); [done..|]. apply fupd_ne. destruct Hx; congruence.
  - intros u. destruct (alter_keep 0 (mx_cpus s) x f) as [_ B]; [done|]. destruct (decide (u = 0)) as [->|]; [|by apply B].
    unfold s'. cbn. unfold is_again. by rewrite Fo.
  - unfold mview_of. rewrite (pend_keep _ _ _ K), fupd_eq. done.
Qed.

Lemma mex_awake t X s qh ql pl x :
  mex t X s qh ql pl -> x = t \/ x ∈ X -> mex t X (m_signal (mx_signal s ∪ {[x]}) s) qh ql pl.
Proof.
  intros M Hx. pose proof (me_global _ _ _ _ _ _ M) as G. apply (mex_change t X s qh ql pl); try done; try apply G; [apply M|].
  intros u U0 U Nx. unfold mview_of. change (pend_of (m_signal _ s)) with (pend_of s). cbn [mx_signal m_signal mx_owner mx_lock_count].
  change (depth (m_signal _ s) u) with (depth s u). f_equal. apply bool_decide_ext. destruct Hx; set_solver.
Qed.

Lemma m_queue_id s : m_queue (mx_sq s) (mx_cpus s) s = s.
Proof. by destruct s. Qed.

(** What [reown] does for the owner [t]: nobody waits and the mutex is free; or
    the thread to wake was stopped and nothing changes; or the mutex goes to the
    thread the protocol selects. *)
Lemma mex_reown t s qh ql pl :
  mex t [] s qh ql pl -> t <> 0 -> mx_owner s = t -> mx_lock_count s = 0 -> qh PMutex = mx_sq s ->
  let x := pick (mx_protocol s) (mx_cpus s) (ql PMutex) in
  exists s', reown s = Some (x, s') /\ mkeep t s s' /\ mx_signal s' = mx_signal s /\ mx_depth s' = mx_depth s /\
    mx_lock_count s' = 0 /\ mx_csq s' = mx_csq s /\ (forall u, is_again (mx_cpus s') u = is_again (mx_cpus s) u) /\
    ((x = 0 /\ ql PMutex = [] /\ mx_owner s' = 0 /\ mx_sq s' = mx_sq s /\ mex t [] s' qh ql pl) \/
     (x <> 0 /\ is_again (mx_cpus s) x = true /\ s' = s) \/
     (x <> 0 /\ pl x = PMutex /\ is_again (mx_cpus s) x = false /\ mx_owner s' = x /\
      mex t [x] s' (fupd PMutex (mx_sq s') qh) (fupd PMutex (qremove x (ql PMutex)) ql) (fupd x PNone pl))).
Proof.
  intros M T0 O C Hq x. pose proof (me_global _ _ _ _ _ _ M) as G.
  assert (Ex : mx_exists s = true) by (destruct (mx_exists s) eqn:E; [done|]; destruct (me_destroyed _ _ _ _ _ _ M E); congruence).
  destruct (me_queues _ _ _ _ _ _ M PMutex ltac:(done)) as [Q Iq]. rewrite Hq in Q.
  unfold reown. destruct (Z.eqb_spec (mx_sq s) 0) as [E0|E0].
  { assert (El : ql PMutex = []) by (by apply (queue_nil _ _ _ Q)). assert (Ex0 : x = 0) by (unfold x; by rewrite El). rewrite Ex0.
    eexists. split; [done|]. split_and!; try done. left. split_and!; try done.
    apply (mex_change t [] s qh ql pl); try done; [apply M|apply G|].
    intros u U0 U _. unfold mview_of. change (pend_of (m_owner 0 s)) with (pend_of s). cbn [mx_owner m_owner mx_signal mx_lock_count]. rewrite O.
    destruct (Z.eqb_spec t u); [congruence|]. destruct (Z.eqb_spec 0 u); [congruence|]. done. }
  assert (Nl : ql PMutex <> []) by (intros E; by apply E0, (queue_nil _ _ _ Q)).
  assert (Hin : x ∈ ql PMutex) by (by apply pick_in). destruct (queue_in _ _ _ x Q Hin) as [X0 Xa]. apply Iq in Hin as Px.
  destruct (schedule_spec (mx_protocol s) false (mx_cpus s) (mx_sq s) (ql PMutex) Q) as (f & h & E & Sc & F & Q').
  fold x in E, Q'. rewrite E. cbn [mbind option_bind]. destruct (is_again (mx_cpus s) x) eqn:Ag.
  { destruct Q' as [-> ->]. rewrite Z.eqb_refl. rewrite m_queue_id. eexists. split; [done|]. split_and!; try done. right. left. done. }
  set (s' := m_cpus (alter (set_next 0) x h) (m_owner x (m_queue f h s))).
  exists s'. split; [by destruct (f =? mx_sq s)|].
  destruct (alter_keep t h x (set_next 0)) as [A1 A2]; [done|].
  assert (A3 : forall u, is_again (alter (set_next 0) x h) u = is_again h u).
  { intros u. destruct (alter_keep (u + 1) h x (set_next 0)) as [_ B]; [done|]. apply B. lia. }
  assert (K : mkeep t s s').
  { split; try done; intros u; cbn; [rewrite A1; by apply same_cpus_dom|intros N; rewrite A2 by done; by apply same_cpus_again]. }
  split_and!; try done.
  { intros u. cbn. rewrite A3. by apply same_cpus_again. }
  right. right. split_and!; try done.
  assert (Qs : queues h (fupd PMutex f qh) (fupd PMutex (qremove x (ql PMutex)) ql) (fupd x PNone pl)).
  { eapply queues_remove; [apply M|done..]. }
  apply (mex_change t [] s qh ql pl); try done.
  - set_solver.
  - cbn. eapply queues_links; [exact Qs|]. intros u Hu. rewrite lookup_alter_ne; [done|]. intros <-. by rewrite fupd_eq in Hu.
  - apply G.
  - congruence.
  - intros u U0 U Nx. unfold mview_of. rewrite (pend_keep _ _ _ K). cbn [mx_owner s' m_cpus m_owner mx_signal mx_lock_count m_queue].
    assert (u <> x) by set_solver. rewrite fupd_ne by done. rewrite O.
    destruct (Z.eqb_spec x u); [congruence|]. destruct (Z.eqb_spec t u); [congruence|]. done.
Qed.

(** The thread that got the mutex is woken. *)
Lemma mex_granted t X s qh ql pl p x :
  mex t (x :: X) s qh ql pl -> mlocal (mpc s x) p -> v_place p <> PNone -> mstopped (mpc s x) = false ->
  pl x = PNone -> mx_owner s = x -> mx_lock_count s = 0 -> (pend_of s =? x) = false -> depth s x = v_dep p ->
  mex t X (m_signal (mx_signal s ∪ {[x]}) s) qh ql pl.
Proof.
  intros M L N S Px O C Pe De. apply (mex_restore t X x).
  - apply mex_awake; [done|]. right. set_solver.
  - change (mpc (m_signal _ s) x) with (mpc s x). unfold mview_of. cbn [mx_signal m_signal mx_owner mx_lock_count].
    change (pend_of (m_signal _ s)) with (pend_of s). change (depth (m_signal _ s) x) with (depth s x).
    rewrite Px, O, Z.eqb_refl, C, Pe, De, bool_decide_eq_true_2 by set_solver. by apply mlocal_grant.
Qed.

Lemma mex_depth t X s qh ql pl d : mex t X s qh ql pl -> mex t X (m_depth t d s) qh ql pl.
Proof.
  intros M. pose proof (me_global _ _ _ _ _ _ M) as G. apply (mex_change t X s qh ql pl); try done; try apply G; [apply M|].
  intros u U0 U Nx. unfold mview_of. by rewrite depth_there.
Qed.

Lemma view_depth t d s pl : mview_of (m_depth t d s) pl t =
  MView (mx_conds s) (pl t) (mx_owner s =? t) (bool_decide (t ∈ mx_signal s)) (pend_of s =? t) (if mx_owner s =? t then mx_lock_count s else 0) (depth s t + d).
Proof. unfold mview_of. by rewrite depth_here. Qed.

Lemma mstop_inv t s qh ql pl :
  mex t [] s qh ql pl -> t <> 0 -> is_Some (mx_cpus s !! t) -> (forall p', p' <> PNone -> qhead s p' = qh p') ->
  is_loop (mpc s t) = false -> mlocal MStopped (mview_of s pl t) -> minv (mstop t s) ql pl.
Proof.
  intros M T0 Ta Qh L0 Lo. pose proof (me_global _ _ _ _ _ _ M) as G. unfold mstop. set (s' := m_cpus _ s).
  assert (K : mkeep t s s').
  { split; try done; intros u; [apply set_again_dom|]. intros N. cbn. rewrite set_again_is. by rewrite decide_False. }
  apply (mex_go t s' qh); try done; [|by apply set_again_dom|].
  - apply (mex_change t [] s qh ql pl); try done; try apply G. intros p Hp. destruct (me_queues _ _ _ _ _ _ M p Hp) as [Q ?].
    split; [by apply set_again_queue|done].
  - cbn. rewrite set_again_is, decide_True by done. by apply bool_decide_eq_true_2.
Qed.

Lemma mex_drop t X s qh ql pl : mex t (t :: X) s qh ql pl -> mex t X s qh ql pl.
Proof.
  intros M. split; try apply M. intros u U0 U Nx. apply (me_local _ _ _ _ _ _ M); try done. by rewrite not_elem_of_cons.
Qed.

Lemma alter_again (h : threads) x (f : cpu -> cpu) u : (forall c, again (f c) = again c) -> is_again (alter f x h) u = is_again h u.
Proof. intros A. apply (alter_keep (u + 1)); [done|lia]. Qed.

(** The link of a thread in no queue is reset. *)
Lemma mex_clear t X s qh ql pl x : mex t X s qh ql pl -> pl x = PNone ->
  mex t X (m_cpus (alter (set_next 0) x (mx_cpus s)) s) qh ql pl.
Proof.
  intros M Px. pose proof (me_global _ _ _ _ _ _ M) as G. destruct (alter_keep t (mx_cpus s) x (set_next 0)) as [A1 A2]; [done|].
  apply (mex_change t X s qh ql pl); try done; try apply G.
  eapply queues_links; [apply M|]. intros u Hu. cbn. rewrite lookup_alter_ne; [done|]. congruence.
Qed.

Lemma mpc_keep t s s' u : mkeep t s s' -> mpc s' u = mpc s u.
Proof. intros K. unfold mpc. by rewrite (mk_points _ _ _ K). Qed.

Lemma qhead_keep t s s' qh : mkeep t s s' -> mx_sq s' = qh PMutex -> (forall c, csq s' c = qh (PCond c)) -> detached s = qh PDet ->
  forall p, p <> PNone -> qhead s' p = qh p.
Proof.
  intros K E1 E2 E3 [| |c|] Hp; try done; [apply E2|]. cbn. rewrite <- E3. unfold detached. rewrite (mk_host _ _ _ K).
  destruct (mx_host s) as [u|]; [|done]. by rewrite (mpc_keep _ _ _ _ K).
Qed.

Definition mgood (s : lmutex) : Prop := exists ql pl, minv s ql pl.

Section waits.
Context (s : lmutex) (ql : place -> list Z) (pl : Z -> place) (t : Z).
Context (I : minv s ql pl) (T0 : t <> 0) (Ta : is_Some (mx_cpus s !! t)).

Lemma mutex_queue : queue (mx_cpus s) (mx_sq s) (ql PMutex) /\ forall u, u ∈ ql PMutex <-> pl u = PMutex.
Proof. by apply (mi_queues _ _ _ I PMutex). Qed.
Lemma cond_queue c : queue (mx_cpus s) (csq s c) (ql (PCond c)) /\ forall u, u ∈ ql (PCond c) <-> pl u = PCond c.
Proof. by apply (mi_queues _ _ _ I (PCond c)). Qed.

Lemma not_again : mstopped (mpc s t) = false -> is_again (mx_cpus s) t = false.
Proof. intros P. by rewrite (mi_again _ _ _ I). Qed.

Lemma ml_own_inv to : mpc s t = MlOwn to -> mgood (ml_own t to s).
Proof.
  intros P. mview I t T0 P L. destruct L as ((Pl & Pe & De) & Sg & Ow). pose proof (mex_open t s ql pl I) as M.
  assert (Ex : mx_exists s = true) by (eapply idm_exists; [done..|by rewrite P]). rewrite Ow in De.
  assert (Na : is_again (mx_cpus s) t = false) by (apply not_again; by rewrite P). unfold ml_own.
  destruct (decide (mx_owner s = 0)) as [O|O].
  - destruct (mex_take t [] s _ ql pl t M (or_introl eq_refl) T0 Pl O Ex) as (s' & -> & M' & K & O' & Ct' & Dp' & Sg' & Sq & Cs & Ag & Vi).
    exists ql, pl. unfold mgot, mret. apply (mex_go t _ (qhead s)); try done.
    + by apply mex_depth.
    + by apply (mk_dom _ _ _ K).
    + cbn. by rewrite Ag.
    + apply (qhead_keep t s s' _ K); try done. intros c. cbn. unfold csq. by rewrite Cs.
    + change (mpc (m_depth t 1 s') t) with (mpc s' t). by rewrite (mpc_keep _ _ _ _ K), P.
    + rewrite view_depth. injection Vi as V0 V1 V2 V3 V4 V5 V6. rewrite V2 in *. rewrite V1, V3, V4, V5, V6, Sg, Pe, De. done.
  - destruct (mex_push t [] s _ ql pl t M (or_introl eq_refl) T0 Ta Pl O eq_refl) as (s' & -> & M' & K & R & Sq & Cs & Ag & Vi).
    eexists _, _. eapply (mex_go t); try exact M'; try done.
    + by apply (mk_dom _ _ _ K).
    + by rewrite Ag.
    + apply (qhead_keep t s s' _ K); try done. intros c. cbn. unfold csq. by rewrite Cs.
    + by rewrite (mpc_keep _ _ _ _ K), P.
    + rewrite Vi. mcheck. rewrite Ow, Sg, Pe, De. auto 10.
Qed.

Lemma ml_stop_inv to s' : mpc s t = MlSleep to -> ml_stop t s = Some s' -> mgood s'.
Proof.
  intros P. mview I t T0 P L. destruct mutex_queue as [Q Iq]. unfold ml_stop. rewrite (walk_spec _ _ _ Q). cbn [mbind option_bind].
  intros [= <-]. exists ql, pl. destruct L as (Pe & De & L). destruct (mem_list t (ql PMutex)) eqn:E.
  - apply mem_list_spec, Iq in E. eapply (mstop_inv t s (qhead s)); try done; [by apply mex_open|by rewrite P|].
    mcheck. rewrite E. destruct L as [(_ & Ow & Sg & _)|((? & _) & _)]; [|congruence]. split_and!; try done. auto.
  - destruct L as [(Pl & _)|((Pl & Ow & Lk) & Sg)]; [apply Iq, mem_list_spec in Pl; congruence|].
    apply (minv_got s ql pl t I); rewrite ?P; try done. mcheck. rewrite Ow in *. by rewrite Lk, De.
Qed.

Lemma ml_lock_inv s' : mpc s t = MlLock -> ml_lock t s = Some s' -> mgood s'.
Proof.
  intros P. mview I t T0 P L. destruct mutex_queue as [Q Iq]. unfold ml_lock.
  destruct (unqueue_spec false _ _ _ t Q T0) as (f & h & E & Q' & Sc & F). rewrite E. cbn [mbind option_bind].
  intros [= <-]. destruct L as (Pe & De & L). destruct (decide (t ∈ ql PMutex)) as [Hin|Hn].
  - destruct (Z.eqb_spec t 0); [done|]. apply Iq in Hin as Pl. destruct L as [(_ & Ow & Sg & _)|((? & _) & _)]; [|congruence].
    assert (K : mkeep t s (m_queue f h s)) by (destruct (same_cpus_keep t s (m_queue f h s) Sc); by split).
    pose proof (mex_remove t [] s _ ql pl PMutex t f h (m_queue f h s) (mex_open t s ql pl I) ltac:(done) Pl Q' F eq_refl K ltac:(done)) as M.
    apply mex_drop, (mex_clear _ _ _ _ _ _ t) in M; [|apply fupd_eq]. eexists _, _. eapply (mex_go t); try exact M; try done.
    + apply alter_keep; [exact 0|done|]. by apply (mk_dom _ _ _ K).
    + cbn. rewrite alter_again by done. rewrite (same_cpus_again _ _ _ Sc). apply not_again. by rewrite P.
    + by apply (qhead_keep t s (m_queue f h s) _ K).
    + change (is_loop (mpc s t) = false). by rewrite P.
    + change (mlocal (MReturned KLock CELL_ETIMEDOUT) (mview_of s (fupd t PNone pl) t)). mcheck. rewrite fupd_eq, Ow, De. done.
  - exists ql, pl. cbn [Z.eqb]. destruct L as [(Pl & _)|((Pl & Ow & Lk) & Sg)]; [by apply Iq in Pl|].
    apply (minv_got s ql pl t I); rewrite ?P; try done. mcheck. rewrite Ow in *. by rewrite Lk, De.
Qed.
End waits.

(** The thread table has no null. *)
Lemma again_null t X s qh ql pl : mex t X s qh ql pl -> is_again (mx_cpus s) 0 = false.
Proof. intros M. unfold is_again. by rewrite (mg_null _ _ (me_global _ _ _ _ _ _ M)). Qed.

(** [emplace] on the queue of a condition variable. *)
Lemma mex_emplace t s qh ql pl c :
  mex t [] s qh ql pl -> t <> 0 -> is_Some (mx_cpus s !! t) -> pl t = PNone -> csq s c = qh (PCond c) -> c ∈ mx_conds s ->
  exists h, emplace (mx_tag s) (mx_cpus s) (csq s c) t = (next_tag (mx_tag s), t, h) /\
    let s' := m_tag (next_tag (mx_tag s)) (m_cqueue c t h s) in
    mex t [] s' (fupd (PCond c) t qh) (fupd (PCond c) (t :: ql (PCond c)) ql) (fupd t (PCond c) pl) /\
    mkeep t s s' /\ (forall u, is_again h u = is_again (mx_cpus s) u).
Proof.
  intros M T0 [cp Hc] Pl Hq Hin. pose proof (me_global _ _ _ _ _ _ M) as G. destruct (me_queues _ _ _ _ _ _ M (PCond c) ltac:(done)) as [Q Iq].
  rewrite <- Hq in Q. assert (Nt : t ∉ ql (PCond c)) by (rewrite Iq; congruence).
  destruct (emplace_spec (mx_tag s) _ _ _ t cp Q Nt T0 Hc) as (h & E & Q' & Hh & F). exists h. split; [done|]. cbv zeta.
  assert (Ag : forall u, is_again h u = is_again (mx_cpus s) u).
  { intros u. unfold is_again. destruct (decide (u = t)) as [->|]; [by rewrite Hh, Hc|by rewrite F]. }
  assert (K : mkeep t s (m_tag (next_tag (mx_tag s)) (m_cqueue c t h s))).
  { split; try done; intros u; cbn.
    - intros H. destruct (decide (u = c)) as [->|]; [by rewrite lookup_insert_eq|by rewrite lookup_insert_ne].
    - destruct (decide (u = t)) as [->|]; [by rewrite Hh, Hc|by rewrite F]. }
  split_and!; try done.
  apply (mex_change t [] s qh ql pl); try done.
  - cbn. by eapply queues_push; [apply M|..].
  - cbn. apply G.
  - apply G.
  - intros c' E' Nc. rewrite fupd_ne; [done|]. congruence.
  - intros u U0 U _. apply (view_keep t); [done..|]. by apply fupd_ne.
Qed.

(** The owner clears [lock_count]. *)
Lemma mex_count t s qh ql pl : mex t [] s qh ql pl -> mx_owner s = t -> t <> 0 -> mex t [] (m_count 0 s) qh ql pl.
Proof.
  intros M O T0. pose proof (me_global _ _ _ _ _ _ M) as G. apply (mex_change t [] s qh ql pl); try done; [apply M|cbn; congruence|].
  intros u U0 U _. unfold mview_of. cbn. rewrite O. destruct (Z.eqb_spec t u); [congruence|done].
Qed.

Lemma mkeep_trans t s s' s'' : mkeep t s s' -> mkeep t s' s'' -> mkeep t s s''.
Proof.
  intros [A1 A2 A3 A4 A5 A6 A7 A8 A9] [B1 B2 B3 B4 B5 B6 B7 B8 B9]. split; try congruence; auto.
  - intros u. by rewrite B8.
  - intros u U. by rewrite B9, A9.
Qed.

Lemma csq_cqueue c q h s c' : csq (m_cqueue c q h s) c' = if decide (c' = c) then q else csq s c'.
Proof.
  unfold csq. cbn. destruct (decide (c' = c)) as [->|]; [by rewrite lookup_insert_eq|by rewrite lookup_insert_ne].
Qed.

Lemma cqueue_keep t s c f h : same_cpus (mx_cpus s) h -> mkeep t s (m_cqueue c f h s).
Proof.
  intros Sc. destruct (same_cpus_keep t s (m_cqueue c f h s) Sc). split; try done. cbn. intros c' H'.
  destruct (decide (c' = c)) as [->|]; [by rewrite lookup_insert_eq|by rewrite lookup_insert_ne].
Qed.

Section hand.
Context (s : lmutex) (ql : place -> list Z) (pl : Z -> place) (t : Z).
Context (I : minv s ql pl) (T0 : t <> 0) (Ta : is_Some (mx_cpus s !! t)).

(** The thread at the front, as the invariant knows it. *)
Lemma front_local X s' qh' ql' pl' x : mex t X s' qh' ql' pl' -> mkeep t s s' -> x <> 0 -> x <> t -> pl x <> PNone ->
  mlocal (mpc s' x) (mview_of s pl x) /\ (pend_of s' =? x) = false.
Proof.
  intros M K X0 Xt Px. pose proof (mi_local _ _ _ I x X0) as L. rewrite (mpc_keep _ _ _ _ K), (pend_keep _ _ _ K). split; [done|].
  by destruct (mlocal_queued _ _ L Px) as (_ & _ & E).
Qed.

Lemma mu_lock_inv s' : mpc s t = MuLock -> mu_lock t s = Some s' -> mgood s'.
Proof.
  intros P. mview I t T0 P L. destruct L as ((Pl & Pe & De) & Sg & Ow & Lk). rewrite Ow in *. apply Z.eqb_eq in Ow as O.
  pose proof (mex_open t s ql pl I) as M. unfold mu_lock.
  destruct (mex_reown t s _ ql pl M T0 O Lk eq_refl) as (s1 & -> & K & Si & Dp & Ct & Cs & Ag & C). cbn [mbind option_bind].
  set (x := pick _ _ _) in *. intros [= <-]. rewrite Ag.
  destruct C as [(X0 & El & O1 & Sq & M1)|[(X0 & Ax & ->)|(X0 & Px & Ax & O1 & M1)]].
  - rewrite X0, (again_null _ _ _ _ _ _ M). exists ql, pl. unfold mgave, mret. cbn [m_awake Z.eqb].
    apply (mex_go t _ (qhead s)); try done.
    + by apply mex_depth.
    + by apply (mk_dom _ _ _ K).
    + cbn. rewrite Ag. eapply not_again; [done|]. by rewrite P.
    + apply (qhead_keep t s s1 _ K); try done. intros c. cbn. unfold csq. by rewrite Cs.
    + change (is_loop (mpc s1 t) = false). by rewrite (mpc_keep _ _ _ _ K), P.
    + rewrite view_depth. mcheck. rewrite O1, (pend_keep _ _ _ K). unfold depth in *. rewrite Dp.
      destruct (Z.eqb_spec 0 t); [congruence|]. split_and!; try done. lia.
  - rewrite Ax. exists ql, pl. apply (mstop_inv t s (qhead s)); try done; [by rewrite P|]. mcheck. rewrite Pl. auto.
  - rewrite Ax. assert (Xt : x <> t) by congruence. unfold mgave, mret, m_awake. destruct (Z.eqb_spec x 0); [done|].
    destruct (front_local _ _ _ _ _ x M1 K X0 Xt) as [Lx Pex]; [congruence|].
    apply (mex_granted _ _ _ _ _ _ (mview_of s pl x)) in M1; try done; [|cbn; congruence| |apply fupd_eq|cbn; unfold depth; by rewrite Dp].
    2: { rewrite (mpc_keep _ _ _ _ K). rewrite <- (mi_again _ _ _ I). done. }
    eexists _, _. eapply (mex_go t); [apply mex_depth, M1|done|..]; try done.
    + by apply (mk_dom _ _ _ K).
    + cbn. rewrite Ag. eapply not_again; [done|]. by rewrite P.
    + apply (qhead_keep t s s1 _ K); try done. intros c. cbn. unfold csq. by rewrite Cs.
    + change (is_loop (mpc s1 t) = false). by rewrite (mpc_keep _ _ _ _ K), P.
    + rewrite view_depth. mcheck. cbn [mx_owner m_signal mx_lock_count mx_signal].
      change (pend_of (m_signal _ s1)) with (pend_of s1). change (depth (m_signal _ s1) t) with (depth s1 t).
      rewrite O1, (pend_keep _ _ _ K), fupd_ne by done. destruct (Z.eqb_spec x t); [congruence|]. unfold depth in *. rewrite Dp.
      split_and!; try done. lia.
Qed.

Lemma cw_lock_inv c to s' : mpc s t = CwLock c to -> cw_lock t c to s = Some s' -> mgood s'.
Proof.
  intros P. mview I t T0 P L. destruct L as ((Pl & Pe & De) & Sg & Ow & Hc). rewrite Ow in *. apply Z.eqb_eq in Ow as O.
  pose proof (mex_open t s ql pl I) as M. pose proof (mg_count _ _ (mi_global _ _ _ I)) as [N1 N2].
  assert (Na : is_again (mx_cpus s) t = false) by (eapply not_again; [done|]; by rewrite P).
  destruct (mex_emplace t s _ ql pl c M T0 Ta Pl eq_refl Hc) as (h & E & M0 & K0 & A0). unfold cw_lock. rewrite E.
  apply mex_count in M0; [|done..]. set (s0 := m_count 0 _) in *.
  destruct (mex_reown t s0 _ _ _ M0 T0 O eq_refl eq_refl) as (s1 & E1 & K & Si & Dp & Ct & Cs & Ag & C). rewrite E1. cbn [mbind option_bind].
  set (x := pick _ _ _) in *. rewrite Ag. assert (K0' : mkeep t s s0) by (destruct K0; by split).
  pose proof (mkeep_trans _ _ _ _ K0' K) as K1.
  assert (Cq : forall c', csq s1 c' = fupd (PCond c) t (qhead s) (PCond c')).
  { intros c'. unfold csq. rewrite Cs. change (csq (m_cqueue c t h s) c' = fupd (PCond c) t (qhead s) (PCond c')). rewrite csq_cqueue. unfold fupd.
    destruct (decide (c' = c)) as [->|]; [by rewrite decide_True|rewrite decide_False; [done|congruence]]. }
  assert (Q1 : forall qh, qh PMutex = mx_sq s1 -> (forall c', qh (PCond c') = fupd (PCond c) t (qhead s) (PCond c')) ->
    detached s = qh PDet -> forall p, p <> PNone -> qhead s1 p = qh p).
  { intros qh E2 E3 E4. apply (qhead_keep t s s1 _ K1); [done| |done]. intros c'. by rewrite Cq, E3. }
  assert (Lo : forall s2, mx_owner s2 <> t -> pend_of s2 = pend_of s -> t ∉ mx_signal s2 -> depth s2 t = depth s t -> forall pl', pl' t = PCond c ->
    mlocal (CwSleep c to (mx_lock_count s) CELL_OK) (mview_of s2 pl' t)).
  { intros s2 O2 P2 S2 D2 pl' E2. mcheck. rewrite E2, P2, D2, bool_decide_eq_false_2 by done. destruct (Z.eqb_spec (mx_owner s2) t); [done|].
    rewrite De. split; [|by left]. split_and!; auto; try lia. }
  assert (Nt : t ∉ mx_signal s) by (by apply bool_decide_eq_false in Sg).
  destruct C as [(X0 & El & O1 & Sq & M1)|[(X0 & Ax & ->)|(X0 & Px & Ax & O1 & M1)]].
  - rewrite X0, (again_null _ _ _ _ _ _ M0). cbn [m_awake Z.eqb]. intros [= <-]. eexists _, _. eapply (mex_go t); [exact M1|done|..]; try done.
    + by apply (mk_dom _ _ _ K1).
    + rewrite Ag. cbn. by rewrite A0.
    + by apply Q1.
    + by rewrite (mpc_keep _ _ _ _ K1), P.
    + apply Lo; [congruence|by apply (pend_keep t)| |unfold depth; by rewrite Dp|apply fupd_eq]. by rewrite Si.
  - rewrite Ax. assert (Pt : fupd t (PCond c) pl t = PCond c) by apply fupd_eq.
    destruct (me_queues _ _ _ _ _ _ M0 (PCond c) ltac:(done)) as [Q Iq]. rewrite <- Cq in Q.
    destruct (unqueue_spec true _ _ _ t Q T0) as (f & h' & E2 & Q' & Sc & F). rewrite E2. cbn [mbind option_bind].
    rewrite decide_True by (by apply Iq). destruct (Z.eqb_spec t 0); [done|]. cbn [negb m_ensure]. intros [= <-].
    pose proof (cqueue_keep t s0 c f h' Sc) as K2.
    pose proof (mex_remove _ _ _ _ _ _ (PCond c) t f h' (m_cqueue c f h' s0) M0 ltac:(done) Pt Q' F eq_refl K2 ltac:(done)) as M2.
    apply mex_drop in M2. eexists _, _. eapply (mstop_inv t); [exact M2|done|..].
    + by apply (mk_dom _ _ _ K2), (mk_dom _ _ _ K0').
    + apply (qhead_keep t s0 _ _ K2); try done. intros c'. rewrite csq_cqueue, Cq. unfold fupd. destruct (decide (c' = c)) as [->|].
      * by rewrite decide_True.
      * rewrite !(decide_False (P := PCond c' = PCond c)) by congruence. done.
    + change (is_loop (mpc s t) = false). by rewrite P.
    + mcheck. rewrite fupd_eq. split_and!; auto.
  - rewrite Ax. intros [= <-]. assert (Xt : x <> t) by (intros E2; rewrite E2, fupd_eq in Px; congruence). rewrite fupd_ne in Px by done.
    unfold m_awake. destruct (Z.eqb_spec x 0); [done|].
    destruct (front_local _ _ _ _ _ x M1 K1 X0 Xt) as [Lx Pex]; [congruence|].
    apply (mex_granted _ _ _ _ _ _ (mview_of s pl x)) in M1; try done; [|cbn; congruence| |apply fupd_eq|cbn; unfold depth; by rewrite Dp].
    2: { rewrite (mpc_keep _ _ _ _ K1). rewrite <- (mi_again _ _ _ I), <- A0. done. }
    eexists _, _. eapply (mex_go t); [exact M1|done|..]; try done.
    + by apply (mk_dom _ _ _ K1).
    + cbn. rewrite Ag. cbn. by rewrite A0.
    + by apply Q1.
    + change (is_loop (mpc s1 t) = false). by rewrite (mpc_keep _ _ _ _ K1), P.
    + apply Lo; [cbn; congruence|exact (pend_keep t s s1 K1)| |cbn; unfold depth; cbn; by rewrite Dp|].
      * cbn. rewrite Si. cbn. set_solver.
      * rewrite fupd_ne by done. apply fupd_eq.
Qed.
End hand.

Lemma csq_fupd c f h s c' : csq (m_cqueue c f h s) c' = fupd (PCond c) f (qhead s) (PCond c').
Proof.
  rewrite csq_cqueue. unfold fupd. destruct (decide (c' = c)) as [->|]; [by rewrite decide_True|rewrite decide_False; [done|congruence]].
Qed.

Section cond.
Context (s : lmutex) (ql : place -> list Z) (pl : Z -> place) (t : Z).
Context (I : minv s ql pl) (T0 : t <> 0) (Ta : is_Some (mx_cpus s !! t)).

(** While the host mutex is free nothing is detached. *)
Lemma det_empty : mx_host s = None -> (forall u, pl u <> PDet) /\ pend_of s = 0.
Proof.
  intros H. destruct (mi_queues _ _ _ I PDet ltac:(done)) as [Q Iq]. split; [|unfold pend_of; by rewrite H].
  intros u E. apply Iq in E. assert (El : ql PDet = []); [|rewrite El in E; by apply elem_of_nil in E].
  apply (queue_nil _ _ _ Q). cbn. unfold detached. by rewrite H.
Qed.

Lemma cond_exists c u : pl u = PCond c -> mx_exists s = true /\ c ∈ mx_conds s.
Proof.
  intros P. destruct (cond_queue s ql pl I c) as [_ Iq]. apply Iq in P. pose proof (mi_global _ _ _ I) as G.
  destruct (decide (c ∈ mx_conds s)) as [H|H]; [|rewrite (mg_cond _ _ G c H) in P; by apply elem_of_nil in P].
  split; [|done]. destruct (mx_exists s) eqn:E; [done|]. destruct (mi_destroyed _ _ _ I E) as (_ & E' & _).
  rewrite E' in H. by apply not_elem_of_empty in H.
Qed.

Lemma cw_stop_inv c to n r s' : mpc s t = CwSleep c to n r -> mx_host s = None -> cw_stop t c n r s = Some s' -> mgood s'.
Proof.
  intros P H. mview I t T0 P L. destruct L as ((Hn & De & L) & Hr). destruct (mutex_queue s ql pl I) as [Q Iq]. destruct (cond_queue s ql pl I c) as [Qc Ic].
  destruct (det_empty H) as [Nd Pn]. unfold cw_stop. rewrite (walk_spec _ _ _ Q), (walk_spec _ _ _ Qc). cbn [mbind option_bind]. intros [= <-].
  exists ql, pl. destruct (mem_list t (ql (PCond c))) eqn:E1; [|destruct (mem_list t (ql PMutex)) eqn:E2]; cbn [negb andb].
  - apply mem_list_spec, Ic in E1. apply (mstop_inv t s (qhead s)); try done; [by apply mex_open|by rewrite P|]. mcheck. rewrite E1.
    destruct L as [(_ & Ow & Sg & Pe)|((? & _) & _)]; [|congruence]. split_and!; auto.
  - apply mem_list_spec, Iq in E2. apply (mstop_inv t s (qhead s)); try done; [by apply mex_open|by rewrite P|]. mcheck. rewrite E2.
    destruct L as [(_ & Ow & Sg & Pe)|((? & _) & _)]; [|congruence]. split_and!; auto.
  - apply minv_go; rewrite ?P; try done. mcheck. destruct L as [([Pl|[Pl|Pl]] & _)|((Pl & Ow & Lk) & Pe)].
    + apply Ic, mem_list_spec in Pl. congruence.
    + apply Iq, mem_list_spec in Pl. congruence.
    + by apply Nd in Pl.
    + assert (Pt : (pend_of s =? t) = false) by (rewrite Pn; by apply Z.eqb_neq). split_and!; try done; try lia.
Qed.

Lemma cw_expired_inv c n r s' : mpc s t = CwExpired c n r -> mx_host s = None -> cw_expired t c n r s = Some s' -> mgood s'.
Proof.
  intros P H. mview I t T0 P L. destruct L as ((Hn & De & L) & Hr). destruct (cond_queue s ql pl I c) as [Qc Ic].
  destruct (det_empty H) as [Nd Pn]. assert (Pt : (pend_of s =? t) = false) by (rewrite Pn; by apply Z.eqb_neq).
  assert (Na : is_again (mx_cpus s) t = false) by (eapply not_again; [done|]; by rewrite P).
  destruct (unqueue_spec true _ _ _ t Qc T0) as (f & h & E & Q' & Sc & F). unfold cw_expired. rewrite E. cbn [mbind option_bind]. intros [= <-].
  destruct (decide (t ∈ ql (PCond c))) as [Hin|Hn'].
  - destruct (Z.eqb_spec t 0); [done|]. cbn [negb]. apply Ic in Hin as Pl. destruct (cond_exists c t Pl) as [Ex _].
    destruct L as [(_ & Ow & Sg & Pe)|((? & _) & _)]; [|congruence].
    pose proof (cqueue_keep t s c f h Sc) as K.
    pose proof (mex_remove t [] s _ ql pl (PCond c) t f h (m_cqueue c f h s) (mex_open t s ql pl I) ltac:(done) Pl Q' F eq_refl K ltac:(done)) as M.
    apply mex_drop in M. set (s1 := m_cqueue c f h s) in *.
    pose proof (csq_fupd c f h s) as Cq. fold s1 in Cq.
    assert (Pn1 : fupd t PNone pl t = PNone) by apply fupd_eq.
    destruct (decide (mx_owner s1 = 0)) as [O|O].
    + destruct (mex_take t [] s1 _ _ _ t M (or_introl eq_refl) T0 Pn1 O Ex) as (s2 & -> & M2 & K2 & O2 & Ct2 & Dp2 & Sg2 & Sq2 & Cs2 & Ag2 & Vi).
      eexists _, _. eapply (mex_go t); [exact M2|done|..]; try done.
      * by apply (mk_dom _ _ _ K2), (mk_dom _ _ _ K).
      * rewrite Ag2. cbn. by rewrite (same_cpus_again _ _ _ Sc).
      * apply (qhead_keep t s1 s2 _ K2); try done. intros c'. unfold csq. rewrite Cs2. apply Cq.
      * rewrite (mpc_keep _ _ _ _ K2). change (is_loop (mpc s t) = false). by rewrite P.
      * rewrite Vi. mcheck. split_and!; try done; try lia. by right.
    + destruct (mex_push t [] s1 _ _ _ t M (or_introl eq_refl) T0) as (s2 & -> & M2 & K2 & R2 & Sq2 & Cs2 & Ag2 & Vi); try done.
      { by apply (mk_dom _ _ _ K). }
      eexists _, _. eapply (mex_go t); [exact M2|done|..]; try done.
      * by apply (mk_dom _ _ _ K2), (mk_dom _ _ _ K).
      * rewrite Ag2. cbn. by rewrite (same_cpus_again _ _ _ Sc).
      * apply (qhead_keep t s1 s2 _ K2); try done. intros c'. unfold csq. rewrite Cs2. apply Cq.
      * rewrite (mpc_keep _ _ _ _ K2). change (is_loop (mpc s t) = false). by rewrite P.
      * rewrite Vi. mcheck. split; [|by right]. split_and!; try done; try lia. left. split_and!; auto.
  - cbn [Z.eqb negb]. exists ql, pl. destruct (Z.eqb_spec (mx_owner s) t) as [O|O].
    + apply minv_go; rewrite ?P; try done. mcheck. rewrite O, Z.eqb_refl.
      destruct L as [(_ & [=] & _)|((Pl & Ow & Lk) & Pe)]. split_and!; try done; try lia.
    + apply minv_go; rewrite ?P; try done. mcheck. destruct (Z.eqb_spec (mx_owner s) t); [done|]. done.
Qed.
End cond.

(** A waiter that was taken out of its queue gets the mutex or joins its queue. *)
Lemma cs_own_mex t u s1 qh ql1 pl1 v :
  mex t [u] s1 qh ql1 pl1 -> u <> 0 -> u <> t -> is_Some (mx_cpus s1 !! u) -> pl1 u = PNone -> mx_exists s1 = true ->
  qh PMutex = mx_sq s1 -> (forall c, csq s1 c = qh (PCond c)) -> detached s1 = qh PDet ->
  mlocal (mpc s1 u) v -> v_place v <> PNone -> v_place v <> PMutex -> mstopped (mpc s1 u) = false ->
  mview_of s1 pl1 u = MView (mx_conds s1) PNone false false false 0 (v_dep v) ->
  exists qh' ql' pl', mex t [] (cs_own u s1) qh' ql' pl' /\ mkeep t s1 (cs_own u s1) /\
    (forall p, p <> PNone -> qhead (cs_own u s1) p = qh' p) /\
    (forall w, is_again (mx_cpus (cs_own u s1)) w = is_again (mx_cpus s1) w) /\
    (forall w, w <> 0 -> w <> u -> mview_of (cs_own u s1) pl' w = mview_of s1 pl1 w).
Proof.
  intros M U0 Ut Ua Pu Ex Hq Hc Hd L N1 N2 St Vu. unfold cs_own. injection Vu as _ V2 V3 V4 V5 V6.
  destruct (decide (mx_owner s1 = 0)) as [O|O].
  - destruct (mex_take t [u] s1 _ _ _ u M) as (s2 & -> & M2 & K2 & O2 & Ct2 & Dp2 & Sg2 & Sq2 & Cs2 & Ag2 & Vi); try done; [right; set_solver|].
    unfold m_awake. destruct (Z.eqb_spec u 0); [done|].
    eexists qh, ql1, pl1. split_and!; try done.
    + apply (mex_granted t [] s2 qh ql1 pl1 v u M2); try done; rewrite ?(mpc_keep _ _ _ _ K2), ?(pend_keep _ _ _ K2); try done.
      unfold depth. by rewrite Dp2.
    + destruct K2. by split.
    + apply (qhead_keep t s1 s2 _ K2); [by rewrite Sq2| |done]. intros c. rewrite <- Hc. unfold csq. cbn. by rewrite Cs2.
    + intros w W0 Wu. unfold mview_of. cbn [mx_owner m_signal mx_lock_count mx_signal mx_conds].
      change (pend_of (m_signal _ s2)) with (pend_of s2). change (depth (m_signal _ s2) w) with (depth s2 w).
      rewrite (pend_keep _ _ _ K2), (mk_conds _ _ _ K2), O2, O. unfold depth. rewrite Dp2.
      destruct (Z.eqb_spec u w); [congruence|]. destruct (Z.eqb_spec 0 w); [congruence|]. f_equal. rewrite Sg2. apply bool_decide_ext. set_solver.
  - destruct (mex_push t [u] s1 _ _ _ u M) as (s2 & -> & M2 & K2 & R2 & Sq2 & Cs2 & Ag2 & Vi); try done; [right; set_solver|].
    eexists _, _, _. split_and!; [|done|..|done|].
    + eapply mex_restore; [exact M2|]. rewrite Vi, (mpc_keep _ _ _ _ K2). unfold mview_of. cbn [v_own v_sig v_pend v_lk v_dep].
      rewrite V2, V3, V4, V6. apply mlocal_move; auto.
    + apply (qhead_keep t s1 s2 _ K2); try done. intros c. rewrite fupd_ne by done. rewrite <- Hc. unfold csq. by rewrite Cs2.
    + intros w W0 Wu. apply (view_keep t); try done. by apply fupd_ne.
Qed.

Section signal.
Context (s : lmutex) (ql : place -> list Z) (pl : Z -> place) (t : Z).
Context (I : minv s ql pl) (T0 : t <> 0) (Ta : is_Some (mx_cpus s !! t)).
Context (k : sigkind) (c : Z) (P : mpc s t = CsLock k c).

Lemma signaller : quiet (mview_of s pl t) /\ (t ∉ mx_signal s) /\ is_again (mx_cpus s) t = false.
Proof.
  pose proof (mi_local _ _ _ I t T0) as L. rewrite P in L. destruct L as [Q Sg]. split_and!; [done|by apply bool_decide_eq_false in Sg|].
  eapply not_again; [done|]. by rewrite P.
Qed.

(** The signalling thread stops. *)
Lemma cs_stop : minv (mstop t s) ql pl.
Proof.
  destruct signaller as ((Pl & Pe & _) & Sg & _). apply (mstop_inv t s (qhead s)); try done; [by apply mex_open|by rewrite P|].
  cbn in *. rewrite Pl, Pe. split_and!; try done; [by apply bool_decide_eq_false_2|by left].
Qed.

(** The head of the queue is written back. *)
Lemma cs_same : let s1 := m_cqueue c (csq s c) (mx_cpus s) s in
  mex t [] s1 (qhead s) ql pl /\ forall p, p <> PNone -> qhead s1 p = qhead s p.
Proof.
  pose proof (cqueue_keep t s c (csq s c) (mx_cpus s) (same_cpus_refl _)) as K. pose proof (mi_global _ _ _ I) as G. split.
  - apply (mex_change t [] s (qhead s) ql pl); try done; try apply G; [by apply mex_open|apply I].
  - apply (qhead_keep t s _ _ K); try done. intros c'. rewrite csq_cqueue. by destruct (decide (c' = c)) as [->|].
Qed.

(** A waiter is taken out of the queue and gets or awaits the mutex. *)
Lemma cs_wake u f h r :
  pl u = PCond c -> is_again (mx_cpus s) u = false -> queue h f (qremove u (ql (PCond c))) -> same_cpus (mx_cpus s) h ->
  (forall w, w ∉ ql (PCond c) -> h !! w = mx_cpus s !! w) -> mgood (mret t KOther r (cs_own u (m_cqueue c f h s))).
Proof.
  intros Pu Au Q' Sc F. destruct signaller as (Qt & Sg & Na). pose proof Qt as (Plt & _). cbn in Plt.
  assert (Ut : u <> t) by congruence. destruct (cond_queue s ql pl I c) as [Qc Ic].
  destruct (queue_in _ _ _ u Qc (proj2 (Ic u) Pu)) as [U0 Ua]. destruct (cond_exists s ql pl I c u Pu) as [Ex _].
  pose proof (mi_local _ _ _ I u U0) as Lu. destruct (mlocal_queued _ _ Lu) as (V1 & V2 & V3); [cbn; congruence|].
  pose proof (cqueue_keep t s c f h Sc) as K.
  pose proof (mex_remove t [] s _ ql pl (PCond c) u f h (m_cqueue c f h s) (mex_open t s ql pl I) ltac:(done) Pu Q' F eq_refl K ltac:(done)) as M.
  destruct (cs_own_mex t u _ _ _ _ (mview_of s pl u) M U0 Ut) as (qh' & ql' & pl' & M2 & K2 & Qh & Ag & Vi); try done.
  - by apply (mk_dom _ _ _ K).
  - apply fupd_eq.
  - apply csq_fupd.
  - cbn. congruence.
  - cbn. congruence.
  - change (mstopped (mpc s u) = false). by rewrite <- (mi_again _ _ _ I).
  - unfold mview_of in *. cbn [v_own v_sig v_pend v_dep] in *. rewrite fupd_eq. change (pend_of (m_cqueue c f h s)) with (pend_of s).
    change (depth (m_cqueue c f h s) u) with (depth s u). cbn [mx_owner mx_signal mx_lock_count mx_conds m_cqueue]. by rewrite V1, V2, V3.
  - exists ql', pl'. apply (mex_go t _ qh'); try done.
    + by apply (mk_dom _ _ _ K2), (mk_dom _ _ _ K).
    + rewrite Ag. cbn. by rewrite (same_cpus_again _ _ _ Sc).
    + rewrite (mpc_keep _ _ _ _ K2). change (is_loop (mpc s t) = false). by rewrite P.
    + rewrite Vi by congruence. change (mview_of (m_cqueue c f h s) (fupd u PNone pl) t) with (mview_of s (fupd u PNone pl) t).
      destruct Qt as (A & B & C). split; [|done]. mcheck. by rewrite fupd_ne by congruence.
Qed.

Lemma cs_one_inv s' : cs_one t c s = Some s' -> mgood s'.
Proof.
  destruct signaller as (Qt & Sg & Na). destruct (cond_queue s ql pl I c) as [Qc Ic]. unfold cs_one.
  destruct (schedule_spec (mx_protocol s) true _ _ _ Qc) as (f & h & E & Sc & F & Q'). rewrite E. cbn [mbind option_bind]. intros [= <-].
  set (u := pick _ _ _) in *. destruct (Z.eqb_spec u 0) as [U|U].
  - assert (El : ql (PCond c) = []).
    { destruct (decide (ql (PCond c) = [])) as [|Nl]; [done|]. by destruct (queue_in _ _ _ u Qc (pick_in _ _ _ Nl)). }
    assert (f = 0 /\ h = mx_cpus s) as [-> ->].
    { rewrite U in Q'. assert (N0 : is_again (mx_cpus s) 0 = false) by exact (again_null t _ _ _ _ _ (mex_open t s ql pl I)). rewrite N0, El in Q'.
      split; [by apply (queue_nil _ _ _ Q')|]. apply map_eq. intros w. apply F. rewrite El. by apply not_elem_of_nil. }
    assert (E0 : csq s c = 0) by (by apply (queue_nil _ _ _ Qc)). destruct cs_same as [M Qh]. rewrite E0 in M, Qh.
    exists ql, pl. apply (mex_go t _ (qhead s)); try done.
    change (is_loop (mpc s t) = false). by rewrite P.
  - assert (Hu : u ∈ ql (PCond c)) by (unfold u; apply pick_in; intros El; unfold u in U; by rewrite El in U).
    destruct (is_again (mx_cpus s) u) eqn:Au.
    + destruct Q' as [-> ->]. destruct cs_same as [M Qh]. exists ql, pl. apply (mstop_inv t _ (qhead s)); try done.
      * change (is_loop (mpc s t) = false). by rewrite P.
      * change (mlocal MStopped (mview_of s pl t)). destruct Qt as (Pl & Pe & _). cbn in *. rewrite Pl, Pe.
        split_and!; try done; [by apply bool_decide_eq_false_2|by left].
    + apply cs_wake; try done. by apply Ic.
Qed.

Lemma cs_to_inv u s' : cs_to t u c s = Some s' -> mgood s'.
Proof.
  destruct signaller as (Qt & Sg & Na). destruct (cond_queue s ql pl I c) as [Qc Ic]. unfold cs_to. rewrite (walk_spec _ _ _ Qc). cbn [mbind option_bind].
  destruct (mem_list u (ql (PCond c))) eqn:Hm.
  - apply mem_list_spec in Hm. destruct (queue_in _ _ _ u Qc Hm) as [U0 _]. destruct (is_again (mx_cpus s) u) eqn:Au.
    + intros [= <-]. exists ql, pl. apply cs_stop.
    + destruct (unqueue_spec true _ _ _ u Qc U0) as (f & h & E & Q' & Sc & F). rewrite E, decide_True by done. cbn [mbind option_bind].
      destruct (Z.eqb_spec u 0); [done|]. cbn [negb m_ensure]. intros [= <-]. apply cs_wake; try done. by apply Ic.
  - intros [= <-]. exists ql, pl. apply minv_go; rewrite ?P; try done.
Qed.

(** [sys_cond_signal_all] detaches the queue. *)
Lemma cs_all_detach : mx_host s = None -> existsb (is_again (mx_cpus s)) (ql (PCond c)) = false ->
  exists s' ql' pl', cs_all t c s = Some s' /\ minv s' ql' pl' /\ mpc s' t = CaLoop c (csq s c) 0 /\
    ql' PDet = ql (PCond c) /\ ql' PMutex = ql PMutex /\ csq s' c = 0 /\ mx_cpus s' = mx_cpus s /\ mx_owner s' = mx_owner s.
Proof.
  intros H Ex. destruct signaller as (Qt & Sg & Na). destruct (cond_queue s ql pl I c) as [Qc Ic]. unfold cs_all. rewrite (walk_spec _ _ _ Qc). cbn [mbind option_bind].
  destruct (det_empty s ql pl I H) as [Nd Pn]. pose proof (mi_global _ _ _ I) as G.
  rewrite Ex. pose proof (again_none _ _ Ex) as An.
  assert (Ed : ql PDet = []).
  { destruct (mi_queues _ _ _ I PDet ltac:(done)) as [Q _]. apply (queue_nil _ _ _ Q). cbn. unfold detached. by rewrite H. }
  pose proof (cqueue_keep t s c 0 (mx_cpus s) (same_cpus_refl _)) as K. set (s1 := m_cqueue c 0 (mx_cpus s) s) in *.
  set (pl1 := fun u => if decide (pl u = PCond c) then PDet else pl u).
  pose proof (queues_detach _ _ _ _ (PCond c) PDet (mi_queues _ _ _ I) ltac:(done) ltac:(done) ltac:(done) Ed) as Qd. fold pl1 in Qd.
  assert (M : mex t [] s1 (fupd PDet (qhead s (PCond c)) (fupd (PCond c) 0 (qhead s))) (fupd PDet (ql (PCond c)) (fupd (PCond c) [] ql)) pl1).
  { apply (mex_update t [] s (qhead s) ql pl); try done; [by apply mex_open|apply G|apply G|..].
    - intros c' E' _. rewrite fupd_ne by done. unfold fupd. by destruct (decide _).
    - intros u U0 U _ L. unfold mview_of, pl1. change (pend_of s1) with (pend_of s). change (depth s1 u) with (depth s u). cbn [mx_owner mx_signal mx_lock_count mx_conds s1 m_cqueue].
      destruct (decide (pl u = PCond c)) as [E|E]; [|done]. destruct (mlocal_queued _ _ L) as (V1 & V2 & V3); [cbn; congruence|].
      cbn in V1, V2, V3. rewrite V1, V2, V3. change (depth s u) with (v_dep (mview_of s pl u)). apply mlocal_move; auto; cbn; try congruence.
      rewrite <- (mi_again _ _ _ I). by apply An, Ic. }
  assert (Plt : pl1 t = PNone) by (destruct Qt as (Pl & _); cbn in Pl; unfold pl1; rewrite Pl; done).
  assert (Ps : forall u, (0 =? u) = (pend_of s =? u)) by (intros u; by rewrite Pn).
  exists (mgo t (CaLoop c (csq s c) 0) (m_host (Some t) s1)), (fupd PDet (ql (PCond c)) (fupd (PCond c) [] ql)), pl1. split; [done|].
  split; [|split; [apply mpc_here|split; [apply fupd_eq|split; [done|split; [|done]]]]].
  2: { change (csq (m_cqueue c 0 (mx_cpus s) s) c = 0). by rewrite csq_cqueue, decide_True. }
  apply (mex_close t [] s1 _ _ _ (CaLoop c (csq s c) 0) (Some t) M T0 Ta); try done.
  - intros p Hp. destruct p as [| |c'|]; try done.
    + change (csq s1 c' = fupd (PCond c) 0 (qhead s) (PCond c')). apply csq_fupd.
    + cbn. unfold detached. cbn [mx_host mgo m_host]. by rewrite mpc_here, fupd_eq.
  - by right.
  - change (mx_exists s1) with (mx_exists s). rewrite (idm_exists s ql pl t I); [done|by rewrite P].
  - intros u U0 U L. specialize (L ltac:(by apply not_elem_of_nil)). unfold mview_of in *.
    replace (pend_of (mgo t (CaLoop c (csq s c) 0) (m_host (Some t) s1)) =? u) with (pend_of s =? u); [exact L|].
    rewrite <- Ps. f_equal. unfold pend_of. cbn [mx_host mgo m_host]. by rewrite mpc_here.
  - unfold mview_of. rewrite Plt. destruct Qt as (_ & Pe & De). mcheck. split; [|by apply bool_decide_eq_false_2].
    split_and!; try done. unfold pend_of. cbn [mx_host mgo m_host]. rewrite mpc_here. by apply Z.eqb_neq.
Qed.

Lemma cs_all_inv s' : mx_host s = None -> cs_all t c s = Some s' -> mgood s'.
Proof.
  intros H. destruct (existsb (is_again (mx_cpus s)) (ql (PCond c))) eqn:Ex.
  - destruct (cond_queue s ql pl I c) as [Qc _]. unfold cs_all. rewrite (walk_spec _ _ _ Qc). cbn [mbind option_bind]. rewrite Ex.
    intros [= <-]. exists ql, pl. apply cs_stop.
  - destruct (cs_all_detach H Ex) as (s1 & ql1 & pl1 & E & I1 & _). rewrite E. intros [= <-]. by exists ql1, pl1.
Qed.
End signal.

(** *** The loop of sys_cond_signal_all *)

Lemma mlocal_wake p v : mlocal p v -> v_pend v = true ->
  v_own v = true /\ v_place v = PNone /\ v_lk v = 0 /\ mlocal p (MView (v_conds v) PNone true true false 0 (v_dep v)).
Proof.
  destruct v as [cs q o g pe lk d]; destruct p; cbn; unfold wait_view, quiet, granted, queued; cbn; intros L ->; try naive_solver.
Qed.

Section loop.
Context (s : lmutex) (ql : place -> list Z) (pl : Z -> place) (t : Z).
Context (I : minv s ql pl) (T0 : t <> 0) (Ta : is_Some (mx_cpus s !! t)).
Context (c f result : Z) (P : mpc s t = CaLoop c f result).

Lemma loop_facts :
  mx_host s = Some t /\ pend_of s = result /\ qhead s PDet = f /\ quiet (mview_of s pl t) /\ (t ∉ mx_signal s) /\
  result <> t /\ mx_exists s = true /\ is_again (mx_cpus s) t = false /\ (result <> 0 -> mx_owner s = result).
Proof.
  assert (H : mx_host s = Some t) by (apply (mi_host _ _ _ I); by rewrite P).
  assert (Pe : pend_of s = result) by (unfold pend_of; by rewrite H, P).
  pose proof (mi_local _ _ _ I t T0) as L. rewrite P in L. destruct L as [Q Sg].
  assert (Rt : result <> t) by (destruct Q as (_ & E & _); cbn in E; rewrite Pe in E; by apply Z.eqb_neq in E).
  split_and!; try done.
  - cbn. unfold detached. by rewrite H, P.
  - by apply bool_decide_eq_false in Sg.
  - eapply idm_exists; [done|by rewrite P].
  - eapply not_again; [done|]. by rewrite P.
  - intros R0. destruct (mlocal_wake _ _ (mi_local _ _ _ I result R0)) as (Ow & _); [cbn; rewrite Pe; apply Z.eqb_refl|].
    by apply Z.eqb_eq in Ow.
Qed.

(** The last turn: the thread that got the mutex is woken. *)
Lemma ca_end : detached s = 0 -> minv (mret t KOther CELL_OK (m_host None (m_awake result s))) ql pl.
Proof.
  intros D0. pose proof (mex_open t s ql pl I) as M. destruct loop_facts as (H & Pe & Qf & Qt & Sg & Rt & Ex & Na & Ro). unfold mret.
  assert (P0 : forall x, pend_of (mgo t (MReturned KOther CELL_OK) (m_host None x)) = 0) by done.
  set (X := if decide (result = 0) then [] else [result]).
  assert (M1 : mex t X (m_awake result s) (qhead s) ql pl).
  { unfold m_awake, X. destruct (Z.eqb_spec result 0); [by rewrite decide_True|rewrite decide_False by done].
    apply mex_awake; [|right; set_solver]. apply (mex_update t [] s (qhead s) ql pl); try done; try apply M; [set_solver|..];
      apply (me_global _ _ _ _ _ _ M). }
  assert (Sa : forall u, u <> 0 -> u <> result -> u ∈ mx_signal (m_awake result s) <-> u ∈ mx_signal s).
  { intros u U0 U. unfold m_awake. destruct (Z.eqb_spec result 0); [done|]. cbn. set_solver. }
  assert (Ra : mx_owner (m_awake result s) = mx_owner s /\ mx_lock_count (m_awake result s) = mx_lock_count s /\
    mx_conds (m_awake result s) = mx_conds s /\ mx_depth (m_awake result s) = mx_depth s /\ mx_cpus (m_awake result s) = mx_cpus s /\
    mx_points (m_awake result s) = mx_points s /\ mx_exists (m_awake result s) = mx_exists s /\ mx_sq (m_awake result s) = mx_sq s /\ mx_csq (m_awake result s) = mx_csq s).
  { unfold m_awake. by destruct (result =? 0). }
  destruct Ra as (R1 & R2 & R3 & R4 & R5 & R6 & R7 & R8 & R9).
  assert (Pc : forall u, mpc (m_awake result s) u = mpc s u) by (intros u; unfold mpc; by rewrite R6).
  assert (Vi : forall u, u <> 0 -> u <> result ->
    mview_of (mgo t (MReturned KOther CELL_OK) (m_host None (m_awake result s))) pl u = mview_of s pl u).
  { intros u U0 U. unfold mview_of. rewrite P0, Pe. cbn [mx_owner mx_signal mx_lock_count mx_conds mgo m_host].
    change (depth (mgo t _ (m_host None (m_awake result s))) u) with (depth (m_awake result s) u). unfold depth. rewrite R1, R2, R3, R4.
    destruct (Z.eqb_spec 0 u); [congruence|]. destruct (Z.eqb_spec result u); [congruence|]. f_equal. apply bool_decide_ext. by apply Sa. }
  apply (mex_close t X (m_awake result s) (qhead s)); try done; rewrite ?Pc, ?P, ?R5; try done.
  - intros p Hp. destruct p as [| |c'|]; try done; cbn; unfold csq; cbn; by rewrite ?R8, ?R9, ?D0.
  - intros u U0 U L. rewrite Pc in *. destruct (decide (u = result)) as [->|Nr].
    + destruct (mlocal_wake _ _ (mi_local _ _ _ I result U0)) as (Ow & Pl & Lk & Lo); [cbn; rewrite Pe; apply Z.eqb_refl|].
      replace (mview_of _ pl result) with (MView (mx_conds s) PNone true true false 0 (depth s result)); [done|].
      unfold mview_of. rewrite P0. cbn [mx_owner mx_signal mx_lock_count mx_conds mgo m_host].
      change (depth (mgo t _ (m_host None (m_awake result s))) result) with (depth (m_awake result s) result). unfold depth. rewrite R1, R2, R3, R4.
      cbn in Ow, Pl, Lk. rewrite Ow in *. rewrite Pl, Lk. f_equal; [|by symmetry; apply Z.eqb_neq].
      symmetry. apply bool_decide_eq_true_2. unfold m_awake. destruct (Z.eqb_spec result 0); [done|]. cbn. set_solver.
    + rewrite Vi by done. by apply (mi_local _ _ _ I).
  - rewrite Vi by done. split; [apply Qt|done].
Qed.

(** The next turn, after [try_own] on the thread [u]. *)
Lemma ca_turn X s1 qh ql1 pl1 f' r :
  mex t X s1 qh ql1 pl1 -> mkeep t s s1 -> mx_sq s1 = qh PMutex -> (forall c', csq s1 c' = qh (PCond c')) -> qh PDet = f' ->
  (forall w, is_again (mx_cpus s1) w = is_again (mx_cpus s) w) ->
  (forall w, w <> 0 -> w <> t -> (w ∉ X -> mlocal (mpc s w) (mview_of s1 pl1 w)) ->
     mlocal (mpc s w) (mview_of (mgo t (CaLoop c f' r) s1) pl1 w)) ->
  quiet (mview_of (mgo t (CaLoop c f' r) s1) pl1 t) -> t ∉ mx_signal s1 ->
  minv (mgo t (CaLoop c f' r) s1) ql1 pl1.
Proof.
  intros M K E1 E2 E3 Ag Lo Qt Sg. destruct loop_facts as (H & _ & _ & _ & _ & _ & Ex & Na & _).
  assert (Hh : mx_host s1 = Some t) by (by rewrite (mk_host _ _ _ K)).
  assert (Es : m_host (Some t) s1 = s1) by (rewrite <- Hh; apply m_host_id). rewrite <- Es at 1.
  apply (mex_close t X s1 qh); rewrite ?Es; try done.
  - by apply (mk_dom _ _ _ K).
  - by rewrite Ag.
  - intros p Hp. destruct p as [| |c'|]; try done; [apply E2|]. cbn. unfold detached. cbn [mx_host mgo]. by rewrite Hh, mpc_here.
  - left. by rewrite (mpc_keep _ _ _ _ K), P.
  - by rewrite (mk_exists _ _ _ K), Ex.
  - intros u U0 U. rewrite (mpc_keep _ _ _ _ K). by apply Lo.
  - split; [done|]. cbn. by apply bool_decide_eq_false_2.
Qed.

Lemma pend_turn s1 f' r : mkeep t s s1 -> pend_of (mgo t (CaLoop c f' r) s1) = r.
Proof.
  intros K. destruct loop_facts as (H & _). unfold pend_of. cbn [mx_host mgo]. by rewrite (mk_host _ _ _ K), H, mpc_here.
Qed.

Lemma view_turn s1 f' r pl1 u : mkeep t s s1 -> mview_of (mgo t (CaLoop c f' r) s1) pl1 u =
  let v := mview_of s1 pl1 u in MView (v_conds v) (v_place v) (v_own v) (v_sig v) (r =? u) (v_lk v) (v_dep v).
Proof. intros K. unfold mview_of. by rewrite (pend_turn _ _ _ K). Qed.

Lemma ca_loop_spec :
  exists s' ql' pl', ca_loop t c f result s = Some s' /\ minv s' ql' pl' /\ mx_csq s' = mx_csq s /\
    let u := pick SYS_SYNC_PRIORITY (mx_cpus s) (ql PDet) in
    if decide (ql PDet = []) then
      ql' = ql /\ mpc s' t = MReturned KOther CELL_OK /\ mx_host s' = None /\ mx_owner s' = mx_owner s /\
      (result <> 0 -> result ∈ mx_signal s')
    else
      ql' PDet = qremove u (ql PDet) /\ u <> 0 /\
      (forall w, w <> u -> prio_of (mx_cpus s') w = prio_of (mx_cpus s) w) /\
      exists f', if mx_owner s =? 0
        then mpc s' t = CaLoop c f' u /\ mx_owner s' = u /\ ql' PMutex = ql PMutex
        else mpc s' t = CaLoop c f' result /\ mx_owner s' = mx_owner s /\ ql' PMutex = u :: ql PMutex.
Proof.
  destruct loop_facts as (H & Pe & Qf & Qt & Sg & Rt & Ex & Na & Ro). destruct (mi_queues _ _ _ I PDet ltac:(done)) as [Qd Id]. rewrite Qf in Qd.
  unfold ca_loop. destruct (schedule_spec SYS_SYNC_PRIORITY true _ _ _ Qd) as (f' & h & E & Sc & F & Q'). rewrite E. cbn [mbind option_bind].
  set (u := pick _ _ _) in *. destruct (Z.eqb_spec u 0) as [U0|U0].
  { assert (El : ql PDet = []).
    { destruct (decide (ql PDet = [])) as [|Nl]; [done|]. by destruct (queue_in _ _ _ u Qd (pick_in _ _ _ Nl)). }
    assert (h = mx_cpus s) as ->.
    { apply map_eq. intros w. apply F. rewrite El. by apply not_elem_of_nil. }
    replace (m_cpus (mx_cpus s) s) with s by (by destruct s). eexists _, ql, pl. split; [done|]. split; [|split].
    - apply ca_end. change (qhead s PDet = 0). rewrite Qf. by apply (queue_nil _ _ _ Qd).
    - unfold m_awake. by destruct (result =? 0).
    - rewrite decide_True by done. unfold m_awake. split_and!; try done; [apply mpc_here|by destruct (result =? 0)|].
      intros R0. destruct (Z.eqb_spec result 0); [done|]. cbn. set_solver. }
  assert (Hu : u ∈ ql PDet) by (unfold u; apply pick_in; intros El; unfold u in U0; by rewrite El in U0).
  assert (Nl : ql PDet <> []) by (intros El; rewrite El in Hu; by apply elem_of_nil in Hu).
  destruct (queue_in _ _ _ u Qd Hu) as [_ Ua]. apply Id in Hu as Pu. pose proof (mi_local _ _ _ I u U0) as Lu.
  destruct (mlocal_queued _ _ Lu) as (V1 & V2 & V3); [cbn; congruence|].
  assert (Su : mstopped (mpc s u) = false) by (destruct (mpc s u); try done; by destruct Lu as (_ & _ & Lu & _)).
  assert (Au : is_again (mx_cpus s) u = false) by (by rewrite (mi_again _ _ _ I)). rewrite Au in Q'.
  assert (Ut : u <> t) by (destruct Qt as (Pl & _); cbn in Pl; congruence).
  assert (K : mkeep t s (m_cpus h s)) by (destruct (same_cpus_keep t s (m_cpus h s) Sc); by split).
  pose proof (mex_remove t [] s _ ql pl PDet u f' h (m_cpus h s) (mex_open t s ql pl I) ltac:(done) Pu Q' F eq_refl K ltac:(done)) as M.
  set (s1 := m_cpus h s) in *. assert (Pu1 : fupd u PNone pl u = PNone) by apply fupd_eq.
  set (ql1 := fupd PDet _ ql) in *. set (pl1 := fupd u PNone pl) in *.
  assert (Ag1 : forall w, is_again (mx_cpus s1) w = is_again (mx_cpus s) w) by (intros; by apply same_cpus_again).
  assert (Ru : result <> u) by (cbn in V3; rewrite Pe in V3; by apply Z.eqb_neq).
  assert (Pr : forall w, w <> u -> prio_of (mx_cpus (snd (try_own u s1))) w = prio_of (mx_cpus s) w).
  { intros w Wu. rewrite <- (same_cpus_prio _ _ w Sc). unfold try_own, prio_of. destruct (_ =? 0); cbn; by rewrite lookup_alter_ne. }
  change (mx_owner s) with (mx_owner s1). destruct (decide (ql PDet = [])) as [|_]; [done|].
  destruct (decide (mx_owner s1 = 0)) as [O|O].
  - destruct (mex_take t [u] s1 _ _ _ u M) as (s2 & Et & M2 & K2 & O2 & Ct2 & Dp2 & Sg2 & Sq2 & Cs2 & Ag2 & Vi); try done; [right; set_solver|]. rewrite Et in Pr |- *. rewrite O.
    assert (R0 : result = 0) by (destruct (decide (result = 0)) as [|N]; [done|]; specialize (Ro N); cbn in O; congruence).
    rewrite R0. cbn [Z.eqb m_ensure]. pose proof (mkeep_trans _ _ _ _ K K2) as K'.
    eexists _, ql1, pl1. split; [done|]. split; [|split_and!; try done; exists f'; split_and!; [apply mpc_here|done..]].
    apply (ca_turn [u] s2 _ _ _ f' u M2 K'); try done.
    + intros c'. unfold csq. by rewrite Cs2.
    + intros w. by rewrite Ag2.
    + intros w W0 Wt L. rewrite view_turn by done. destruct (decide (w = u)) as [->|Wu].
      * rewrite Vi, Z.eqb_refl. cbn in V2 |- *. rewrite V2. exact (mlocal_pend _ _ (mx_conds s) Lu Pu).
      * destruct (Z.eqb_spec u w); [congruence|]. specialize (L ltac:(set_solver)). unfold mview_of in L |- *. cbn.
        rewrite (pend_keep _ _ _ K'), Pe, R0 in L. destruct (Z.eqb_spec 0 w); [congruence|]. exact L.
    + rewrite view_turn by done. destruct Qt as (Pl & Pet & De). cbn in Pl, Pet, De. mcheck. unfold pl1. rewrite fupd_ne by done.
      destruct (Z.eqb_spec u t); [congruence|]. unfold depth in *. rewrite Dp2, O2. destruct (Z.eqb_spec u t); [congruence|].
      change (mx_depth s1) with (mx_depth s). rewrite De. cbn in O. rewrite O. destruct (Z.eqb_spec 0 t); [congruence|]. done.
    + by rewrite Sg2.
  - destruct (mex_push t [u] s1 _ _ _ u M) as (s2 & Et & M2 & K2 & R2 & Sq2 & Cs2 & Ag2 & Vi); try done; [right; set_solver|by apply (mk_dom _ _ _ K)|].
    rewrite Et in Pr |- *. destruct (Z.eqb_spec (mx_owner s1) 0); [done|].
    pose proof (mkeep_trans _ _ _ _ K K2) as K'.
    eexists _, (fupd PMutex (u :: ql1 PMutex) ql1), (fupd u PMutex pl1). split; [done|].
    split; [|split_and!; try done; exists f'; split_and!; [apply mpc_here|by rewrite <- (mr_owner _ _ R2)|done]].
    apply (ca_turn [u] s2 _ _ _ f' result M2 K'); try done.
    + intros c'. unfold csq. by rewrite Cs2.
    + intros w. by rewrite Ag2.
    + intros w W0 Wt L. rewrite view_turn by done. destruct (decide (w = u)) as [->|Wu].
      * rewrite Vi. destruct (Z.eqb_spec result u); [congruence|]. cbn in V1, V2 |- *. rewrite V1, V2.
        apply (mlocal_move _ _ (mx_conds s) PMutex Lu); auto; cbn; congruence.
      * specialize (L ltac:(set_solver)). unfold mview_of in L |- *. cbn. by rewrite (pend_keep _ _ _ K'), Pe in L.
    + rewrite view_turn by done. destruct Qt as (Pl & Pet & De). destruct R2 as [Q1 Q2 Q3 Q4]. cbn in Pl, Pet, De. mcheck. unfold pl1. rewrite !fupd_ne by done.
      unfold depth in *. rewrite Q4, Q1, Q2. rewrite Pe in Pet. done.
    + rewrite (mr_signal _ _ R2). done.
Qed.

Lemma ca_loop_inv s' : ca_loop t c f result s = Some s' -> mgood s'.
Proof. destruct ca_loop_spec as (s1 & ql' & pl' & E & I' & _). rewrite E. intros [= <-]. by exists ql', pl'. Qed.
End loop.

(** *** Creating and destroying objects *)

Lemma idm_free_spec s u : idm_free s = true -> m_idm (mpc s u) = false.
Proof.
  intros F. unfold mpc, at_point. destruct (mx_points s !! u) as [p|] eqn:E; [|done]. cbn. unfold idm_free in F.
  rewrite forallb_forall in F. specialize (F (u, p)). cbn in F. apply negb_true_iff, F.
  apply list_elem_of_In. by apply elem_of_map_to_list.
Qed.

Lemma mlocal_conds p v cs : m_idm p = false -> mlocal p v ->
  mlocal p (MView cs (v_place v) (v_own v) (v_sig v) (v_pend v) (v_lk v) (v_dep v)).
Proof. by destruct p, v. Qed.

Section objects.
Context (s : lmutex) (ql : place -> list Z) (pl : Z -> place) (t : Z).
Context (I : minv s ql pl) (T0 : t <> 0) (Ta : is_Some (mx_cpus s !! t)).
Context (P : mpc s t = MIdle) (Fr : idm_free s = true).

Lemma minv_conds s1 r :
  mx_cpus s1 = mx_cpus s -> mx_sq s1 = mx_sq s -> mx_host s1 = mx_host s -> mx_points s1 = mx_points s -> mx_owner s1 = mx_owner s ->
  mx_lock_count s1 = mx_lock_count s -> mx_signal s1 = mx_signal s -> mx_depth s1 = mx_depth s -> mx_failed s1 = mx_failed s ->
  (forall c, csq s1 c = csq s c) -> (forall c, c ∈ mx_conds s1 -> is_Some (mx_csq s1 !! c)) ->
  mx_cond_count s1 = Z.of_nat (size (mx_conds s1)) -> mx_cond_count s1 <= id_count -> (forall c, c ∉ mx_conds s1 -> ql (PCond c) = []) ->
  (mx_exists s1 = false -> mx_owner s = 0 /\ mx_conds s1 = ∅) -> minv (mret t KOther r s1) ql pl.
Proof.
  intros E1 E2 E3 E4 E5 E6 E7 E8 E9 Ec Ek N1 N2 El Ex. set (s' := mret t KOther r s1). pose proof (mi_global _ _ _ I) as G.
  assert (Pu : forall u, u <> t -> mpc s' u = mpc s u) by (intros u U; unfold mpc; cbn; rewrite E4; by apply (mpc_there t _ s)).
  assert (Pt : mpc s' t = MReturned KOther r) by apply mpc_here.
  assert (Nh : forall u, mx_host s = Some u -> mpc s' u = mpc s u).
  { intros u H. apply Pu. intros ->. apply (mi_host _ _ _ I) in H. by rewrite P in H. }
  destruct (pend_same s s' E3 Nh) as [Pe Dt].
  assert (Vi : forall u, mview_of s' pl u =
    let v := mview_of s pl u in MView (mx_conds s1) (v_place v) (v_own v) (v_sig v) (v_pend v) (v_lk v) (v_dep v)).
  { intros u. unfold mview_of. rewrite Pe. cbn. unfold depth. cbn. by rewrite E5, E6, E7, E8. }
  apply (minv_step s ql pl t); try done; rewrite ?Pt, ?P; try done.
  - cbn. rewrite E1. eapply queues_heads; [apply I|]. intros [| |c|] Hp; first [exact E2|apply Ec|exact Dt|done].
  - split; cbn; rewrite ?E1, ?E5, ?E6, ?E9; try apply G; try done.
  - intros u U0 U L. rewrite Vi. apply mlocal_conds; [by apply idm_free_spec|done].
  - rewrite Vi. pose proof (mi_local _ _ _ I t T0) as L. rewrite P in L. destruct L as [Q _]. split; [apply Q|done].
  - intros u. cbn. by rewrite E1.
  - intros u. cbn. rewrite E1. destruct (decide (u = t)) as [->|]; [|done]. rewrite (mi_again _ _ _ I). by rewrite P.
  - intros E. destruct (Ex E) as [A B]. split_and!; [cbn; by rewrite E5|done|]. intros u.
    destruct (decide (u = t)) as [->|N]; [by rewrite Pt|]. rewrite Pu by done. by apply idm_free_spec.
Qed.

Lemma minv_ret k r : k = KOther -> minv (mret t k r s) ql pl.
Proof.
  intros ->. pose proof (mi_local _ _ _ I t T0) as L. rewrite P in L. destruct L as [Q _]. apply minv_go; rewrite ?P; try done.
Qed.

Lemma m_destroy_inv : minv (m_destroy t s) ql pl.
Proof.
  pose proof (mi_global _ _ _ I) as G. destruct (mg_conds _ _ G) as [N1 N2]. unfold m_destroy. destruct (mx_exists s); [|by apply minv_ret].
  destruct (Z.eqb_spec (mx_owner s) 0) as [O|]; cbn [negb]; [|by apply minv_ret].
  destruct (Z.eqb_spec (mx_cond_count s) 0) as [C|]; cbn [negb]; [|by apply minv_ret].
  apply minv_conds; try done; try apply G. intros _. split; [done|]. cbn.
  apply leibniz_equiv, size_empty_inv. lia.
Qed.

Lemma c_create_inv c full : mx_csq s !! c = None -> minv (c_create t c full s) ql pl.
Proof.
  intros Hc. pose proof (mi_global _ _ _ I) as G. destruct (mg_conds _ _ G) as [N1 N2]. unfold c_create, on_id_create.
  destruct (mx_exists s) eqn:Ex; [|by apply minv_ret]. destruct full; cbn [orb]; [by apply minv_ret|].
  destruct (Z.leb_spec id_count (Z.of_nat (size (mx_conds s)))); [by apply minv_ret|].
  assert (Nc : c ∉ mx_conds s) by (intros H1; apply (mg_known _ _ G) in H1; rewrite Hc in H1; by destruct H1).
  assert (Eu : u32 (mx_cond_count s + 1) = mx_cond_count s + 1) by (apply uint_small; unfold in_uint, id_count in *; lia).
  rewrite Eu. apply minv_conds; try done; cbn.
  - intros c'. change (csq (m_cqueue c 0 (mx_cpus s) s) c' = csq s c'). rewrite csq_cqueue. destruct (decide (c' = c)) as [->|]; [|done].
    unfold csq. by rewrite Hc.
  - intros c' H'. destruct (decide (c' = c)) as [->|]; [by rewrite lookup_insert_eq|]. rewrite lookup_insert_ne by done.
    apply (mg_known _ _ G). set_solver.
  - rewrite size_union, size_singleton by set_solver. lia.
  - lia.
  - intros c' N. apply (mg_cond _ _ G). set_solver.
Qed.

Lemma c_destroy_inv c : minv (c_destroy t c s) ql pl.
Proof.
  pose proof (mi_global _ _ _ I) as G. destruct (mg_conds _ _ G) as [N1 N2]. unfold c_destroy.
  destruct (bool_decide_reflect (c ∈ mx_conds s)) as [Hc|]; [|by apply minv_ret].
  destruct (Z.eqb_spec (csq s c) 0) as [E|]; cbn [negb]; [|by apply minv_ret].
  destruct (cond_queue s ql pl I c) as [Qc _]. assert (Sz : size (mx_conds s) = S (size (mx_conds s ∖ {[c]}))).
  { rewrite (union_difference_singleton_L c (mx_conds s)) at 1 by done. rewrite size_union, size_singleton by set_solver. done. }
  assert (Eu : u32 (mx_cond_count s - 1) = mx_cond_count s - 1) by (apply uint_small; unfold in_uint, id_count in *; lia).
  rewrite Eu. apply minv_conds; try done; cbn.
  - intros c' H'. apply (mg_known _ _ G). set_solver.
  - lia.
  - lia.
  - intros c' N. destruct (decide (c' = c)) as [->|]; [by apply (queue_nil _ _ _ Qc)|]. apply (mg_cond _ _ G). set_solver.
  - intros Ex. destruct (mi_destroyed _ _ _ I Ex) as (O & E' & _). rewrite E' in Hc. by apply not_elem_of_empty in Hc.
Qed.
End objects.

Lemma minv_tick s ql pl x : minv s ql pl -> minv (m_tag x s) ql pl.
Proof. intros I. split; try apply I. split; apply I. Qed.

(** ** All steps *)

Lemma run_mgood s ql pl t s' : minv s ql pl -> m_run t s = Some s' -> mgood s'.
Proof.
  intros I E. assert (Al : mpc s t <> MIdle) by (intros P; unfold m_run in E; by rewrite P in E).
  destruct (mi_alive _ _ _ I t Al) as [T0 Ta]. unfold m_run in E.
  assert (G : forall x, minv x ql pl -> mgood x) by (intros x Hx; by exists ql, pl).
  destruct (mpc s t) eqn:P; try done; try (destruct (mx_host s) eqn:H; [done|]); try (injection E as <-).
  - apply G, ml_load_inv; eauto. eapply idm_exists; [done|by rewrite P].
  - by apply G, ml_cas_inv.
  - by apply G, ml_busy_inv.
  - by eapply ml_own_inv.
  - by eapply G, ml_signal_inv.
  - by apply G, ml_expired_inv.
  - by apply G, ml_wait_inv.
  - by eapply ml_lock_inv.
  - by apply G, mt_cas_inv.
  - by apply G, mu_cas_inv.
  - by eapply mu_lock_inv.
  - by eapply cw_lock_inv.
  - by eapply G, cw_signal_inv.
  - by eapply cw_expired_inv.
  - by eapply G, cw_end_inv.
  - by apply G, cs_load_inv.
  - destruct k; [by eapply cs_one_inv|by eapply cs_all_inv|by eapply cs_to_inv].
  - by eapply G, cs_wait_inv.
  - by eapply ca_loop_inv.
Qed.

Lemma move_mgood a s s' : mgood s -> move a s = Some s' -> mgood s'.
Proof.
  intros (ql & pl & I). assert (G : forall x, minv x ql pl -> mgood x) by (intros x Hx; by exists ql, pl).
  assert (Ca : forall t r, (if m_can_call t s then Some r else None) = Some s' -> r = s' /\ t <> 0 /\ is_Some (mx_cpus s !! t) /\ mpc s t = MIdle).
  { intros t r. unfold m_can_call. destruct (mx_cpus s !! t) as [c|] eqn:Et; [|done]. destruct (mpc s t); try done.
    destruct (again c); [done|]. destruct (Z.eqb_spec t 0); [done|]. intros [= <-]. eauto. }
  assert (Aa : forall t r, (if m_can_call t s && idm_free s then Some r else None) = Some s' ->
    r = s' /\ t <> 0 /\ is_Some (mx_cpus s !! t) /\ mpc s t = MIdle /\ idm_free s = true).
  { intros t r. destruct (idm_free s); rewrite ?andb_true_r, ?andb_false_r; [|done]. intros H%Ca. naive_solver. }
  assert (In : forall t p, mpc s t = p -> p <> MIdle -> t <> 0 /\ is_Some (mx_cpus s !! t)) by (intros t p <-; apply I).
  destruct a; cbn [move lmutex_machine].
  - destruct (bool_decide _); [|done]. intros (<- & T0 & Ta & P)%Ca. by apply G, ml_call_inv.
  - intros (<- & T0 & Ta & P)%Ca. by apply G, mt_call_inv.
  - intros (<- & T0 & Ta & P)%Ca. by apply G, mu_call_inv.
  - destruct (mx_host s); [done|]. intros (<- & T0 & Ta & P & F)%Aa. by apply G, m_destroy_inv.
  - destruct (mx_csq s !! c) eqn:Hc; [done|]. intros (<- & T0 & Ta & P & F)%Aa. by apply G, c_create_inv.
  - destruct (mx_host s); [done|]. intros (<- & T0 & Ta & P & F)%Aa. by apply G, c_destroy_inv.
  - intros (<- & T0 & Ta & P)%Ca. by apply G, cw_call_inv.
  - intros (<- & T0 & Ta & P)%Ca. pose proof (mi_local _ _ _ I t T0) as L. rewrite P in L. by apply G, minv_go; rewrite ?P.
  - intros E. by eapply run_mgood.
  - destruct (mpc s t) eqn:P; try done. intros [= <-]. destruct (In _ _ P) as [T0 Ta]; [done|]. pose proof (mi_local _ _ _ I t T0) as L. rewrite P in L.
    apply G, minv_go; rewrite ?P; try done. rewrite (idm_exists s ql pl t I); [done|by rewrite P].
  - destruct (mpc s t) as [| | | | |[]| | | | | | | |? []| | | | | | | |] eqn:P; try done; intros [= <-]; destruct (In _ _ P) as [T0 Ta]; try done;
      pose proof (mi_local _ _ _ I t T0) as L; rewrite P in L; apply G, minv_go; rewrite ?P; done.
  - destruct (mpc s t) eqn:P; try done.
    + destruct (mx_host s); [done|]. intros E. destruct (In _ _ P) as [T0 Ta]; [done|]. by eapply ml_stop_inv.
    + destruct (mx_host s) eqn:H; [done|]. intros E. destruct (In _ _ P) as [T0 Ta]; [done|]. by eapply cw_stop_inv.
    + intros [= <-]. destruct (In _ _ P) as [T0 Ta]; [done|]. pose proof (mi_local _ _ _ I t T0) as L. rewrite P in L. destruct L as ((Pl & Pe & _) & Sg).
      apply G, (mstop_inv t s (qhead s)); try done; [by apply mex_open|by rewrite P|]. split_and!; try done; [cbn in Pl |- *; congruence|by left].
  - destruct (mpc s t) eqn:P; try done; (destruct (mx_host s); [done|]); intros [= <-]; destruct (In _ _ P) as [T0 Ta]; try done;
      pose proof (mi_local _ _ _ I t T0) as L; rewrite P in L; by apply G, minv_go; rewrite ?P.
  - destruct (mpc s t) eqn:P; try done. intros [= <-]. destruct (In _ _ P) as [T0 Ta]; [done|]. by eapply G, m_return_inv.
  - intros [= <-]. by apply G, minv_tick.
Qed.

Lemma m_initial_good s : m_initial s -> mgood s.
Proof.
  intros (E1 & E2 & E3 & E4 & E5 & E6 & E7 & E8 & E9 & E10 & E11 & E12 & E13 & E14).
  assert (Pc : forall t, mpc s t = MIdle) by (intros t; unfold mpc, at_point; by rewrite E9, lookup_empty).
  assert (Cs : forall c, csq s c = 0) by (intros c; unfold csq; by rewrite E8, lookup_empty).
  exists (fun _ => []), (fun _ => PNone). split.
  - intros p Hp. split; [split; [|constructor]|].
    + destruct p; cbn; try done. unfold detached. by rewrite E2.
    + intros t. split; [by intros ?%elem_of_nil|congruence].
  - split; rewrite ?E3, ?E4, ?E5, ?E7; try done.
  - intros t T0. rewrite Pc. mcheck. unfold pend_of, depth. rewrite E2, E4, E5, E10, E11, lookup_empty.
    rewrite (proj2 (Z.eqb_neq 0 t)) by congruence. split_and!; try done.
  - intros t. by rewrite Pc, E2.
  - intros t. by rewrite Pc.
  - intros t. by rewrite Pc, E14.
  - by rewrite E1.
Qed.

Lemma m_reachable_good s : reachable m_initial s -> mgood s.
Proof. apply reachable_ind_inv; [apply m_initial_good|]. intros a s1 s2. apply move_mgood. Qed.

(** ** The order of sys_cond_signal_all *)

Lemma best_of_ext_in h h' l x :
  (forall t, t ∈ x :: l -> prio_of h' t = prio_of h t) -> best_of h' x l = best_of h x l.
Proof.
  revert x. induction l as [|u l IH]; intros x E; [done|]. unfold best_of in *. cbn. rewrite !E by set_solver. apply IH.
  intros t Ht. apply E. destruct (before _ _); set_solver.
Qed.

Lemma pick_ext_in protocol h h' l : (forall t, t ∈ l -> prio_of h' t = prio_of h t) -> pick protocol h' l = pick protocol h l.
Proof. intros E. destruct l as [|t l]; [done|]. cbn. destruct (protocol =? SYS_SYNC_FIFO); [done|]. by apply best_of_ext_in. Qed.

Lemma picks_ext_in n protocol h h' l :
  (forall t, t ∈ l -> prio_of h' t = prio_of h t) -> picks n protocol h' l = picks n protocol h l.
Proof.
  revert l. induction n as [|n IH]; intros l E; [done|]. cbn. rewrite (pick_ext_in protocol h h' l E). f_equal. apply IH.
  intros t [Ht _]%elem_of_qremove. auto.
Qed.

(** The rest of the loop: the detached waiters get or await the mutex in the
    order in which they are selected. *)
Lemma ca_run n s ql pl t c f result :
  minv s ql pl -> mpc s t = CaLoop c f result -> length (ql PDet) = n ->
  exists s' ql' pl', moves (replicate (S n) (MRun t)) s = Some s' /\ minv s' ql' pl' /\ mx_csq s' = mx_csq s /\
    mpc s' t = MReturned KOther CELL_OK /\ mx_host s' = None /\
    let ps := picks n SYS_SYNC_PRIORITY (mx_cpus s) (ql PDet) in
    if mx_owner s =? 0
    then mx_owner s' = hd 0 ps /\ ql' PMutex = reverse (tail ps) ++ ql PMutex /\ (hd 0 ps <> 0 -> hd 0 ps ∈ mx_signal s')
    else mx_owner s' = mx_owner s /\ ql' PMutex = reverse ps ++ ql PMutex /\ (result <> 0 -> result ∈ mx_signal s').
Proof.
  revert s ql pl f result. induction n as [|n IH]; intros s ql pl f result I P Ln;
    destruct (mi_alive _ _ _ I t) as [T0 Ta]; try (by rewrite P);
    destruct (ca_loop_spec s ql pl t I T0 Ta c f result P) as (s1 & ql1 & pl1 & E & I1 & Cs & C);
    (assert (Mv : move (MRun t) s = Some s1) by (cbn [move lmutex_machine]; unfold m_run; by rewrite P)).
  - destruct (decide (ql PDet = [])) as [_|N]; [|by destruct (ql PDet)]. destruct C as (-> & P1 & H1 & O1 & Sg). exists s1, ql, pl1.
    cbn [replicate moves]. rewrite Mv. cbn [mbind option_bind]. split_and!; try done. destruct (Z.eqb_spec (mx_owner s) 0) as [O|O]; cbn [picks hd tail]; (split; [congruence|done]).
  - destruct (decide (ql PDet = [])) as [N|N]; [by rewrite N in Ln|]. set (u := pick _ _ _) in *.
    destruct C as (Ed & U0 & Pr & f' & C). assert (Hu : u ∈ ql PDet) by (by apply pick_in).
    destruct (mi_queues _ _ _ I PDet ltac:(done)) as [Qd _]. pose proof (qremove_length u (ql PDet) (proj2 Qd) Hu) as Lr.
    assert (Ep : picks n SYS_SYNC_PRIORITY (mx_cpus s1) (ql1 PDet) = picks n SYS_SYNC_PRIORITY (mx_cpus s) (qremove u (ql PDet))).
    { rewrite Ed. apply picks_ext_in. intros w [_ Wu]%elem_of_qremove. auto. }
    cbn [picks]. fold u. destruct (Z.eqb_spec (mx_owner s) 0) as [O|O]; destruct C as (P1 & O1 & Em).
    + destruct (IH s1 ql1 pl1 f' u I1 P1) as (s' & ql' & pl' & Ms & I' & Cs' & P' & H' & C'); [rewrite Ed; lia|].
      exists s', ql', pl'. split; [|split; [done|split; [congruence|split; [done|split; [done|]]]]].
      * change (replicate (S (S n)) (MRun t)) with (MRun t :: replicate (S n) (MRun t)). cbn [moves]. rewrite Mv. exact Ms.
      * cbv zeta in C'. rewrite Ep, O1, Em in C'. destruct (Z.eqb_spec u 0); [done|]. cbn [hd tail]. naive_solver.
    + destruct (IH s1 ql1 pl1 f' result I1 P1) as (s' & ql' & pl' & Ms & I' & Cs' & P' & H' & C'); [rewrite Ed; lia|].
      exists s', ql', pl'. split; [|split; [done|split; [congruence|split; [done|split; [done|]]]]].
      * change (replicate (S (S n)) (MRun t)) with (MRun t :: replicate (S n) (MRun t)). cbn [moves]. rewrite Mv. exact Ms.
      * cbv zeta in C'. rewrite Ep, O1, Em in C'. destruct (Z.eqb_spec (mx_owner s) 0); [done|]. destruct C' as (A & B & D).
        split_and!; try done. rewrite B. by rewrite reverse_cons, <- app_assoc.
Qed.

(** ** Properties *)

(** C1. Who owns the mutex.  In every state that any interleaving of the calls
    on the mutex and its condition variables reaches, time-outs and stops
    included: a thread in guest code owns the mutex exactly when it has taken
    more locks than it gave back, and [lock_count] is the number of the locks
    it took beyond the first; so two threads never hold the mutex at once.  A
    lock or trylock that returns CELL_OK and every completed wait return with
    the mutex owned.  No [ensure] fails. *)
Theorem lmutex_ownership (s : lmutex) :
  reachable m_initial s ->
  mx_failed s = false /\
  (forall t, t <> 0 -> mpc s t = MIdle -> depth s t = if mx_owner s =? t then mx_lock_count s + 1 else 0) /\
  (forall t u, t <> 0 -> u <> 0 -> mpc s t = MIdle -> mpc s u = MIdle -> 0 < depth s t -> 0 < depth s u -> t = u) /\
  (forall t, mpc s t = MReturned KLock CELL_OK \/ mpc s t = MReturned KTrylock CELL_OK \/ (exists r, mpc s t = MReturned KWait r) ->
     mx_owner s = t /\ depth s t = mx_lock_count s + 1).
Proof.
  intros (ql & pl & I)%m_reachable_good.
  assert (D : forall t, t <> 0 -> mpc s t = MIdle -> depth s t = if mx_owner s =? t then mx_lock_count s + 1 else 0).
  { intros t T0 P. mview I t T0 P L. destruct L as ((_ & _ & De) & _). rewrite De. by destruct (mx_owner s =? t). }
  split_and!; [apply (mg_failed _ _ (mi_global _ _ _ I))|done|..].
  - intros t u T0 U0 Pt Pu. rewrite (D t T0 Pt), (D u U0 Pu).
    destruct (Z.eqb_spec (mx_owner s) t), (Z.eqb_spec (mx_owner s) u); try lia; congruence.
  - intros t P. assert (T0 : t <> 0) by (apply (mi_alive _ _ _ I); destruct P as [->|[->|[? ->]]]; done).
    pose proof (mi_local _ _ _ I t T0) as L.
    assert (O : v_own (mview_of s pl t) = true /\ quiet (mview_of s pl t)) by (destruct P as [P|[P|[r P]]]; rewrite P in L; destruct L as (Q & O & _); auto).
    destruct O as [O (_ & _ & De)]. cbn in O, De. rewrite O in De. by apply Z.eqb_eq in O.
Qed.

(** C13. No wakeup is lost.  While the host mutex is free, the queues of the mutex
    and of its condition variables are proper lists without a common thread.  A
    thread asleep in a lock call is in the queue of the mutex, or it owns the
    mutex and has been signalled; one asleep in a wait is in the queue of its
    condition variable, in that of the mutex, or owns the mutex and has been
    signalled.  Somebody owns the mutex whenever its queue is not empty. *)
Theorem lmutex_no_lost_wakeup (s : lmutex) :
  reachable m_initial s -> mx_host s = None ->
  exists lm lc, walk (mx_cpus s) (mx_sq s) = Some lm /\ (forall c, walk (mx_cpus s) (csq s c) = Some (lc c)) /\
    (forall t c, t ∈ lc c -> t ∉ lm) /\ (forall t c c', t ∈ lc c -> t ∈ lc c' -> c = c') /\
    (lm <> [] -> mx_owner s <> 0) /\
    (forall t to, mpc s t = MlSleep to -> t ∈ lm \/ (mx_owner s = t /\ t ∈ mx_signal s)) /\
    (forall t c to n r, mpc s t = CwSleep c to n r -> t ∈ lc c \/ t ∈ lm \/ (mx_owner s = t /\ t ∈ mx_signal s)).
Proof.
  intros (ql & pl & I)%m_reachable_good H. destruct (mutex_queue s ql pl I) as [Qm Im]. destruct (det_empty s ql pl I H) as [Nd Pn].
  pose proof (fun c => proj2 (cond_queue s ql pl I c)) as Ic.
  exists (ql PMutex), (fun c => ql (PCond c)). split_and!.
  - by apply walk_spec.
  - intros c. apply walk_spec, (cond_queue s ql pl I c).
  - intros t c. rewrite Ic, Im. congruence.
  - intros t c c'. rewrite !Ic. congruence.
  - intros N O. by destruct (mg_free _ _ (mi_global _ _ _ I) O).
  - intros t to P. destruct (mi_alive _ _ _ I t) as [T0 _]; [by rewrite P|]. mview I t T0 P L. rewrite Im.
    destruct L as (_ & _ & [(Pl & _)|((_ & O & _) & Sg)]); [by left|right]. apply Z.eqb_eq in O. by apply bool_decide_eq_true in Sg.
  - intros t c to n r P. destruct (mi_alive _ _ _ I t) as [T0 _]; [by rewrite P|]. mview I t T0 P L. rewrite Im, Ic.
    destruct L as ((_ & _ & [([Pl|[Pl|Pl]] & _)|((_ & O & _) & Sg)]) & _); auto; [by apply Nd in Pl|].
    do 2 right. apply Z.eqb_eq in O. split; [done|]. rewrite Pn, (proj2 (Z.eqb_neq 0 t)) in Sg by congruence. by apply bool_decide_eq_true in Sg.
Qed.

(** C21. What [sys_cond_signal_all] does.  Under the host mutex its loop ends
    after as many turns as there are waiters, and returns CELL_OK; the queue of
    the condition variable is empty and the waiters have moved to the mutex in
    the order of their priority.  If the mutex was free the first of them owns
    it and has been signalled; the others queue up behind, those of a better
    priority earlier. *)
Theorem cond_signal_all_order (s : lmutex) (t c : Z) (l lm : list Z) :
  reachable m_initial s -> mpc s t = CsLock SigAll c -> mx_host s = None ->
  walk (mx_cpus s) (csq s c) = Some l -> walk (mx_cpus s) (mx_sq s) = Some lm -> existsb (is_again (mx_cpus s)) l = false ->
  exists s', moves (replicate (S (S (length l))) (MRun t)) s = Some s' /\
    mpc s' t = MReturned KOther CELL_OK /\ mx_host s' = None /\ csq s' c = 0 /\
    let ps := picks (length l) SYS_SYNC_PRIORITY (mx_cpus s) l in
    if mx_owner s =? 0
    then mx_owner s' = hd 0 ps /\ walk (mx_cpus s') (mx_sq s') = Some (reverse (tail ps) ++ lm) /\
         (hd 0 ps <> 0 -> hd 0 ps ∈ mx_signal s')
    else mx_owner s' = mx_owner s /\ walk (mx_cpus s') (mx_sq s') = Some (reverse ps ++ lm).
Proof.
  intros R P H Wl Wm Ag. pose proof (m_reachable_good s R) as (ql & pl & I).
  destruct (mutex_queue s ql pl I) as [Qm _]. destruct (cond_queue s ql pl I c) as [Qc _].
  rewrite (walk_spec _ _ _ Qc) in Wl. injection Wl as <-. rewrite (walk_spec _ _ _ Qm) in Wm. injection Wm as <-.
  destruct (mi_alive _ _ _ I t) as [T0 Ta]; [by rewrite P|].
  destruct (cs_all_detach s ql pl t I T0 Ta SigAll c P H Ag) as (s1 & ql1 & pl1 & E & I1 & P1 & Ed & Em & Cs & Cp & O1).
  assert (Mv : move (MRun t) s = Some s1) by (cbn [move lmutex_machine]; unfold m_run; by rewrite P, H).
  destruct (ca_run (length (ql (PCond c))) s1 ql1 pl1 t c (csq s c) 0 I1 P1) as (s' & ql' & pl' & Ms & I' & Cs' & P' & H' & C'); [by rewrite Ed|].
  exists s'. split; [|split_and!; try done].
  - change (replicate (S (S (length (ql (PCond c))))) (MRun t)) with (MRun t :: replicate (S (length (ql (PCond c)))) (MRun t)).
    cbn [moves]. rewrite Mv. exact Ms.
  - unfold csq in *. by rewrite Cs'.
  - cbv zeta in C'. rewrite Ed, Em, Cp, O1 in C'. destruct (mutex_queue s' ql' pl' I') as [Qm' _]. rewrite (walk_spec _ _ _ Qm').
    destruct (mx_owner s =? 0); destruct C' as (A & -> & B); auto.
Qed.

(** ** Examples *)

(** Three threads and a condition variable.  Threads 16 and 48 lock the mutex
    and wait; thread 32 is about to signal them both. *)
Definition mx0 : lmutex :=
  LMutex SYS_SYNC_PRIORITY SYS_SYNC_RECURSIVE true None 0 0 0 0 ∅ ∅ three_threads 0 ∅ ∅ ∅ false.

Definition mx_waits : list maction :=
  [CCallCreate 32 1 false; MReturn 32; MCallLock 16 3 false; MRun 16; MReturn 16; CCallWait 16 1 false; MRun 16;
   MCallLock 48 3 false; MRun 48; MReturn 48; CCallWait 48 1 true; MRun 48].
Definition mx1 : lmutex := default mx0 (moves mx_waits mx0).
Definition mx2 : lmutex := default mx0 (moves [CCallSignal 32 SigAll 1; MRun 32] mx1).
(** Both have moved to the mutex, and the first is back from its wait. *)
Definition mx3 : lmutex := default mx0 (moves (replicate 4 (MRun 32) ++ [MRun 16; MRun 16]) mx2).

Lemma mx0_initial : m_initial mx0.
Proof. split_and!; try done. intros t. apply three_threads_again. Qed.

Lemma mx1_reachable : reachable m_initial mx1.
Proof.
  apply (moves_reachable _ mx_waits mx0); [apply reach_init, mx0_initial|]. vm_compute. reflexivity.
Qed.

Lemma mx2_reachable : reachable m_initial mx2.
Proof.
  apply (moves_reachable _ [CCallSignal 32 SigAll 1; MRun 32] mx1); [apply mx1_reachable|]. vm_compute. reflexivity.
Qed.

Lemma mx3_reachable : reachable m_initial mx3.
Proof.
  apply (moves_reachable _ (replicate 4 (MRun 32) ++ [MRun 16; MRun 16]) mx2); [apply mx2_reachable|]. vm_compute. reflexivity.
Qed.

(** The wait of thread 16 has returned with the mutex. *)
Lemma lmutex_ownership_witness : mpc mx3 16 = MReturned KWait CELL_OK /\ mx_owner mx3 = 16 /\ depth mx3 16 = mx_lock_count mx3 + 1.
Proof.
  split; [vm_compute; reflexivity|]. apply (lmutex_ownership mx3 mx3_reachable). do 2 right. exists CELL_OK. vm_compute. reflexivity.
Defined.

Lemma lmutex_no_lost_wakeup_witness :
  exists lm lc, walk (mx_cpus mx3) (mx_sq mx3) = Some lm /\ (forall c, walk (mx_cpus mx3) (csq mx3 c) = Some (lc c)) /\
    (forall t c, t ∈ lc c -> t ∉ lm) /\ (forall t c c', t ∈ lc c -> t ∈ lc c' -> c = c') /\
    (lm <> [] -> mx_owner mx3 <> 0) /\
    (forall t to, mpc mx3 t = MlSleep to -> t ∈ lm \/ (mx_owner mx3 = t /\ t ∈ mx_signal mx3)) /\
    (forall t c to n r, mpc mx3 t = CwSleep c to n r -> t ∈ lc c \/ t ∈ lm \/ (mx_owner mx3 = t /\ t ∈ mx_signal mx3)).
Proof. apply (lmutex_no_lost_wakeup mx3); [exact mx3_reachable|]. vm_compute. reflexivity. Defined.

Lemma cond_signal_all_order_witness :
  exists s', moves (replicate 4 (MRun 32)) mx2 = Some s' /\
    mpc s' 32 = MReturned KOther CELL_OK /\ mx_host s' = None /\ csq s' 1 = 0 /\
    let ps := picks 2 SYS_SYNC_PRIORITY (mx_cpus mx2) [48; 16] in
    mx_owner s' = hd 0 ps /\ walk (mx_cpus s') (mx_sq s') = Some (reverse (tail ps) ++ []) /\ (hd 0 ps <> 0 -> hd 0 ps ∈ mx_signal s').
Proof.
  apply (cond_signal_all_order mx2 32 1 [48; 16] []); [exact mx2_reachable|vm_compute; reflexivity..].
Defined.
