(* ===== verification/Psf.v ===== *)
(** System files in PSF format (src/rpcs3/Loader/PSF.h, PSF.cpp).

    PARAM.SFO files describe games and saves: a sorted map from keys to strings,
    byte arrays and integers.  [save_object] writes the binary format through a
    stream on a byte vector (src/Utilities/File.h), [load] reads it back and
    checks it.  The theorems: what is saved is loaded again, whatever a file
    contains [load] gives an error or a well-formed map, and the one exception
    to that, an entry whose declared size trips an [ensure]. *)
From Stdlib Require Import ZArith Lia Bool List.
From stdpp Require Import base option list numbers sorting.
From S2P Require Import Prelude.
Local Open Scope Z_scope.

(** ** Bytes *)

Abbreviation bytes := (list Z).
Abbreviation blen b := (Z.of_nat (length b)).

(** The field of [n] bytes at the offset [off]. *)
Definition field (off n : nat) (b : bytes) : Z := le_value (take n (drop off b)).

(** A null-terminated string: the bytes before the first zero, or all. *)
Fixpoint cstring (b : bytes) : bytes :=
  match b with [] => [] | x :: b' => if x =? 0 then [] else x :: cstring b' end.

(** ** Streams

    [fs::container_stream<std::vector<u8>>] and the readers of [fs::file]. *)
Record stream := Stream { obj : bytes; pos : Z }.

Definition seek (p : Z) (s : stream) : stream := Stream (obj s) p.

(** [obj.resize(n)]. *)
Definition resize (n : Z) (b : bytes) : bytes :=
  take (Z.to_nat n) b ++ replicate (Z.to_nat n - length b) 0.
Definition trunc (n : Z) (s : stream) : stream := Stream (resize n (obj s)) (pos s).

Definition read (size : Z) (s : stream) : bytes * stream :=
  let end_ := blen (obj s) in
  if pos s <? end_ then
    let max := Z.min size (end_ - pos s) in
    (take (Z.to_nat max) (drop (Z.to_nat (pos s)) (obj s)), seek (pos s + max) s)
  else ([], s).

Definition write (b : bytes) (s : stream) : stream :=
  let o := if blen (obj s) <? pos s then resize (pos s) (obj s) else obj s in
  let overlap := Z.min (blen o - pos s) (blen b) in
  let p := Z.to_nat (pos s) in
  let n := Z.to_nat overlap in
  Stream (take p o ++ take n b ++ drop (p + n) o ++ drop n b) (pos s + blen b).

(** All of [size] bytes, or failure. *)
Definition read_pod (size : Z) (s : stream) : option (bytes * stream) :=
  let '(b, s') := read size s in if blen b =? size then Some (b, s') else None.

Definition strict_read_check (offset size type_size : Z) (s : stream) : bool :=
  let size0 := blen (obj s) in
  size <=? (if size0 <=? offset then 0 else size0 - offset) / type_size.

(** A vector of [size] elements of [type_size] bytes; a string is one of bytes. *)
Definition read_vec (size type_size : Z) (s : stream) : option (bytes * stream) :=
  if (0x100000 / type_size <=? size) && negb (strict_read_check (pos s) size type_size s) then None
  else read_pod (type_size * size) s.

(** ** Entries and the registry *)

Inductive format : Set := array | string | integer.
#[export] Instance format_eq_dec : EqDecision format.
Proof. solve_decision. Defined.

Definition format_code (f : format) : Z :=
  match f with array => 0x0004 | string => 0x0204 | integer => 0x0404 end.

Inductive error : Set := ok | no_stream | not_psf | corrupt.

Record entry := Entry { m_type : format; m_max_size : Z; m_value_integer : Z; m_value_string : bytes }.

Definition is_string (f : format) : bool := match f with string => true | _ => false end.

Definition entry_max (with_nts : bool) (e : entry) : Z :=
  u32 (m_max_size e - if negb with_nts && is_string (m_type e) then 1 else 0).

(** [narrow<u32>]; [None] is the fatal error ([thread_ctrl::emergency_exit]) here
    and for [ensure]. *)
Definition narrow32 (x : Z) : option Z := if x =? u32 x then Some x else None.

Definition new_string (type : format) (max_size : Z) (value : bytes) (allow_truncate : bool) : option entry :=
  if match type with integer => false | _ => true end && (max_size >? if is_string type then 1 else 0) then
    let e := Entry type max_size 0 value in
    Some (if allow_truncate && (entry_max false e <? blen value)
          then Entry type max_size 0 (resize (entry_max false e) value) else e)
  else None.

Definition new_integer (value : Z) : entry := Entry integer 4 value [].

Definition as_string (e : entry) : option bytes := match m_type e with integer => None | _ => Some (m_value_string e) end.
Definition as_integer (e : entry) : option Z := match m_type e with integer => Some (m_value_integer e) | _ => None end.

(** The assignment operators. *)
Definition set_string (value : bytes) (e : entry) : option entry :=
  match m_type e with integer => None | t => Some (Entry t (m_max_size e) (m_value_integer e) value) end.
Definition set_integer (value : Z) (e : entry) : option entry :=
  match m_type e with integer => Some (Entry integer (m_max_size e) value (m_value_string e)) | _ => None end.

Definition entry_size (e : entry) : option Z :=
  match m_type e with
  | string | array =>
      n ← narrow32 (blen (m_value_string e) + if is_string (m_type e) then 1 else 0);
      Some (Z.min (m_max_size e) n)
  | integer => Some 4
  end.

Definition is_valid (e : entry) : bool :=
  match m_type e with
  | string | array => blen (m_value_string e) <=? entry_max false e
  | integer => true
  end.

(** [std::map<std::string, entry, std::less<>>], in the order of its keys. *)
Definition registry : Type := list (bytes * entry).

Fixpoint less (a b : bytes) : bool :=
  match a, b with
  | _, [] => false
  | [], _ :: _ => true
  | x :: a', y :: b' => (x <? y) || ((x =? y) && less a' b')
  end.

Fixpoint find (key : bytes) (psf : registry) : option entry :=
  match psf with
  | [] => None
  | (k, e) :: psf' => if decide (k = key) then Some e else find key psf'
  end.

Fixpoint emplace (key : bytes) (e : entry) (psf : registry) : registry :=
  match psf with
  | [] => [(key, e)]
  | (k, e') :: psf' =>
      if less key k then (key, e) :: psf
      else if decide (k = key) then psf
      else (k, e') :: emplace key e psf'
  end.

Definition get_string (psf : registry) (key def : bytes) : bytes :=
  match find key psf with
  | Some e => match m_type e with string | array => m_value_string e | integer => def end
  | None => def
  end.

Definition get_integer (psf : registry) (key : bytes) (def : Z) : Z :=
  match find key psf with
  | Some e => match m_type e with integer => m_value_integer e | _ => def end
  | None => def
  end.

(** [found->second = ...]. *)
Fixpoint replace_entry (key : bytes) (e : entry) (psf : registry) : registry :=
  match psf with
  | [] => []
  | (k, e') :: psf' => if decide (k = key) then (k, e) :: psf' else (k, e') :: replace_entry key e psf'
  end.

Definition assign (psf : registry) (key : bytes) (e : entry) : registry :=
  match find key psf with
  | None => emplace key e psf
  | Some _ => replace_entry key e psf
  end.

Definition check_registry (psf : registry) : bool := forallb (fun '(_, e) => is_valid e) psf.

(** ** The file format *)

Record header_t := Header { magic : Z; version : Z; off_key_table : Z; off_data_table : Z; entries_num : Z }.
Record def_table_t := Def { key_off : Z; param_fmt : Z; param_len : Z; param_max : Z; data_off : Z }.

Definition header_size : Z := 20.
Definition def_size : Z := 16.
(** The little-endian value of the four characters NUL, P, S, F. *)
Definition psf_magic : Z := 0x46535000.

Definition header_bytes (h : header_t) : bytes :=
  le_bytes 4 (magic h) ++ le_bytes 4 (version h) ++ le_bytes 4 (off_key_table h) ++ le_bytes 4 (off_data_table h)
  ++ le_bytes 4 (entries_num h).
Definition header_of (b : bytes) : header_t :=
  Header (field 0 4 b) (field 4 4 b) (field 8 4 b) (field 12 4 b) (field 16 4 b).

Definition def_bytes (d : def_table_t) : bytes :=
  le_bytes 2 (key_off d) ++ le_bytes 2 (param_fmt d) ++ le_bytes 4 (param_len d) ++ le_bytes 4 (param_max d)
  ++ le_bytes 4 (data_off d).
Definition def_of (b : bytes) : def_table_t :=
  Def (field 0 2 b) (field 2 2 b) (field 4 4 b) (field 8 4 b) (field 12 4 b).

Fixpoint indices_of (n : nat) (b : bytes) : list def_table_t :=
  match n with O => [] | S n' => def_of (take 16 b) :: indices_of n' (drop 16 b) end.

(** ** load *)

(** [Aborted]: the [ensure] of a constructor of [entry] failed. *)
Inductive load_result : Type := Loaded (sfo : registry) (errc : error) | Aborted.

Definition failed (err : error) : load_result := Loaded [] err.

Inductive turn : Type := Next (s : stream) (sfo : registry) | Stop (r : load_result).

Definition check (b : bool) (err : error) (k : turn) : turn := if b then k else Stop (failed err).

(** A turn of the loop that loads the entries. *)
Definition load_entry (h : header_t) (keys : bytes) (i : def_table_t) (s : stream) (sfo : registry) : turn :=
  let size := blen (obj s) in
  check (key_off i <? u32 (off_data_table h - off_key_table h)) corrupt
  (let key := cstring (drop (Z.to_nat (key_off i)) keys) in
   check (match find key sfo with Some _ => false | None => true end) corrupt
   (check (param_len i <=? param_max i) corrupt
   (check (data_off i <? u64 (size - off_data_table h)) corrupt
   (check (param_max i <? u64 (size - data_off i)) corrupt
   (let s := seek (u32 (off_data_table h + data_off i)) s in
    if (param_fmt i =? format_code integer) && (param_max i =? 4) && (param_len i =? 4) then
      match read_pod 4 s with
      | Some (b, s') => Next s' (emplace key (new_integer (le_value b)) sfo)
      | None => Stop (failed corrupt)
      end
    else
      let text type :=
        match read_vec (param_len i) 1 s with
        | Some (value, s') =>
            let value := if is_string type then cstring value else value in
            match new_string type (param_max i) value false with
            | Some e => Next s' (emplace key e sfo)
            | None => Stop Aborted
            end
        | None => Stop (failed corrupt)
        end in
      if param_fmt i =? format_code string then text string
      else if param_fmt i =? format_code array then text array
      else Next s sfo))))).

Fixpoint load_entries (h : header_t) (keys : bytes) (indices : list def_table_t) (s : stream) (sfo : registry) : turn :=
  match indices with
  | [] => Next s sfo
  | i :: indices' =>
      match load_entry h keys i s sfo with
      | Next s' sfo' => load_entries h keys indices' s' sfo'
      | Stop r => Stop r
      end
  end.

(** "CATEGORY", and the two-letter categories. *)
Definition CATEGORY : bytes := [67; 65; 84; 69; 71; 79; 82; 89].
Definition valid_cats : list bytes :=
  [[71; 68]; [68; 71]; [72; 71]; [65; 77]; [65; 80]; [65; 83]; [65; 84]; [65; 86]; [66; 86]; [87; 84]; [72; 77];
   [67; 66]; [83; 70]; [50; 80]; [50; 71]; [49; 80]; [80; 80]; [77; 78]; [80; 69]; [50; 68]; [83; 68]; [77; 83]].

Definition check_category (sfo : registry) : load_result :=
  if bool_decide (get_string sfo CATEGORY [] ∈ valid_cats) then Loaded sfo ok else failed corrupt.

Definition check_header (h : header_t) (size : Z) : option error :=
  if negb (magic h =? psf_magic) then Some not_psf
  else if negb (version h =? 0x101) then Some not_psf
  else if negb (header_size <=? off_key_table h) then Some corrupt
  else if negb (off_key_table h <=? off_data_table h) then Some corrupt
  else if negb (off_data_table h <=? size) then Some corrupt
  else None.

(** [None]: the file does not exist. *)
Definition load (file : option bytes) : load_result :=
  match file with
  | None => failed no_stream
  | Some content =>
      let s := seek 0 (Stream content 0) in
      match read_pod header_size s with
      | None => failed not_psf
      | Some (hb, s) =>
          let h := header_of hb in
          match check_header h (blen (obj s)) with
          | Some err => failed err
          | None =>
              match read_vec (entries_num h) def_size s with
              | None => failed corrupt
              | Some (ib, s) =>
                  match read_vec (u32 (off_data_table h - off_key_table h)) 1 (seek (off_key_table h) s) with
                  | None => failed corrupt
                  | Some (keys, s) =>
                      match load_entries h keys (indices_of (Z.to_nat (entries_num h)) ib) s [] with
                      | Next _ sfo => check_category sfo
                      | Stop r => r
                      end
                  end
              end
          end
      end
  end.

(** ** save_object *)

(** [utils::align(value, 4)] on [usz]. *)
Definition align4 (value : Z) : Z := u64 (Z.land (value + 3) (u64 (0 - 4))).

(** The table of the entries, and the offsets behind the last key and value. *)
Fixpoint make_indices (psf : registry) (key_offset data_offset : Z) : option (list def_table_t * Z * Z) :=
  match psf with
  | [] => Some ([], key_offset, data_offset)
  | (k, e) :: psf' =>
      ko ← narrow32 key_offset;
      len ← entry_size e;
      do_ ← narrow32 data_offset;
      ksize ← narrow32 (blen k + 1);
      let i := Def (u16 ko) (format_code (m_type e)) len (entry_max true e) do_ in
      '(l, ko', do') ← make_indices psf' (u64 (key_offset + ksize)) (u64 (data_offset + param_max i));
      Some (i :: l, ko', do')
  end.

Definition save_key (s : stream) (ke : bytes * entry) : stream := write [0] (write (fst ke) s).

(** The value of an entry; [None] is the fatal error for an unknown format. *)
Definition save_value (e : entry) (s : stream) : option stream :=
  let max := entry_max true e in
  match m_type e with
  | integer => if max =? 4 then Some (write (le_bytes 4 (m_value_integer e)) s) else None
  | string | array =>
      let value := if is_valid e then m_value_string e else take (Z.to_nat (entry_max false e)) (m_value_string e) in
      let s := write value s in
      let s := seek (pos s + (max - blen value)) s in
      Some (trunc (pos s) s)
  end.

Fixpoint save_values (psf : registry) (s : stream) : option stream :=
  match psf with
  | [] => Some s
  | (_, e) :: psf' => s' ← save_value e s; save_values psf' s'
  end.

Definition save_object (psf : registry) (init : bytes) : option bytes :=
  '(indices, key_offset, _) ← make_indices psf 0 0;
  let key_offset := align4 key_offset in
  okt ← narrow32 (header_size + def_size * Z.of_nat (length psf));
  odt ← narrow32 (okt + key_offset);
  num ← narrow32 (Z.of_nat (length psf));
  let s := Stream init 0 in
  let s := write (header_bytes (Header psf_magic 0x101 okt odt num)) s in
  let s := write (concat (map def_bytes indices)) s in
  let s := fold_left save_key psf s in
  let s := seek odt s in
  let s := trunc (pos s) s in
  s' ← save_values psf s;
  Some (obj s').

(** ** Bytes: lemmas *)

Lemma le_value_small n v : in_uint (8 * Z.of_nat n) v -> le_value (le_bytes n v) = v.
Proof. intros H. by rewrite le_value_bytes, uint_small. Qed.

Lemma header_roundtrip h :
  in_uint 32 (magic h) -> in_uint 32 (version h) -> in_uint 32 (off_key_table h) -> in_uint 32 (off_data_table h) ->
  in_uint 32 (entries_num h) -> header_of (header_bytes h) = h.
Proof.
  intros. destruct h as [a b c d e].
  cbv [header_of header_bytes field take drop app le_bytes magic version off_key_table off_data_table entries_num].
  f_equal; by apply (le_value_small 4).
Qed.

Lemma def_roundtrip d :
  in_uint 16 (key_off d) -> in_uint 16 (param_fmt d) -> in_uint 32 (param_len d) -> in_uint 32 (param_max d) ->
  in_uint 32 (data_off d) -> def_of (def_bytes d) = d.
Proof.
  intros. destruct d as [a b c e f].
  cbv [def_of def_bytes field take drop app le_bytes key_off param_fmt param_len param_max data_off].
  f_equal; first [by apply (le_value_small 2)|by apply (le_value_small 4)].
Qed.

Lemma def_bytes_length d : length (def_bytes d) = 16%nat.
Proof. done. Qed.

Definition def_ok (d : def_table_t) : Prop :=
  in_uint 16 (key_off d) /\ in_uint 16 (param_fmt d) /\ in_uint 32 (param_len d) /\ in_uint 32 (param_max d) /\ in_uint 32 (data_off d).

Lemma indices_roundtrip l : Forall def_ok l -> indices_of (length l) (concat (map def_bytes l)) = l.
Proof.
  induction 1 as [|d l (A & B & C & D & E) Hl IH]; [done|]. cbn [length map concat indices_of].
  rewrite (take_app_length' _ _ 16), (drop_app_length' _ _ 16) by done. by rewrite def_roundtrip, IH.
Qed.

Lemma cstring_app k b : Forall (fun x => x <> 0) k -> cstring (k ++ 0 :: b) = k.
Proof.
  induction 1 as [|x k Hx Hk IH]; [done|]. cbn. destruct (Z.eqb_spec x 0); [done|]. by rewrite IH.
Qed.

Lemma cstring_cut w b : cstring (w ++ 0 :: b) = cstring w.
Proof. induction w as [|x w IH]; [done|]. cbn. destruct (x =? 0); [done|]. by rewrite IH. Qed.

Lemma cstring_id k : Forall (fun x => x <> 0) k -> cstring k = k.
Proof. induction 1 as [|x k Hx Hk IH]; [done|]. cbn. destruct (Z.eqb_spec x 0); [done|]. by rewrite IH. Qed.

Lemma cstring_nonzero b : Forall (fun x => x <> 0) (cstring b).
Proof. induction b as [|x b IH]; [constructor|]. cbn. destruct (Z.eqb_spec x 0); by constructor. Qed.

Lemma cstring_length b : (length (cstring b) <= length b)%nat.
Proof. induction b as [|x b IH]; [done|]. cbn. destruct (x =? 0); cbn; lia. Qed.

(** ** Order of keys *)

Lemma less_irrefl a : less a a = false.
Proof. induction a as [|x a IH]; [done|]. cbn. by rewrite Z.ltb_irrefl, Z.eqb_refl, IH. Qed.

Lemma less_trans a b c : less a b = true -> less b c = true -> less a c = true.
Proof.
  revert b c. induction a as [|x a IH]; intros [|y b] [|z c]; cbn; try done.
  rewrite !orb_true_iff, !andb_true_iff, !Z.ltb_lt, !Z.eqb_eq. intros [?|[-> ?]] [?|[-> ?]]; eauto; left; lia.
Qed.

Lemma less_total a b : less a b = false -> a <> b -> less b a = true.
Proof.
  revert b. induction a as [|x a IH]; intros [|y b]; cbn; try done.
  rewrite orb_false_iff, orb_true_iff, !andb_true_iff, Z.ltb_ge, Z.ltb_lt, Z.eqb_eq. intros [H1 H2] N.
  destruct (Z.eqb_spec x y) as [->|]; [|left; lia]. right. split; [done|]. apply IH; [done|congruence].
Qed.

Definition key_less (a b : bytes * entry) : Prop := less (fst a) (fst b) = true.
(** A [std::map]. *)
Definition sorted_registry (r : registry) : Prop := StronglySorted key_less r.

Lemma less_ne a b : less a b = true -> a <> b.
Proof. intros L ->. by rewrite less_irrefl in L. Qed.

Lemma less_asym a b : less a b = true -> less b a = false.
Proof. intros L. apply not_true_iff_false. intros L'. pose proof (less_trans _ _ _ L L') as T. by rewrite less_irrefl in T. Qed.

Lemma find_none key r : Forall (fun ke => fst ke <> key) r -> find key r = None.
Proof. induction 1 as [|[k e] r Hk Hr IH]; [done|]. cbn in *. by rewrite decide_False. Qed.

Lemma emplace_last key e r : Forall (fun ke => less (fst ke) key = true) r -> emplace key e r = r ++ [(key, e)].
Proof.
  induction 1 as [|[k e'] r Hk Hr IH]; [done|]. cbn in *. rewrite (less_asym _ _ Hk), decide_False by (by apply less_ne). by rewrite IH.
Qed.

Lemma emplace_elem key e r ke : ke ∈ emplace key e r -> ke = (key, e) \/ ke ∈ r.
Proof.
  induction r as [|[k e'] r IH]; cbn; [|destruct (less key k); [|destruct (decide (k = key))]];
    rewrite ?elem_of_cons; tauto.
Qed.

Lemma emplace_sorted key e r : sorted_registry r -> sorted_registry (emplace key e r).
Proof.
  unfold sorted_registry. induction 1 as [|[k e'] r S IH F]; cbn; [by repeat constructor|].
  destruct (less key k) eqn:L.
  - constructor; [by constructor|]. constructor; [done|]. eapply Forall_impl; [exact F|]. intros ke. unfold key_less. cbn. eauto using less_trans.
  - destruct (decide (k = key)); [by constructor|]. constructor; [done|]. rewrite Forall_forall in *.
    intros ke [->|H]%emplace_elem; [|by apply F]. unfold key_less. cbn. apply less_total; [done|congruence].
Qed.

(** ** Streams: lemmas *)

Lemma resize_length n b : 0 <= n -> blen (resize n b) = n.
Proof. intros. unfold resize. rewrite length_app, length_take, length_replicate. lia. Qed.

(** The bytes [w] were written, and the position is behind them. *)
Definition written (w : bytes) (s : stream) : Prop := pos s = blen w /\ exists rest, obj s = w ++ rest.

Lemma write_at w rest b s : obj s = w ++ rest -> pos s = blen w ->
  write b s = Stream (w ++ b ++ drop (length b) rest) (blen (w ++ b)).
Proof.
  intros E P. unfold write. rewrite E, P, !length_app. destruct (Z.ltb_spec (Z.of_nat (length w + length rest)) (blen w)); [lia|].
  rewrite Nat2Z.id. f_equal; [|lia]. rewrite take_app_length. f_equal.
  set (n := Z.to_nat _). assert (En : n = (length b `min` length rest)%nat) by (subst n; rewrite length_app; lia).
  rewrite drop_app_add, En. destruct (Nat.min_spec (length b) (length rest)) as [[Hm ->]|[Hm ->]].
  - by rewrite take_ge, (drop_ge b), app_nil_r by lia.
  - rewrite (drop_ge rest), (drop_ge rest) by lia. cbn. by rewrite app_nil_r, take_drop.
Qed.

Lemma write_written w b s : written w s -> written (w ++ b) (write b s).
Proof.
  intros [P [rest E]]. rewrite (write_at w rest b s E P). split; [done|]. exists (drop (length b) rest). by rewrite <- app_assoc.
Qed.

Lemma write_exact w b : write b (Stream w (blen w)) = Stream (w ++ b) (blen (w ++ b)).
Proof. rewrite (write_at w [] b); [|cbn; by rewrite app_nil_r|done]. by rewrite drop_nil, app_nil_r. Qed.

Lemma trunc_written w s n : written w s -> blen w <= n ->
  exists pad, blen pad = n - blen w /\ trunc n (seek n s) = Stream (w ++ pad) n.
Proof.
  intros [P [rest E]] Hn. unfold trunc, seek. cbn. rewrite E. exists (drop (length w) (resize n (w ++ rest))). split.
  - rewrite length_drop. pose proof (resize_length n (w ++ rest)). lia.
  - f_equal. rewrite <- (take_drop (length w) (resize n (w ++ rest))) at 1. f_equal. unfold resize.
    rewrite take_app_le by (rewrite length_take, length_app; lia). rewrite take_take, Nat.min_l by lia. by rewrite take_app_length.
Qed.

Lemma trunc_exact w n : blen w <= n -> trunc n (Stream w n) = Stream (w ++ replicate (Z.to_nat n - length w) 0) n.
Proof. intros. unfold trunc, resize. cbn. by rewrite take_ge by lia. Qed.

(** Reading what is there. *)
Lemma read_pod_at a b c s : obj s = a ++ b ++ c -> pos s = blen a ->
  read_pod (blen b) s = Some (b, seek (pos s + blen b) s).
Proof.
  intros E P. unfold read_pod, read. rewrite E, P, !length_app. destruct (Z.ltb_spec (blen a) (Z.of_nat (length a + (length b + length c)))).
  - rewrite Z.min_l by lia. rewrite !Nat2Z.id, drop_app_length, take_app_length, Z.eqb_refl. done.
  - destruct b; [|cbn in *; lia]. cbn. rewrite Z.add_0_r, <- P. by destruct s.
Qed.

Lemma read_vec_at a b c s n ts : obj s = a ++ b ++ c -> pos s = blen a -> 0 < ts -> blen b = ts * n ->
  read_vec n ts s = Some (b, seek (pos s + blen b) s).
Proof.
  intros E P T L. unfold read_vec. assert (C : strict_read_check (pos s) n ts s = true).
  { unfold strict_read_check. rewrite E, P, !length_app. apply Z.leb_le. destruct (Z.leb_spec (Z.of_nat (length a + (length b + length c))) (blen a)).
    - assert (n = 0) as -> by nia. done.
    - apply Z.div_le_lower_bound; lia. }
  rewrite C, andb_false_r, <- L. by eapply read_pod_at.
Qed.

(** ** What is saved *)

Definition entry_ok (e : entry) : Prop :=
  match m_type e with
  | integer => m_max_size e = 4 /\ in_uint 32 (m_value_integer e) /\ m_value_string e = []
  | string => 1 < m_max_size e < 2 ^ 32 /\ m_value_integer e = 0 /\ blen (m_value_string e) + 1 < 2 ^ 32
  | array => 0 < m_max_size e < 2 ^ 32 /\ m_value_integer e = 0 /\ blen (m_value_string e) < 2 ^ 32
  end.

(** The value as it is written: cut at the maximal size. *)
Definition shown (e : entry) : bytes :=
  if is_valid e then m_value_string e else take (Z.to_nat (entry_max false e)) (m_value_string e).

(** The entry as it is read back. *)
Definition norm (e : entry) : entry :=
  match m_type e with
  | integer => e
  | string => Entry string (m_max_size e) 0 (cstring (shown e))
  | array => Entry array (m_max_size e) 0 (shown e)
  end.
Definition norm_registry (r : registry) : registry := map (fun ke => (fst ke, norm (snd ke))) r.

Definition data_bytes (e : entry) : bytes :=
  match m_type e with
  | integer => le_bytes 4 (m_value_integer e)
  | _ => shown e ++ replicate (Z.to_nat (m_max_size e) - length (shown e)) 0
  end.

Definition key_table (r : registry) : bytes := concat (map (fun ke => fst ke ++ [0]) r).
Definition data_table (r : registry) : bytes := concat (map (fun ke => data_bytes (snd ke)) r).

Definition key_ok (k : bytes) : Prop := Forall (fun x => x <> 0) k.

(** A map that fits the format: the offsets of the keys have 16 bits, the file
    less than 4 GiB. *)
Definition registry_ok (r : registry) : Prop :=
  sorted_registry r /\ Forall (fun ke => key_ok (fst ke) /\ entry_ok (snd ke)) r /\ blen (key_table r) < 2 ^ 16 /\
  20 + 16 * Z.of_nat (length r) + blen (key_table r) + 3 + blen (data_table r) < 2 ^ 32.

Lemma new_string_ok type max value trunc e : max < 2 ^ 32 -> blen value + 1 < 2 ^ 32 -> new_string type max value trunc = Some e -> entry_ok e.
Proof.
  unfold new_string. intros M V. destruct type; cbn [andb is_string]; [destruct (Z.gtb_spec max 0)|destruct (Z.gtb_spec max 1)|done]; try done;
    (destruct (trunc && _) eqn:T; intros [= <-]; unfold entry_ok; cbn [m_type m_max_size m_value_integer m_value_string]; [|lia]);
    apply andb_true_iff in T as [_ T%Z.ltb_lt]; rewrite resize_length by apply uint_range, Z.leb_le, eq_refl; cbn [m_value_string] in T; lia.
Qed.

Lemma set_string_ok value e e' : entry_ok e -> blen value + 1 < 2 ^ 32 -> set_string value e = Some e' -> entry_ok e'.
Proof. unfold set_string, entry_ok. destruct (m_type e) eqn:T; [intros ? ? [= <-]..|done]; cbn; lia. Qed.

Lemma set_integer_ok value e e' : entry_ok e -> in_uint 32 value -> set_integer value e = Some e' -> entry_ok e'.
Proof. unfold set_integer, entry_ok. destruct (m_type e) eqn:T; [done..|intros (? & ? & ?) ? [= <-]]. cbn. auto. Qed.

Lemma entry_max_ok b e : entry_ok e -> entry_max b e = m_max_size e - if negb b && is_string (m_type e) then 1 else 0.
Proof.
  unfold entry_ok, entry_max. intros H. apply uint_small. unfold in_uint. destruct (m_type e), b; cbn [negb andb is_string] in *; lia.
Qed.

Lemma shown_length e : entry_ok e -> m_type e <> integer ->
  blen (shown e) + (if is_string (m_type e) then 1 else 0) = Z.min (m_max_size e) (blen (m_value_string e) + if is_string (m_type e) then 1 else 0).
Proof.
  intros H N. unfold shown, is_valid. rewrite (entry_max_ok false e H). unfold entry_ok in H.
  destruct (m_type e); [| |done]; cbn [negb andb is_string];
    destruct (Z.leb_spec (blen (m_value_string e)) (m_max_size e - 0)), (Z.leb_spec (blen (m_value_string e)) (m_max_size e - 1));
    rewrite ?length_take; lia.
Qed.

Lemma shown_le e : entry_ok e -> m_type e <> integer ->
  blen (shown e) + (if is_string (m_type e) then 1 else 0) <= m_max_size e.
Proof. intros. rewrite shown_length by done. lia. Qed.

Lemma entry_ok_max e : entry_ok e -> 0 < m_max_size e < 2 ^ 32.
Proof. unfold entry_ok. destruct (m_type e); lia. Qed.

Lemma data_bytes_length e : entry_ok e -> blen (data_bytes e) = m_max_size e.
Proof.
  intros H. unfold data_bytes. destruct (decide (m_type e = integer)) as [E|N].
  - rewrite E, le_bytes_length. unfold entry_ok in H. rewrite E in H. lia.
  - pose proof (shown_le e H N). destruct (m_type e); [| |done]; rewrite length_app, length_replicate; cbn in *; lia.
Qed.

Lemma narrow32_ok x : 0 <= x < 2 ^ 32 -> narrow32 x = Some x.
Proof. intros H. unfold narrow32. by rewrite (uint_small 32 x H), Z.eqb_refl. Qed.

Lemma entry_size_ok e : entry_ok e ->
  entry_size e = Some (if decide (m_type e = integer) then 4 else blen (shown e) + if is_string (m_type e) then 1 else 0).
Proof.
  intros H. unfold entry_size. case_decide as D; [by rewrite D|]. rewrite (shown_length e H D).
  unfold entry_ok in H. destruct (m_type e); [| |done]; cbn [is_string]; rewrite narrow32_ok by lia; done.
Qed.

(** The index of an entry, and the table of the indices. *)
Definition index_of (e : entry) (ko d : Z) : def_table_t :=
  Def ko (format_code (m_type e)) (if decide (m_type e = integer) then 4 else blen (shown e) + if is_string (m_type e) then 1 else 0)
      (m_max_size e) d.
Fixpoint index_table (r : registry) (ko d : Z) : list def_table_t :=
  match r with
  | [] => []
  | (k, e) :: r' => index_of e ko d :: index_table r' (ko + (blen k + 1)) (d + m_max_size e)
  end.

Lemma key_table_cons k e r : key_table ((k, e) :: r) = k ++ 0 :: key_table r.
Proof. unfold key_table. cbn. by rewrite <- app_assoc. Qed.

Lemma key_table_length k e r : blen (key_table ((k, e) :: r)) = blen k + 1 + blen (key_table r).
Proof. rewrite key_table_cons, length_app. cbn [length]. lia. Qed.

Lemma data_table_length k e r : entry_ok e -> blen (data_table ((k, e) :: r)) = m_max_size e + blen (data_table r).
Proof. intros H. unfold data_table. cbn [map concat fst snd]. rewrite length_app. pose proof (data_bytes_length e H). lia. Qed.

Lemma make_indices_ok r ko d :
  Forall (fun ke => key_ok (fst ke) /\ entry_ok (snd ke)) r -> 0 <= ko -> 0 <= d ->
  ko + blen (key_table r) < 2 ^ 16 -> d + blen (data_table r) < 2 ^ 32 ->
  make_indices r ko d = Some (index_table r ko d, ko + blen (key_table r), d + blen (data_table r)) /\
  Forall def_ok (index_table r ko d).
Proof.
  intros F. revert ko d. induction F as [|[k e] r [Hk He] F IH]; intros ko d P Q A B.
  - split; [|constructor]. cbn. repeat f_equal; lia.
  - cbn [fst snd] in *. rewrite key_table_length in A |- *. rewrite (data_table_length k e r He) in B |- *.
    pose proof (entry_ok_max e He). pose proof (data_bytes_length e He).
    cbn [make_indices index_table]. rewrite entry_size_ok, entry_max_ok by done. cbn [negb andb]. rewrite Z.sub_0_r.
    rewrite !narrow32_ok by lia. cbn [mbind option_bind param_max].
    rewrite !(uint_small 64), (uint_small 16) by (unfold in_uint; lia).
    destruct (IH (ko + (blen k + 1)) (d + m_max_size e)) as [-> D]; [lia..|]. split.
    + cbn. unfold index_of. do 2 f_equal; [f_equal|]; lia.
    + constructor; [|done]. unfold def_ok, index_of. cbn [key_off param_fmt param_len param_max data_off].
      unfold in_uint. repeat split; try lia; try (destruct (m_type e); done);
        (case_decide as D'; [lia|]); pose proof (shown_le e He D'); destruct (is_string _); lia.
Qed.

Lemma index_table_length r ko d : length (index_table r ko d) = length r.
Proof. revert ko d. induction r as [|[k e] r IH]; intros; cbn; auto. Qed.

Lemma align4_spec x : 0 <= x < 2 ^ 32 -> x <= align4 x < x + 4.
Proof.
  intros H. unfold align4. change (u64 (0 - 4)) with (Z.ldiff (Z.ones 64) (Z.ones 2)).
  assert (E : Z.land (x + 3) (Z.ldiff (Z.ones 64) (Z.ones 2)) = 4 * ((x + 3) / 4)).
  { transitivity (Z.ldiff (Z.land (x + 3) (Z.ones 64)) (Z.ones 2)).
    - apply Z.bits_inj'. intros i Hi. by rewrite Z.land_spec, !Z.ldiff_spec, Z.land_spec, andb_assoc.
    - rewrite Z.land_ones, Z.mod_small, Z.ldiff_ones_r, Z.shiftl_mul_pow2, Z.shiftr_div_pow2 by lia. apply Z.mul_comm. }
  rewrite E, uint_small; [|unfold in_uint]; pose proof (Z.div_mod (x + 3) 4); pose proof (Z.mod_pos_bound (x + 3) 4); lia.
Qed.

Lemma save_keys_ok r w s : written w s -> written (w ++ key_table r) (fold_left save_key r s).
Proof.
  revert w s. induction r as [|[k e] r IH]; intros w s W; cbn [fold_left].
  - by rewrite app_nil_r.
  - rewrite key_table_cons. replace (w ++ k ++ 0 :: key_table r) with (((w ++ k) ++ [0]) ++ key_table r) by (by rewrite <- !app_assoc).
    apply IH. unfold save_key. by do 2 apply write_written.
Qed.

Lemma save_value_ok e w : entry_ok e ->
  save_value e (Stream w (blen w)) = Some (Stream (w ++ data_bytes e) (blen (w ++ data_bytes e))).
Proof.
  intros H. pose proof (data_bytes_length e H) as L. unfold save_value. fold (shown e). rewrite (entry_max_ok true e H). cbn [negb andb].
  rewrite Z.sub_0_r. unfold data_bytes in *. destruct (decide (m_type e = integer)) as [E|N].
  - unfold entry_ok in H. rewrite E in *. destruct H as [-> _]. by rewrite write_exact.
  - pose proof (shown_le e H N) as S. rewrite write_exact. cbn [pos seek obj trunc].
    assert (T : trunc (blen (w ++ shown e) + (m_max_size e - blen (shown e))) (Stream (w ++ shown e) (blen (w ++ shown e) + (m_max_size e - blen (shown e))))
      = Stream (w ++ shown e ++ replicate (Z.to_nat (m_max_size e) - length (shown e)) 0)
          (blen (w ++ shown e ++ replicate (Z.to_nat (m_max_size e) - length (shown e)) 0))).
    { rewrite trunc_exact by (destruct (is_string _); lia). rewrite <- app_assoc, !length_app, length_replicate.
      f_equal; [do 3 f_equal|]; destruct (is_string _); lia. }
    unfold trunc, seek in *. cbn [pos obj] in *. destruct (m_type e); [| |done]; cbn [m_type]; by rewrite <- T.
Qed.

Lemma save_values_ok r w : Forall (fun ke => key_ok (fst ke) /\ entry_ok (snd ke)) r ->
  save_values r (Stream w (blen w)) = Some (Stream (w ++ data_table r) (blen (w ++ data_table r))).
Proof.
  intros F. revert w. induction F as [|[k e] r [Hk He] F IH]; intros w; cbn [save_values].
  - by rewrite app_nil_r.
  - rewrite save_value_ok by done. cbn [mbind option_bind]. rewrite IH. unfold data_table. cbn. by rewrite <- !app_assoc.
Qed.

(** The layout of a saved file. *)
Definition saved_header (r : registry) : header_t :=
  Header psf_magic 0x101 (20 + 16 * Z.of_nat (length r)) (20 + 16 * Z.of_nat (length r) + align4 (blen (key_table r))) (Z.of_nat (length r)).

Lemma concat_defs_length l : blen (concat (map def_bytes l)) = 16 * Z.of_nat (length l).
Proof. induction l as [|d l IH]; [done|]. cbn [map concat]. rewrite length_app, def_bytes_length. cbn [length]. lia. Qed.

Lemma save_object_ok r init : registry_ok r -> exists pad,
  blen (key_table r) + blen pad = align4 (blen (key_table r)) /\
  save_object r init = Some (header_bytes (saved_header r) ++ concat (map def_bytes (index_table r 0 0)) ++ (key_table r ++ pad) ++ data_table r).
Proof.
  intros (S & F & K & T). pose proof (align4_spec (blen (key_table r))) as A.
  destruct (make_indices_ok r 0 0 F) as [M _]; [lia..|]. unfold save_object. rewrite M. cbn [mbind option_bind]. rewrite Z.add_0_l.
  unfold header_size, def_size. rewrite (narrow32_ok (20 + _)) by lia. cbn [mbind option_bind]. rewrite !narrow32_ok by lia.
  cbn [mbind option_bind]. fold (saved_header r).
  set (hb := header_bytes (saved_header r)). set (ib := concat (map def_bytes (index_table r 0 0))).
  assert (W : written (((hb ++ ib) ++ key_table r)) (fold_left save_key r (write ib (write hb (Stream init 0))))).
  { apply save_keys_ok, write_written. apply (write_written []). split; [done|]. by exists init. }
  assert (L : blen ((hb ++ ib) ++ key_table r) = 20 + 16 * Z.of_nat (length r) + blen (key_table r)).
  { rewrite !length_app. pose proof (concat_defs_length (index_table r 0 0)) as C. rewrite index_table_length in C. fold ib in C.
    change (length hb) with 20%nat. lia. }
  destruct (trunc_written _ _ (20 + 16 * Z.of_nat (length r) + align4 (blen (key_table r))) W) as (pad & P & E); [lia|].
  exists pad. split; [lia|]. cbn [pos seek]. cbn [pos seek] in E. rewrite E.
  replace (20 + 16 * Z.of_nat (length r) + align4 (blen (key_table r))) with (blen (((hb ++ ib) ++ key_table r) ++ pad)) by (rewrite length_app; lia).
  rewrite save_values_ok by done. cbn. by rewrite <- !app_assoc.
Qed.

(** ** What is loaded again *)

Lemma key_table_app r1 r2 : key_table (r1 ++ r2) = key_table r1 ++ key_table r2.
Proof. unfold key_table. by rewrite map_app, concat_app. Qed.

Lemma data_table_app r1 r2 : data_table (r1 ++ r2) = data_table r1 ++ data_table r2.
Proof. unfold data_table. by rewrite map_app, concat_app. Qed.

Lemma sorted_before r1 k e r2 : sorted_registry (r1 ++ (k, e) :: r2) -> Forall (fun ke => less (fst ke) k = true) r1.
Proof.
  unfold sorted_registry. induction r1 as [|x r1 IH]; cbn; [constructor|]. intros S. inversion S as [|? ? S' F]; subst. constructor; [|auto].
  rewrite Forall_forall in F. apply (F (k, e)). rewrite elem_of_app, elem_of_cons. auto.
Qed.

Lemma Forall_norm P r : Forall (fun ke => P (fst ke)) r -> Forall (fun ke => P (fst ke)) (norm_registry r).
Proof. intros F. unfold norm_registry. apply Forall_map. exact F. Qed.

(** The value of an entry, read at its place in the file. *)
Lemma read_value_ok e a c s : entry_ok e -> m_type e <> integer -> obj s = a ++ data_bytes e ++ c -> pos s = blen a ->
  exists v s', read_vec (blen (shown e) + if is_string (m_type e) then 1 else 0) 1 s = Some (v, s') /\ obj s' = obj s /\
    new_string (m_type e) (m_max_size e) (if is_string (m_type e) then cstring v else v) false = Some (norm e).
Proof.
  intros H N E P. pose proof (shown_le e H N) as L. unfold entry_ok in H.
  set (v := shown e ++ if is_string (m_type e) then [0] else []).
  assert (D : exists c', data_bytes e = v ++ c').
  { unfold data_bytes, v. destruct (m_type e); [| |done]; cbn [is_string] in *.
    - rewrite app_nil_r. eauto.
    - destruct (Z.to_nat (m_max_size e) - length (shown e))%nat as [|m] eqn:M; [lia|]. cbn [replicate].
      exists (replicate m 0). by rewrite <- app_assoc. }
  destruct D as [c' D]. exists v, (seek (pos s + blen v) s). split; [|split; [done|]].
  - rewrite D, <- app_assoc in E. eapply read_vec_at; [done..|lia|]. unfold v. rewrite length_app. destruct (is_string _); cbn; lia.
  - unfold new_string, norm, v. destruct (m_type e); [| |done]; cbn [is_string andb negb].
    + rewrite app_nil_r. by rewrite (proj2 (Z.gtb_lt _ _)) by lia.
    + rewrite cstring_cut. by rewrite (proj2 (Z.gtb_lt _ _)) by lia.
Qed.

Section loading.
Context (r : registry) (A pad : bytes) (h : header_t).
Hypothesis r_ok : registry_ok r.
Hypothesis A_len : blen A = off_data_table h.
Hypothesis h_keys : off_data_table h - off_key_table h = blen (key_table r ++ pad).
Hypothesis h_start : 20 <= off_key_table h.
Hypothesis h_size : off_data_table h + blen (data_table r) < 2 ^ 32.

Lemma load_entry_ok r1 k e r2 s :
  r = r1 ++ (k, e) :: r2 -> obj s = A ++ data_table r ->
  exists s', load_entry h (key_table r ++ pad) (index_of e (blen (key_table r1)) (blen (data_table r1))) s (norm_registry r1)
    = Next s' (norm_registry (r1 ++ [(k, e)])) /\ obj s' = A ++ data_table r.
Proof.
  intros E O. destruct r_ok as (S & F & K & T). rewrite E in S, F. pose proof (sorted_before _ _ _ _ S) as B.
  apply Forall_app in F as [_ F]. inversion F as [|? ? [Hk He] F2]; subst x l. cbn [fst snd] in Hk, He.
  pose proof (entry_ok_max e He) as M. pose proof (data_bytes_length e He) as DL.
  assert (KE : key_table r = key_table r1 ++ k ++ 0 :: key_table r2) by (by rewrite E, key_table_app, key_table_cons).
  assert (DE : data_table r = data_table r1 ++ data_bytes e ++ data_table r2) by (rewrite E, data_table_app; reflexivity).
  assert (SZ : blen (obj s) = off_data_table h + blen (data_table r)) by (rewrite O, length_app; lia).
  assert (KL : blen (key_table r1) < blen (key_table r ++ pad)) by (rewrite KE, !length_app; cbn [length]; lia).
  assert (DD : blen (data_table r) = blen (data_table r1) + m_max_size e + blen (data_table r2)) by (rewrite DE, !length_app; lia).
  assert (KK : cstring (drop (Z.to_nat (blen (key_table r1))) (key_table r ++ pad)) = k).
  { rewrite Nat2Z.id, KE, <- app_assoc, drop_app_length, <- app_assoc. cbn [app]. by apply cstring_app. }
  unfold load_entry, index_of. cbn [key_off param_fmt param_len param_max data_off]. rewrite KK, SZ, h_keys.
  rewrite !uint_small by (unfold in_uint; lia).
  rewrite find_none by (apply (Forall_norm (fun x => x <> k)); eapply Forall_impl; [exact B|]; intros ke; apply less_ne).
  rewrite (proj2 (Z.ltb_lt _ _) KL). cbn [check].
  assert (PL : (if decide (m_type e = integer) then 4 else blen (shown e) + (if is_string (m_type e) then 1 else 0)) <= m_max_size e).
  { case_decide as D; [|by apply shown_le]. unfold entry_ok in He. rewrite D in He. lia. }
  rewrite (proj2 (Z.leb_le _ _) PL), (proj2 (Z.ltb_lt (blen (data_table r1)) _)) by lia. cbn [check].
  rewrite (proj2 (Z.ltb_lt (m_max_size e) _)) by lia. cbn [check].
  assert (EM : forall e', emplace k e' (norm_registry r1) = norm_registry r1 ++ [(k, e')]).
  { intros. apply emplace_last. by apply (Forall_norm (fun x => less x k = true)). }
  assert (NA : norm_registry (r1 ++ [(k, e)]) = norm_registry r1 ++ [(k, norm e)]) by (unfold norm_registry; by rewrite map_app).
  set (s1 := seek _ s). assert (O1 : obj s1 = (A ++ data_table r1) ++ data_bytes e ++ data_table r2) by (cbn; by rewrite O, DE, <- app_assoc).
  assert (P1 : pos s1 = blen (A ++ data_table r1)) by (cbn; rewrite length_app; lia).
  assert (O2 : obj s1 = A ++ data_table r) by exact O. clearbody s1.
  destruct (decide (m_type e = integer)) as [D|D].
  - unfold entry_ok in He. assert (NE : norm e = new_integer (m_value_integer e)).
    { unfold norm, new_integer. destruct e as [t m i w]. cbn in *. subst t. by destruct He as (-> & _ & ->). }
    pose proof (read_pod_at _ _ _ _ O1 P1) as R. rewrite DL in R. unfold data_bytes in R. rewrite D in *.
    destruct He as (MX & V & SE). rewrite MX in *. cbn [format_code Z.eqb Pos.eqb andb]. rewrite R. exists (seek (pos s1 + 4) s1). split; [|exact O2].
    rewrite NA, EM, (le_value_small 4) by exact V. by rewrite NE.
  - destruct (read_value_ok e _ _ s1 He D O1 P1) as (v & s' & R & O' & NS). rewrite R.
    exists s'. split; [|congruence]. destruct (m_type e); [| |done]; cbn [format_code Z.eqb Pos.eqb andb is_string] in *; rewrite NS; by rewrite EM, NA.
Qed.

Lemma load_entries_ok r1 r2 s :
  r = r1 ++ r2 -> obj s = A ++ data_table r ->
  exists s', load_entries h (key_table r ++ pad) (index_table r2 (blen (key_table r1)) (blen (data_table r1))) s (norm_registry r1)
    = Next s' (norm_registry r).
Proof.
  revert r1 s. induction r2 as [|[k e] r2 IH]; intros r1 s E O.
  - rewrite app_nil_r in E. rewrite E. by exists s.
  - cbn [index_table load_entries]. destruct (load_entry_ok r1 k e r2 s E O) as (s' & -> & O').
    assert (He : entry_ok e).
    { destruct r_ok as (_ & F & _). rewrite E in F. apply Forall_app in F as [_ F]. by inversion F as [|? ? []]. }
    specialize (IH (r1 ++ [(k, e)]) s'). rewrite <- app_assoc in IH. specialize (IH E O').
    rewrite key_table_app, data_table_app, !length_app, !Nat2Z.inj_add, key_table_length, (data_table_length _ _ _ He) in IH.
    cbn [key_table data_table map concat length] in IH. rewrite !Z.add_0_r in IH. exact IH.
Qed.
End loading.

Lemma load_saved r pad : registry_ok r -> blen (key_table r) + blen pad = align4 (blen (key_table r)) ->
  load (Some (header_bytes (saved_header r) ++ concat (map def_bytes (index_table r 0 0)) ++ (key_table r ++ pad) ++ data_table r))
  = check_category (norm_registry r).
Proof.
  intros R P. pose proof R as (S & F & K & T). pose proof (align4_spec (blen (key_table r))) as AL.
  destruct (make_indices_ok r 0 0 F) as [_ DF]; [lia..|]. pose proof (index_table_length r 0 0) as IL.
  pose proof (concat_defs_length (index_table r 0 0)) as CL. rewrite IL in CL.
  set (hb := header_bytes (saved_header r)) in *. set (ib := concat (map def_bytes (index_table r 0 0))) in *.
  set (kb := key_table r ++ pad). assert (KL : blen kb = align4 (blen (key_table r))) by (unfold kb; rewrite length_app; lia).
  set (file := hb ++ ib ++ kb ++ data_table r). assert (HL : blen hb = 20) by done.
  unfold load. change (seek 0 (Stream file 0)) with (Stream file 0). cbv zeta. pose proof (read_pod_at [] hb (ib ++ kb ++ data_table r) (Stream file 0) eq_refl eq_refl) as R1.
  rewrite HL in R1. change 20 with header_size in R1 at 1. rewrite R1. clear R1.
  assert (HR : header_of hb = saved_header r).
  { apply header_roundtrip; unfold saved_header, in_uint; cbn [magic version off_key_table off_data_table entries_num]; unfold psf_magic; lia. }
  rewrite HR. assert (FL : blen file = 20 + 16 * Z.of_nat (length r) + blen kb + blen (data_table r)) by (unfold file; rewrite !length_app; lia).
  assert (CH : check_header (saved_header r) (blen (obj (seek (pos (Stream file 0) + 20) (Stream file 0)))) = None).
  { unfold check_header, saved_header, header_size. cbn [obj seek magic version off_key_table off_data_table].
    rewrite !Z.eqb_refl. cbn [negb]. rewrite !(proj2 (Z.leb_le _ _)) by lia. done. }
  rewrite CH. clear CH.
  pose proof (read_vec_at hb ib (kb ++ data_table r) (seek (pos (Stream file 0) + 20) (Stream file 0)) (Z.of_nat (length r)) def_size eq_refl eq_refl) as R2.
  cbn [entries_num saved_header]. rewrite R2 by (unfold def_size; lia). clear R2. cbn [seek obj pos off_key_table off_data_table saved_header].
  pose proof (read_vec_at (hb ++ ib) kb (data_table r) (Stream file (20 + 16 * Z.of_nat (length r))) (blen kb) 1) as R3.
  rewrite uint_small by (unfold in_uint; lia).
  match goal with |- context [read_vec ?n 1 _] => replace n with (blen kb) by lia end.
  match goal with |- context [read_vec _ 1 ?x] => change x with (Stream file (20 + 16 * Z.of_nat (length r))) end.
  rewrite R3; [|cbn [obj]; unfold file; by rewrite <- app_assoc|cbn [pos]; rewrite length_app; lia|lia|lia]. clear R3.
  rewrite Nat2Z.id. rewrite <- IL at 1. rewrite indices_roundtrip by done.
  destruct (load_entries_ok r (hb ++ ib ++ kb) pad (saved_header r) R) with (r1 := @nil (bytes * entry)) (r2 := r)
    (s := seek (pos (Stream file (20 + 16 * Z.of_nat (length r))) + blen kb) (Stream file (20 + 16 * Z.of_nat (length r)))) as [s' E];
    cbn [saved_header off_key_table off_data_table]; try done.
  - rewrite !length_app. lia.
  - fold kb. lia.
  - lia.
  - lia.
  - cbn [obj seek]. unfold seek. cbn [obj]. unfold file. by rewrite <- !app_assoc.
  - cbn [key_table data_table map concat length norm_registry] in E. change (Z.of_nat 0) with 0 in E. fold kb in E. by rewrite E.
Qed.

(** A map that the format can hold as it is. *)
Definition registry_exact (r : registry) : Prop :=
  check_registry r = true /\ Forall (fun ke => m_type (snd ke) = string -> key_ok (m_value_string (snd ke))) r.

Lemma norm_registry_id r : registry_ok r -> registry_exact r -> norm_registry r = r.
Proof.
  intros (_ & F & _) [C X]. clear -F C X. induction r as [|[k e] r IH]; [done|].
  inversion F as [|? ? [_ He] F']. inversion X as [|? ? Xe X']. subst. cbn in *. apply andb_true_iff in C as [V C].
  specialize (IH F' C X'). unfold norm_registry in *. rewrite IH. do 2 f_equal. unfold norm, shown, entry_ok in *. rewrite V. destruct e as [t m i w]. cbn in *.
  destruct t; [by destruct He as (_ & -> & _)| |done]. rewrite (cstring_id w (Xe eq_refl)). by destruct He as (_ & -> & _).
Qed.

(** ** Assignment *)

Lemma find_emplace key k e r : find key r = None -> find k (emplace key e r) = if decide (key = k) then Some e else find k r.
Proof.
  induction r as [|[k' e'] r IH]; cbn; [done|]. destruct (decide (k' = key)) as [|N]; [done|]. intros H. specialize (IH H).
  destruct (less key k'); cbn; [done|]. rewrite IH. repeat case_decide; congruence.
Qed.

Lemma find_replace key k e r : is_Some (find key r) -> find k (replace_entry key e r) = if decide (key = k) then Some e else find k r.
Proof.
  induction r as [|[k' e'] r IH]; cbn; [by intros []|]. destruct (decide (k' = key)) as [->|N]; cbn; [by case_decide|].
  intros H. rewrite (IH H). repeat case_decide; congruence.
Qed.

Lemma replace_elem key e r ke : ke ∈ replace_entry key e r -> exists e', (fst ke, e') ∈ r.
Proof.
  induction r as [|[k e'] r IH]; cbn; [by intros H%elem_of_nil|]. case_decide; rewrite elem_of_cons; intros [->|H'].
  - exists e'. by left.
  - exists (snd ke). right. by destruct ke.
  - exists e'. by left.
  - destruct (IH H') as [e'' H'']. exists e''. by right.
Qed.

Lemma replace_sorted key e r : sorted_registry r -> sorted_registry (replace_entry key e r).
Proof.
  unfold sorted_registry. induction 1 as [|[k e'] r S IH F]; cbn; [constructor|]. case_decide; (constructor; [done|]); [exact F|].
  rewrite Forall_forall in *. intros ke [e'' H']%replace_elem. exact (F _ H').
Qed.

(** [assign] keeps the map sorted, and the value of the key is the new one. *)
Lemma assign_spec r key k e : sorted_registry r ->
  sorted_registry (assign r key e) /\ find k (assign r key e) = if decide (key = k) then Some e else find k r.
Proof.
  intros S. unfold assign. destruct (find key r) eqn:E.
  - split; [by apply replace_sorted|]. apply find_replace. by rewrite E.
  - split; [by apply emplace_sorted|]. by apply find_emplace.
Qed.

(** ** Files of unknown content *)

(** An entry as it comes out of a file: a string without terminator may fill
    the whole of its maximal size. *)
Definition loaded_ok (e : entry) : Prop :=
  match m_type e with
  | integer => e = new_integer (m_value_integer e) /\ in_uint 32 (m_value_integer e)
  | string => 1 < m_max_size e < 2 ^ 32 /\ m_value_integer e = 0 /\ blen (m_value_string e) <= m_max_size e /\ key_ok (m_value_string e)
  | array => 0 < m_max_size e < 2 ^ 32 /\ m_value_integer e = 0 /\ blen (m_value_string e) <= m_max_size e
  end.
Definition sfo_ok (sfo : registry) : Prop :=
  sorted_registry sfo /\ Forall (fun ke => key_ok (fst ke) /\ loaded_ok (snd ke)) sfo.

(** The index that [ensure] refuses. *)
Definition too_small (i : def_table_t) : Prop :=
  (param_fmt i = format_code string /\ param_max i <= 1) \/ (param_fmt i = format_code array /\ param_max i = 0).

(** The indices of a file. *)
Definition file_indices (content : bytes) : list def_table_t :=
  let n := entries_num (header_of (take 20 content)) in
  indices_of (Z.to_nat n) (take (Z.to_nat (16 * n)) (drop 20 content)).

Lemma emplace_ok key e sfo : sfo_ok sfo -> key_ok key -> loaded_ok e -> sfo_ok (emplace key e sfo).
Proof.
  intros [S F] K L. split; [by apply emplace_sorted|]. rewrite Forall_forall in *. intros ke [->|H]%emplace_elem; [done|by apply F].
Qed.

Lemma read_pod_some n s b s' : 0 <= n -> read_pod n s = Some (b, s') ->
  blen b = n /\ obj s' = obj s /\ pos s' = pos s + n /\ b = take (Z.to_nat n) (drop (Z.to_nat (pos s)) (obj s)).
Proof.
  unfold read_pod, read. intros Hn E. destruct (Z.ltb_spec (pos s) (blen (obj s))) as [L|L].
  - destruct (Z.eqb_spec (blen (take (Z.to_nat (Z.min n (blen (obj s) - pos s))) (drop (Z.to_nat (pos s)) (obj s)))) n) as [N|]; [|done].
    injection E as <- <-. split; [done|]. rewrite length_take in N. assert (Z.min n (blen (obj s) - pos s) = n) as -> by lia. done.
  - cbn [length] in E. change (Z.of_nat 0) with 0 in E. destruct (Z.eqb_spec 0 n) as [<-|]; [|done]. injection E as <- <-. repeat split. lia.
Qed.

Lemma read_vec_some n ts s b s' : 0 <= ts * n -> read_vec n ts s = Some (b, s') ->
  blen b = ts * n /\ obj s' = obj s /\ pos s' = pos s + ts * n /\ b = take (Z.to_nat (ts * n)) (drop (Z.to_nat (pos s)) (obj s)).
Proof. unfold read_vec. intros Hn. destruct (_ && _); [done|]. by apply read_pod_some. Qed.

Lemma field_range off n b : Forall (in_uint 8) b -> in_uint (8 * Z.of_nat n) (field off n b).
Proof.
  intros F. unfold field. eapply in_uint_mono; [|apply le_value_range; [by apply Forall_take, Forall_drop|done]].
  rewrite length_take. lia.
Qed.

Lemma indices_of_ok n b : Forall (in_uint 8) b -> Forall def_ok (indices_of n b).
Proof.
  revert b. induction n as [|n IH]; intros b F; cbn [indices_of]; constructor; [|by apply IH, Forall_drop].
  assert (F' : Forall (in_uint 8) (take 16 b)) by (by apply Forall_take).
  unfold def_ok, def_of. cbn [key_off param_fmt param_len param_max data_off].
  repeat split; first [apply (field_range _ _ _ F')|apply (field_range _ 2 _ F')|apply (field_range _ 4 _ F')].
Qed.

(** What a turn of the loop, and the whole loop, may give. *)
Definition turn_ok (P : Prop) (content : bytes) (t : turn) : Prop :=
  match t with
  | Next s sfo => obj s = content /\ sfo_ok sfo
  | Stop (Loaded sfo err) => sfo = [] /\ err <> ok
  | Stop Aborted => P
  end.

Lemma check_ok P content b err k : err <> ok -> (b = true -> turn_ok P content k) -> turn_ok P content (check b err k).
Proof. intros N H. destruct b; [by apply H|]. done. Qed.

Lemma new_string_sound type max v : type <> integer -> 0 <= max < 2 ^ 32 -> blen v <= max -> (type = string -> key_ok v) ->
  match new_string type max v false with Some e => loaded_ok e | None => max <= if is_string type then 1 else 0 end.
Proof.
  intros N M L K. unfold new_string. destruct type; [| |done]; cbn [is_string andb]; destruct (Z.gtb_spec max 1), (Z.gtb_spec max 0);
    try lia; unfold loaded_ok; cbn [m_type m_max_size m_value_integer m_value_string]; repeat split; auto with lia.
Qed.

Lemma load_entry_sound h keys i s sfo :
  Forall (in_uint 8) (obj s) -> def_ok i -> sfo_ok sfo -> turn_ok (too_small i) (obj s) (load_entry h keys i s sfo).
Proof.
  intros F (_ & _ & L & M & _) S. unfold load_entry. cbv zeta.
  apply check_ok; [done|]; intros _. apply check_ok; [done|]; intros _. apply check_ok; [done|]; intros LM%Z.leb_le.
  do 2 (apply check_ok; [done|]; intros _). unfold in_uint in *.
  set (key := cstring _). assert (K : key_ok key) by apply cstring_nonzero. clearbody key.
  set (s1 := seek _ s). change (obj s) with (obj s1) in *. clearbody s1.
  destruct (_ && _ && _) eqn:I.
  - destruct (read_pod 4 s1) as [[b s']|] eqn:R; [|done]. apply read_pod_some in R as (BL & O & _ & ->); [|done].
    split; [done|]. apply emplace_ok; [done..|]. unfold loaded_ok. cbn [m_type new_integer m_value_integer]. split; [done|].
    apply (le_value_range _ 4); [by apply Forall_take, Forall_drop|lia].
  - assert (T : forall type, type <> integer -> param_fmt i = format_code type -> turn_ok (too_small i) (obj s1)
      match read_vec (param_len i) 1 s1 with
      | Some (value, s') =>
          match new_string type (param_max i) (if is_string type then cstring value else value) false with
          | Some e => Next s' (emplace key e sfo)
          | None => Stop Aborted
          end
      | None => Stop (failed corrupt)
      end).
    { intros type N FM. destruct (read_vec (param_len i) 1 s1) as [[b s']|] eqn:R; [|done].
      apply read_vec_some in R as (BL & O & _ & _); [|lia]. pose proof (cstring_length b). pose proof (cstring_nonzero b) as CN.
      set (v := if is_string type then cstring b else b).
      pose proof (new_string_sound type (param_max i) v N) as NS. destruct (new_string _ _ _ _); cbn [turn_ok].
      - split; [done|]. apply emplace_ok; [done..|]. apply NS; [lia|unfold v; destruct (is_string type); lia|].
        intros ->. exact CN.
      - assert (NS' : param_max i <= if is_string type then 1 else 0).
        { apply NS; [lia|unfold v; destruct (is_string type); lia|]. intros ->. exact CN. }
        unfold too_small. rewrite FM. destruct type; [right|left|done]; (split; [done|]); cbn [is_string] in NS'; lia. }
    destruct (Z.eqb_spec (param_fmt i) (format_code string)); [by apply (T string)|].
    destruct (Z.eqb_spec (param_fmt i) (format_code array)); [by apply (T array)|]. done.
Qed.

Lemma load_entries_sound h keys l s sfo :
  Forall (in_uint 8) (obj s) -> Forall def_ok l -> sfo_ok sfo ->
  turn_ok (exists i, i ∈ l /\ too_small i) (obj s) (load_entries h keys l s sfo).
Proof.
  intros F D. revert s sfo F. induction D as [|i l Di D IH]; intros s sfo F S; cbn [load_entries]; [done|].
  pose proof (load_entry_sound h keys i s sfo F Di S) as T. destruct (load_entry h keys i s sfo) as [s' sfo'|[]]; cbn in T; [|done|].
  - destruct T as [O S']. rewrite <- O in F. specialize (IH s' sfo' F S'). rewrite O in IH.
    destruct (load_entries _ _ _ _ _) as [|[]]; cbn in *; try done. destruct IH as (j & J & TS). exists j. rewrite elem_of_cons. auto.
  - exists i. rewrite elem_of_cons. auto.
Qed.

(** What [load] may give for a file. *)
Definition result_ok (file : option bytes) (r : load_result) : Prop :=
  match r with
  | Loaded sfo ok => sfo_ok sfo /\ get_string sfo CATEGORY [] ∈ valid_cats
  | Loaded sfo _ => sfo = []
  | Aborted => exists content i, file = Some content /\ i ∈ file_indices content /\ too_small i
  end.

Lemma failed_ok file err : err <> ok -> result_ok file (failed err).
Proof. by destruct err. Qed.

Lemma check_header_err h size err : check_header h size = Some err -> err <> ok.
Proof. unfold check_header. repeat (destruct (negb _); [by intros [= <-]|]). done. Qed.

Lemma check_category_ok file sfo : sfo_ok sfo -> result_ok file (check_category sfo).
Proof. intros S. unfold check_category. case_bool_decide; done. Qed.

(** C20. Whatever bytes a file has, [load] gives one of three things: a map in
    the order of its keys, whose keys and strings have no zero byte, whose values
    are within their maximal sizes and the width of an integer, and whose
    category is a known one; or an error and an empty map; or the abort of an
    [ensure], and then the file has an index of a string of maximal size at
    most 1 or of an array of maximal size 0. *)
Theorem psf_load_sound (file : option bytes) :
  (forall content, file = Some content -> Forall (in_uint 8) content) -> result_ok file (load file).
Proof.
  intros F. destruct file as [content|]; [|done]. specialize (F content eq_refl). unfold load. cbv zeta.
  change (seek 0 (Stream content 0)) with (Stream content 0).
  destruct (read_pod header_size _) as [[hb s]|] eqn:R1; [|done]. apply read_pod_some in R1 as (_ & O1 & P1 & HB); [|done].
  cbn [obj pos] in O1, P1, HB. destruct (check_header _ _) eqn:CH; [by eapply failed_ok, check_header_err|].
  assert (FH : Forall (in_uint 8) hb) by (subst hb; by apply Forall_take, Forall_drop).
  assert (EN : 0 <= entries_num (header_of hb)) by apply (field_range 16 4 hb FH).
  destruct (read_vec (entries_num _) _ _) as [[ib s2]|] eqn:R2; [|done]. apply read_vec_some in R2 as (_ & O2 & _ & IB); [|unfold def_size; lia].
  destruct (read_vec _ 1 _) as [[keys s3]|] eqn:R3; [|done]. apply read_vec_some in R3 as (_ & O3 & _ & _); [|pose proof (uint_range 32 (off_data_table (header_of hb) - off_key_table (header_of hb))) as U; destruct U; lia].
  assert (O : obj s3 = content) by (rewrite O3; unfold seek; cbn [obj]; congruence).
  assert (II : indices_of (Z.to_nat (entries_num (header_of hb))) ib = file_indices content).
  { unfold file_indices. rewrite IB, O1, P1, HB. done. }
  assert (FI : Forall def_ok (indices_of (Z.to_nat (entries_num (header_of hb))) ib)).
  { apply indices_of_ok. subst ib. rewrite O1. by apply Forall_take, Forall_drop. }
  pose proof (load_entries_sound (header_of hb) keys _ s3 [] (eq_ind_r (Forall (in_uint 8)) F O) FI) as T.
  specialize (T (conj (SSorted_nil _) (Forall_nil_2 _))).
  destruct (load_entries _ _ _ _ _) as [s4 sfo|[sfo err|]]; cbn [turn_ok] in T.
  - apply check_category_ok, T.
  - destruct T as [-> N]. by destruct err.
  - destruct T as (i & I & TS). exists content, i. by rewrite <- II.
Qed.

(** A string entry of maximal size 1. *)
Definition abort_file : bytes :=
  header_bytes (Header psf_magic 0x101 36 40 1) ++ def_bytes (Def 0 (format_code string) 1 1 0) ++ [65; 0; 0; 0] ++ [0; 0].



(** A map with a value of each format: an array, the category and a string that
    is too long, and an integer. *)
Definition example_registry : registry :=
  [([65], Entry array 4 0 [1; 0; 2]); (CATEGORY, Entry string 4 0 [71; 68]); ([84], Entry string 3 0 [72; 73; 74; 75]);
   ([86], Entry integer 4 258 [])].


Lemma psf_load_sound_witness : result_ok (Some abort_file) (load (Some abort_file)).
Proof.
  apply psf_load_sound. intros content [= <-]. apply Forall_lookup_2. intros i x H.
  assert (D : forallb (fun x => (0 <=? x) && (x <? 256)) abort_file = true) by reflexivity.
  rewrite forallb_forall in D. specialize (D x). rewrite andb_true_iff, Z.leb_le, Z.ltb_lt in D.
  apply D. rewrite <- list_elem_of_In. by eapply list_elem_of_lookup_2.
Defined.
